(* ===== verification/_CoqProject ===== *)
-Q . S2P
Prelude.v
Automaton.v
Status.v
ErrorMapper.v
Validation.v
Random.v
Uuid.v
StateMachine.v
MessageBuffer.v
Double.v
Backoff.v
Retry.v
Chain.v
ReconnectLoop.v
Auth.v
Tls.v
ClientOptions.v
Messages.v
Proto.v
Converter.v
Transport.v
Calls.v
Client.v
Callback.v
Subscription.v
Session.v
StreamHandle.v
StreamOwner.v
Program.v
Threads.v
Downstream.v
Receiver.v
SharedHandle.v
Wire.v
Crc.v
Engine.v
Json.v
Config.v
Metrics.v
Worker.v
WorkerCounts.v
WorkerStop.v
RunPlan.v
Report.v
Run.v
RunStop.v
Server.v
Main.v
EngineLife.v
MainRun.v
ExampleApi.v
ExampleLogic.v
ExamplesBasic.v
ExamplesEvents.v
ExamplesQueues.v
ExamplesRequests.v
Examples.v
