(* ===== verification/Prelude.v ===== *)
(** * A verification library for the KubeMQ C++ SDK

    The SDK is a client library for the KubeMQ message broker: it validates
    and builds messages, sends them over gRPC, receives them on background
    threads, and guards all of it with a connection state, authentication,
    TLS, timeouts and error values. The repository also holds the burn-in
    application (burnin/), which loads a broker through the SDK for hours under
    the control of an HTTP interface and reports what it counted, and 59 example
    programs (examples/). This library models every component of the SDK (src/
    and include/kubemq/ of the repository) and of the application, and every
    example, definition by definition and proves what each promises. This file
    opens with the overview and then
    holds the shared prelude: machine integers, strings as the SDK uses them,
    the state monad and its notations.

    ** How the model reads

    A function of the source is a definition of the same name. A pure function
    is a function; one with effects is a computation [M W A] = [W -> A * W] over
    a world [W]. Whatever the SDK calls but does not define is a type class over
    [W]: the random engine ([Random]), [std::pow] ([Libm]), sleeping ([Clock]),
    token providers ([Providers]), connection callbacks ([Callbacks]), files
    ([FileSystem]), the JSON parser ([JsonLibrary]), the generated gRPC stub and
    channel ([Grpc]), gRPC contexts ([Contexts]) and the downstream stream
    ([DownstreamStream]), the JSON values of the application ([JsonValues],
    whose documented laws are [JsonLaws]) and its YAML reader ([YamlLibrary]),
    the clocks and signals of a program ([Process]) and what a stream handle
    answers to it ([Streams]). The theorems hold for every instance; the
    witnesses use concrete ones. [Status] and [StatusOr] are data, with the notations
    [check!], [check?], [let?] and [let/] for the early returns of the source.
    A C++ [int] is a [Z] with its conversions written out. Undefined behaviour
    and std::terminate are outcomes of the model: a signed overflow, a
    floating-point number that fits no [int], an index out of range, a joinable
    thread that is destroyed or assigned to, freed memory that is used; where
    that is not so it is said under "What is not modelled". A component with threads is a step relation (StateMachine, ReconnectLoop) or
    a partial step function whose inputs are the steps of its threads and of
    its environment (Subscription, Session, StreamHandle, Engine, Worker, with
    Automaton; Receiver, SharedHandle, with Threads), so a theorem about its runs
    is one about every interleaving.
    A program that uses the SDK is a tree of actions (Program), run with an
    interpreter of them and reasoned about by weakest preconditions.

    ** Files, bottom up

    - Automaton: runs of a step function, their composition and invariants.
    - Status: error_code.cc, status.cc, types/error.cc. ErrorMapper:
      middleware/error_mapper.cc. Validation: validation.cc.
    - Random, Uuid: uuid.cc. Double, Backoff: types/jitter.cc and the two
      CalculateBackoff, in binary64. Retry: middleware/retry.cc. Chain:
      middleware/chain.cc and the disabled otel.cc.
    - StateMachine: transport/state_machine.cc, connection_state.cc.
      MessageBuffer: transport/message_buffer.cc. ReconnectLoop:
      transport/reconnect.cc.
    - Auth: middleware/auth.cc, credential_provider.cc. Tls: tls_config.cc,
      transport/tls.cc. ClientOptions: client_options.cc.
    - Messages: the message classes, their builders and subscription_option.cc.
      Proto: the messages of proto/kubemq.proto. Converter:
      transport/converter.cc.
    - Transport: transport/grpc_transport.cc, with a log of the stub calls made
      and of what came of them. Calls: the program logic over that log.
    - Client: client.cc, client_impl.h and the unary operations of the other
      client files. Callback: callback_guard.h. Subscription: the subscribe
      operations and their reader threads. Session: a client that is shared
      by threads calling its operations and [Close], by the readers of its
      subscriptions and by its destructor. StreamHandle: the event,
      stored-event and queue-upstream streams. Downstream: the queue receiver
      and settlement. Program: programs over an interface, contracts and
      weakest preconditions; Threads: any number of threads that run them on
      shared state. Receiver and SharedHandle: the operations of Downstream and
      of StreamHandle as programs of atomic accesses, any number of them at once
      on one receiver, or on one stream handle with its reader and the calls its
      callbacks make. Wire: the integers of all of these against the field types
      of kubemq.proto. StreamOwner: a stream handle with one thread that sends,
      closes and destroys it, as the examples have it.
    - Crc, Metrics: burnin/engine/metrics.cc. Engine: the run control of
      burnin/engine/engine.cc as an automaton of overlapping calls. Json:
      JSON values as an interface. Config: burnin/config.
    - Worker: burnin/worker, six files as one automaton whose kind selects what
      they send, call and count; WorkerCounts: what a run sends and counts;
      WorkerStop: how it ends. RunPlan: CreateWorkers and GenerateRunId.
      Report: the report and the endpoints of engine.cc. Run: RunLoop stage by
      stage with the workers it makes; RunStop: how such a run ends. Server:
      burnin/server, the routes and handlers. Main: the settings of
      burnin/main.cc. EngineLife: engine.cc again, Engine and Run as one
      automaton over the life of the engine. MainRun: the process of
      burnin/main.cc from its engine to its return.
    - ExampleApi: the actions the examples take, what they do by the
      definitions of Client, Subscription, StreamHandle and Downstream, the
      objects of the process and the end of main's scope. ExampleLogic: the
      contract of the actions and the proof that the SDK keeps it.
      ExamplesBasic (connection, tls, error_handling, observability,
      management), ExamplesEvents (events, events_store), ExamplesQueues
      (queues, queues_stream) and ExamplesRequests (commands, queries, patterns)
      hold one definition for the [main] of each example, named after its
      directory, and one for each handler of requests; Examples: what they do.

    ** How the components meet

    A client operation tests that the client is open, fills in defaults,
    validates (Validation), draws an identifier (Uuid), converts (Converter)
    and calls the transport, which tests again, sets a deadline, authenticates
    (Auth) and makes one stub call whose outcome is mapped (ErrorMapper). The
    world that logs stub calls is itself an instance of [Grpc], so the very
    definitions of Client run on it, and the contracts are stated on the log:
    Transport proves the gate for its fourteen operations, Calls turns it into
    rules, and Client and Subscription compose them test by test. The transport
    owns the state machine; Client wires the handlers. Readers use Callback for
    user code and the transport to subscribe again. Retry, Chain, MessageBuffer
    and ReconnectLoop are components the client does not use; they are proved
    by themselves.

    A request to the application goes through Server to the engine, whose
    steps it runs from start to end; Config reads its body; RunPlan makes the
    workers of a run from the configuration, each a Worker automaton whose
    sends are operations of Client (as values of ClientOp) with answers as
    inputs; what the workers count are updates of Metrics, and Report turns a
    snapshot of them into the answers of the endpoints. RunPlan proves that
    every such operation passes the tests Client proves it makes. Run composes
    them: its state holds every worker of the plan and the metrics, a step is
    one of RunLoop, of a stop request or of a thread or callback of a worker,
    and what a worker counts is applied to the metrics in the same step.
    EngineLife runs Engine and Run together: a step of the run thread is one of
    both, the stop flag is one variable, and the workers and metrics that one
    run leaves are what the next begins with; MainRun adds [main], the signals
    and the requests to its steps. The control projects onto Engine in every
    run; a run with its workers is one of Run in those that are [orderly], in
    which calls of [StartRun] do not overlap and can make their thread. Others
    are steps of the same automata: they end in a terminated process, or in an
    engine that never starts again. The process ends too when a released
    upstream handle whose stream the broker has ended is deleted, in this run or
    a later one, and when the destructor of a worker throws ([run_ended],
    [life_over]); no step follows then.

    Receiver writes the operations of Downstream as trees of accesses, proves
    that each, run alone, is the operation, and then runs any number of them on
    one shared state. Threads has the rule for such pools: a [discipline] gives
    each call a contract over what its thread knows of the shared state, its
    view; every tree keeps its contract by itself, the accesses keep the views
    of the others and a global invariant, and so every interleaving does
    ([pool_sound]); where a thread that may go on alone always exists, all calls
    can return ([all_can_return]). SharedHandle applies the same rule to the
    stream handles, with the steps of the reader of StreamHandle as those of the
    pool's environment; a call that nobody interrupts is proved to be the steps
    of StreamHandle.

    Session puts the steps of Transport's operations, of the body of [Close] and
    of the readers of Subscription on one client; run without other threads its
    [Close] is the one of Client, and each of its subscriptions is a run of
    Subscription, so what is proved of those holds in it. An example is run on
    the definitions of the SDK themselves, with the log of the stub calls; its
    contract is proved once for the actions (ExampleLogic), so the proof of an
    example is its weakest precondition, computed.

    ** What the theorems show

    - What reaches the broker: client_op_contract, subscribe_contract,
      transport_gate, stream_messages_as_unary, settlement_contract,
      poll_contract, BuildChannelCredentials_never_weaker, auth_paths_agree;
      wire_well_typed, that the integers passed on have the types of their fields.
    - Threads: subscription_delivers_in_order, subscription_ends_by_cancel,
      resubscribe_backoff, stream_no_write_after_close, stream_results_in_order,
      stream_handle_shuts_down, stream_end_terminates, handle_calls_serialized,
      handle_shuts_down, handle_programs_are_steps, handle_close_races, Stop_returns,
      reconnect_attempts_bounded, destructor_terminates_after_success,
      sm_run_is_a_life, sm_closed_is_final, receiver_calls_serialized,
      receiver_programs_are_operations, receiver_lifetime,
      receiver_close_races,
      client_close_is_final, subscriptions_outlive_close.
    - Refinements of a specification: ring_buffer_refines_queue,
      buffer_conserves_order, RetryUnary_schedule, RunChain_nests.
    - Data: queue_message_roundtrip, request_reply_roundtrip,
      ParseChannelListResponse_total, message_builders_contract,
      set_address_accepted, ValidateChannelNoWildcard_exact,
      Status_ToString_code_roundtrip, FromGrpcStatus_faithful,
      GenerateUUID_rfc4122, CalculateBackoff_bounded.
    - Lives: client_lifecycle, settle_after_close, default_channel_unused,
      Drain_stops_at_refusal, zero_initial_delay_undefined.
    - The application: engine_run_control, run_shuts_down and
      http_run_control (its runs), create_workers_contract,
      worker_rate_bounded, worker_counts_exact and worker_stops (its load),
      metrics_exact, run_report_truthful, run_reports_what_was_done and
      Crc32_detects (what it measures), config_json_roundtrip, FromJson_total
      and startup_priorities (its settings), shutdown_run_spec (its end). Its parts
      together: engine_life_contract (every run of its life),
      engine_error_leaves_workers (what an exception leaves), main_run_ends
      (the process), queue_stream_ends_process (how a worker can end it).
    - The examples, in every world: examples_exit (how they end, which a stream
      that the broker has ended may do with std::terminate),
      examples_not_refused (what they ask of the SDK reaches the broker, refused
      only for what the broker brought about, in an order that ends everything
      before the client is closed) and handlers_answer_once (their handlers of requests).

    ** Fuel and bounds

    Five loops carry fuel: [retry_loop] the number of attempts left,
    [drain_loop] and [discard_loop] the number of buffered messages, which each
    iteration decreases, [hex_digits] the number of digits a 64-bit value can
    have, and [wait_for_shutdown] 51 rounds, of which each sleeps 100 ms of the
    5 s after which the loop is left. The theorems about them prove that the result is reached. Everything
    else is structural or a run of steps. The ring buffer is proved for
    capacities up to 2^30, where head + i cannot overflow an [int].

    ** What is not modelled

    The generated protobuf and gRPC code and the libraries (their documented
    behaviour is in the classes above); weak memory: a step is a critical
    section or an atomic operation, and data the source leaves unsynchronised
    (the context pointer of a subscription) is read atomically; exceptions
    thrown by a token provider or a buffer's sender; allocation failure. The
    owner of StreamHandle closes its handle alone, which SharedHandle does not
    ask; there a callback calls [Send], [Close], [Wait] and [IsDone] (a setter
    would lock [callback_mu] twice, which is undefined), one call at a time,
    [on_error] as SafeInvoke calls it calls nothing, and a [Write] returns. Of
    the application: console output;
    the sockets of the server library and its threads, of which MainRun uses
    that [Stop] lets no new request in and that [listen] then returns when the
    requests in progress have; the unsynchronised reads of the run's data by a
    request during a start, and the writes of two starts that overlap, which are
    steps here and a data race there. The run thread may throw where it makes the
    workers, a thread of a worker in its [Start] or its [Stop], or the report;
    an exception in a thread of a worker, where only memory could cause one, is
    not modelled. A conversion to an integer that is undefined in the report is
    an outcome, after which the run goes on as after an exception. What runs
    after the engine's members are freed is not followed. [Stop] of a queue
    stream worker whose receiver a poll keeps busy closes it in the step of its
    first join. The deadline [waittimeseconds + 5] of a receive, a signed overflow in the
    source near the largest [int], is modelled as a wrap. A string that was moved
    from is empty here; the standard leaves its value open, and no code of the
    source reads one but [Build] of a builder used twice. Of the examples: console
    output; a callback runs apart from its main, with which it shares the
    client only, and a result callback returns; what the broker answers on a
    stream, and when the reader of its handle runs, is an input ([Streams]); a
    vector's elements, whose order of destruction C++ leaves open, are destroyed
    last first. Tests, benchmarks and
    build files are users of the library, not part of it. *)

From Stdlib Require Import ZArith Lia Ascii String.
From stdpp Require Export base gmap strings list numbers pretty.
Export Ascii.

Declare Scope kubemq_scope.
Delimit Scope kubemq_scope with kubemq.

(** ** Machine integers

    A w-bit C++ integer is a [Z] in its range; a conversion that can lose
    bits is written with one of the wrap functions. *)

Definition wrap_s (w z : Z) : Z := (z + 2 ^ (w - 1)) `mod` 2 ^ w - 2 ^ (w - 1).
Definition wrap_u (w z : Z) : Z := z `mod` 2 ^ w.

Abbreviation to_int32 := (wrap_s 32).
Abbreviation to_int64 := (wrap_s 64).
Abbreviation to_uint16 := (wrap_u 16).
Abbreviation to_uint32 := (wrap_u 32).
Abbreviation to_uint64 := (wrap_u 64).

Definition in_s (w z : Z) : Prop := (- 2 ^ (w - 1) <= z < 2 ^ (w - 1))%Z.
Definition in_u (w z : Z) : Prop := (0 <= z < 2 ^ w)%Z.

Lemma wrap_s_id w z : (0 < w)%Z -> in_s w z -> wrap_s w z = z.
Proof.
  intros Hw Hz. unfold in_s in Hz. unfold wrap_s.
  assert (2 ^ w = 2 * 2 ^ (w - 1))%Z as E.
  { rewrite <- Z.pow_succ_r by lia. f_equal. lia. }
  rewrite Z.mod_small; lia.
Qed.

Lemma wrap_s_range w z : (0 < w)%Z -> in_s w (wrap_s w z).
Proof.
  intros Hw. unfold in_s, wrap_s.
  assert (2 ^ w = 2 * 2 ^ (w - 1))%Z as E.
  { rewrite <- Z.pow_succ_r by lia. f_equal. lia. }
  assert (0 < 2 ^ (w - 1))%Z by (apply Z.pow_pos_nonneg; lia).
  pose proof (Z.mod_pos_bound (z + 2 ^ (w - 1)) (2 ^ w)). lia.
Qed.

Lemma wrap_u_id w z : in_u w z -> wrap_u w z = z.
Proof. intros Hz. apply Z.mod_small, Hz. Qed.

Lemma wrap_u_range w z : (0 <= w)%Z -> in_u w (wrap_u w z).
Proof. intros Hw. apply Z.mod_pos_bound, Z.pow_pos_nonneg; lia. Qed.

(** Converting an unsigned value to the signed type of its width and back
    loses nothing. *)
Lemma wrap_u_wrap_s w z : (0 < w)%Z -> in_u w z -> wrap_u w (wrap_s w z) = z.
Proof.
  intros Hw Hz. unfold wrap_u, wrap_s.
  rewrite Zminus_mod_idemp_l, Z.add_simpl_r. by apply Z.mod_small.
Qed.

Lemma wrap_s_wrap_u w z : (0 < w)%Z -> in_s w z -> wrap_s w (wrap_u w z) = z.
Proof.
  intros Hw Hz. rewrite <- (wrap_s_id w z) at 2 by done.
  unfold wrap_s, wrap_u. by rewrite Zplus_mod_idemp_l.
Qed.

(** C++ integer division truncates towards zero. *)
Definition div_trunc (a b : Z) : Z := Z.quot a b.

(** ** Strings

    [std::string] is a [string] of bytes; the operations the sources use. *)

Definition str_empty (s : string) : bool :=
  match s with EmptyString => true | String _ _ => false end.

Lemma str_empty_true s : str_empty s = true <-> s = EmptyString.
Proof. destruct s; naive_solver. Qed.

Lemma str_empty_false s : str_empty s = false <-> s <> EmptyString.
Proof. destruct s; naive_solver. Qed.

(** [std::any_of(s.begin(), s.end(), p)]. *)
Fixpoint str_any (p : ascii -> bool) (s : string) : bool :=
  match s with
  | EmptyString => false
  | String c s' => p c || str_any p s'
  end.

(** [s.find(c) != npos]. *)
Definition str_contains (c : ascii) (s : string) : bool := str_any (Ascii.eqb c) s.

(** [s.back()]; undefined in C++ on the empty string. *)
Fixpoint str_back (s : string) : option ascii :=
  match s with
  | EmptyString => None
  | String c EmptyString => Some c
  | String _ s' => str_back s'
  end.

(** [s.rfind(c)]. *)
Fixpoint str_rfind (c : ascii) (s : string) : option nat :=
  match s with
  | EmptyString => None
  | String d s' =>
      match str_rfind c s' with
      | Some i => Some (S i)
      | None => if Ascii.eqb c d then Some 0 else None
      end
  end.

(** [s.substr(0, n)] and [s.substr(n)]. *)
Fixpoint str_take (n : nat) (s : string) : string :=
  match n, s with
  | S n', String c s' => String c (str_take n' s')
  | _, _ => EmptyString
  end.

Fixpoint str_drop (n : nat) (s : string) : string :=
  match n, s with
  | S n', String _ s' => str_drop n' s'
  | _, _ => s
  end.

Lemma str_any_spec p s :
  str_any p s = true <-> exists c, In c (list_ascii_of_string s) /\ p c = true.
Proof.
  induction s as [|c s IH]; cbn.
  - split; [done|]. by intros (c & [] & _).
  - rewrite orb_true_iff, IH. split.
    + intros [H|(d & Hd & Hp)]; eauto.
    + intros (d & [->|Hd] & Hp); eauto.
Qed.

(** stdpp keeps [String.append] folded under [simpl]. *)
Lemma str_app_cons c s t : String c s +:+ t = String c (s +:+ t).
Proof. done. Qed.

Lemma str_app_nil t : "" +:+ t = t.
Proof. done. Qed.

Ltac str_simpl := rewrite ?str_app_cons, ?str_app_nil; cbn.

Lemma str_any_app p s t : str_any p (s +:+ t) = str_any p s || str_any p t.
Proof. induction s as [|c s IH]; str_simpl; [done|]. by rewrite IH, orb_assoc. Qed.

Lemma str_contains_spec c s :
  str_contains c s = true <-> In c (list_ascii_of_string s).
Proof.
  unfold str_contains. rewrite str_any_spec. split.
  - by intros (d & Hd & <-%Ascii.eqb_eq).
  - intros H. exists c. split; [done|]. apply Ascii.eqb_refl.
Qed.

Lemma str_app_length s t :
  String.length (s +:+ t) = String.length s + String.length t.
Proof. induction s; str_simpl; auto. Qed.

Lemma str_app_empty_r s : s +:+ "" = s.
Proof. induction s; str_simpl; congruence. Qed.

Lemma str_app_assoc s t u : s +:+ (t +:+ u) = (s +:+ t) +:+ u.
Proof. induction s; str_simpl; congruence. Qed.

Lemma str_rfind_app_absent c s t :
  str_contains c t = false ->
  str_rfind c (s +:+ String c t) = Some (String.length s).
Proof.
  intros Ht. assert (str_rfind c t = None) as Hn.
  { induction t as [|d t IH]; cbn in *; [done|].
    apply orb_false_iff in Ht as [-> Ht]. by rewrite IH. }
  induction s as [|d s IH]; str_simpl.
  - by rewrite Hn, Ascii.eqb_refl.
  - by rewrite IH.
Qed.

Lemma str_rfind_None c s : str_rfind c s = None -> str_contains c s = false.
Proof.
  induction s as [|d s IH]; cbn; [done|]. destruct (str_rfind c s); [done|].
  destruct (Ascii.eqb c d); [done|]. auto.
Qed.

Lemma str_rfind_Some c s i :
  str_rfind c s = Some i ->
  s = str_take i s +:+ String c (str_drop (S i) s) /\ str_contains c (str_drop (S i) s) = false /\
  i < String.length s.
Proof.
  revert i. induction s as [|d s IH]; intros i H; cbn in H; [done|].
  destruct (str_rfind c s) as [j|] eqn:E.
  - injection H as <-. destruct (IH j eq_refl) as (E1 & E2 & E3).
    change (str_drop (S (S j)) (String d s)) with (str_drop (S j) s).
    cbn [str_take]. rewrite str_app_cons, <- E1. cbn. split; [done|]. split; [done|lia].
  - destruct (Ascii.eqb_spec c d) as [->|]; [|done]. injection H as <-. cbn.
    split; [done|]. split; [by apply str_rfind_None|lia].
Qed.

Lemma str_take_app s t : str_take (String.length s) (s +:+ t) = s.
Proof. induction s; str_simpl; [by destruct t|congruence]. Qed.

Lemma str_drop_app s t : str_drop (String.length s) (s +:+ t) = t.
Proof. induction s; str_simpl; done. Qed.

(** ** Lists *)

(** A measure of a list whose i-th element changes. *)
Lemma sum_list_with_insert {A} (f : A -> nat) l i x y :
  l !! i = Some x -> (sum_list_with f (<[i := y]> l) + f x = sum_list_with f l + f y)%nat.
Proof.
  revert i. induction l as [|z l IH]; intros [|i] Hi; try done; simpl.
  - injection Hi as ->. lia.
  - specialize (IH i Hi). lia.
Qed.

(** ** Stateful computations

    Code with effects is a state-passing function over a world [W]: what the
    broker, the random generators and the user's callbacks keep is inside [W]
    and reached only through the interfaces of the files that follow, so a
    computation that leaves the world unchanged has made no call at all. *)

Definition M (W A : Type) : Type := W -> A * W.

Definition ret {W A} (a : A) : M W A := fun w => (a, w).
Definition bind {W A B} (m : M W A) (k : A -> M W B) : M W B :=
  fun w => let '(a, w') := m w in k a w'.

Notation "'let!' x := m 'in' k" := (bind m (fun x => k))
  (at level 10, x pattern, m at level 100, k at level 200,
   format "'[v' let!  x  :=  m  in  '/' k ']'") : kubemq_scope.

Section monad_laws.
Context {W A B C : Type}.
Implicit Types (m : M W A) (w : W).

Lemma bind_ret_l (a : A) (k : A -> M W B) w : bind (ret a) k w = k a w.
Proof. done. Qed.

Lemma bind_ret_r m w : bind m ret w = m w.
Proof. unfold bind, ret. by destruct (m w). Qed.

Lemma bind_assoc m (k : A -> M W B) (l : B -> M W C) w :
  bind (bind m k) l w = bind m (fun a => bind (k a) l) w.
Proof. unfold bind. by destruct (m w). Qed.

End monad_laws.

(** ** Shared automation *)

Create HintDb kubemq discriminated.
Create Rewrite HintDb kubemq.
#[export] Hint Rewrite @bind_ret_l str_any_app str_take_app str_drop_app : kubemq.

(** Reduce the shared combinators and split the matches they leave. *)
Ltac crush_match :=
  repeat (simplify_eq/=; try case_match); simplify_eq/=; auto.
