(* ===== verification/Automaton.v ===== *)
(** * Runs of an automaton

    A component with threads is a partial step function: an input is a step
    that one of its threads or its environment takes, with what it answers;
    [None] means the step is not possible there.  This file has what the
    components share: runs, their composition and induction. *)

From Stdlib Require Import ZArith Lia.
From S2P Require Import Prelude.

Section automaton.
Context {S I O : Type} (step : S -> I -> option (S * list O)).

(** The inputs in order; the outputs of all steps. *)
Fixpoint run (s : S) (ins : list I) : option (S * list O) :=
  match ins with
  | [] => Some (s, [])
  | i :: ins' =>
      match step s i with
      | None => None
      | Some (s1, out1) =>
          match run s1 ins' with
          | None => None
          | Some (s2, out2) => Some (s2, out1 ++ out2)
          end
      end
  end.

Lemma run_app s ins1 ins2 :
  run s (ins1 ++ ins2) =
    match run s ins1 with
    | None => None
    | Some (s1, o1) =>
        match run s1 ins2 with
        | None => None
        | Some (s2, o2) => Some (s2, o1 ++ o2)
        end
    end.
Proof.
  revert s. induction ins1 as [|i ins1 IH]; intros s; cbn.
  - by destruct (run s ins2) as [[]|].
  - destruct (step s i) as [[s1 o1]|]; [|done]. rewrite IH.
    destruct (run s1 ins1) as [[s2 o2]|]; [|done].
    destruct (run s2 ins2) as [[s3 o3]|]; [|done]. by rewrite app_assoc.
Qed.

(** Induction on runs, a step at the end. *)
Lemma run_ind s0 (P : S -> list I -> list O -> Prop) :
  P s0 [] [] ->
  (forall s ins outs i s' o, run s0 ins = Some (s, outs) -> P s ins outs ->
     step s i = Some (s', o) -> P s' (ins ++ [i]) (outs ++ o)) ->
  forall ins s outs, run s0 ins = Some (s, outs) -> P s ins outs.
Proof.
  intros H0 Hs ins. induction ins as [|i ins IH] using rev_ind; intros s outs Hr.
  - cbn in Hr. by injection Hr as <- <-.
  - rewrite run_app in Hr. destruct (run s0 ins) as [[s1 o1]|] eqn:E; [|done].
    cbn in Hr. destruct (step s1 i) as [[s2 o2]|] eqn:Es; [|done].
    injection Hr as <- <-. rewrite app_nil_r. apply (Hs s1 ins o1 i); auto.
Qed.

(** An invariant of single steps holds in every run. *)
Lemma run_invariant s0 (P : S -> Prop) :
  P s0 -> (forall s i s' o, P s -> step s i = Some (s', o) -> P s') ->
  forall ins s outs, run s0 ins = Some (s, outs) -> P s.
Proof. intros H0 Hs. apply (run_ind s0 (fun s _ _ => P s)); [done|]. eauto. Qed.

End automaton.

(** The possible cases of a step whose function is unfolded in [Hs]. *)
Ltac step_cases Hs := simplify_eq/=; repeat (case_match; simplify_eq/=).
