(* ===== verification/Status.v ===== *)
(** * Error codes, [Status] and [StatusOr]

    Models src/error_code.cc, src/status.cc, include/kubemq/status.h and
    src/internal/types/error.cc: the error-value types every other component
    returns, their accessors and printers, and the constructors the internal
    layers use.  [StatusOr] carries the two control-flow notations the rest of
    the development uses for [if (!s.ok()) return s;]. *)

From Stdlib Require Import ZArith Lia Ascii String.
From S2P Require Import Prelude.

Local Open Scope kubemq_scope.

(** ** Error codes *)

Inductive ErrorCode :=
  | kOk
  | kTransient
  | kTimeout
  | kThrottling
  | kAuthentication
  | kAuthorization
  | kValidation
  | kNotFound
  | kFatal
  | kCancellation
  | kBackpressure.

#[export] Instance ErrorCode_eq_dec : EqDecision ErrorCode.
Proof. solve_decision. Defined.

Definition ErrorCodeToString (code : ErrorCode) : string :=
  match code with
  | kOk => "OK"
  | kTransient => "TRANSIENT"
  | kTimeout => "TIMEOUT"
  | kThrottling => "THROTTLING"
  | kAuthentication => "AUTHENTICATION"
  | kAuthorization => "AUTHORIZATION"
  | kValidation => "VALIDATION"
  | kNotFound => "NOT_FOUND"
  | kFatal => "FATAL"
  | kCancellation => "CANCELLATION"
  | kBackpressure => "BACKPRESSURE"
  end.

Definition IsRetryable (code : ErrorCode) : bool :=
  match code with
  | kTransient | kTimeout | kThrottling => true
  | _ => false
  end.

(** ** [Status] *)

Record Status := mkStatus {
  code_ : ErrorCode;
  message_ : string;
  operation_ : string;
  channel_ : string;
  request_id_ : string
}.

#[export] Instance Status_eq_dec : EqDecision Status.
Proof. solve_decision. Defined.

(** The three constructors: [Status()], [Status(code, message)] and the
    detailed one ([mkStatus] itself). *)
Definition StatusOk : Status := mkStatus kOk "" "" "" "".
Definition StatusMsg (code : ErrorCode) (message : string) : Status :=
  mkStatus code message "" "" "".

Definition status_ok (s : Status) : bool := bool_decide (code_ s = kOk).
Definition is_retryable (s : Status) : bool := IsRetryable (code_ s).

Definition Status_ToString (s : Status) : string :=
  if status_ok s then "OK"
  else
    ErrorCodeToString (code_ s) +:+ ": " +:+ message_ s
    +:+ (if str_empty (operation_ s) then "" else " [op=" +:+ operation_ s +:+ "]")
    +:+ (if str_empty (channel_ s) then "" else " [ch=" +:+ channel_ s +:+ "]")
    +:+ (if str_empty (request_id_ s) then "" else " [req=" +:+ request_id_ s +:+ "]").

Definition kErrClientClosed : Status := StatusMsg kFatal "kubemq: client closed".
Definition kErrNotImplemented : Status := StatusMsg kFatal "kubemq: not implemented".
Definition kErrValidation : Status := StatusMsg kValidation "kubemq: validation failed".

(** ** [StatusOr<T>]

    A [std::variant<T, Status>]: which alternative it holds is what [ok()]
    tests, whatever code the status has. *)

Inductive StatusOr (T : Type) :=
  | SValue (value : T)
  | SError (status : Status).
Arguments SValue {T} _.
Arguments SError {T} _.

Definition statusor_ok {T} (r : StatusOr T) : bool :=
  match r with SValue _ => true | SError _ => false end.

Definition statusor_status {T} (r : StatusOr T) : Status :=
  match r with SValue _ => StatusOk | SError s => s end.

(** [value()]: the value, or the status of the [BadStatusAccess] it throws
    with the exception's [what()] text. *)
Definition BadStatusAccess_what (s : Status) : string :=
  "BadStatusAccess: " +:+ Status_ToString s.

Definition statusor_value {T} (r : StatusOr T) : T + (Status * string) :=
  match r with
  | SValue v => inl v
  | SError s => inr (s, BadStatusAccess_what s)
  end.

(** ** Domain-specific errors *)

Record BufferFullError := mkBufferFullError { buffer_size_ : Z; queued_count_ : Z }.
Record StreamBrokenError := mkStreamBrokenError { unacknowledged_ids_ : list string }.
Record TransportError := mkTransportError { te_operation_ : string; te_cause_ : Status }.
Record HandlerError := mkHandlerError { handler_ : string; he_cause_ : Status }.

Definition BufferFullError_ToString (e : BufferFullError) : string :=
  "buffer full: capacity=" +:+ pretty (buffer_size_ e)
  +:+ " queued=" +:+ pretty (queued_count_ e).

Definition StreamBrokenError_ToString (e : StreamBrokenError) : string :=
  "stream broken: " +:+ pretty (length (unacknowledged_ids_ e))
  +:+ " unacknowledged messages".

Definition TransportError_ToString (e : TransportError) : string :=
  "transport error in " +:+ te_operation_ e +:+ ": " +:+ Status_ToString (te_cause_ e).

Definition HandlerError_ToString (e : HandlerError) : string :=
  "handler error in " +:+ handler_ e +:+ ": " +:+ Status_ToString (he_cause_ e).

(** ** The internal constructors of src/internal/types/error.cc *)

Definition MakeError (code : ErrorCode) (message operation channel request_id : string)
    : Status :=
  mkStatus code message operation channel request_id.

Definition FromServerError (error_message operation channel : string) : Status :=
  if str_empty error_message then StatusOk
  else mkStatus kFatal error_message operation channel "".

Definition ValidationError (message operation channel : string) : Status :=
  mkStatus kValidation message operation channel "".

(** [internal::IsConnectionError(const Status&)]. *)
Definition IsConnectionError_status (status : Status) : bool :=
  if status_ok status then false else bool_decide (code_ status = kTransient).

(** ** Control flow

    [check! s in k] is [if (!s.ok()) return s; k] in a function that returns a
    [Status], [check? s in k] the same in one that returns a [StatusOr], and
    [let? x := m in k] is [auto x_or = m; if (!x_or.ok()) return
    x_or.status(); k]. *)

Definition check_status {W} (m : M W Status) (k : M W Status) : M W Status :=
  let! s := m in if status_ok s then k else ret s.

Definition check_statusor {W A} (m : M W Status) (k : M W (StatusOr A))
    : M W (StatusOr A) :=
  let! s := m in if status_ok s then k else ret (SError s).

Definition bind_statusor {W A B} (m : M W (StatusOr A)) (k : A -> M W (StatusOr B))
    : M W (StatusOr B) :=
  let! r := m in match r with SValue a => k a | SError s => ret (SError s) end.

Definition bind_status {W A} (m : M W (StatusOr A)) (k : A -> M W Status)
    : M W Status :=
  let! r := m in match r with SValue a => k a | SError s => ret s end.

Notation "'check!' s 'in' k" := (check_status s k)
  (at level 10, s at level 100, k at level 200,
   format "'[v' check!  s  in  '/' k ']'") : kubemq_scope.
Notation "'check?' s 'in' k" := (check_statusor s k)
  (at level 10, s at level 100, k at level 200,
   format "'[v' check?  s  in  '/' k ']'") : kubemq_scope.
Notation "'let?' x := m 'in' k" := (bind_statusor m (fun x => k))
  (at level 10, x pattern, m at level 100, k at level 200,
   format "'[v' let?  x  :=  m  in  '/' k ']'") : kubemq_scope.
Notation "'let/' x := m 'in' k" := (bind_status m (fun x => k))
  (at level 10, x pattern, m at level 100, k at level 200,
   format "'[v' let/  x  :=  m  in  '/' k ']'") : kubemq_scope.

(** ** Lemmas *)

Lemma status_ok_spec s : status_ok s = true <-> code_ s = kOk.
Proof. apply bool_decide_eq_true. Qed.

Lemma status_not_ok_spec s : status_ok s = false <-> code_ s <> kOk.
Proof. apply bool_decide_eq_false. Qed.

Lemma StatusOk_ok : status_ok StatusOk = true.
Proof. done. Qed.

Lemma status_not_ok_mk c m o ch r :
  c <> kOk -> status_ok (mkStatus c m o ch r) = false.
Proof. intros H. by apply status_not_ok_spec. Qed.

#[export] Hint Rewrite StatusOk_ok : kubemq.
#[export] Hint Resolve status_not_ok_mk : kubemq.

(** A test that fails leaves the function with its status, in the world the
    test left. *)
Lemma check_status_fail {W} (m k : M W Status) w s w' :
  m w = (s, w') -> status_ok s = false -> check_status m k w = (s, w').
Proof. intros E H. unfold check_status, bind. rewrite E, H. done. Qed.

Lemma check_status_pass {W} (m k : M W Status) w s w' :
  m w = (s, w') -> status_ok s = true -> check_status m k w = k w'.
Proof. intros E H. unfold check_status, bind. by rewrite E, H. Qed.

Lemma check_statusor_fail {W A} (m : M W Status) (k : M W (StatusOr A)) w s w' :
  m w = (s, w') -> status_ok s = false -> check_statusor m k w = (SError s, w').
Proof. intros E H. unfold check_statusor, bind. rewrite E, H. done. Qed.

Lemma check_statusor_pass {W A} (m : M W Status) (k : M W (StatusOr A)) w s w' :
  m w = (s, w') -> status_ok s = true -> check_statusor m k w = k w'.
Proof. intros E H. unfold check_statusor, bind. by rewrite E, H. Qed.

(** ** The printed form determines the code

    [status_code_of] reads the name before the first colon back. *)

Definition all_codes : list ErrorCode :=
  [kOk; kTransient; kTimeout; kThrottling; kAuthentication; kAuthorization;
   kValidation; kNotFound; kFatal; kCancellation; kBackpressure].

Fixpoint str_until (c : ascii) (s : string) : string :=
  match s with
  | EmptyString => EmptyString
  | String d s' => if Ascii.eqb c d then EmptyString else String d (str_until c s')
  end.

Definition status_code_of (s : string) : option ErrorCode :=
  List.find (fun c => String.eqb (ErrorCodeToString c) (str_until ":" s)) all_codes.

Lemma str_until_app c s t :
  str_contains c s = false -> str_until c (s +:+ String c t) = s.
Proof.
  induction s as [|d s IH]; str_simpl; intros H.
  - by rewrite Ascii.eqb_refl.
  - apply orb_false_iff in H as [-> H]. by rewrite IH.
Qed.

Lemma Status_ToString_not_ok s :
  status_ok s = false ->
  exists rest, Status_ToString s = ErrorCodeToString (code_ s) +:+ String ":" (String " " rest).
Proof. intros H. unfold Status_ToString. rewrite H. eauto. Qed.

(** The text [Status::ToString] prints is lossless in the error code: the
    name before its first colon is the name of exactly one code, the status's
    own, whatever the message, operation, channel and request id hold; the
    eleven names are pairwise different, and in particular a failed status
    never prints as a success. *)
Theorem Status_ToString_code_roundtrip (s : Status) :
  status_code_of (Status_ToString s) = Some (code_ s).
Proof.
  destruct (status_ok s) eqn:Hok.
  - unfold Status_ToString. rewrite Hok. apply status_ok_spec in Hok. by rewrite Hok.
  - destruct (Status_ToString_not_ok s Hok) as [rest ->]. unfold status_code_of.
    rewrite str_until_app; destruct (code_ s); done.
Qed.
