(* ===== verification/ErrorMapper.v ===== *)
(** * From gRPC statuses to SDK statuses

    Models src/internal/middleware/error_mapper.cc.  [grpc::StatusCode] and
    [grpc::Status] are gRPC's public types: the enumeration and the pair of a
    code and a message are what the mapper reads of them. *)

From Stdlib Require Import ZArith Lia Ascii String.
From S2P Require Import Prelude Status.

Local Open Scope kubemq_scope.

(** The enumerators of [grpc::StatusCode]; [DO_NOT_USE] is gRPC's reserved -1. *)
Inductive GrpcCode :=
  | OK
  | CANCELLED
  | UNKNOWN
  | INVALID_ARGUMENT
  | DEADLINE_EXCEEDED
  | NOT_FOUND
  | ALREADY_EXISTS
  | PERMISSION_DENIED
  | UNAUTHENTICATED
  | RESOURCE_EXHAUSTED
  | FAILED_PRECONDITION
  | ABORTED
  | OUT_OF_RANGE
  | UNIMPLEMENTED
  | INTERNAL
  | UNAVAILABLE
  | DATA_LOSS
  | DO_NOT_USE.

#[export] Instance GrpcCode_eq_dec : EqDecision GrpcCode.
Proof. solve_decision. Defined.

Record GrpcStatus := mkGrpcStatus {
  error_code : GrpcCode;
  error_message : string
}.

Definition GrpcStatusOk : GrpcStatus := mkGrpcStatus OK "".

Definition grpc_ok (s : GrpcStatus) : bool := bool_decide (error_code s = OK).

Definition MapGrpcCode (code : GrpcCode) : ErrorCode :=
  match code with
  | OK => kOk
  | CANCELLED => kCancellation
  | INVALID_ARGUMENT => kValidation
  | DEADLINE_EXCEEDED => kTimeout
  | NOT_FOUND => kNotFound
  | ALREADY_EXISTS => kValidation
  | PERMISSION_DENIED => kAuthorization
  | RESOURCE_EXHAUSTED => kThrottling
  | FAILED_PRECONDITION => kValidation
  | ABORTED => kTransient
  | OUT_OF_RANGE => kValidation
  | UNIMPLEMENTED => kFatal
  | INTERNAL => kFatal
  | UNAVAILABLE => kTransient
  | DATA_LOSS => kFatal
  | UNAUTHENTICATED => kAuthentication
  | UNKNOWN | DO_NOT_USE => kFatal
  end.

Definition FromGrpcStatus (grpc_status : GrpcStatus)
    (operation channel request_id : string) : Status :=
  if grpc_ok grpc_status then StatusOk
  else
    let code := MapGrpcCode (error_code grpc_status) in
    let message :=
      if str_empty (error_message grpc_status) then "gRPC error"
      else error_message grpc_status in
    mkStatus code message operation channel request_id.

(** [internal::IsConnectionError(const grpc::Status&)]. *)
Definition IsConnectionError_grpc (status : GrpcStatus) : bool :=
  if grpc_ok status then false
  else match error_code status with
       | UNAVAILABLE | ABORTED => true
       | _ => false
       end.

(** ** Lemmas *)

Lemma MapGrpcCode_ok c : MapGrpcCode c = kOk <-> c = OK.
Proof. destruct c; naive_solver. Qed.

Lemma FromGrpcStatus_ok gs op ch rid :
  status_ok (FromGrpcStatus gs op ch rid) = grpc_ok gs.
Proof.
  unfold FromGrpcStatus, grpc_ok, status_ok. destruct gs as [c m]; cbn.
  destruct c; done.
Qed.

#[export] Hint Rewrite FromGrpcStatus_ok : kubemq.

(** The mapper keeps the outcome of an RPC: the SDK status is a success
    exactly when gRPC's is; a failure keeps gRPC's message, or a fixed text
    when gRPC gave none, so it is never empty; it is retryable exactly for
    UNAVAILABLE, ABORTED, DEADLINE_EXCEEDED and RESOURCE_EXHAUSTED; and the two
    connection-error tests of the SDK, on gRPC statuses and on SDK statuses,
    agree through the mapping. *)
Theorem FromGrpcStatus_faithful (gs : GrpcStatus) (op ch rid : string) :
  let s := FromGrpcStatus gs op ch rid in
  (status_ok s = true <-> error_code gs = OK) /\
  (error_code gs <> OK -> message_ s <> "" /\ operation_ s = op /\
     channel_ s = ch /\ request_id_ s = rid /\
     (error_message gs <> "" -> message_ s = error_message gs)) /\
  (is_retryable s = true <->
     error_code gs ∈ [UNAVAILABLE; ABORTED; DEADLINE_EXCEEDED; RESOURCE_EXHAUSTED]) /\
  IsConnectionError_status s = IsConnectionError_grpc gs.
Proof.
  cbn zeta. rewrite FromGrpcStatus_ok. unfold FromGrpcStatus, grpc_ok, is_retryable,
    IsConnectionError_status, IsConnectionError_grpc, grpc_ok.
  destruct gs as [c m]; cbn. rewrite bool_decide_eq_true.
  split; [done|]. case_bool_decide as E; cbn.
  - subst c. rewrite !elem_of_cons, elem_of_nil. naive_solver.
  - rewrite !elem_of_cons, elem_of_nil. split; [|by destruct c; naive_solver].
    destruct m; naive_solver.
Qed.
