(* ===== verification/Validation.v ===== *)
(** * Channel, body and timeout validation

    Models src/validation.cc: the guards every client operation runs before it
    talks to the broker. *)

From Stdlib Require Import ZArith Lia Ascii String.
From S2P Require Import Prelude Status.

Local Open Scope kubemq_scope.

Definition char_tab : ascii := ascii_of_nat 9.
Definition char_lf : ascii := ascii_of_nat 10.
Definition char_cr : ascii := ascii_of_nat 13.

(** The lambda [is_ascii_space]. *)
Definition is_ascii_space (c : ascii) : bool :=
  Ascii.eqb c " " || Ascii.eqb c char_tab || Ascii.eqb c char_lf || Ascii.eqb c char_cr.

Definition back_is_dot (s : string) : bool :=
  match str_back s with Some c => Ascii.eqb c "." | None => false end.

Definition ValidateChannel (channel operation : string) : Status :=
  if str_empty channel then
    mkStatus kValidation "channel is required" operation "" ""
  else if str_any is_ascii_space channel then
    mkStatus kValidation "channel must not contain whitespace" operation channel ""
  else if back_is_dot channel then
    mkStatus kValidation "channel must not end with '.'" operation channel ""
  else StatusOk.

Definition ValidateChannelNoWildcard (channel operation : string) : Status :=
  let s := ValidateChannel channel operation in
  if negb (status_ok s) then s
  else if str_contains "*" channel || str_contains ">" channel then
    mkStatus kValidation "wildcards not allowed for send operations" operation channel ""
  else StatusOk.

Definition ValidateBody (body metadata operation : string) : Status :=
  if str_empty body && str_empty metadata then
    mkStatus kValidation "body or metadata is required" operation "" ""
  else StatusOk.

(** [timeout] is the count of a [std::chrono::milliseconds]. *)
Definition ValidateTimeout (timeout : Z) (operation : string) : Status :=
  if bool_decide (timeout <= 0)%Z then
    mkStatus kValidation "timeout must be > 0" operation "" ""
  else StatusOk.

(** ** What the guards accept *)

Definition valid_channel (c : string) : Prop :=
  c <> "" /\
  (forall a, In a (list_ascii_of_string c) -> is_ascii_space a = false) /\
  str_back c <> Some "."%char.

Definition valid_send_channel (c : string) : Prop :=
  valid_channel c /\
  ~ In "*"%char (list_ascii_of_string c) /\ ~ In ">"%char (list_ascii_of_string c).

Lemma back_is_dot_spec s : back_is_dot s = true <-> str_back s = Some "."%char.
Proof.
  unfold back_is_dot. destruct (str_back s) as [c|]; [|naive_solver].
  rewrite Ascii.eqb_eq. naive_solver.
Qed.

Lemma ValidateChannel_spec c op :
  status_ok (ValidateChannel c op) = true <-> valid_channel c.
Proof.
  unfold ValidateChannel, valid_channel.
  destruct (str_empty c) eqn:E1; [apply str_empty_true in E1; naive_solver|].
  apply str_empty_false in E1.
  destruct (str_any is_ascii_space c) eqn:E2.
  { apply str_any_spec in E2 as (a & Ha & Hs). split; [done|].
    intros (_ & H & _). rewrite H in Hs; done. }
  assert (forall a, In a (list_ascii_of_string c) -> is_ascii_space a = false).
  { intros a Ha. destruct (is_ascii_space a) eqn:Hs; [|done].
    assert (str_any is_ascii_space c = true) by (apply str_any_spec; eauto). congruence. }
  pose proof (back_is_dot_spec c) as Hd.
  destruct (back_is_dot c); split; naive_solver.
Qed.

Lemma ValidateChannelNoWildcard_spec c op :
  status_ok (ValidateChannelNoWildcard c op) = true <-> valid_send_channel c.
Proof.
  unfold ValidateChannelNoWildcard, valid_send_channel.
  pose proof (ValidateChannel_spec c op) as Hc.
  destruct (status_ok (ValidateChannel c op)) eqn:E; cbn; [|naive_solver].
  rewrite <- !str_contains_spec.
  destruct (str_contains "*" c), (str_contains ">" c); cbn; naive_solver.
Qed.

Lemma ValidateBody_spec body md op :
  status_ok (ValidateBody body md op) = true <-> body <> "" \/ md <> "".
Proof. unfold ValidateBody. destruct body, md; cbn; naive_solver. Qed.

Lemma ValidateTimeout_spec t op :
  status_ok (ValidateTimeout t op) = true <-> (0 < t)%Z.
Proof.
  unfold ValidateTimeout. case_bool_decide; cbn; split; try done; lia.
Qed.

(** Every guard fails with a validation error that names the operation. *)
Lemma ValidateChannel_error c op :
  status_ok (ValidateChannel c op) = false ->
  code_ (ValidateChannel c op) = kValidation /\ operation_ (ValidateChannel c op) = op.
Proof. unfold ValidateChannel. repeat case_match; done. Qed.

Lemma ValidateChannelNoWildcard_error c op :
  status_ok (ValidateChannelNoWildcard c op) = false ->
  code_ (ValidateChannelNoWildcard c op) = kValidation /\
  operation_ (ValidateChannelNoWildcard c op) = op.
Proof.
  unfold ValidateChannelNoWildcard. destruct (status_ok (ValidateChannel c op)) eqn:E; cbn.
  - repeat case_match; done.
  - intros _. by apply ValidateChannel_error.
Qed.

(** [ValidateChannelNoWildcard], the guard of every send operation, accepts
    exactly the non-empty channel names with no space, tab, newline or carriage
    return anywhere, no final dot and no wildcard character; every rejection is
    a non-retryable validation error that names the operation, and it accepts
    nothing that the subscribe guard [ValidateChannel] rejects. *)
Theorem ValidateChannelNoWildcard_exact (c op op' : string) :
  (status_ok (ValidateChannelNoWildcard c op) = true <-> valid_send_channel c) /\
  (status_ok (ValidateChannelNoWildcard c op) = false ->
     code_ (ValidateChannelNoWildcard c op) = kValidation /\
     operation_ (ValidateChannelNoWildcard c op) = op /\
     is_retryable (ValidateChannelNoWildcard c op) = false) /\
  (status_ok (ValidateChannelNoWildcard c op) = true ->
     status_ok (ValidateChannel c op') = true).
Proof.
  split; [apply ValidateChannelNoWildcard_spec|split].
  - intros H. destruct (ValidateChannelNoWildcard_error c op H) as [E1 E2].
    unfold is_retryable. by rewrite E1.
  - rewrite ValidateChannelNoWildcard_spec, ValidateChannel_spec. by intros [? _].
Qed.
