(* ===== verification/Random.v ===== *)
(** * Randomness as an interface

    The sources draw from [thread_local std::mt19937_64] engines seeded by
    [std::random_device].  What they rely on is the range of the standard
    distributions, which is what this class states; the engines' state is part
    of the world. *)

From Stdlib Require Import ZArith Lia Ascii String.
From S2P Require Import Prelude.

Class Random (W : Type) := {
  (** [std::uniform_int_distribution<uint64_t>{}(gen)] *)
  next_u64 : M W Z;
  (** [std::uniform_int_distribution<int64_t>{lo, hi}(gen)], for [lo <= hi] *)
  uniform_int : Z -> Z -> M W Z;
  next_u64_range : forall w, in_u 64 (fst (next_u64 w));
  uniform_int_range : forall lo hi w,
    (lo <= hi)%Z -> (lo <= fst (uniform_int lo hi w) <= hi)%Z
}.

(** A concrete engine, a linear congruential one whose state is the last
    output: it shows the laws can hold and runs the examples. *)
Definition lcg_next (x : Z) : Z :=
  ((6364136223846793005 * x + 1442695040888963407) `mod` 2 ^ 64)%Z.

#[export] Program Instance lcg_random : Random Z := {|
  next_u64 := fun x => (lcg_next x, lcg_next x);
  uniform_int := fun lo hi x => (lo + lcg_next x `mod` (hi - lo + 1), lcg_next x)%Z
|}.
Next Obligation. intros w. apply Z.mod_pos_bound. lia. Qed.
Next Obligation.
  intros lo hi w H. cbn. pose proof (Z.mod_pos_bound (lcg_next w) (hi - lo + 1)). lia.
Qed.
