(* ===== verification/Uuid.v ===== *)
(** * Identifier generation

    Models src/uuid.cc: two 64-bit draws, the version and variant bits, and the
    [snprintf] that prints them.  [fmt_x] is the conversion [%0<k>x]. *)

From Stdlib Require Import ZArith Lia Ascii String.
From S2P Require Import Prelude Random.

Local Open Scope Z_scope.
Local Open Scope kubemq_scope.

(** ** Printing *)

Definition hex_char (d : Z) : ascii :=
  if d <? 10 then ascii_of_N (Z.to_N (48 + d)) else ascii_of_N (Z.to_N (87 + d)).

(** The digits of [z], least significant last, no leading zero; [fuel] bounds
    their number and 16 is enough for a 64-bit value. *)
Fixpoint hex_digits (fuel : nat) (z : Z) (acc : string) : string :=
  match fuel with
  | O => acc
  | S f =>
      let acc' := String (hex_char (z `mod` 16)) acc in
      if z <? 16 then acc' else hex_digits f (z / 16) acc'
  end.

Fixpoint str_zeros (n : nat) (s : string) : string :=
  match n with O => s | S n' => String "0" (str_zeros n' s) end.

(** [%0<k>x]: at least [k] characters, padded with zeros. *)
Definition fmt_x (k : nat) (z : Z) : string :=
  let d := hex_digits 16 z "" in str_zeros (k - String.length d) d.

(** ** [GenerateUUID] *)

Definition uuid_version (a : Z) : Z :=
  Z.lor (Z.land a 0xFFFFFFFFFFFF0FFF) 0x0000000000004000.
Definition uuid_variant (b : Z) : Z :=
  Z.lor (Z.land b 0x3FFFFFFFFFFFFFFF) 0x8000000000000000.

(** [snprintf(buf, 37, "%08x-%04x-%04x-%04x-%012llx", ...)]: at most 36
    characters and the terminator. *)
Definition uuid_format (a b : Z) : string :=
  str_take 36
    (fmt_x 8 (to_uint32 (Z.shiftr a 32))
     +:+ "-" +:+ fmt_x 4 (to_uint16 (Z.land (Z.shiftr a 16) 0xFFFF))
     +:+ "-" +:+ fmt_x 4 (to_uint16 (Z.land a 0xFFFF))
     +:+ "-" +:+ fmt_x 4 (to_uint16 (Z.shiftr b 48))
     +:+ "-" +:+ fmt_x 12 (Z.land b 0x0000FFFFFFFFFFFF)).

Definition GenerateUUID {W} `{Random W} : M W string :=
  let! a := next_u64 in
  let! b := next_u64 in
  let a := uuid_version a in
  let b := uuid_variant b in
  ret (uuid_format a b).

(** ** Fixed-width hexadecimal

    For values that fit, [fmt_x k] prints exactly [k] digits. *)

Fixpoint hex_fixed (k : nat) (z : Z) (acc : string) : string :=
  match k with
  | O => acc
  | S k' => hex_fixed k' (z / 16) (String (hex_char (z `mod` 16)) acc)
  end.

Lemma hex_fixed_length k z acc :
  String.length (hex_fixed k z acc) = (k + String.length acc)%nat.
Proof. revert z acc. induction k as [|k IH]; intros z acc; cbn; [done|]. rewrite IH. cbn. lia. Qed.

Lemma str_zeros_cons k acc : str_zeros k (String "0" acc) = String "0" (str_zeros k acc).
Proof. induction k as [|k IH]; cbn; [done|]. by rewrite IH. Qed.

Lemma hex_fixed_zero k acc : hex_fixed k 0 acc = str_zeros k acc.
Proof.
  revert acc. induction k as [|k IH]; intros acc; [done|]. cbn [hex_fixed str_zeros].
  change (0 / 16) with 0. rewrite IH. apply str_zeros_cons.
Qed.

Lemma str_zeros_length n s : String.length (str_zeros n s) = (n + String.length s)%nat.
Proof. induction n; cbn; lia. Qed.

Lemma hex_digits_fixed fuel k z acc :
  (1 <= k <= fuel)%nat -> 0 <= z < 16 ^ Z.of_nat k ->
  exists n, (String.length (hex_digits fuel z acc) + n = k + String.length acc)%nat /\
    hex_fixed k z acc = str_zeros n (hex_digits fuel z acc).
Proof.
  revert k z acc. induction fuel as [|f IH]; intros k z acc Hk Hz; [lia|].
  destruct k as [|k]; [lia|]. cbn [hex_digits hex_fixed].
  destruct (Z.ltb_spec z 16).
  - exists k. rewrite Z.div_small, hex_fixed_zero by lia. cbn. split; [lia|done].
  - destruct k as [|k]; [change (16 ^ Z.of_nat 1) with 16 in Hz; lia|].
    rewrite Nat2Z.inj_succ, Z.pow_succ_r in Hz by lia.
    destruct (IH (S k) (z / 16) (String (hex_char (z `mod` 16)) acc)) as (n & Hn & E).
    + lia.
    + split; [apply Z.div_pos; lia|]. apply Z.div_lt_upper_bound; lia.
    + exists n. rewrite E. cbn in Hn. split; [lia|done].
Qed.

Lemma fmt_x_fixed k z :
  (1 <= k <= 16)%nat -> 0 <= z < 16 ^ Z.of_nat k -> fmt_x k z = hex_fixed k z "".
Proof.
  intros Hk Hz. destruct (hex_digits_fixed 16 k z "" Hk Hz) as (n & Hn & ->).
  unfold fmt_x. f_equal. change (String.length "") with 0%nat in Hn. lia.
Qed.

(** ** Reading the digits back *)

Definition hex_val (c : ascii) : option Z :=
  let n := Z.of_N (N_of_ascii c) in
  if (48 <=? n) && (n <=? 57) then Some (n - 48)
  else if (97 <=? n) && (n <=? 102) then Some (n - 87)
  else None.

Fixpoint hex_read (s : string) (acc : Z) : option Z :=
  match s with
  | EmptyString => Some acc
  | String c s' =>
      match hex_val c with Some d => hex_read s' (16 * acc + d) | None => None end
  end.

Lemma hex_val_char d : 0 <= d < 16 -> hex_val (hex_char d) = Some d.
Proof.
  intros Hd.
  assert (d = 0 \/ d = 1 \/ d = 2 \/ d = 3 \/ d = 4 \/ d = 5 \/ d = 6 \/ d = 7 \/ d = 8
    \/ d = 9 \/ d = 10 \/ d = 11 \/ d = 12 \/ d = 13 \/ d = 14 \/ d = 15) as E by lia.
  repeat (destruct E as [->|E]; [done|]). by subst.
Qed.

Lemma hex_read_fixed k z acc v :
  0 <= z < 16 ^ Z.of_nat k ->
  hex_read (hex_fixed k z acc) v = hex_read acc (16 ^ Z.of_nat k * v + z).
Proof.
  revert z acc v. induction k as [|k IH]; intros z acc v Hz; cbn [hex_fixed].
  - change (16 ^ Z.of_nat 0) with 1 in *. f_equal. lia.
  - rewrite Nat2Z.inj_succ, Z.pow_succ_r in * by lia.
    pose proof (Z.mod_pos_bound z 16 ltac:(lia)).
    rewrite IH.
    + cbn [hex_read]. rewrite hex_val_char by done. f_equal.
      rewrite (Z.div_mod z 16) at 3 by lia. lia.
    + split; [apply Z.div_pos; lia|]. apply Z.div_lt_upper_bound; lia.
Qed.

Lemma hex_fixed_hex k z acc :
  0 <= z ->
  Forall (fun c => is_Some (hex_val c)) (list_ascii_of_string acc) ->
  Forall (fun c => is_Some (hex_val c)) (list_ascii_of_string (hex_fixed k z acc)).
Proof.
  revert z acc. induction k as [|k IH]; intros z acc Hz Ha; [done|]. apply IH.
  - apply Z.div_pos; lia.
  - constructor; [|done]. rewrite hex_val_char; [done|]. by apply Z.mod_pos_bound.
Qed.

(** ** The bits *)

Lemma lor_disjoint x y m : Z.land m y = 0 -> Z.lor (Z.land x m) y = Z.land x m + y.
Proof.
  intros H. assert (Z.land (Z.land x m) y = 0) as E by (by rewrite <- Z.land_assoc, H, Z.land_0_r).
  by rewrite <- (Z.lxor_lor _ _ E), <- (Z.add_nocarry_lxor _ _ E).
Qed.

(** The third group: version nibble 4 above the 12 low bits drawn. *)
Lemma uuid_version_low a : Z.land (uuid_version a) 0xFFFF = a `mod` 2 ^ 12 + 2 ^ 14.
Proof.
  unfold uuid_version. rewrite Z.land_lor_distr_l, <- Z.land_assoc.
  change (Z.land 0xFFFFFFFFFFFF0FFF 0xFFFF) with (Z.ones 12).
  change (Z.land 0x4000 0xFFFF) with (2 ^ 14).
  rewrite lor_disjoint by done. by rewrite Z.land_ones.
Qed.

(** Above them nothing changes. *)
Lemma uuid_version_high a : in_u 64 a -> Z.shiftr (uuid_version a) 16 = a / 2 ^ 16.
Proof.
  intros Ha. unfold uuid_version. rewrite Z.shiftr_lor, Z.shiftr_land.
  change (Z.shiftr 0xFFFFFFFFFFFF0FFF 16) with (Z.ones 48).
  change (Z.shiftr 0x4000 16) with 0.
  rewrite Z.lor_0_r, Z.land_ones, Z.shiftr_div_pow2 by done. apply Z.mod_small.
  unfold in_u in Ha. split; [apply Z.div_pos; lia|].
  apply Z.div_lt_upper_bound; lia.
Qed.

Lemma uuid_version_eq a :
  in_u 64 a -> uuid_version a = a / 2 ^ 16 * 2 ^ 16 + 2 ^ 14 + a `mod` 2 ^ 12.
Proof.
  intros Ha. rewrite (Z.div_mod (uuid_version a) (2 ^ 16)) by lia.
  rewrite <- (Z.shiftr_div_pow2 (uuid_version a)), uuid_version_high by (done || lia).
  rewrite <- (Z.land_ones (uuid_version a) 16) by lia.
  change (Z.ones 16) with 0xFFFF. rewrite uuid_version_low. lia.
Qed.

(** The variant: binary 10 above the 62 low bits drawn. *)
Lemma uuid_variant_eq b : uuid_variant b = 2 ^ 63 + b `mod` 2 ^ 62.
Proof.
  unfold uuid_variant. change 0x3FFFFFFFFFFFFFFF with (Z.ones 62).
  rewrite lor_disjoint by done. rewrite Z.land_ones by lia. lia.
Qed.

Lemma uuid_version_range a : in_u 64 a -> in_u 64 (uuid_version a).
Proof.
  intros Ha. rewrite uuid_version_eq by done. unfold in_u in *.
  pose proof (Z.mod_pos_bound a (2 ^ 12) ltac:(lia)).
  assert (0 <= a / 2 ^ 16 < 2 ^ 48).
  { split; [apply Z.div_pos; lia|]. apply Z.div_lt_upper_bound; lia. }
  lia.
Qed.

Lemma uuid_variant_range b : in_u 64 (uuid_variant b).
Proof.
  rewrite uuid_variant_eq. unfold in_u.
  pose proof (Z.mod_pos_bound b (2 ^ 62) ltac:(lia)). lia.
Qed.

(** ** The five groups *)

Lemma str_take_all n s : (String.length s <= n)%nat -> str_take n s = s.
Proof.
  revert s. induction n as [|n IH]; intros [|c s] H; cbn in *; try done; [lia|].
  rewrite IH; [done|lia].
Qed.

Lemma div_range z n m : 0 <= n -> 0 <= m -> 0 <= z < 2 ^ (n + m) -> 0 <= z / 2 ^ n < 2 ^ m.
Proof.
  intros Hn Hm Hz. split.
  - apply Z.div_pos; [lia|]. apply Z.pow_pos_nonneg; lia.
  - apply Z.div_lt_upper_bound; [apply Z.pow_pos_nonneg; lia|]. rewrite <- Z.pow_add_r; lia.
Qed.

Definition uuid_groups (a b : Z) : string :=
  hex_fixed 8 (a / 2 ^ 32) ""
  +:+ "-" +:+ hex_fixed 4 ((a / 2 ^ 16) `mod` 2 ^ 16) ""
  +:+ "-" +:+ hex_fixed 4 (a `mod` 2 ^ 16) ""
  +:+ "-" +:+ hex_fixed 4 (b / 2 ^ 48) ""
  +:+ "-" +:+ hex_fixed 12 (b `mod` 2 ^ 48) "".

Lemma uuid_format_groups a b :
  in_u 64 a -> in_u 64 b -> uuid_format a b = uuid_groups a b.
Proof.
  unfold in_u. intros Ha Hb. unfold uuid_format, uuid_groups.
  change 0xFFFF with (Z.ones 16). change 0x0000FFFFFFFFFFFF with (Z.ones 48).
  rewrite !Z.land_ones, !Z.shiftr_div_pow2 by lia.
  pose proof (div_range a 32 32 ltac:(lia) ltac:(lia) Ha).
  pose proof (div_range b 48 16 ltac:(lia) ltac:(lia) Hb).
  pose proof (Z.mod_pos_bound (a / 2 ^ 16) (2 ^ 16) ltac:(lia)).
  pose proof (Z.mod_pos_bound a (2 ^ 16) ltac:(lia)).
  pose proof (Z.mod_pos_bound b (2 ^ 48) ltac:(lia)).
  rewrite !wrap_u_id by (unfold in_u; lia).
  rewrite !fmt_x_fixed; [|lia|cbn; lia..].
  apply str_take_all. rewrite !str_app_length, !hex_fixed_length. cbn. lia.
Qed.

(** ** The format the header promises

    src/internal/uuid.h: xxxxxxxx-xxxx-4xxx-yxxx-xxxxxxxxxxxx.  In a template
    [x] stands for a hexadecimal digit, [y] for one of 8, 9, a, b, and any
    other character for itself. *)

Definition template_char (t c : ascii) : bool :=
  if Ascii.eqb t "x" then bool_decide (is_Some (hex_val c))
  else if Ascii.eqb t "y" then
    match hex_val c with Some d => (8 <=? d) && (d <=? 11) | None => false end
  else Ascii.eqb t c.

Fixpoint template_match (t s : string) : bool :=
  match t, s with
  | EmptyString, EmptyString => true
  | String a t', String c s' => template_char a c && template_match t' s'
  | _, _ => false
  end.

Definition uuid_template : string := "xxxxxxxx-xxxx-4xxx-yxxx-xxxxxxxxxxxx".

Lemma template_match_app t s t' s' :
  String.length t = String.length s ->
  template_match (t +:+ t') (s +:+ s') = template_match t s && template_match t' s'.
Proof.
  revert s. induction t as [|a t IH]; intros [|c s] H; try discriminate; str_simpl; [done|].
  rewrite IH by (cbn in H; congruence). by rewrite andb_assoc.
Qed.

Lemma template_char_hex d : 0 <= d < 16 -> template_char "x" (hex_char d) = true.
Proof.
  intros H. unfold template_char. change (Ascii.eqb "x" "x") with true. cbn iota.
  rewrite bool_decide_eq_true, hex_val_char by done. eauto.
Qed.

Lemma template_char_hex_mod z : template_char "x" (hex_char (z `mod` 16)) = true.
Proof. apply template_char_hex, Z.mod_pos_bound. lia. Qed.

#[local] Hint Rewrite template_char_hex_mod : kubemq.

(** Reading the two words back from the text. *)
Definition uuid_read (s : string) : option (Z * Z) :=
  a1 ← hex_read (str_take 8 s) 0;
  a2 ← hex_read (str_take 4 (str_drop 9 s)) 0;
  a3 ← hex_read (str_take 4 (str_drop 14 s)) 0;
  b1 ← hex_read (str_take 4 (str_drop 19 s)) 0;
  b2 ← hex_read (str_take 12 (str_drop 24 s)) 0;
  Some (a1 * 2 ^ 32 + a2 * 2 ^ 16 + a3, b1 * 2 ^ 48 + b2).

Lemma str_drop_drop n m s : str_drop (n + m) s = str_drop m (str_drop n s).
Proof. revert s. induction n as [|n IH]; intros [|c s]; cbn; try done. by destruct m. Qed.

Lemma str_take_group k z rest :
  str_take k (hex_fixed k z "" +:+ rest) = hex_fixed k z "".
Proof.
  assert (k = String.length (hex_fixed k z "")) as E
    by (rewrite hex_fixed_length; cbn; lia).
  rewrite E at 1. apply str_take_app.
Qed.

Lemma str_drop_group k z c rest :
  str_drop (S k) (hex_fixed k z "" +:+ String c rest) = rest.
Proof.
  rewrite <- Nat.add_1_r, str_drop_drop.
  assert (k = String.length (hex_fixed k z "")) as E
    by (rewrite hex_fixed_length; cbn; lia).
  rewrite E at 1. by rewrite str_drop_app.
Qed.

Lemma hex_read_group k z :
  0 <= z < 16 ^ Z.of_nat k -> hex_read (hex_fixed k z "") 0 = Some z.
Proof. intros H. rewrite hex_read_fixed by done. cbn [hex_read]. f_equal. lia. Qed.

Lemma uuid_read_groups a b :
  in_u 64 a -> in_u 64 b -> uuid_read (uuid_groups a b) = Some (a, b).
Proof.
  unfold in_u. intros Ha Hb. unfold uuid_read, uuid_groups.
  pose proof (div_range a 32 32 ltac:(lia) ltac:(lia) Ha).
  pose proof (div_range b 48 16 ltac:(lia) ltac:(lia) Hb).
  pose proof (Z.mod_pos_bound (a / 2 ^ 16) (2 ^ 16) ltac:(lia)).
  pose proof (Z.mod_pos_bound a (2 ^ 16) ltac:(lia)).
  pose proof (Z.mod_pos_bound b (2 ^ 48) ltac:(lia)).
  rewrite !str_app_cons, !str_app_nil.
  change 24%nat with (9 + (5 + (5 + 5)))%nat. change 19%nat with (9 + (5 + 5))%nat.
  change 14%nat with (9 + 5)%nat.
  rewrite !str_drop_drop, !str_drop_group, !str_take_group.
  rewrite str_take_all by (rewrite hex_fixed_length; cbn; lia).
  rewrite !hex_read_group by (cbn; lia). cbn [mbind option_bind]. do 2 f_equal.
  - pose proof (Z.div_mod a (2 ^ 16)). pose proof (Z.div_mod (a / 2 ^ 16) (2 ^ 16)).
    rewrite Z.div_div in * by lia. change (2 ^ 16 * 2 ^ 16) with (2 ^ 32) in *. lia.
  - pose proof (Z.div_mod b (2 ^ 48)). lia.
Qed.

Lemma uuid_groups_template a b :
  (a `mod` 2 ^ 16) / 2 ^ 12 = 4 -> 8 <= b / 2 ^ 60 < 12 -> b < 2 ^ 64 ->
  template_match uuid_template (uuid_groups a b) = true.
Proof.
  intros Hv Hb Hb'. unfold uuid_groups, uuid_template.
  change "xxxxxxxx-xxxx-4xxx-yxxx-xxxxxxxxxxxx"%string with
    ("xxxxxxxx" +:+ "-" +:+ "xxxx" +:+ "-" +:+ "4xxx" +:+ "-" +:+ "yxxx" +:+ "-"
     +:+ "xxxxxxxxxxxx")%string.
  rewrite !template_match_app by (rewrite ?hex_fixed_length; done).
  cbn [hex_fixed template_match]. rewrite !template_char_hex_mod, !andb_true_r.
  rewrite !Z.div_div by lia.
  change (16 * (16 * 16)) with (2 ^ 12). change (2 ^ 48 * 2 ^ 12) with (2 ^ 60). rewrite Hv.
  rewrite (Z.mod_small (b / 2 ^ 60)) by lia. 
  change (template_char "-" "-") with true.
  change (template_char "4" (hex_char (4 `mod` 16))) with true. unfold template_char.
  change (Ascii.eqb "y" "x") with false. change (Ascii.eqb "y" "y") with true. cbn iota.
  rewrite hex_val_char by lia.
  replace (8 <=? b / 2 ^ 60) with true by lia. by replace (b / 2 ^ 60 <=? 11) with true by lia.
Qed.

Section generate.
Context {W : Type} `{Random W}.

Lemma GenerateUUID_groups w :
  exists a b w', in_u 64 a /\ in_u 64 b /\
    next_u64 w = (a, snd (next_u64 w)) /\ next_u64 (snd (next_u64 w)) = (b, w') /\
    GenerateUUID w = (uuid_groups (uuid_version a) (uuid_variant b), w').
Proof.
  pose proof (next_u64_range w) as Ha. pose proof (next_u64_range (snd (next_u64 w))) as Hb.
  unfold GenerateUUID, bind, ret.
  destruct (next_u64 w) as [a w1]; cbn [fst snd] in *.
  destruct (next_u64 w1) as [b w2]; cbn [fst snd] in *.
  exists a, b, w2. rewrite uuid_format_groups by auto using uuid_version_range, uuid_variant_range.
  done.
Qed.

Lemma GenerateUUID_not_empty w : str_empty (fst (GenerateUUID w)) = false.
Proof. destruct (GenerateUUID_groups w) as (a & b & w' & _ & _ & _ & _ & ->). done. Qed.

(** Whatever the engine draws, [GenerateUUID] returns 36 characters of the
    form the header documents (hexadecimal groups of 8, 4, 4, 4 and 12 digits,
    version digit 4, variant digit 8, 9, a or b), and nothing else is lost: the
    two 64-bit words, with only the version nibble and the two variant bits
    overwritten, can be read back, so two identifiers are equal only when
    their 122 random bits are. *)
Theorem GenerateUUID_rfc4122 (w : W) :
  exists a b w', next_u64 w = (a, snd (next_u64 w)) /\
    next_u64 (snd (next_u64 w)) = (b, w') /\ snd (GenerateUUID w) = w' /\
    let s := fst (GenerateUUID w) in
    String.length s = 36%nat /\ template_match uuid_template s = true /\
    uuid_read s = Some (a / 2 ^ 16 * 2 ^ 16 + 4 * 2 ^ 12 + a `mod` 2 ^ 12,
                        2 * 2 ^ 62 + b `mod` 2 ^ 62).
Proof.
  destruct (GenerateUUID_groups w) as (a & b & w' & Ha & Hb & Ea & Eb & E).
  exists a, b, w'. rewrite E. cbn [fst snd].
  do 3 (split; [done|]). split; [|split].
  - unfold uuid_groups. rewrite !str_app_length, !hex_fixed_length. done.
  - apply uuid_groups_template.
    + rewrite <- Z.land_ones by lia. change (Z.ones 16) with 0xFFFF.
      rewrite uuid_version_low. pose proof (Z.mod_pos_bound a (2 ^ 12) ltac:(lia)).
      symmetry. apply (Z.div_unique _ _ _ (a `mod` 2 ^ 12)); lia.
    + rewrite uuid_variant_eq. pose proof (Z.mod_pos_bound b (2 ^ 62) ltac:(lia)).
      split; [apply Z.div_le_lower_bound|apply Z.div_lt_upper_bound]; lia.
    + apply uuid_variant_range.
  - rewrite uuid_read_groups; auto using uuid_version_range, uuid_variant_range.
    rewrite uuid_version_eq, uuid_variant_eq by done. do 2 f_equal; lia.
Qed.

End generate.

Example GenerateUUID_run :
  fst (GenerateUUID 1) = "6c576fac-43fd-407c-8268-86b3864a1b1b"%string.
Proof. vm_compute. reflexivity. Qed.
