(* ===== verification/StateMachine.v ===== *)
(** * The connection state machine

    Models src/internal/transport/state_machine.cc (and
    src/connection_state.cc): [Transition] decides under the lock, with the
    handlers registered at that moment, which callbacks are due, and invokes
    them after the lock is released.  A callback is a handle (a [nat]); an
    empty [std::function] is [None].  The second half gives the machine its
    concurrent semantics: threads decide in any order, also from inside a
    callback, and fire later. *)

From Stdlib Require Import ZArith Lia Ascii String.
From S2P Require Import Prelude.

Local Open Scope kubemq_scope.

(** ** State *)

Inductive ConnectionState := kIdle | kConnecting | kReady | kReconnecting | kClosed.

#[export] Instance ConnectionState_eq_dec : EqDecision ConnectionState.
Proof. solve_decision. Defined.

Definition ConnectionStateToString (s : ConnectionState) : string :=
  match s with
  | kIdle => "IDLE"
  | kConnecting => "CONNECTING"
  | kReady => "READY"
  | kReconnecting => "RECONNECTING"
  | kClosed => "CLOSED"
  end.

(** The five handler members, named by the event they report. *)
Inductive Slot := OnConnected | OnDisconnected | OnReconnecting | OnReconnected | OnClosed.

#[export] Instance Slot_eq_dec : EqDecision Slot.
Proof. solve_decision. Defined.

Record StateMachine := mkStateMachine {
  state_ : ConnectionState;
  reconnecting_ : bool;
  on_connected_ : option nat;
  on_disconnected_ : option nat;
  on_reconnecting_ : option nat;
  on_reconnected_ : option nat;
  on_closed_ : option nat
}.

Definition StateMachine_init (initial : ConnectionState) : StateMachine :=
  mkStateMachine initial false None None None None None.

Definition Current (m : StateMachine) : ConnectionState := state_ m.

(** ** Operations *)

Definition IsValidTransition (from to : ConnectionState) : bool :=
  match from with
  | kIdle => bool_decide (to = kConnecting) || bool_decide (to = kClosed)
  | kConnecting => bool_decide (to = kReady) || bool_decide (to = kClosed)
  | kReady => bool_decide (to = kReconnecting) || bool_decide (to = kClosed)
  | kReconnecting => bool_decide (to = kConnecting) || bool_decide (to = kClosed)
  | kClosed => false
  end.

(** One callback invocation: the event and the handler invoked for it. *)
Definition Call : Type := Slot * nat.

Definition call_of (e : Slot) (h : option nat) : list Call :=
  match h with Some f => [(e, f)] | None => [] end.

Definition set_state (to : ConnectionState) (r : bool) (m : StateMachine) : StateMachine :=
  mkStateMachine to r (on_connected_ m) (on_disconnected_ m) (on_reconnecting_ m)
    (on_reconnected_ m) (on_closed_ m).

(** The critical section of [Transition]: [None] when it returns [false],
    otherwise the callbacks it will fire, in order, and the new state. *)
Definition Transition_locked (to : ConnectionState) (m : StateMachine)
    : option (list Call * StateMachine) :=
  if negb (IsValidTransition (state_ m) to) then None
  else
    let from := state_ m in
    let r := if decide (to = kReconnecting) then true else reconnecting_ m in
    if bool_decide (to = kReady) && bool_decide (from = kConnecting) then
      if r then Some (call_of OnReconnected (on_reconnected_ m), set_state to false m)
      else Some (call_of OnConnected (on_connected_ m), set_state to r m)
    else if decide (to = kReconnecting) then
      match on_disconnected_ m with
      | Some d =>
          Some ((OnDisconnected, d) :: call_of OnReconnecting (on_reconnecting_ m),
                set_state to r m)
      | None => Some (call_of OnReconnecting (on_reconnecting_ m), set_state to r m)
      end
    else if decide (to = kClosed) then
      Some (call_of OnClosed (on_closed_ m), set_state to r m)
    else Some ([], set_state to r m).

(** [SetOn...]: registers, or with [None] clears, a handler. *)
Definition SetHandler (e : Slot) (h : option nat) (m : StateMachine) : StateMachine :=
  let 'mkStateMachine s r c d g k x := m in
  match e with
  | OnConnected => mkStateMachine s r h d g k x
  | OnDisconnected => mkStateMachine s r c h g k x
  | OnReconnecting => mkStateMachine s r c d h k x
  | OnReconnected => mkStateMachine s r c d g h x
  | OnClosed => mkStateMachine s r c d g k h
  end.

Definition handler (e : Slot) (m : StateMachine) : option nat :=
  match e with
  | OnConnected => on_connected_ m
  | OnDisconnected => on_disconnected_ m
  | OnReconnecting => on_reconnecting_ m
  | OnReconnected => on_reconnected_ m
  | OnClosed => on_closed_ m
  end.

(** The whole [Transition], with the callbacks run by the caller's thread. *)
Class Callbacks (W : Type) := fire : Slot -> nat -> M W unit.

Fixpoint fire_all {W} `{Callbacks W} (cs : list Call) : M W unit :=
  match cs with
  | [] => ret tt
  | (e, f) :: cs' => let! _ := fire e f in fire_all cs'
  end.

Definition Transition {W} `{Callbacks W} (to : ConnectionState) (m : StateMachine)
    : M W (bool * StateMachine) :=
  match Transition_locked to m with
  | None => ret (false, m)
  | Some (cs, m') => let! _ := fire_all cs in ret (true, m')
  end.

(** [WaitForState] returns only when its predicate holds; [WaitForStateFor]
    returns its value when the wait ends. *)
Definition WaitForState_returns (target : ConnectionState) (m : StateMachine) : bool :=
  bool_decide (state_ m = target).

(** ** Concurrent semantics

    Each thread has a stack of callbacks it has decided and not yet fired: a
    [Transition] called from inside a callback fires its own before the rest
    of the interrupted ones. *)

Record sm_config := mkConfig { cfg_sm : StateMachine; cfg_pending : list (list Call) }.

Inductive sm_label :=
  | LTransition (tid : nat) (to : ConnectionState) (ok : bool)
  | LSet (e : Slot) (h : option nat)
  | LFire (tid : nat) (c : Call)
  | LWaited (target : ConnectionState).

Inductive sm_step : sm_config -> sm_label -> sm_config -> Prop :=
  | step_transition tid to m m' cs st p :
      p !! tid = Some st ->
      Transition_locked to m = Some (cs, m') ->
      sm_step (mkConfig m p) (LTransition tid to true)
              (mkConfig m' (<[tid := cs ++ st]> p))
  | step_reject tid to m p :
      Transition_locked to m = None ->
      sm_step (mkConfig m p) (LTransition tid to false) (mkConfig m p)
  | step_set e h m p :
      sm_step (mkConfig m p) (LSet e h) (mkConfig (SetHandler e h m) p)
  | step_fire tid c st m p :
      p !! tid = Some (c :: st) ->
      sm_step (mkConfig m p) (LFire tid c) (mkConfig m (<[tid := st]> p))
  | step_waited target m p :
      WaitForState_returns target m = true ->
      sm_step (mkConfig m p) (LWaited target) (mkConfig m p).

Inductive sm_steps : sm_config -> list sm_label -> sm_config -> Prop :=
  | steps_nil c : sm_steps c [] c
  | steps_snoc c l c' a c'' :
      sm_steps c l c' -> sm_step c' a c'' -> sm_steps c (l ++ [a]) c''.

(** The steps as a function, to run schedules. *)
Definition sm_exec_step (c : sm_config) (a : sm_label) : option sm_config :=
  let 'mkConfig m p := c in
  match a with
  | LTransition tid to ok =>
      match Transition_locked to m with
      | Some (cs, m') =>
          st ← p !! tid; if ok then Some (mkConfig m' (<[tid := cs ++ st]> p)) else None
      | None => if ok then None else Some c
      end
  | LSet e h => Some (mkConfig (SetHandler e h m) p)
  | LFire tid d =>
      match p !! tid with
      | Some (d' :: st) => if decide (d = d') then Some (mkConfig m (<[tid := st]> p)) else None
      | _ => None
      end
  | LWaited target => if WaitForState_returns target m then Some c else None
  end.

Definition sm_exec (c : sm_config) (l : list sm_label) : option sm_config :=
  foldl (fun oc a => oc ≫= fun c => sm_exec_step c a) (Some c) l.

(** What a run fired, and the targets of the transitions it accepted. *)
Definition fired (l : list sm_label) : list Call :=
  omap (fun a => match a with LFire _ c => Some c | _ => None end) l.

Definition accepted (l : list sm_label) : list ConnectionState :=
  omap (fun a => match a with LTransition _ to true => Some to | _ => None end) l.

(** ** The contract

    What a connection reports over its life, independent of flags: the events
    due on a path of states.  [seen] tells whether a reconnection cycle is
    open. *)

Fixpoint valid_path (from : ConnectionState) (path : list ConnectionState) : bool :=
  match path with
  | [] => true
  | to :: path' => IsValidTransition from to && valid_path to path'
  end.

Definition due (seen : bool) (to : ConnectionState) : list Slot :=
  match to with
  | kIdle | kConnecting => []
  | kReady => if seen then [OnReconnected] else [OnConnected]
  | kReconnecting => [OnDisconnected; OnReconnecting]
  | kClosed => [OnClosed]
  end.

Definition cycle_open (seen : bool) (to : ConnectionState) : bool :=
  match to with kReconnecting => true | kReady => false | _ => seen end.

Fixpoint due_path (seen : bool) (path : list ConnectionState) : list Slot :=
  match path with
  | [] => []
  | to :: path' => due seen to ++ due_path (cycle_open seen to) path'
  end.

(** A life is [connected]?, then any number of cycles [disconnected
    reconnecting reconnected], the last possibly without its [reconnected],
    then [closed]?. *)
Fixpoint lifecycle (first cycle : bool) (es : list Slot) : bool :=
  match es with
  | [] => true
  | [OnClosed] => true
  | OnConnected :: es' => first && negb cycle && lifecycle false false es'
  | OnDisconnected :: OnReconnecting :: es' => negb cycle && lifecycle false true es'
  | OnReconnected :: es' => cycle && lifecycle false false es'
  | _ => false
  end.

(** ** One transition *)

Definition calls_for (m : StateMachine) (es : list Slot) : list Call :=
  es ≫= fun e => call_of e (handler e m).

Lemma Transition_locked_spec to m :
  Transition_locked to m =
    if IsValidTransition (state_ m) to
    then Some (calls_for m (due (reconnecting_ m) to),
               set_state to (cycle_open (reconnecting_ m) to) m)
    else None.
Proof.
  unfold Transition_locked, calls_for. destruct m as [s r c d g k x]; cbn.
  destruct s, to, r; try reflexivity; cbn; destruct c, d, g, k, x; reflexivity.
Qed.

Lemma Transition_locked_Some to m cs m' :
  Transition_locked to m = Some (cs, m') ->
  IsValidTransition (state_ m) to = true /\
  cs = calls_for m (due (reconnecting_ m) to) /\
  m' = set_state to (cycle_open (reconnecting_ m) to) m.
Proof. rewrite Transition_locked_spec. destruct (IsValidTransition _ _); naive_solver. Qed.

Lemma handler_set_state e to r m : handler e (set_state to r m) = handler e m.
Proof. by destruct e. Qed.

Lemma calls_for_set_state es to r m : calls_for (set_state to r m) es = calls_for m es.
Proof. unfold calls_for. induction es as [|e es IH]; cbn; [done|]. by rewrite IH, handler_set_state. Qed.

Lemma calls_for_app m es es' : calls_for m (es ++ es') = calls_for m es ++ calls_for m es'.
Proof. apply bind_app. Qed.

Lemma state_SetHandler e h m : state_ (SetHandler e h m) = state_ m.
Proof. by destruct m, e. Qed.

Lemma reconnecting_SetHandler e h m : reconnecting_ (SetHandler e h m) = reconnecting_ m.
Proof. by destruct m, e. Qed.

#[export] Hint Rewrite handler_set_state calls_for_set_state state_SetHandler
  reconnecting_SetHandler : kubemq.

(** ** Paths *)

Definition end_state (from : ConnectionState) (path : list ConnectionState)
    : ConnectionState := foldl (fun _ to => to) from path.

Lemma valid_path_app s p q :
  valid_path s (p ++ q) = valid_path s p && valid_path (end_state s p) q.
Proof.
  revert s. induction p as [|a p IH]; intros s; [done|].
  cbn [app valid_path]. by rewrite IH, andb_assoc.
Qed.

Fixpoint seen_after (seen : bool) (path : list ConnectionState) : bool :=
  match path with [] => seen | to :: path' => seen_after (cycle_open seen to) path' end.

Lemma seen_after_snoc b p to : seen_after b (p ++ [to]) = cycle_open (seen_after b p) to.
Proof. revert b. induction p as [|a p IH]; intros b; cbn; auto. Qed.

Lemma due_path_snoc b p to : due_path b (p ++ [to]) = due_path b p ++ due (seen_after b p) to.
Proof.
  revert b. induction p as [|a p IH]; intros b; cbn; [by rewrite app_nil_r|].
  by rewrite IH, app_assoc.
Qed.

(** The life recognised from each state: [seen] is the flag there. *)
Lemma lifecycle_from s seen path :
  valid_path s path = true ->
  match s with
  | kIdle => seen = false -> lifecycle true false (due_path seen path) = true
  | kConnecting => lifecycle (negb seen) seen (due_path seen path) = true
  | kReady => seen = false -> lifecycle false false (due_path seen path) = true
  | kReconnecting => seen = true -> lifecycle false true (due_path seen path) = true
  | kClosed => path = []
  end.
Proof.
  revert s seen. induction path as [|to path IH]; intros s seen H.
  { by destruct s. }
  cbn in H. apply andb_true_iff in H as [Hv Hp].
  specialize (IH _ (cycle_open seen to) Hp).
  destruct s, to; cbn in *; try done; try intros ->; cbn in *; subst; cbn; auto.
  destruct seen; cbn; by apply IH.
Qed.

(** ** Runs *)

Lemma concat_insert {A} (p : list (list A)) (i : nat) (x y : list A) :
  p !! i = Some x -> exists q, concat p ≡ₚ x ++ q /\ concat (<[i := y]> p) ≡ₚ y ++ q.
Proof.
  revert i. induction p as [|z p IH]; intros [|i] H; try discriminate; cbn in *.
  - injection H as ->. by exists (concat p).
  - destruct (IH _ H) as (q & H1 & H2). exists (z ++ q). rewrite H1, H2. split.
    + rewrite !app_assoc. apply Permutation_app_tail, Permutation_app_comm.
    + rewrite !app_assoc. apply Permutation_app_tail, Permutation_app_comm.
Qed.

Lemma perm_middle {A} (a b c q : list A) : a ++ (c ++ b) ++ q ≡ₚ (a ++ b ++ q) ++ c.
Proof.
  rewrite <- !app_assoc. apply Permutation_app_head.
  rewrite Permutation_app_comm, <- app_assoc. done.
Qed.

Lemma sm_exec_step_sound c a c' : sm_exec_step c a = Some c' -> sm_step c a c'.
Proof.
  destruct c as [m p], a as [tid to ok|e h|tid d|t]; cbn.
  - destruct (Transition_locked to m) as [[cs m']|] eqn:E, ok; try done.
    + destruct (p !! tid) eqn:Et; cbn; intros [= <-]. by econstructor.
    + destruct (p !! tid) eqn:Et; cbn; done.
    + intros [= <-]. by constructor.
  - intros [= <-]. constructor.
  - destruct (p !! tid) as [[|d' st]|] eqn:E; try done.
    destruct (decide (d = d')) as [<-|]; [|done]. intros [= <-]. by constructor.
  - destruct (WaitForState_returns t m) eqn:E; [|done]. intros [= <-]. by constructor.
Qed.

Lemma sm_exec_sound c l c' : sm_exec c l = Some c' -> sm_steps c l c'.
Proof.
  revert c'. induction l as [|a l IH] using rev_ind; intros c' H.
  - injection H as <-. constructor.
  - unfold sm_exec in *. rewrite foldl_app in H. cbn in H.
    destruct (foldl _ (Some c) l) as [c1|]; [|done]. cbn in H.
    econstructor; [by apply IH|]. by apply sm_exec_step_sound.
Qed.

Lemma fired_snoc l a : fired (l ++ [a]) = fired l ++ fired [a].
Proof. unfold fired. by rewrite omap_app. Qed.

Lemma accepted_snoc l a : accepted (l ++ [a]) = accepted l ++ accepted [a].
Proof. unfold accepted. by rewrite omap_app. Qed.

#[local] Hint Rewrite fired_snoc accepted_snoc app_nil_r seen_after_snoc due_path_snoc
  valid_path_app andb_true_r : kubemq.

(** The state of a run is determined by the transitions it accepted, whatever
    the interleaving. *)
Lemma steps_path c0 l c :
  sm_steps c0 l c ->
  valid_path (state_ (cfg_sm c0)) (accepted l) = true /\
  state_ (cfg_sm c) = end_state (state_ (cfg_sm c0)) (accepted l) /\
  reconnecting_ (cfg_sm c) = seen_after (reconnecting_ (cfg_sm c0)) (accepted l).
Proof.
  induction 1 as [c|c l c1 a c2 Hs (Hv & Hst & Hr) Hstep]; [done|].
  destruct Hstep as [tid to m m' cs st p Ht Hl|tid to m p Hl|e h m p|tid d st m p Ht|t m p Hw];
    autorewrite with kubemq; cbn; autorewrite with kubemq; auto.
  apply Transition_locked_Some in Hl as (Hok & -> & ->). cbn in *.
  unfold end_state in *. rewrite foldl_app. by rewrite <- Hr, Hv, <- Hst, Hok.
Qed.

(** Every decided call is fired at most once: what was fired, with what is
    still pending, is a sub-multiset of the events due. *)
Lemma calls_for_sub m es : (calls_for m es).*1 ⊆+ es.
Proof.
  induction es as [|e es IH]; [done|]. unfold calls_for in *. cbn.
  destruct (handler e m); cbn; [by constructor|]. etrans; [apply IH|]. by apply submseteq_cons.
Qed.

Lemma concat_replicate_nil {A} n : concat (replicate n ([] : list A)) = [].
Proof. by induction n. Qed.

Lemma steps_fired_sub m0 n l c :
  sm_steps (mkConfig m0 (replicate n [])) l c ->
  (fired l ++ concat (cfg_pending c)).*1 ⊆+ due_path (reconnecting_ m0) (accepted l).
Proof.
  intros H. remember (mkConfig m0 (replicate n [])) as c0 eqn:E0.
  induction H as [c|c l c1 a c2 Hs IH Hstep]; subst.
  { cbn. by rewrite concat_replicate_nil. }
  specialize (IH eq_refl). destruct (steps_path _ _ _ Hs) as (Hv & Hst & Hr).
  destruct Hstep as [tid to m m' cs st p Ht Hl|tid to m p Hl|e h m p|tid d st m p Ht|t m p Hw];
    autorewrite with kubemq; cbn in *; autorewrite with kubemq; try done.
  - apply Transition_locked_Some in Hl as (Hok & -> & ->). rewrite <- Hr.
    edestruct (concat_insert p tid st) as (q & H1 & H2); [done|].
    rewrite H2, perm_middle, <- H1, fmap_app. by apply submseteq_app, calls_for_sub.
  - edestruct (concat_insert p tid (d :: st)) as (q & H1 & H2); [done|].
    rewrite H1 in IH. by rewrite H2, <- app_assoc.
Qed.

(** With the handlers fixed from the start nothing is lost either. *)
Lemma steps_fired_exact m0 n l c :
  sm_steps (mkConfig m0 (replicate n [])) l c ->
  (forall e h, LSet e h ∉ l) ->
  fired l ++ concat (cfg_pending c)
    ≡ₚ calls_for m0 (due_path (reconnecting_ m0) (accepted l)) /\
  (forall e, handler e (cfg_sm c) = handler e m0).
Proof.
  intros H. remember (mkConfig m0 (replicate n [])) as c0 eqn:E0.
  induction H as [c|c l c1 a c2 Hs IH Hstep]; subst; intros Hset.
  { cbn. by rewrite concat_replicate_nil. }
  destruct (IH eq_refl) as (HP & Hh). { intros e h Hin. apply (Hset e h). set_solver. }
  destruct (steps_path _ _ _ Hs) as (Hv & Hst & Hr).
  destruct Hstep as [tid to m m' cs st p Ht Hl|tid to m p Hl|e h m p|tid d st m p Ht|t m p Hw];
    autorewrite with kubemq; cbn in *; autorewrite with kubemq; try done.
  - apply Transition_locked_Some in Hl as (Hok & -> & ->).
    split; [|intros e; by rewrite handler_set_state]. rewrite <- Hr.
    edestruct (concat_insert p tid st) as (q & H1 & H2); [done|].
    rewrite H2, perm_middle, <- H1, calls_for_app, HP. apply Permutation_app_head.
    unfold calls_for. erewrite list_bind_ext; [done| |done]. intros e. by rewrite Hh.
  - destruct (Hset e h). set_solver.
  - split; [|done]. edestruct (concat_insert p tid (d :: st)) as (q & H1 & H2); [done|].
    rewrite H1 in HP. by rewrite H2, <- app_assoc.
Qed.

(** ** Consequences of the life grammar *)

Definition occurrences (e : Slot) (es : list Slot) : nat :=
  length (filter (fun x => x = e) es).

#[export] Instance occurrences_proper e : Proper (Permutation ==> eq) (occurrences e).
Proof. intros es es' H. unfold occurrences. by rewrite H. Qed.

Lemma occurrences_sub e es es' : es ⊆+ es' -> occurrences e es <= occurrences e es'.
Proof.
  intros [k H]%submseteq_Permutation. rewrite H. unfold occurrences. rewrite filter_app, length_app. lia.
Qed.

Lemma lifecycle_once first cycle es :
  lifecycle first cycle es = true ->
  occurrences OnClosed es <= 1 /\ occurrences OnConnected es <= (if first then 1 else 0).
Proof.
  assert (forall n es first cycle, length es <= n -> lifecycle first cycle es = true ->
    occurrences OnClosed es <= 1 /\ occurrences OnConnected es <= (if first then 1 else 0))
    as G; [|eauto].
  clear. unfold occurrences.
  induction n as [|n IH]; intros [|e es] first cycle Hn H; try (cbn; lia).
  { cbn in Hn. lia. }
  destruct e; cbn in H, Hn.
  - apply andb_true_iff in H as [[-> _]%andb_true_iff H].
    apply IH in H as [H1 H2]; [|lia]. rewrite filter_cons_False by done.
    rewrite filter_cons_True by done. cbn. lia.
  - destruct es as [|[] es]; try done. apply andb_true_iff in H as [_ H].
    apply IH in H as [H1 H2]; [|cbn in Hn; lia]. rewrite !filter_cons_False by done.
    destruct first; lia.
  - done.
  - apply andb_true_iff in H as [_ H]. apply IH in H as [H1 H2]; [|lia].
    rewrite !filter_cons_False by done. destruct first; lia.
  - destruct es; [|done]. rewrite filter_cons_True, filter_cons_False by done.
    cbn. destruct first; lia.
Qed.

(** Whatever is pending can be fired. *)
Inductive sm_fires : sm_config -> list Call -> sm_config -> Prop :=
  | fires_nil c : sm_fires c [] c
  | fires_cons c tid d c' ds c'' :
      sm_step c (LFire tid d) c' -> sm_fires c' ds c'' -> sm_fires c (d :: ds) c''.

Lemma pending_drains p m :
  exists p', sm_fires (mkConfig m p) (concat p) (mkConfig m p') /\ concat p' = [].
Proof.
  assert (forall k p m, length (concat p) <= k ->
    exists p', sm_fires (mkConfig m p) (concat p) (mkConfig m p') /\ concat p' = []) as G;
    [|eauto].
  clear. induction k as [|k IH]; intros p m Hk.
  { exists p. destruct (concat p); [|cbn in Hk; lia]. split; [constructor|done]. }
  assert (concat p = [] \/ exists i c st, p !! i = Some (c :: st) /\
    concat p = c :: concat (<[i := st]> p)) as [E|(i & c & st & Hi & E)].
  { clear. induction p as [|[|c st] p [E|(i & c' & st' & Hi & E)]]; cbn; auto.
    - right. by exists (S i), c', st'.
    - right. by exists 0, c, st.
    - right. by exists 0, c, st. }
  - exists p. rewrite E. split; [constructor|done].
  - destruct (IH (<[i := st]> p) m) as (p' & Hf & E').
    { rewrite E in Hk. cbn in Hk. lia. }
    exists p'. rewrite E. split; [|done]. econstructor; [by apply step_fire|done].
Qed.

(** C3: from an idle connection whose handlers are not replaced, in any
    interleaving of any number of threads that call [Transition] (re-entrantly
    too) and fire late: the states taken form a path of the transition table;
    the events due on it form one life, connected, then cycles of
    disconnected, reconnecting, reconnected, then closed, each handler at its
    place; what the threads have fired and still hold is exactly one call of
    the registered handler per event due, nothing lost or doubled; and what is
    pending can always be fired to the end without touching the state. *)
Theorem sm_run_is_a_life m0 n l c :
  state_ m0 = kIdle -> reconnecting_ m0 = false ->
  sm_steps (mkConfig m0 (replicate n [])) l c ->
  (forall e h, LSet e h ∉ l) ->
  valid_path kIdle (accepted l) = true /\
  state_ (cfg_sm c) = end_state kIdle (accepted l) /\
  lifecycle true false (due_path false (accepted l)) = true /\
  fired l ++ concat (cfg_pending c) ≡ₚ calls_for m0 (due_path false (accepted l)) /\
  exists p', sm_fires c (concat (cfg_pending c)) (mkConfig (cfg_sm c) p') /\ concat p' = [].
Proof.
  intros Hs Hr H Hset. destruct (steps_path _ _ _ H) as (Hv & Hst & _). cbn in *.
  destruct (steps_fired_exact _ _ _ _ H Hset) as [HP _]. rewrite Hs, Hr in *.
  repeat split; try done.
  - by apply (lifecycle_from kIdle false).
  - destruct c. apply pending_drains.
Qed.

(** Closing is final and is reported once. However handlers are replaced
    and threads interleave, once a transition to [kClosed] was accepted the
    state stays closed and every [Transition] returns [false]; over the whole
    life the closed and the connected events are fired at most once each. *)
Theorem sm_closed_is_final m0 n l c :
  state_ m0 = kIdle -> reconnecting_ m0 = false ->
  sm_steps (mkConfig m0 (replicate n [])) l c ->
  (kClosed ∈ accepted l ->
     state_ (cfg_sm c) = kClosed /\
     (forall to, Transition_locked to (cfg_sm c) = None) /\
     exists l1, accepted l = l1 ++ [kClosed] /\ kClosed ∉ l1) /\
  occurrences OnClosed (fired l).*1 <= 1 /\ occurrences OnConnected (fired l).*1 <= 1.
Proof.
  intros Hs Hr H. destruct (steps_path _ _ _ H) as (Hv & Hst & _). cbn in *.
  pose proof (steps_fired_sub _ _ _ _ H) as Hsub. rewrite Hs, Hr in *. split.
  - intros (l1 & l2 & E & Hno)%list_elem_of_split_l. rewrite E in *. clear Hsub.
    rewrite valid_path_app in Hv. apply andb_true_iff in Hv as [_ Hv]. cbn in Hv.
    apply andb_true_iff in Hv as [_ Hv]. apply (lifecycle_from kClosed false) in Hv as ->.
    unfold end_state in Hst. rewrite foldl_app in Hst. cbn in Hst.
    split; [done|]. split; [|eauto]. intros to. by rewrite Transition_locked_spec, Hst.
  - apply (lifecycle_from kIdle false) in Hv as Hl; [|done].
    apply lifecycle_once in Hl as [H1 H2]. rewrite fmap_app in Hsub.
    assert ((fired l).*1 ⊆+ due_path false (accepted l)) as Hf.
    { etrans; [|exact Hsub]. apply submseteq_inserts_r. done. }
    apply (occurrences_sub OnClosed) in Hf as Hc. apply (occurrences_sub OnConnected) in Hf. lia.
Qed.

(** A schedule of two threads: thread 1 starts reconnecting while thread 0 has
    not fired its connected callback yet, then closes before firing. *)
Definition demo_machine : StateMachine :=
  mkStateMachine kIdle false (Some 1) (Some 2) (Some 3) (Some 4) (Some 5).

Definition demo_schedule : list sm_label :=
  [LTransition 0 kConnecting true; LTransition 0 kReady true;
   LTransition 1 kReconnecting true; LFire 1 (OnDisconnected, 2);
   LTransition 1 kReady false; LFire 0 (OnConnected, 1);
   LTransition 0 kConnecting true; LTransition 0 kReady true;
   LWaited kReady; LTransition 1 kClosed true; LFire 1 (OnClosed, 5)].

Definition demo_config : sm_config := mkConfig demo_machine (replicate 2 []).

Definition demo_end : sm_config :=
  default demo_config (sm_exec demo_config demo_schedule).

Lemma sm_run_is_a_life_witness :
  state_ (cfg_sm demo_end) = kClosed /\
  cfg_pending demo_end = [[(OnReconnected, 4)]; [(OnReconnecting, 3)]] /\
  fired demo_schedule ++ concat (cfg_pending demo_end)
    ≡ₚ calls_for demo_machine (due_path false (accepted demo_schedule)).
Proof.
  split; [reflexivity|]. split; [reflexivity|].
  apply (sm_run_is_a_life demo_machine 2 demo_schedule demo_end);
    [reflexivity|reflexivity|by apply sm_exec_sound|].
  intros e h Hin. repeat (apply elem_of_cons in Hin as [Hin|Hin]; [discriminate|]).
  by apply elem_of_nil in Hin.
Defined.

Lemma sm_closed_is_final_witness :
  occurrences OnClosed (fired demo_schedule).*1 = 1 /\
  state_ (cfg_sm demo_end) = kClosed.
Proof.
  split; [reflexivity|].
  apply (sm_closed_is_final demo_machine 2 demo_schedule demo_end);
    [reflexivity|reflexivity|by apply sm_exec_sound|].
  do 5 apply list_elem_of_further. apply list_elem_of_here.
Defined.
