(* ===== verification/MessageBuffer.v ===== *)
(** * The ring buffer of the reconnection path

    Models src/internal/transport/message_buffer.cc.  The four [int] members
    and the vector are kept as they are; an operation returns [None] where the
    C++ has undefined behaviour, which here is signed overflow of an [int]
    expression, a zero divisor or an index outside the vector.  The second
    half relates it to the bounded queue it implements.  All operations hold
    the same mutex, so a run is a sequence of whole operations. *)

From Stdlib Require Import ZArith Lia Ascii String.
From S2P Require Import Prelude.

Local Open Scope Z_scope.
Local Open Scope kubemq_scope.

(** ** State and checked [int] arithmetic *)

Record MessageBuffer := mkMessageBuffer {
  buffer_ : list string;
  head_ : Z;
  tail_ : Z;
  count_ : Z;
  capacity_ : Z
}.

Definition int_ok (z : Z) : option Z :=
  if bool_decide (- 2 ^ 31 <= z < 2 ^ 31) then Some z else None.

Definition int_add (a b : Z) : option Z := int_ok (a + b).
Definition int_rem (a b : Z) : option Z :=
  if bool_decide (b = 0) then None else int_ok (Z.rem a b).

(** [(a + b) % capacity_] *)
Definition ring_index (a b cap : Z) : option Z := s ← int_add a b; int_rem s cap.

(** [buffer_[static_cast<size_t>(i)] = x] and the read of the same cell. *)
Definition slot_set (i : Z) (x : string) (l : list string) : option (list string) :=
  if bool_decide (0 <= i < Z.of_nat (length l)) then Some (<[Z.to_nat i := x]> l) else None.
Definition slot_get (i : Z) (l : list string) : option string :=
  if bool_decide (0 <= i) then l !! Z.to_nat i else None.

(** ** Operations *)

Definition MessageBuffer_init (capacity : Z) : MessageBuffer :=
  let cap := if 0 <? capacity then capacity else 1 in
  mkMessageBuffer (replicate (Z.to_nat cap) ""%string) 0 0 0 cap.

Definition Push (message : string) (b : MessageBuffer) : option (Z * MessageBuffer) :=
  let cap := capacity_ b in
  '(evicted, h, n) ←
    (if bool_decide (count_ b = cap) then
       h ← ring_index (head_ b) 1 cap; Some (1, h, count_ b)
     else n ← int_add (count_ b) 1; Some (0, head_ b, n));
  l ← slot_set (tail_ b) message (buffer_ b);
  t ← ring_index (tail_ b) 1 cap;
  Some (evicted, mkMessageBuffer l h t n cap).

Section drain.
Context {W : Type} (sender : string -> M W bool).

(** The [while] loop of [Drain]; [fuel] bounds the iterations. *)
Fixpoint drain_loop (fuel : nat) (drained : Z) (b : MessageBuffer) (w : W)
    : option (Z * MessageBuffer * W) :=
  if 0 <? count_ b then
    match fuel with
    | O => None
    | S f =>
        x ← slot_get (head_ b) (buffer_ b);
        let '(ok, w') := sender x w in
        l ← slot_set (head_ b) "" (buffer_ b);
        h ← ring_index (head_ b) 1 (capacity_ b);
        n ← int_add (count_ b) (-1);
        d ← int_add drained 1;
        let b' := mkMessageBuffer l h (tail_ b) n (capacity_ b) in
        if ok then drain_loop f d b' w' else Some (d, b', w')
    end
  else Some (drained, b, w).

(** One iteration per buffered message. *)
Definition Drain (b : MessageBuffer) (w : W) : option (Z * MessageBuffer * W) :=
  drain_loop (Z.to_nat (count_ b)) 0 b w.

End drain.

(** The [for] loop of [Discard], from [i]. *)
Fixpoint discard_loop (fuel : nat) (i : Z) (b : MessageBuffer) (l : list string)
    : option (list string) :=
  if i <? count_ b then
    match fuel with
    | O => None
    | S f =>
        idx ← ring_index (head_ b) i (capacity_ b);
        l' ← slot_set idx "" l;
        i' ← int_add i 1;
        discard_loop f i' b l'
    end
  else Some l.

Definition Discard (b : MessageBuffer) : option (Z * MessageBuffer) :=
  l ← discard_loop (Z.to_nat (count_ b)) 0 b (buffer_ b);
  Some (count_ b, mkMessageBuffer l 0 0 0 (capacity_ b)).

Definition Size (b : MessageBuffer) : Z := count_ b.
Definition Capacity (b : MessageBuffer) : Z := capacity_ b.
Definition Empty (b : MessageBuffer) : bool := bool_decide (count_ b = 0).

(** ** The contract: a bounded queue that drops its oldest element *)

Definition queue_push (cap : Z) (x : string) (q : list string) : Z * list string :=
  if bool_decide (Z.of_nat (length q) = cap) then (1, tail q ++ [x]) else (0, q ++ [x]).

Section queue_drain.
Context {W : Type} (sender : string -> M W bool).

(** The message for which the sender answers [false] has left the queue. *)
Fixpoint queue_drain (q : list string) : M W (Z * list string) :=
  match q with
  | [] => ret (0, [])
  | x :: q' =>
      let! ok := sender x in
      if (ok : bool) then let! r := queue_drain q' in ret (1 + fst r, snd r)
      else ret (1, q')
  end.

End queue_drain.

Definition queue_discard (q : list string) : Z * list string := (Z.of_nat (length q), []).

(** ** The simulation relation

    [ring_rel b q]: slot [(head_ + i) % capacity_] holds the [i]-th message of
    [q], and the slots outside the window hold the empty string.  The bound on
    the capacity is what keeps [head_ + i] an [int] in [Discard]. *)

Definition cell (l : list string) (h cap i : Z) : option string :=
  l !! Z.to_nat ((h + i) `mod` cap).

Record ring_rel (b : MessageBuffer) (q : list string) : Prop := {
  rr_cap : 0 < capacity_ b <= 2 ^ 30;
  rr_len : Z.of_nat (length (buffer_ b)) = capacity_ b;
  rr_head : 0 <= head_ b < capacity_ b;
  rr_count : count_ b = Z.of_nat (length q);
  rr_fits : count_ b <= capacity_ b;
  rr_tail : tail_ b = (head_ b + count_ b) `mod` capacity_ b;
  rr_cells : forall i, 0 <= i < capacity_ b ->
    cell (buffer_ b) (head_ b) (capacity_ b) i = Some (nth (Z.to_nat i) q ""%string)
}.

#[local] Arguments ring_index : simpl never.
#[local] Arguments int_add : simpl never.
#[local] Arguments slot_set : simpl never.
#[local] Arguments slot_get : simpl never.

Lemma int_ok_Some z : - 2 ^ 31 <= z < 2 ^ 31 -> int_ok z = Some z.
Proof. intros H. unfold int_ok. by rewrite bool_decide_true. Qed.

Lemma ring_index_mod a b cap :
  0 <= a < 2 ^ 30 -> 0 <= b <= 2 ^ 30 -> 0 < cap <= 2 ^ 30 ->
  ring_index a b cap = Some ((a + b) `mod` cap).
Proof.
  intros Ha Hb Hc. unfold ring_index, int_add. rewrite int_ok_Some by lia. cbn.
  unfold int_rem. rewrite bool_decide_false by lia. rewrite Z.rem_mod_nonneg by lia.
  pose proof (Z.mod_pos_bound (a + b) cap). rewrite int_ok_Some; [done|lia].
Qed.

Lemma cell_index_inj h cap i j :
  0 <= i < cap -> 0 <= j < cap -> (h + i) `mod` cap = (h + j) `mod` cap -> i = j.
Proof.
  intros Hi Hj E. pose proof (Z.div_mod (h + i) cap). pose proof (Z.div_mod (h + j) cap).
  assert (cap * ((h + i) / cap - (h + j) / cap) = i - j) by lia.
  assert ((h + i) / cap - (h + j) / cap = 0) by nia. lia.
Qed.

Lemma cell_shift l h cap i k :
  0 < cap -> cell l ((h + k) `mod` cap) cap i = cell l h cap (k + i).
Proof. intros Hc. unfold cell. rewrite Zplus_mod_idemp_l. do 3 f_equal. lia. Qed.

Lemma cell_wrap l h cap : 0 < cap -> cell l h cap cap = cell l h cap 0.
Proof.
  intros Hc. unfold cell. do 2 f_equal. rewrite Z.add_0_r.
  rewrite <- (Z.mod_add h 1 cap) by lia. f_equal. lia.
Qed.

Lemma cell_insert l h cap i j x :
  Z.of_nat (length l) = cap -> 0 <= i < cap -> 0 <= j < cap ->
  cell (<[Z.to_nat ((h + i) `mod` cap) := x]> l) h cap j =
    if decide (j = i) then Some x else cell l h cap j.
Proof.
  intros Hl Hi Hj. unfold cell.
  pose proof (Z.mod_pos_bound (h + i) cap). pose proof (Z.mod_pos_bound (h + j) cap).
  destruct (decide (j = i)) as [->|Hne].
  - apply list_lookup_insert_eq. lia.
  - apply list_lookup_insert_ne. intros E. apply Hne.
    apply (cell_index_inj h cap); [done..|]. lia.
Qed.

Lemma slot_set_Some i x l :
  0 <= i < Z.of_nat (length l) -> slot_set i x l = Some (<[Z.to_nat i := x]> l).
Proof. intros H. unfold slot_set. by rewrite bool_decide_true. Qed.

Lemma MessageBuffer_init_rel capacity :
  capacity <= 2 ^ 30 -> ring_rel (MessageBuffer_init capacity) [].
Proof.
  intros Hc. unfold MessageBuffer_init.
  assert (0 < (if 0 <? capacity then capacity else 1) <= 2 ^ 30) as Hcap
    by (destruct (Z.ltb_spec 0 capacity); lia).
  destruct (if 0 <? capacity then capacity else 1) as [|p|p] eqn:E; [lia| |lia].
  split; cbn [capacity_ buffer_ head_ count_ tail_]; try (cbn; lia).
  - rewrite length_replicate. lia.
  - by rewrite Zmod_0_l.
  - intros i Hi. unfold cell. rewrite Z.add_0_l, Z.mod_small by lia.
    rewrite lookup_replicate_2 by lia. by destruct (Z.to_nat i).
Qed.

(** ** Each operation simulates the queue's *)

Lemma nth_tail_app (q : list string) (x d : string) i :
  (i < length q)%nat -> nth i (tail q ++ [x]) d = if decide (S i = length q) then x else nth (S i) q d.
Proof.
  destruct q as [|y q]; cbn; [lia|]. intros Hi. destruct (decide _) as [[= ->]|Hne].
  - by rewrite nth_middle.
  - apply app_nth1. lia.
Qed.

Lemma Push_refines b q x :
  ring_rel b q ->
  exists b', Push x b = Some (fst (queue_push (capacity_ b) x q), b') /\
    ring_rel b' (snd (queue_push (capacity_ b) x q)) /\ capacity_ b' = capacity_ b.
Proof.
  intros [Hcap Hlen Hhead Hcount Hfits Htail Hcells]. unfold Push, queue_push.
  rewrite <- Hcount. pose proof (Z.mod_pos_bound (head_ b + count_ b) (capacity_ b)).
  assert (slot_set (tail_ b) x (buffer_ b) = Some (<[Z.to_nat (tail_ b) := x]> (buffer_ b))) as ES
    by (apply slot_set_Some; lia).
  assert (ring_index (tail_ b) 1 (capacity_ b) = Some ((tail_ b + 1) `mod` capacity_ b)) as ET
    by (apply ring_index_mod; lia).
  destruct (bool_decide_reflect (count_ b = capacity_ b)) as [Hfull|Hroom].
  - rewrite (ring_index_mod (head_ b)) by lia. cbn. rewrite ES. cbn. rewrite ET. cbn.
    eexists. split; [done|]. split; [|done].
    assert (tail_ b = (head_ b + 0) `mod` capacity_ b) as Ht0.
    { rewrite Htail, Hfull, Z.add_0_r, <- (Z.mod_add (head_ b) 1 (capacity_ b)) by lia.
      f_equal. lia. }
    split; cbn; try done.
    + by rewrite length_insert.
    + apply Z.mod_pos_bound. lia.
    + rewrite length_app. destruct q; cbn in *; lia.
    + rewrite Zplus_mod_idemp_l, Htail, Zplus_mod_idemp_l. f_equal. lia.
    + intros i Hi. rewrite cell_shift, Ht0 by lia. rewrite nth_tail_app by lia.
      destruct (decide (S (Z.to_nat i) = length q)) as [El|Hne].
      * replace (1 + i) with (capacity_ b) by lia. rewrite cell_wrap, cell_insert by lia.
        by rewrite decide_True.
      * rewrite cell_insert, decide_False, Hcells by lia. do 2 f_equal. lia.
  - unfold int_add at 1. rewrite int_ok_Some by lia. cbn. rewrite ES. cbn. rewrite ET. cbn.
    eexists. split; [done|]. split; [|done]. split; cbn; try done.
    + by rewrite length_insert.
    + rewrite length_app. cbn. lia.
    + lia.
    + rewrite Htail, Zplus_mod_idemp_l. f_equal. lia.
    + intros i Hi. rewrite Htail, cell_insert, Hcells by lia.
      destruct (decide (i = count_ b)) as [->|Hne].
      * rewrite Hcount, Nat2Z.id, nth_middle. done.
      * destruct (decide (i < count_ b)).
        -- rewrite app_nth1 by lia. done.
        -- rewrite !nth_overflow; [done| |lia]. rewrite length_app. cbn. lia.
Qed.

Lemma cell_0 l h cap : 0 <= h < cap -> cell l h cap 0 = l !! Z.to_nat h.
Proof. intros Hh. unfold cell. by rewrite Z.add_0_r, Z.mod_small. Qed.

Lemma slot_get_Some i x l : 0 <= i -> l !! Z.to_nat i = Some x -> slot_get i l = Some x.
Proof. intros Hi E. unfold slot_get. by rewrite bool_decide_true. Qed.

(** What one iteration of [Drain] does to the window. *)
Definition ring_pop (b : MessageBuffer) : MessageBuffer :=
  mkMessageBuffer (<[Z.to_nat (head_ b) := ""%string]> (buffer_ b))
    ((head_ b + 1) `mod` capacity_ b) (tail_ b) (count_ b + -1) (capacity_ b).

Lemma ring_pop_rel b x q :
  ring_rel b (x :: q) -> slot_get (head_ b) (buffer_ b) = Some x /\ ring_rel (ring_pop b) q.
Proof.
  intros [Hcap Hlen Hhead Hcount Hfits Htail Hcells]. cbn in Hcount. split.
  - apply slot_get_Some; [lia|]. rewrite <- (cell_0 _ _ (capacity_ b)), Hcells by lia. done.
  - split; cbn; try lia.
    + by rewrite length_insert.
    + apply Z.mod_pos_bound. lia.
    + rewrite Htail, Zplus_mod_idemp_l. f_equal. lia.
    + intros i Hi. rewrite cell_shift by lia.
      assert (head_ b = (head_ b + 0) `mod` capacity_ b) as Hh0
        by (rewrite Z.add_0_r, Z.mod_small by lia; done).
      rewrite Hh0 at 1. destruct (decide (1 + i = capacity_ b)) as [Hi'|Hne].
      * rewrite Hi', cell_wrap, cell_insert, decide_True by lia. rewrite nth_overflow; [done|lia].
      * rewrite cell_insert, decide_False, Hcells by lia.
        replace (Z.to_nat (1 + i)) with (S (Z.to_nat i)) by lia. done.
Qed.

Lemma drain_loop_refines {W} (sender : string -> M W bool) fuel q b d w :
  ring_rel b q -> (length q <= fuel)%nat -> 0 <= d -> d + Z.of_nat (length q) <= 2 ^ 30 ->
  exists b', drain_loop sender fuel d b w
      = Some (d + fst (fst (queue_drain sender q w)), b', snd (queue_drain sender q w)) /\
    ring_rel b' (snd (fst (queue_drain sender q w))) /\ capacity_ b' = capacity_ b.
Proof.
  revert fuel b d w. induction q as [|x q IH]; intros fuel b d w Hb Hf Hd Hle.
  - exists b. destruct (Hb) as [? ? ? Hc]. cbn in Hc.
    destruct fuel; cbn; rewrite Hc; cbn; rewrite Z.add_0_r; done.
  - destruct fuel as [|f]; cbn in Hf, Hle; [lia|]. cbn [drain_loop].
    destruct (ring_pop_rel b x q Hb) as [Hget Hpop].
    destruct Hb as [Hcap Hlen Hhead Hcount Hfits Htail Hcells]. cbn in Hcount.
    replace (0 <? count_ b) with true by lia. rewrite Hget. cbn. unfold bind, ret.
    destruct (sender x w) as [ok w'].
    rewrite slot_set_Some by lia. cbn. rewrite ring_index_mod by lia. cbn.
    unfold int_add. rewrite !int_ok_Some by lia. cbn. fold (ring_pop b).
    destruct ok.
    + destruct (IH f (ring_pop b) (d + 1) w' Hpop ltac:(lia) ltac:(lia) ltac:(lia))
        as (b' & E & Hb' & Hc). exists b'. rewrite E.
      destruct (queue_drain sender q w') as [[n q'] w'']. cbn in *.
      replace (d + (1 + n)) with (d + 1 + n) by lia. done.
    + by exists (ring_pop b).
Qed.

Lemma Drain_refines {W} (sender : string -> M W bool) b q w :
  ring_rel b q ->
  exists b', Drain sender b w
      = Some (fst (fst (queue_drain sender q w)), b', snd (queue_drain sender q w)) /\
    ring_rel b' (snd (fst (queue_drain sender q w))) /\ capacity_ b' = capacity_ b.
Proof.
  intros Hb. unfold Drain. destruct (Hb) as [? ? ? Hc Hf].
  apply (drain_loop_refines sender _ q b 0 w Hb); rewrite ?Hc; lia.
Qed.

Lemma discard_loop_clears b q fuel l i :
  ring_rel b q -> Z.of_nat (length l) = capacity_ b -> 0 <= i ->
  count_ b - i <= Z.of_nat fuel ->
  (forall j, 0 <= j < capacity_ b ->
     cell l (head_ b) (capacity_ b) j = Some (if j <? i then ""%string else nth (Z.to_nat j) q ""%string)) ->
  exists l', discard_loop fuel i b l = Some l' /\ Z.of_nat (length l') = capacity_ b /\
    forall j, 0 <= j < capacity_ b -> cell l' (head_ b) (capacity_ b) j = Some ""%string.
Proof.
  intros Hb. destruct (Hb) as [Hcap Hlen Hhead Hcount Hfits _ _].
  revert l i. induction fuel as [|f IH]; intros l i Hl Hi Hf Hcells; cbn [discard_loop].
  - replace (i <? count_ b) with false by lia. exists l. repeat split; try done.
    intros j Hj. rewrite Hcells by done. destruct (Z.ltb_spec j i); [done|].
    rewrite nth_overflow; [done|lia].
  - destruct (Z.ltb_spec i (count_ b)).
    + rewrite ring_index_mod by lia. cbn.
      pose proof (Z.mod_pos_bound (head_ b + i) (capacity_ b)).
      rewrite slot_set_Some by lia. cbn. unfold int_add. rewrite int_ok_Some by lia. cbn.
      apply IH; [by rewrite length_insert|lia|lia|].
      intros j Hj. rewrite cell_insert by lia. destruct (decide (j = i)) as [->|Hne].
      * by replace (i <? i + 1) with true by lia.
      * rewrite Hcells by done. by replace (j <? i + 1) with (j <? i) by lia.
    + exists l. repeat split; try done.
      intros j Hj. rewrite Hcells by done. destruct (Z.ltb_spec j i); [done|].
      rewrite nth_overflow; [done|lia].
Qed.

Lemma Discard_refines b q :
  ring_rel b q ->
  exists b', Discard b = Some (fst (queue_discard q), b') /\
    ring_rel b' (snd (queue_discard q)) /\ capacity_ b' = capacity_ b.
Proof.
  intros Hb. destruct (Hb) as [Hcap Hlen Hhead Hcount Hfits _ Hcells].
  destruct (discard_loop_clears b q (Z.to_nat (count_ b)) (buffer_ b) 0)
    as (l & E & Hl & Hc); [done..|lia| |].
  { intros j Hj. rewrite Hcells by done. by replace (j <? 0) with false by lia. }
  unfold Discard. rewrite E. cbn. rewrite Hcount. eexists. split; [done|]. split; [|done].
  split; cbn; try lia; [by rewrite Zmod_0_l|]. intros i Hi.
  transitivity (Some ""%string); [|by destruct (Z.to_nat i)].
  rewrite <- (Hc ((i - head_ b) `mod` capacity_ b)) by (apply Z.mod_pos_bound; lia).
  unfold cell. rewrite Zplus_mod_idemp_r. replace (head_ b + (i - head_ b)) with i by lia. done.
Qed.

(** ** Runs

    The mutex makes any concurrent use a sequence of these calls.  [Size],
    [Empty] and [Capacity] are read between them. *)

Inductive buf_op (W : Type) :=
  | OpPush (message : string)
  | OpDrain (sender : string -> M W bool)
  | OpDiscard.
Arguments OpPush {W} _.
Arguments OpDrain {W} _.
Arguments OpDiscard {W}.

Definition buf_step {W} (o : buf_op W) (b : MessageBuffer) (w : W)
    : option (Z * MessageBuffer * W) :=
  match o with
  | OpPush x => '(n, b') ← Push x b; Some (n, b', w)
  | OpDrain sender => Drain sender b w
  | OpDiscard => '(n, b') ← Discard b; Some (n, b', w)
  end.

Fixpoint buf_run {W} (os : list (buf_op W)) (b : MessageBuffer) (w : W)
    : option (list Z * MessageBuffer * W) :=
  match os with
  | [] => Some ([], b, w)
  | o :: os' =>
      '(n, b1, w1) ← buf_step o b w;
      '(ns, b2, w2) ← buf_run os' b1 w1;
      Some (n :: ns, b2, w2)
  end.

Definition queue_step {W} (cap : Z) (o : buf_op W) (q : list string) : M W (Z * list string) :=
  match o with
  | OpPush x => ret (queue_push cap x q)
  | OpDrain sender => queue_drain sender q
  | OpDiscard => ret (queue_discard q)
  end.

Fixpoint queue_run {W} (cap : Z) (os : list (buf_op W)) (q : list string)
    : M W (list Z * list string) :=
  match os with
  | [] => ret ([], q)
  | o :: os' =>
      let! r := queue_step cap o q in
      let! rs := queue_run cap os' (snd r) in
      ret (fst r :: fst rs, snd rs)
  end.

(** The buffered messages, oldest first, read off the ring. *)
Definition contents (b : MessageBuffer) : list string :=
  (fun i => default ""%string (cell (buffer_ b) (head_ b) (capacity_ b) (Z.of_nat i)))
    <$> seq 0 (Z.to_nat (count_ b)).

Lemma contents_rel b q : ring_rel b q -> contents b = q.
Proof.
  intros [Hcap _ _ Hcount Hfits _ Hcells]. apply list_eq. intros i.
  unfold contents. rewrite Hcount, Nat2Z.id, list_lookup_fmap.
  destruct (decide (i < length q)%nat) as [Hi|Hi].
  - rewrite lookup_seq_lt by done. cbn. rewrite Hcells by lia. rewrite Nat2Z.id. cbn.
    destruct (lookup_lt_is_Some_2 q i Hi) as [x E]. by rewrite nth_lookup, E.
  - rewrite lookup_seq_ge by lia. symmetry. apply lookup_ge_None. lia.
Qed.

Lemma buf_step_refines {W} (o : buf_op W) b q w :
  ring_rel b q ->
  exists b', buf_step o b w
      = Some (fst (fst (queue_step (capacity_ b) o q w)), b', snd (queue_step (capacity_ b) o q w)) /\
    ring_rel b' (snd (fst (queue_step (capacity_ b) o q w))) /\ capacity_ b' = capacity_ b.
Proof.
  intros Hb. destruct o as [x|sender|]; cbn [buf_step queue_step].
  - destruct (Push_refines b q x Hb) as (b' & -> & H). by exists b'.
  - by apply Drain_refines.
  - destruct (Discard_refines b q Hb) as (b' & -> & H). by exists b'.
Qed.

Lemma buf_run_refines {W} (os : list (buf_op W)) b q w :
  ring_rel b q ->
  exists b', buf_run os b w
      = Some (fst (fst (queue_run (capacity_ b) os q w)), b', snd (queue_run (capacity_ b) os q w)) /\
    ring_rel b' (snd (fst (queue_run (capacity_ b) os q w))) /\ capacity_ b' = capacity_ b.
Proof.
  revert b q w. induction os as [|o os IH]; intros b q w Hb; cbn [buf_run queue_run].
  - by exists b.
  - destruct (buf_step_refines o b q w Hb) as (b1 & -> & H1 & Hc1). unfold bind, ret.
    destruct (queue_step (capacity_ b) o q w) as [[n q1] w1]. cbn in *.
    destruct (IH b1 q1 w1 H1) as (b2 & -> & H2 & Hc2). rewrite Hc1 in *.
    destruct (queue_run (capacity_ b) os q1 w1) as [[ns q2] w2]. cbn in *.
    by exists b2.
Qed.

(** ** What leaves the queue, leaves it in order *)

Definition pushed {W} (os : list (buf_op W)) : list string :=
  omap (fun o => match o with OpPush x => Some x | _ => None end) os.

(** [sender] called on each message in turn. *)
Fixpoint send_all {W} (sender : string -> M W bool) (xs : list string) : M W (list bool) :=
  match xs with
  | [] => ret []
  | x :: xs' => let! ok := sender x in let! oks := send_all sender xs' in ret (ok :: oks)
  end.

Lemma queue_drain_prefix {W} (sender : string -> M W bool) q w :
  exists n oks, queue_drain sender q w = ((Z.of_nat n, drop n q), snd (send_all sender (take n q) w)) /\
    fst (send_all sender (take n q) w) = oks /\ (n <= length q)%nat /\
    ((n = length q /\ Forall (eq true) oks) \/
     exists m, n = S m /\ oks = replicate m true ++ [false]).
Proof.
  revert w. induction q as [|x q IH]; intros w.
  - exists 0%nat, []. repeat split; auto.
  - cbn [queue_drain]. unfold bind, ret. destruct (sender x w) as [[] w1] eqn:Es.
    + destruct (IH w1) as (n & oks & -> & Hoks & Hn & Hend).
      exists (S n), (true :: oks). cbn. unfold bind, ret. rewrite Es.
      destruct (send_all sender (take n q) w1) as [oks' w2]. cbn in *. subst oks'.
      split; [f_equal; f_equal; lia|]. split; [done|]. split; [lia|].
      destruct Hend as [[-> Hall]|(m & -> & ->)]; [left; auto|right; by exists (S m)].
    + exists 1%nat, [false]. cbn. unfold bind, ret. rewrite Es, take_0, drop_0. cbn.
      repeat split; [lia|]. right. by exists 0%nat.
Qed.

Lemma queue_step_leaves {W} cap (o : buf_op W) q w :
  0 < cap -> let '(n, q') := fst (queue_step cap o q w) in
  exists left, q ++ pushed [o] = left ++ q' /\ n = Z.of_nat (length left).
Proof.
  intros Hc. destruct o as [x|sender|]; cbn [queue_step ret fst].
  - unfold queue_push. destruct (bool_decide_reflect (Z.of_nat (length q) = cap)) as [E|E].
    + destruct q as [|y q]; cbn in E; [lia|]. by exists [y].
    + by exists [].
  - destruct (queue_drain_prefix sender q w) as (n & oks & -> & _ & Hn & _). cbn.
    exists (take n q). rewrite app_nil_r, take_drop, length_take. split; [done|lia].
  - exists q. cbn. by rewrite !app_nil_r.
Qed.

Lemma queue_run_leaves {W} cap (os : list (buf_op W)) q w :
  0 < cap -> let '(ns, q') := fst (queue_run cap os q w) in
  exists left, q ++ pushed os = left ++ q' /\ foldr Z.add 0 ns = Z.of_nat (length left).
Proof.
  intros Hc. revert q w. induction os as [|o os IH]; intros q w; cbn [queue_run].
  - exists []. by rewrite app_nil_r.
  - unfold bind, ret. pose proof (queue_step_leaves cap o q w Hc) as Hs.
    destruct (queue_step cap o q w) as [[n q1] w1]. cbn in Hs. destruct Hs as (l1 & E1 & ->).
    specialize (IH q1 w1). cbn. destruct (queue_run cap os q1 w1) as [[ns q2] w2]. cbn in *.
    destruct IH as (l2 & E2 & ->). exists (l1 ++ l2). rewrite length_app, <- app_assoc, <- E2.
    split; [|lia]. rewrite app_assoc, <- E1, <- app_assoc. f_equal.
    unfold pushed. cbn. by destruct o.
Qed.

(** ** Properties *)

Definition effective_capacity (capacity : Z) : Z := if 0 <? capacity then capacity else 1.

Lemma effective_capacity_pos capacity : 0 < effective_capacity capacity.
Proof. unfold effective_capacity. destruct (Z.ltb_spec 0 capacity); lia. Qed.

(** C11: for a capacity of at most 2^30 the ring buffer is a bounded queue that
    drops its oldest element when full: every sequence of [Push], [Drain] with
    any effectful sender and [Discard] runs without overflow of an [int], zero
    division or index out of range, returns call by call the numbers the queue
    returns, leaves the world as the queue leaves it, and keeps exactly the
    queue's messages in order; the slots outside the window keep no message. *)
Theorem ring_buffer_refines_queue {W} (os : list (buf_op W)) capacity (w : W) :
  capacity <= 2 ^ 30 ->
  exists ns b w', buf_run os (MessageBuffer_init capacity) w = Some (ns, b, w') /\
    queue_run (effective_capacity capacity) os [] w = ((ns, contents b), w') /\
    ring_rel b (contents b) /\ Capacity b = effective_capacity capacity /\
    Size b = Z.of_nat (length (contents b)).
Proof.
  intros Hc. pose proof (MessageBuffer_init_rel capacity Hc) as H0.
  destruct (buf_run_refines os _ _ w H0) as (b & E & Hb & Hcap).
  change (capacity_ (MessageBuffer_init capacity)) with (effective_capacity capacity) in *.
  destruct (queue_run _ os [] w) as [[ns q] w']. cbn in *.
  pose proof (contents_rel b q Hb). subst q. exists ns, b, w'.
  split; [done|]. split; [done|]. split; [exact Hb|]. split; [exact Hcap|].
  exact (rr_count _ _ Hb).
Qed.

(** No message is lost, doubled or reordered on the way through the buffer:
    after any run the messages pushed so far are, in order, those that left
    (evicted, handed to a sender or discarded; the numbers the operations
    returned add up to their count) followed by those still buffered, at most
    the capacity. *)
Theorem buffer_conserves_order {W} (os : list (buf_op W)) capacity (w : W) ns b w' :
  capacity <= 2 ^ 30 ->
  buf_run os (MessageBuffer_init capacity) w = Some (ns, b, w') ->
  exists left, pushed os = left ++ contents b /\
    foldr Z.add 0 ns = Z.of_nat (length left) /\
    Z.of_nat (length (contents b)) <= effective_capacity capacity.
Proof.
  intros Hc E. pose proof (MessageBuffer_init_rel capacity Hc) as H0.
  destruct (buf_run_refines os _ _ w H0) as (b0 & E0 & Hb & Hcap). rewrite E in E0.
  change (capacity_ (MessageBuffer_init capacity)) with (effective_capacity capacity) in *.
  pose proof (queue_run_leaves _ os [] w (effective_capacity_pos capacity)) as Hl.
  destruct (queue_run _ os [] w) as [[ns' q] w'']. cbn in *. simplify_eq.
  rewrite (contents_rel _ _ Hb). destruct Hl as (left & -> & ->). exists left.
  repeat split. destruct Hb as [_ _ _ Hn Hf _ _]. lia.
Qed.

(** [Drain] hands the sender the buffered messages oldest first and stops
    after the first refusal: it returns the number [n] of calls made, the
    calls were on exactly the first [n] messages, all accepted except possibly
    the last, and those [n] are gone. The refused message is among them, so a
    sender that answers [false] has lost it. *)
Theorem Drain_stops_at_refusal {W} (sender : string -> M W bool) b (w : W) :
  ring_rel b (contents b) ->
  exists n b', Drain sender b w
      = Some (Z.of_nat n, b', snd (send_all sender (take n (contents b)) w)) /\
    (n <= length (contents b))%nat /\ contents b' = drop n (contents b) /\
    let oks := fst (send_all sender (take n (contents b)) w) in
    (n = length (contents b) /\ Forall (eq true) oks) \/
    exists m, n = S m /\ oks = replicate m true ++ [false].
Proof.
  intros Hb. destruct (Drain_refines sender b _ w Hb) as (b' & E & Hb' & _).
  destruct (queue_drain_prefix sender (contents b) w) as (n & oks & Eq & Ho & Hn & Hend).
  rewrite Eq in *. cbn in *. exists n, b'. rewrite E, Ho. by rewrite (contents_rel _ _ Hb').
Qed.

(** A buffer of three slots that overflows, drains up to a refusal and is
    pushed to again; the world is the log of what the sender was given. *)
Definition log_until (bad : string) (x : string) : M (list string) bool :=
  fun log => (negb (String.eqb x bad), log ++ [x]).

Definition demo_ops : list (buf_op (list string)) :=
  [OpPush "a"; OpPush "b"; OpPush "c"; OpPush "d"; OpPush "e";
   OpDrain (log_until "d"); OpPush "f"]%string.

Definition demo_buffer : MessageBuffer :=
  match buf_run demo_ops (MessageBuffer_init 3) [] with
  | Some (_, b, _) => b
  | None => MessageBuffer_init 3
  end.

Lemma demo_buffer_rel : ring_rel demo_buffer (contents demo_buffer).
Proof.
  destruct (buf_run_refines demo_ops _ [] [] (MessageBuffer_init_rel 3 ltac:(lia)))
    as (b & E & Hb & _).
  assert (demo_buffer = b) as -> by (unfold demo_buffer; rewrite E; reflexivity).
  by rewrite (contents_rel b _ Hb) at 1.
Qed.

Lemma ring_buffer_refines_queue_witness :
  buf_run demo_ops (MessageBuffer_init 3) []
    = Some ([0; 0; 0; 1; 1; 2; 0], demo_buffer, ["c"; "d"]%string) /\
  contents demo_buffer = ["e"; "f"]%string /\
  exists ns b w', buf_run demo_ops (MessageBuffer_init 3) [] = Some (ns, b, w') /\
    queue_run (effective_capacity 3) demo_ops [] [] = ((ns, contents b), w').
Proof.
  split; [vm_compute; reflexivity|]. split; [vm_compute; reflexivity|].
  destruct (ring_buffer_refines_queue demo_ops 3 []) as (ns & b & w' & H1 & H2 & _);
    [lia|]. exists ns, b, w'. exact (conj H1 H2).
Defined.

Lemma buffer_conserves_order_witness :
  exists left, pushed demo_ops = left ++ ["e"; "f"]%string /\ length left = 4%nat.
Proof.
  destruct (buffer_conserves_order demo_ops 3 [] [0; 0; 0; 1; 1; 2; 0] demo_buffer
    ["c"; "d"]%string) as (left & E & Hn & _); [lia|vm_compute; reflexivity|].
  exists left. split; [exact E|]. cbn in Hn. lia.
Defined.

Lemma Drain_stops_at_refusal_witness :
  exists n b', Drain (log_until "f") demo_buffer [] = Some (Z.of_nat n, b', ["e"; "f"]%string) /\
    contents b' = [].
Proof.
  destruct (Drain_stops_at_refusal (log_until "f") demo_buffer [] demo_buffer_rel)
    as (n & b' & E & Hn & Hc & _).
  assert ((fun r => fst (fst r)) <$> Drain (log_until "f") demo_buffer [] = Some 2) as En
    by (vm_compute; reflexivity).
  exists n, b'. rewrite E in En. injection En as En.
  assert (n = 2%nat) as -> by lia.
  split; [exact E|exact Hc].
Defined.
