(* ===== verification/Double.v ===== *)
(** * C++ [double] as the backoff code uses it

    A [double] is a primitive binary64 float.  The conversions from and to
    [int64_t] and to [int] are the standard's: round to nearest even one way, truncation
    the other, undefined ([None]) for a NaN, an infinity or a value outside
    the range.  The lemmas relate comparison to the values truncated. *)

From Stdlib Require Import ZArith Lia Ascii String Floats SpecFloat.
From S2P Require Import Prelude.

Local Open Scope Z_scope.

Definition double_of_int (z : Z) : float := SF2Prim (binary_normalize 53 1024 z 0 false).

(** The value [m * 2^e] truncated to an integer. *)
Definition sf_trunc (x : spec_float) : option Z :=
  match x with
  | S754_zero _ => Some 0
  | S754_finite s m e =>
      let z := if 0 <=? e then Zpos m * 2 ^ e else Zpos m / 2 ^ (- e) in
      Some (if s then - z else z)
  | _ => None
  end.

(** [static_cast<int64_t>(x)] *)
Definition int64_of_double (x : float) : option Z :=
  match sf_trunc (Prim2SF x) with
  | Some z => if bool_decide (- 2 ^ 63 <= z < 2 ^ 63) then Some z else None
  | None => None
  end.

(** [static_cast<int>(x)] *)
Definition int32_of_double (x : float) : option Z :=
  match sf_trunc (Prim2SF x) with
  | Some z => if bool_decide (in_s 32 z) then Some z else None
  | None => None
  end.

Lemma int32_of_double_range x z : int32_of_double x = Some z -> in_s 32 z.
Proof.
  unfold int32_of_double. destruct (sf_trunc _); [|done]. case_bool_decide; [|done]. by intros [= <-].
Qed.

(** [std::min(a, b)]: [(b < a) ? b : a]. *)
Definition std_min (a b : float) : float := if PrimFloat.ltb b a then b else a.

(** Not a NaN and not below zero. *)
Definition nonneg (x : float) : bool := PrimFloat.leb 0 x.

(** ** Mantissas *)

Lemma digits2_bounds m :
  2 ^ (Zpos (digits2_pos m) - 1) <= Zpos m < 2 ^ Zpos (digits2_pos m).
Proof.
  induction m as [m IH|m IH|]; cbn [digits2_pos]; [| |done];
    rewrite Pos2Z.inj_succ; replace (Z.succ (Zpos (digits2_pos m)) - 1)
      with (Z.succ (Zpos (digits2_pos m) - 1)) by lia;
    rewrite !Z.pow_succ_r by lia; lia.
Qed.

Lemma bounded_spec m e :
  bounded 53 1024 m e = true ->
  e = Z.max (Zpos (digits2_pos m) + e - 53) (-1074) /\ Zpos m < 2 ^ 53.
Proof.
  unfold bounded, canonical_mantissa, fexp, emin. intros H.
  apply andb_true_iff in H as [H _]. apply Z.eqb_eq in H.
  pose proof (digits2_bounds m) as [_ Hm]. split; [lia|].
  eapply Z.lt_le_trans; [apply Hm|]. apply Z.pow_le_mono_r; lia.
Qed.

Definition sf_abs_trunc (m : positive) (e : Z) : Z :=
  if 0 <=? e then Zpos m * 2 ^ e else Zpos m / 2 ^ (- e).

Lemma sf_abs_trunc_nonneg m e : 0 <= sf_abs_trunc m e.
Proof.
  unfold sf_abs_trunc. destruct (Z.leb_spec 0 e).
  - apply Z.mul_nonneg_nonneg; [lia|]. apply Z.pow_nonneg. lia.
  - apply Z.div_pos; [lia|]. apply Z.pow_pos_nonneg; lia.
Qed.

(** Truncation as one floor division, whatever the exponent. *)
Lemma sf_abs_trunc_scaled m e k :
  0 <= k -> - k <= e -> sf_abs_trunc m e = Zpos m * 2 ^ (e + k) / 2 ^ k.
Proof.
  intros Hk He. unfold sf_abs_trunc. destruct (Z.leb_spec 0 e).
  - rewrite Z.pow_add_r by lia. rewrite Z.mul_assoc, Z.div_mul; [done|].
    apply Z.pow_nonzero; lia.
  - assert (2 ^ k = 2 ^ (- e) * 2 ^ (e + k)) as -> by (rewrite <- Z.pow_add_r by lia; f_equal; lia).
    rewrite Z.div_mul_cancel_r; [done|apply Z.pow_nonzero; lia..].
Qed.

Lemma sf_abs_trunc_mono m1 e1 m2 e2 :
  bounded 53 1024 m1 e1 = true -> bounded 53 1024 m2 e2 = true ->
  (e1 < e2 \/ (e1 = e2 /\ Zpos m1 <= Zpos m2)) ->
  sf_abs_trunc m1 e1 <= sf_abs_trunc m2 e2.
Proof.
  intros [E1 B1]%bounded_spec [E2 B2]%bounded_spec H.
  rewrite !(sf_abs_trunc_scaled _ _ 1074) by lia.
  apply Z.div_le_mono; [apply Z.pow_pos_nonneg; lia|].
  destruct H as [H|[-> H]].
  - assert (Zpos (digits2_pos m2) = 53) as Hd by lia.
    pose proof (digits2_bounds m2) as [Hm _]. rewrite Hd in Hm.
    replace (e2 + 1074) with ((e1 + 1074) + (e2 - e1)) by lia.
    assert (0 <= e1 + 1074) as Hk by lia. revert Hk. generalize (e1 + 1074). intros k Hk.
    rewrite Z.pow_add_r by lia. assert (0 < 2 ^ k) by (apply Z.pow_pos_nonneg; lia).
    assert (2 <= 2 ^ (e2 - e1)) by (change 2 with (2 ^ 1) at 1; apply Z.pow_le_mono_r; lia).
    change (2 ^ (53 - 1)) with 4503599627370496 in Hm. change (2 ^ 53) with 9007199254740992 in B1.
    rewrite (Z.mul_comm (2 ^ k)), Z.mul_assoc. apply Z.mul_le_mono_nonneg_r; [lia|nia].
  - apply Z.mul_le_mono_nonneg_r; [|done]. apply Z.pow_nonneg. lia.
Qed.

(** ** Comparison and truncation *)

Lemma nonneg_cases x :
  nonneg x = true ->
  (exists s, Prim2SF x = S754_zero s) \/ Prim2SF x = S754_infinity false \/
  (exists m e, Prim2SF x = S754_finite false m e /\ bounded 53 1024 m e = true).
Proof.
  unfold nonneg. rewrite leb_spec. pose proof (Prim2SF_valid x) as V.
  change (Prim2SF 0) with (S754_zero false).
  destruct (Prim2SF x) as [s|[]| |[] m e]; cbn; try discriminate; eauto 6.
Qed.

(** Not above a finite bound: the truncation exists and is below the bound's. *)
Lemma sf_trunc_mono x y b :
  nonneg x = true -> sf_trunc (Prim2SF y) = Some b -> nonneg y = true ->
  PrimFloat.ltb y x = false ->
  exists a, sf_trunc (Prim2SF x) = Some a /\ 0 <= a <= b.
Proof.
  intros Hx Hb Hy. rewrite ltb_spec. unfold SFltb.
  destruct (nonneg_cases x Hx) as [(s & ->)|[->|(m & e & -> & B)]];
  destruct (nonneg_cases y Hy) as [(s' & E)|[E|(m' & e' & E & B')]]; rewrite E in *;
    cbn [SFcompare]; try discriminate; cbn [sf_trunc] in *;
    fold (sf_abs_trunc m e) || idtac; fold (sf_abs_trunc m' e') in * || idtac; intros H.
  all: try (exists 0; split; [done|]; injection Hb as <-; pose proof (sf_abs_trunc_nonneg m' e'); lia).
  - exists 0. injection Hb as <-. split; [done|lia].
  - exists (sf_abs_trunc m e). split; [done|]. injection Hb as <-.
    split; [apply sf_abs_trunc_nonneg|]. apply sf_abs_trunc_mono; [done..|].
    destruct (Z.compare_spec e' e) as [->|Hc|Hc]; [|done|by left].
    right. split; [done|]. change (Pos.compare_cont Eq m' m) with (Pos.compare m' m) in H.
    destruct (Pos.compare_spec m' m); [subst; lia|done|lia].
Qed.

(** ** Small integers are exact *)

Lemma iter_xO d m : Zpos (Pos.iter xO m d) = Zpos m * 2 ^ Zpos d.
Proof.
  induction d as [|d IH] using Pos.peano_ind.
  - cbn. lia.
  - rewrite Pos.iter_succ, Pos2Z.inj_succ, Z.pow_succ_r by lia. lia.
Qed.

Lemma digits2_xO d m : Zpos (digits2_pos (Pos.iter xO m d)) = Zpos (digits2_pos m) + Zpos d.
Proof.
  induction d as [|d IH] using Pos.peano_ind.
  - cbn. lia.
  - rewrite Pos.iter_succ. cbn [digits2_pos]. rewrite !Pos2Z.inj_succ. lia.
Qed.

(** A mantissa of exactly 53 digits is kept by the rounding. *)
Lemma binary_round_aux_exact m e :
  Zpos (digits2_pos m) = 53 -> -1074 <= e -> e <= 971 ->
  binary_round_aux 53 1024 false (Zpos m) e loc_Exact = S754_finite false m e.
Proof.
  intros Hd He Hm. unfold binary_round_aux, shr_fexp, shr_record_of_loc, fexp, emin.
  cbn [Zdigits2]. rewrite Hd. replace (Z.max (53 + e - 53) (3 - 1024 - 53) - e) with 0 by lia.
  cbn [shr shr_m loc_of_shr_record round_nearest_even Zdigits2]. rewrite Hd.
  replace (Z.max (53 + e - 53) (3 - 1024 - 53) - e) with 0 by lia. cbn [shr shr_m].
  by replace (e <=? 1024 - 53) with true by lia.
Qed.

Lemma double_of_pos z :
  0 < z < 2 ^ 53 ->
  exists m e, Prim2SF (double_of_int z) = S754_finite false m e /\
    bounded 53 1024 m e = true /\ sf_abs_trunc m e = z.
Proof.
  intros Hz. destruct z as [|p|p]; [lia| |lia].
  pose proof (digits2_bounds p) as [Hl Hu].
  assert (Zpos (digits2_pos p) <= 53) as Hd.
  { destruct (Z.le_gt_cases (Zpos (digits2_pos p)) 53); [done|].
    assert (2 ^ 53 <= 2 ^ (Zpos (digits2_pos p) - 1)) by (apply Z.pow_le_mono_r; lia). lia. }
  assert (exists m, binary_round 53 1024 false p 0
      = S754_finite false m (Zpos (digits2_pos p) - 53) /\
    Zpos (digits2_pos m) = 53 /\ Zpos m = Zpos p * 2 ^ (53 - Zpos (digits2_pos p)))
    as (m & E & Dm & Em).
  { unfold binary_round, shl_align, fexp, emin.
    replace (Z.max (Zpos (digits2_pos p) + 0 - 53) (3 - 1024 - 53) - 0)
      with (Zpos (digits2_pos p) - 53) by lia.
    destruct (Zpos (digits2_pos p) - 53) as [|q|q] eqn:Eq; [|lia|].
    - exists p. assert (Zpos (digits2_pos p) = 53) as Dp by lia. rewrite Dp.
      cbv beta iota zeta. rewrite binary_round_aux_exact by lia. split; [done|]. split; [done|lia].
    - exists (Pos.iter xO p q).
      replace (Z.max (Zpos (digits2_pos p) + 0 - 53) (3 - 1024 - 53)) with (Z.neg q) by lia.
      cbv beta iota zeta. rewrite binary_round_aux_exact; [|rewrite digits2_xO; lia|lia..].
      rewrite digits2_xO, iter_xO. split; [done|]. split; [lia|]. do 2 f_equal. lia. }
  exists m, (Zpos (digits2_pos p) - 53). unfold double_of_int, binary_normalize. rewrite E.
  assert (bounded 53 1024 m (Zpos (digits2_pos p) - 53) = true) as B.
  { unfold bounded, canonical_mantissa, fexp, emin. rewrite Dm.
    apply andb_true_iff. split; [apply Z.eqb_eq|apply Z.leb_le]; lia. }
  rewrite Prim2SF_SF2Prim by exact B. split; [done|]. split; [done|].
  rewrite (sf_abs_trunc_scaled _ _ (53 - Zpos (digits2_pos p))), Em by lia.
  replace (Zpos (digits2_pos p) - 53 + (53 - Zpos (digits2_pos p))) with 0 by lia.
  rewrite Z.mul_1_r, Z.div_mul; [done|]. apply Z.pow_nonzero; lia.
Qed.

Lemma double_of_int_exact z :
  0 <= z < 2 ^ 53 ->
  sf_trunc (Prim2SF (double_of_int z)) = Some z /\ nonneg (double_of_int z) = true.
Proof.
  intros Hz. destruct (decide (z = 0)) as [->|Hne]; [by vm_compute|].
  destruct (double_of_pos z) as (m & e & E & B & T); [lia|].
  split; [rewrite E; cbn [sf_trunc]; fold (sf_abs_trunc m e); by rewrite T|].
  unfold nonneg. rewrite leb_spec, E. done.
Qed.

(** ** Products of values that are not negative *)

Lemma iter_pos_ind {A} (P : A -> Prop) (f : A -> A) n x :
  (forall a, P a -> P (f a)) -> P x -> P (SpecFloat.iter_pos f n x).
Proof. intros Hf. revert x. induction n; cbn; auto. Qed.

Lemma shr_fexp_nonneg m e l : 0 <= m -> 0 <= shr_m (fst (shr_fexp 53 1024 m e l)).
Proof.
  intros Hm. unfold shr_fexp, shr.
  assert (0 <= shr_m (shr_record_of_loc m l)) as H0 by (by destruct l as [|[]]).
  destruct (fexp _ _ _ - e); try done. cbn [fst].
  apply (iter_pos_ind (fun r => 0 <= shr_m r)); [|done].
  intros [[|[q|q|]|q] r s]; cbn; lia.
Qed.

Lemma binary_round_aux_nonneg m e :
  0 <= m -> exists y, binary_round_aux 53 1024 false m e loc_Exact = y /\
    SFleb (S754_zero false) y = true.
Proof.
  intros Hm. eexists. split; [done|]. unfold binary_round_aux.
  pose proof (shr_fexp_nonneg m e loc_Exact Hm) as H1.
  destruct (shr_fexp 53 1024 m e loc_Exact) as [r1 e1]. cbn [fst] in H1.
  assert (0 <= round_nearest_even (shr_m r1) (loc_of_shr_record r1)) as H2.
  { unfold round_nearest_even. destruct (loc_of_shr_record r1) as [|[]]; try lia.
    destruct (Z.even _); lia. }
  pose proof (shr_fexp_nonneg _ e1 loc_Exact H2) as H3.
  destruct (shr_fexp 53 1024 (round_nearest_even _ _) e1 loc_Exact) as [r2 e2]. cbn [fst] in H3.
  destruct (shr_m r2); [done| |lia]. by destruct (e2 <=? 1024 - 53).
Qed.

(** [0 * inf] is the one product of two such values that is a NaN. *)
Lemma mul_nonneg x y :
  nonneg x = true -> nonneg y = true -> (exists m e, Prim2SF x = S754_finite false m e) ->
  nonneg (x * y) = true.
Proof.
  intros Hx Hy (m & e & Ex). unfold nonneg. rewrite leb_spec, mul_spec, Ex.
  change (Prim2SF 0) with (S754_zero false).
  destruct (nonneg_cases y Hy) as [(s & ->)|[->|(m' & e' & -> & _)]]; [done..|].
  cbn [SF64mul SFmul xorb]. unfold SF64mul, SFmul.
  destruct (binary_round_aux_nonneg (Zpos (m * m')) (e + e')) as (v & E & H); [lia|].
  cbn [xorb]. change prec with 53. change emax with 1024. by rewrite E.
Qed.
