(* ===== verification/Backoff.v ===== *)
(** * Backoff and jitter

    Models src/internal/types/jitter.cc, the policies of
    include/kubemq/retry_policy.h and reconnect_policy.h, and the two
    [CalculateBackoff] functions (src/internal/middleware/retry.cc and
    src/internal/transport/reconnect.cc).  [std::pow] is taken with what
    C Annex F says of it; a delay is [None] where the conversion of the
    [double] to [int64_t] is undefined. *)

From Stdlib Require Import ZArith Lia Ascii String Floats SpecFloat.
From S2P Require Import Prelude Random Double.

Local Open Scope Z_scope.
Local Open Scope kubemq_scope.

(** ** Policies *)

Inductive JitterMode := kNone | kFull | kEqual.

#[export] Instance JitterMode_eq_dec : EqDecision JitterMode.
Proof. solve_decision. Defined.

Record RetryPolicy := mkRetryPolicy {
  max_retries : Z;
  initial_backoff : Z;
  max_backoff : Z;
  multiplier : float;
  retry_jitter : JitterMode
}.

Definition RetryPolicy_default : RetryPolicy := mkRetryPolicy 3 100 10000 2 kFull.

Record ReconnectPolicy := mkReconnectPolicy {
  max_attempts : Z;
  initial_delay : Z;
  max_delay : Z;
  backoff_multiplier : float;
  reconnect_jitter : JitterMode;
  buffer_size : Z
}.

Definition ReconnectPolicy_default : ReconnectPolicy :=
  mkReconnectPolicy 0 1000 30000 2 kFull 1024.

(** ** [ApplyJitter] *)

Section jitter.
Context {W : Type} `{Random W}.

Definition ApplyJitter (delay : Z) (mode : JitterMode) : M W Z :=
  if bool_decide (mode = kNone) || (delay <=? 0) then ret delay
  else if decide (mode = kFull) then uniform_int 0 (delay - 1)
  else if decide (mode = kEqual) then
    let half := div_trunc delay 2 in
    if half <=? 0 then ret delay
    else let! r := uniform_int 0 (half - 1) in ret (half + r)
  else ret delay.

(** The interval each mode promises in jitter.h. *)
Definition jitter_range (mode : JitterMode) (delay r : Z) : Prop :=
  match mode with
  | kNone => r = delay
  | kFull => 0 <= r < delay
  | kEqual => div_trunc delay 2 <= r <= delay /\ (1 < delay -> r < delay)
  end.

Lemma ApplyJitter_range delay mode w :
  if decide (delay <= 0) then ApplyJitter delay mode w = (delay, w)
  else jitter_range mode delay (fst (ApplyJitter delay mode w)).
Proof.
  unfold ApplyJitter. destruct (decide (delay <= 0)) as [Hd|Hd].
  { replace (delay <=? 0) with true by lia. by rewrite orb_true_r. }
  replace (delay <=? 0) with false by lia.
  destruct mode; case_bool_decide; try done; cbn [orb];
    repeat case_decide; try done; unfold jitter_range, div_trunc.
  - pose proof (uniform_int_range 0 (delay - 1) w). lia.
  - rewrite Z.quot_div_nonneg by lia. pose proof (Z.div_mod delay 2).
    pose proof (Z.mod_pos_bound delay 2).
    destruct (Z.leb_spec (delay / 2) 0); [unfold ret; cbn [fst]; lia|].
    unfold bind, ret. pose proof (uniform_int_range 0 (delay / 2 - 1) w) as Hr.
    destruct (uniform_int 0 (delay / 2 - 1) w) as [r w']. cbn [fst] in *. lia.
Qed.

End jitter.

(** ** [CalculateBackoff] *)

Class Libm := {
  std_pow : float -> float -> float;
  (** for a base and an exponent that are not negative, neither is the result,
      and it is not a NaN *)
  std_pow_nonneg : forall x y, nonneg x = true -> nonneg y = true -> nonneg (std_pow x y) = true
}.

(** The computation both functions make; [base_ms], [computed], [max_ms] and
    [capped] are their local variables. *)
Definition backoff_delay `{Libm} (initial : Z) (mult : float) (maxd attempt : Z) : option Z :=
  let base_ms := double_of_int initial in
  let computed := PrimFloat.mul base_ms (std_pow mult (double_of_int attempt)) in
  let max_ms := double_of_int maxd in
  let capped := std_min computed max_ms in
  int64_of_double capped.

Section backoff.
Context {W : Type} `{Random W, Libm}.

Definition jittered (delay : option Z) (mode : JitterMode) : M W (option Z) :=
  match delay with
  | Some d => let! r := ApplyJitter d mode in ret (Some r)
  | None => ret None
  end.

Definition CalculateBackoff_retry (policy : RetryPolicy) (attempt : Z) : M W (option Z) :=
  jittered (backoff_delay (initial_backoff policy) (multiplier policy) (max_backoff policy)
              attempt) (retry_jitter policy).

Definition CalculateBackoff_reconnect (policy : ReconnectPolicy) (attempt : Z)
    : M W (option Z) :=
  jittered (backoff_delay (initial_delay policy) (backoff_multiplier policy) (max_delay policy)
              attempt) (reconnect_jitter policy).

(** ** Bounds *)

(** The configurations for which the computation is defined: positive initial
    delay, and delays below 2^53 ms (285 thousand years), where the conversion
    to [double] is exact. *)
Definition backoff_ok (initial : Z) (mult : float) (maxd : Z) : Prop :=
  0 < initial < 2 ^ 53 /\ 0 <= maxd < 2 ^ 53 /\ nonneg mult = true.

Lemma backoff_delay_bounded initial mult maxd attempt :
  backoff_ok initial mult maxd -> 0 <= attempt < 2 ^ 31 ->
  exists d, backoff_delay initial mult maxd attempt = Some d /\ 0 <= d <= maxd.
Proof.
  intros (Hi & Hm & Hx) Ha. unfold backoff_delay, std_min, int64_of_double.
  destruct (double_of_int_exact maxd Hm) as [Tm Nm].
  destruct (double_of_int_exact initial ltac:(lia)) as [_ Ni].
  destruct (double_of_int_exact attempt ltac:(lia)) as [_ Na].
  destruct (double_of_pos initial Hi) as (m & e & Ei & _).
  assert (nonneg (double_of_int initial * std_pow mult (double_of_int attempt)) = true) as Nc
    by (apply mul_nonneg; eauto using std_pow_nonneg).
  destruct (PrimFloat.ltb (double_of_int maxd) _) eqn:E.
  - rewrite Tm, bool_decide_true by lia. exists maxd. split; [done|lia].
  - destruct (sf_trunc_mono _ _ _ Nc Tm Nm E) as (a & -> & Hb).
    rewrite bool_decide_true by lia. by exists a.
Qed.

Lemma jittered_bounded d mode maxd w :
  0 <= d <= maxd ->
  exists r, fst (jittered (Some d) mode w) = Some r /\ 0 <= r <= maxd /\
    (0 < d -> jitter_range mode d r).
Proof.
  intros Hd. unfold jittered, bind, ret. pose proof (ApplyJitter_range d mode w) as Hr.
  destruct (ApplyJitter d mode w) as [r w']. cbn in *. exists r. split; [done|].
  destruct (decide (d <= 0)) as [Hz|Hz].
  - simplify_eq. lia.
  - split; [|done]. destruct mode; cbn in Hr; try lia.
    unfold div_trunc in Hr. pose proof (Z.quot_pos d 2). lia.
Qed.

End backoff.

(** A [std::pow] for integral exponents, by repeated multiplication. *)
Definition pow_step (x a : float) : float :=
  let r := PrimFloat.mul a x in if nonneg r then r else 0%float.

Lemma pow_step_nonneg x n : nonneg (Nat.iter n (pow_step x) 1%float) = true.
Proof.
  induction n as [|n IH]; [by vm_compute|]. change (Nat.iter (S n) (pow_step x) 1%float) with (pow_step x (Nat.iter n (pow_step x) 1%float)).
  generalize dependent (Nat.iter n (pow_step x) 1%float). intros a _. unfold pow_step.
  cbv zeta. destruct (nonneg (a * x)) eqn:E; [exact E|by vm_compute].
Qed.

#[export] Program Instance libm_iter : Libm := {|
  std_pow x y := Nat.iter (Z.to_nat (default 0 (int64_of_double y))) (pow_step x) 1%float
|}.
Next Obligation. intros x y _ _. apply pow_step_nonneg. Qed.

(** ** Properties *)

Section properties.
Context {W : Type} `{Random W, Libm}.

(** Both backoff computations stay inside the policy. For a positive
    initial delay, a cap and a multiplier that are not negative and any
    attempt an [int] can count, the conversion back to an integer is defined,
    the delay lies between 0 and the cap however fast the multiplier grows
    (to infinity included), and the jittered delay lies in the interval
    jitter.h promises for the mode, so never above the cap. *)
Theorem CalculateBackoff_bounded (p : ReconnectPolicy) (q : RetryPolicy) attempt (w : W) :
  0 <= attempt < 2 ^ 31 ->
  (backoff_ok (initial_delay p) (backoff_multiplier p) (max_delay p) ->
   exists d r, backoff_delay (initial_delay p) (backoff_multiplier p) (max_delay p) attempt = Some d /\
     fst (CalculateBackoff_reconnect p attempt w) = Some r /\
     0 <= d <= max_delay p /\ 0 <= r <= max_delay p /\
     (0 < d -> jitter_range (reconnect_jitter p) d r)) /\
  (backoff_ok (initial_backoff q) (multiplier q) (max_backoff q) ->
   exists d r, backoff_delay (initial_backoff q) (multiplier q) (max_backoff q) attempt = Some d /\
     fst (CalculateBackoff_retry q attempt w) = Some r /\
     0 <= d <= max_backoff q /\ 0 <= r <= max_backoff q /\
     (0 < d -> jitter_range (retry_jitter q) d r)).
Proof.
  intros Ha. unfold CalculateBackoff_reconnect, CalculateBackoff_retry.
  split; intros Hok; destruct (backoff_delay_bounded _ _ _ attempt Hok Ha) as (d & -> & Hd).
  - destruct (jittered_bounded d (reconnect_jitter p) _ w Hd) as (r & Hr). exists d, r. tauto.
  - destruct (jittered_bounded d (retry_jitter q) _ w Hd) as (r & Hr). exists d, r. tauto.
Qed.

(** With an initial delay of 0 the computation is undefined as soon as the
    power overflows: 0 times infinity is a NaN, [std::min] keeps it (no
    comparison with it holds) and converting it to [int64_t] is undefined
    behaviour, whatever the cap and the jitter mode. *)
Theorem zero_initial_delay_undefined (p : ReconnectPolicy) attempt (w : W) :
  initial_delay p = 0 -> 0 <= max_delay p < 2 ^ 53 ->
  std_pow (backoff_multiplier p) (double_of_int attempt) = infinity ->
  CalculateBackoff_reconnect p attempt w = (None, w).
Proof.
  intros Hi Hm Hp. unfold CalculateBackoff_reconnect, backoff_delay. rewrite Hi, Hp.
  change (double_of_int 0 * infinity)%float with nan. unfold std_min.
  rewrite ltb_spec. change (Prim2SF nan) with S754_nan.
  by destruct (Prim2SF (double_of_int (max_delay p))).
Qed.

End properties.

Definition demo_policy : ReconnectPolicy := mkReconnectPolicy 0 0 30000 2 kNone 1024.

Lemma CalculateBackoff_bounded_witness :
  let delays := (fun a => fst (CalculateBackoff_reconnect
    (mkReconnectPolicy 0 1000 30000 2 kNone 1024) a 7)) <$> [0; 1; 2; 3; 4; 5; 1100] in
  delays = Some <$> [1000; 2000; 4000; 8000; 16000; 30000; 30000] /\
  exists d r, backoff_delay 100 2 10000 3 = Some d /\
    fst (CalculateBackoff_retry RetryPolicy_default 3 7) = Some r /\ 0 <= r <= 10000.
Proof.
  split; [vm_compute; reflexivity|].
  destruct (CalculateBackoff_bounded demo_policy RetryPolicy_default 3 7) as [_ H]; [lia|].
  destruct H as (d & r & H1 & H2 & _ & H3 & _).
  - split; [cbn; lia|]. split; [cbn; lia|vm_compute; reflexivity].
  - exists d, r. exact (conj H1 (conj H2 H3)).
Defined.

Lemma zero_initial_delay_undefined_witness :
  fst (CalculateBackoff_reconnect demo_policy 1023 7) = Some 0 /\
  CalculateBackoff_reconnect demo_policy 1024 7 = (None, 7).
Proof.
  split; [vm_compute; reflexivity|].
  apply (zero_initial_delay_undefined demo_policy 1024 7);
    [reflexivity|cbn; lia|vm_compute; reflexivity].
Defined.
