(* ===== verification/Retry.v ===== *)
(** * Retrying unary calls

    Models src/internal/middleware/retry.cc.  [RetryUnary] and the template
    [RetryUnaryOr] have the same body up to the result type, so the loop is
    written once over a result that has a success test and an error code.  The
    result is [None] only where a backoff is undefined (Backoff). *)

From Stdlib Require Import ZArith Lia Ascii String Floats.
From S2P Require Import Prelude Status Random Double Backoff.

Local Open Scope Z_scope.
Local Open Scope kubemq_scope.

(** [std::this_thread::sleep_for], in milliseconds. *)
Class Clock (W : Type) := sleep_for : Z -> M W unit.

Definition ShouldRetry (code : ErrorCode) (is_idempotent : bool) : bool :=
  if negb (IsRetryable code) then false
  else if negb is_idempotent && bool_decide (code = kTimeout) then false
  else true.

Section retry.
Context {W : Type} `{Random W, Libm, Clock W}.

Section loop.
Context {R : Type} (res_ok : R -> bool) (res_code : R -> ErrorCode).
Context (policy : RetryPolicy) (is_idempotent : bool) (operation : M W R).

(** The [for] loop from [attempt] on; [fuel] bounds the iterations. *)
Fixpoint retry_loop (fuel : nat) (attempt : Z) (last : R) : M W (option R) :=
  if attempt <=? max_retries policy then
    match fuel with
    | O => ret None
    | S f =>
        let! last_result := operation in
        if res_ok last_result then ret (Some last_result)
        else if (attempt <? max_retries policy)
                && ShouldRetry (res_code last_result) is_idempotent then
          let! backoff := CalculateBackoff_retry policy attempt in
          match backoff with
          | None => ret None
          | Some d =>
              let! _ := sleep_for d in
              retry_loop f (attempt + 1) last_result
          end
        else ret (Some last_result)
    end
  else ret (Some last).

(** [initial] is the value the result variable starts with. *)
Definition retry_body (initial : R) : M W (option R) :=
  if max_retries policy <=? 0 then let! r := operation in ret (Some r)
  else retry_loop (S (Z.to_nat (max_retries policy))) 0 initial.

(** ** Reference: a schedule of [n + 1] calls

    The results and the delays of [n] failed attempts, each followed by its
    backoff, and of the attempt after them. *)
Fixpoint attempts (n : nat) (attempt : Z) : M W (list R * list Z) :=
  match n with
  | O => let! r := operation in ret ([r], [])
  | S n' =>
      let! r := operation in
      let! d := CalculateBackoff_retry policy attempt in
      let! _ := sleep_for (default 0 d) in
      let! x := attempts n' (attempt + 1) in
      ret (r :: fst x, default 0 d :: snd x)
  end.

(** When a schedule is the right one: every attempt but the last failed in a
    way that may be retried, and the last one may not be followed. *)
Definition retryable_result (r : R) : bool :=
  negb (res_ok r) && ShouldRetry (res_code r) is_idempotent.

Record schedule_ok (budget : nat) (rs : list R) (ds : list Z) (last : R) : Prop := {
  so_last : List.last rs last = last /\ rs <> [];
  so_length : length rs = S (length ds);
  so_budget : (length ds <= budget)%nat;
  so_retried : Forall (fun r => retryable_result r = true) (removelast rs);
  so_stop : length ds = budget \/ retryable_result last = false;
  so_delays : Forall (fun d => 0 <= d <= max_backoff policy) ds
}.

Definition policy_ok : Prop :=
  backoff_ok (initial_backoff policy) (multiplier policy) (max_backoff policy) /\
  max_retries policy < 2 ^ 31.

Lemma CalculateBackoff_retry_some attempt w :
  policy_ok -> 0 <= attempt < 2 ^ 31 ->
  exists d, fst (CalculateBackoff_retry policy attempt w) = Some d /\ 0 <= d <= max_backoff policy.
Proof.
  intros [Hok _] Ha. unfold CalculateBackoff_retry.
  destruct (backoff_delay_bounded _ _ _ attempt Hok Ha) as (d & -> & Hd).
  destruct (jittered_bounded d (retry_jitter policy) _ w Hd) as (r & Er & Hr & _). by exists r.
Qed.

Lemma schedule_ok_cons budget r d rs ds last :
  retryable_result r = true -> 0 <= d <= max_backoff policy ->
  schedule_ok budget rs ds last -> schedule_ok (S budget) (r :: rs) (d :: ds) last.
Proof.
  intros Hr Hd [[Hl Hne] Hlen Hb Hf Hs Hds]. split; cbn [length].
  - split; [|done]. by destruct rs.
  - by rewrite Hlen.
  - lia.
  - destruct rs; [done|]. cbn in *. by constructor.
  - destruct Hs; [left; lia|by right].
  - by constructor.
Qed.

Lemma retry_loop_schedule fuel attempt last0 w :
  policy_ok -> 0 <= attempt <= max_retries policy ->
  fuel = S (Z.to_nat (max_retries policy - attempt)) ->
  exists n rs ds last w', retry_loop fuel attempt last0 w = (Some last, w') /\
    attempts n attempt w = ((rs, ds), w') /\
    schedule_ok (Z.to_nat (max_retries policy - attempt)) rs ds last.
Proof.
  intros Hok. revert attempt last0 w. induction fuel as [|f IH]; intros attempt last0 w Ha Hf; [done|].
  cbn [retry_loop]. replace (attempt <=? max_retries policy) with true by lia.
  unfold bind, ret. destruct (operation w) as [r w1] eqn:Eop.
  destruct (retryable_result r && (attempt <? max_retries policy)) eqn:Ego.
  - apply andb_true_iff in Ego as [Hr Hlt]. pose proof Hr as Hr'.
    unfold retryable_result in Hr. apply andb_true_iff in Hr as [Hnok Hsr].
    apply negb_true_iff in Hnok. rewrite Hnok, Hlt, Hsr. cbn [andb].
    destruct Hok as [Hb Hmax]. 
    destruct (CalculateBackoff_retry_some attempt w1 (conj Hb Hmax)) as (d & Ed & Hd); [lia|].
    destruct (CalculateBackoff_retry policy attempt w1) as [od w2] eqn:Eb. cbn in Ed. subst od.
    destruct (sleep_for d w2) as [[] w3] eqn:Es.
    destruct (IH (attempt + 1) r w3) as (n & rs & ds & last & w' & E & Ea & Hs); [lia|lia|].
    exists (S n), (r :: rs), (d :: ds), last, w'. split; [done|]. split.
    + cbn. unfold bind, ret. rewrite Eop, Eb. cbn. by rewrite Es, Ea.
    + replace (Z.to_nat (max_retries policy - attempt))
        with (S (Z.to_nat (max_retries policy - (attempt + 1)))) by lia.
      by apply schedule_ok_cons.
  - exists 0%nat, [r], [], r, w1. split; [|split].
    + unfold retryable_result in Ego. destruct (res_ok r); [done|]. cbn in Ego.
      rewrite andb_comm in Ego. by rewrite Ego.
    + cbn. unfold bind, ret. by rewrite Eop.
    + split; cbn; try done; [lia|].
      apply andb_false_iff in Ego as [Hr|Hlt]; [by right|left; lia].
Qed.

Lemma retry_body_schedule initial w :
  policy_ok ->
  exists n rs ds last w', retry_body initial w = (Some last, w') /\
    attempts n 0 w = ((rs, ds), w') /\
    schedule_ok (Z.to_nat (max_retries policy)) rs ds last.
Proof.
  intros Hok. unfold retry_body. destruct (Z.leb_spec (max_retries policy) 0).
  - unfold bind, ret. destruct (operation w) as [r w1] eqn:E.
    exists 0%nat, [r], [], r, w1. cbn. unfold bind, ret. rewrite E.
    repeat split; try done; cbn; [lia|]. left. lia.
  - destruct (retry_loop_schedule (S (Z.to_nat (max_retries policy))) 0 initial w Hok)
      as (n & rs & ds & last & w' & Hrest); [lia|f_equal; lia|].
    rewrite Z.sub_0_r in Hrest. by exists n, rs, ds, last, w'.
Qed.

End loop.

Definition RetryUnary (policy : RetryPolicy) (is_idempotent : bool) (operation : M W Status)
    : M W (option Status) :=
  retry_body status_ok code_ policy is_idempotent operation StatusOk.

Definition RetryUnaryOr {T} (policy : RetryPolicy) (is_idempotent : bool)
    (operation : M W (StatusOr T)) : M W (option (StatusOr T)) :=
  retry_body statusor_ok (fun r => code_ (statusor_status r)) policy is_idempotent operation
    (SError (StatusMsg kFatal "retry loop did not execute")).

End retry.

(** ** Properties *)

(** Non-idempotent calls are not repeated after a timeout, nothing is repeated
    after a success or a permanent error. *)
Definition repeated_after (is_idempotent : bool) (c : ErrorCode) : Prop :=
  c = kTransient \/ c = kThrottling \/ (c = kTimeout /\ is_idempotent = true).

Lemma ShouldRetry_spec c i : ShouldRetry c i = true <-> repeated_after i c.
Proof. unfold repeated_after. destruct c, i; cbn; intuition congruence. Qed.

Lemma retried_only {R} (res_ok : R -> bool) res_code policy i budget rs ds (last : R) :
  schedule_ok res_ok res_code policy i budget rs ds last ->
  Forall (fun r => repeated_after i (res_code r)) (removelast rs).
Proof.
  intros Hs. eapply Forall_impl; [apply (so_retried _ _ _ _ _ _ _ _ Hs)|]. cbn.
  intros r [_ Hc]%andb_true_iff. by rewrite ShouldRetry_spec in Hc.
Qed.

Section retry_properties.
Context {W : Type} `{Random W, Libm, Clock W}.

(** C10: under a usable policy [RetryUnary] and [RetryUnaryOr] return, whatever
    the operation does, and what they do is a schedule of calls of the
    operation each followed by one backoff sleep, at most [max_retries] of
    them and each sleep between 0 and the cap: the result is the last call's;
    every earlier call failed with a transient, throttling or, for idempotent
    operations only, timeout error; and they stop only at a success, at an
    error that may not be retried, or when the retries are used up. *)
Theorem RetryUnary_schedule (policy : RetryPolicy) (is_idempotent : bool) (w : W) :
  policy_ok policy ->
  (forall operation, exists n rs ds last w',
     RetryUnary policy is_idempotent operation w = (Some last, w') /\
     attempts policy operation n 0 w = ((rs, ds), w') /\
     schedule_ok status_ok code_ policy is_idempotent (Z.to_nat (max_retries policy)) rs ds last /\
     Forall (fun s => repeated_after is_idempotent (code_ s)) (removelast rs)) /\
  (forall T (operation : M W (StatusOr T)), exists n rs ds last w',
     RetryUnaryOr policy is_idempotent operation w = (Some last, w') /\
     attempts policy operation n 0 w = ((rs, ds), w') /\
     schedule_ok statusor_ok (fun r => code_ (statusor_status r)) policy is_idempotent
       (Z.to_nat (max_retries policy)) rs ds last /\
     Forall (fun r => repeated_after is_idempotent (code_ (statusor_status r))) (removelast rs)).
Proof.
  intros Hok. split.
  - intros operation.
    destruct (retry_body_schedule status_ok code_ policy is_idempotent operation StatusOk w Hok)
      as (n & rs & ds & last & w' & E & Ea & Hs).
    exists n, rs, ds, last, w'. repeat (split; [done|]). by eapply retried_only.
  - intros T operation.
    destruct (retry_body_schedule statusor_ok (fun r => code_ (statusor_status r)) policy
      is_idempotent operation (SError (StatusMsg kFatal "retry loop did not execute")) w Hok)
      as (n & rs & ds & last & w' & E & Ea & Hs).
    exists n, rs, ds, last, w'. repeat (split; [done|]). by eapply retried_only.
Qed.

End retry_properties.

(** A server that answers from a script; the sleeps are logged. *)
Record script_world := mkScript { sw_seed : Z; sw_script : list ErrorCode; sw_slept : list Z }.

Definition with_seed (s : Z) (w : script_world) : script_world :=
  mkScript s (sw_script w) (sw_slept w).

#[export] Program Instance script_random : Random script_world := {|
  next_u64 w := (fst (next_u64 (sw_seed w)), with_seed (snd (next_u64 (sw_seed w))) w);
  uniform_int lo hi w :=
    (fst (uniform_int lo hi (sw_seed w)), with_seed (snd (uniform_int lo hi (sw_seed w))) w)
|}.
Next Obligation. intros w. apply (next_u64_range (sw_seed w)). Qed.
Next Obligation. intros lo hi w. apply (uniform_int_range lo hi (sw_seed w)). Qed.

#[export] Instance script_clock : Clock script_world :=
  fun d w => (tt, mkScript (sw_seed w) (sw_script w) (sw_slept w ++ [d])).

Definition script_operation : M script_world Status :=
  fun w => match sw_script w with
           | [] => (StatusOk, w)
           | c :: cs => (StatusMsg c "scripted", mkScript (sw_seed w) cs (sw_slept w))
           end.

Definition script_policy : RetryPolicy := mkRetryPolicy 3 100 10000 2 kNone.

Definition script_start : script_world :=
  mkScript 1 [kTransient; kThrottling; kTimeout; kFatal] [].

Lemma RetryUnary_schedule_witness :
  RetryUnary script_policy false script_operation script_start
    = (Some (StatusMsg kTimeout "scripted"), mkScript 1 [kFatal] [100; 200]) /\
  RetryUnary script_policy true script_operation script_start
    = (Some (StatusMsg kFatal "scripted"), mkScript 1 [] [100; 200; 400]) /\
  exists n rs ds last w', RetryUnary script_policy false script_operation script_start = (Some last, w') /\
    attempts script_policy script_operation n 0 script_start = ((rs, ds), w').
Proof.
  split; [vm_compute; reflexivity|]. split; [vm_compute; reflexivity|].
  destruct (RetryUnary_schedule script_policy false script_start) as [H _].
  - split; [|cbn; lia]. split; [cbn; lia|]. split; [cbn; lia|vm_compute; reflexivity].
  - destruct (H script_operation) as (n & rs & ds & last & w' & E & Ea & _).
    exists n, rs, ds, last, w'. exact (conj E Ea).
Defined.
