(* ===== verification/Chain.v ===== *)
(** * Interceptor chains

    Models src/internal/middleware/chain.cc and chain.h and the disabled
    OpenTelemetry interceptor of otel.cc.  An operation is a computation, an
    interceptor a function from the next operation to an operation; the
    result type is a parameter, [Status] for [RunChain] and [StatusOr<T>] for
    [RunChainOr]. *)

From Stdlib Require Import ZArith Lia Ascii String.
From S2P Require Import Prelude Status.

Local Open Scope kubemq_scope.

Section chain.
Context {W R : Type}.

Definition Interceptor : Type := M W R -> M W R.

(** The loop over [rbegin() .. rend()]: [current] is wrapped by each
    interceptor in turn, from the last to the first. *)
Fixpoint wrap_back_to_front (its : list Interceptor) (current : M W R) : M W R :=
  match its with
  | [] => current
  | it :: its' => wrap_back_to_front its' (it current)
  end.

Definition BuildChain (interceptors : list Interceptor) : Interceptor :=
  match interceptors with
  | [] => fun op => op
  | _ => fun operation => wrap_back_to_front (rev interceptors) operation
  end.

Definition RunChain (interceptors : list Interceptor) (operation : M W R) : M W R :=
  BuildChain interceptors operation.

(** chain.h writes the same loop out again for [StatusOr<T>]. *)
Definition RunChainOr (interceptors : list Interceptor) (operation : M W R) : M W R :=
  match interceptors with
  | [] => operation
  | _ => wrap_back_to_front (rev interceptors) operation
  end.

(** otel.cc with KUBEMQ_ENABLE_OTEL off. *)
Definition MakeOtelInterceptor (operation : string) : Interceptor := fun next => next.

Lemma wrap_back_to_front_app its its' op :
  wrap_back_to_front (its ++ its') op = wrap_back_to_front its' (wrap_back_to_front its op).
Proof. revert op. induction its as [|it its IH]; intros op; cbn; auto. Qed.

Lemma BuildChain_nested its op : BuildChain its op = foldr (fun it next => it next) op its.
Proof.
  unfold BuildChain. destruct its as [|it its]; [done|]. generalize (it :: its). clear.
  intros its. induction its as [|it its IH]; cbn; [done|].
  by rewrite wrap_back_to_front_app, IH.
Qed.

(** An interceptor of the usual shape: something before, something after that
    sees and may replace the result. *)
Definition around (pre : M W unit) (post : R -> M W R) : Interceptor :=
  fun next => let! _ := pre in let! r := next in post r.

Fixpoint all_pre (l : list (M W unit * (R -> M W R))) : M W unit :=
  match l with [] => ret tt | (p, _) :: l' => let! _ := p in all_pre l' end.

Fixpoint all_post (l : list (M W unit * (R -> M W R))) (r : R) : M W R :=
  match l with [] => ret r | (_, q) :: l' => let! r' := all_post l' r in q r' end.

Lemma nested_around l op w :
  foldr (fun it next => it next) op (map (fun pq => around (fst pq) (snd pq)) l) w
    = (let! _ := all_pre l in let! r := op in all_post l r) w.
Proof.
  revert w. induction l as [|[p q] l IH]; intros w; cbn.
  - unfold bind, ret. by destruct (op w).
  - unfold around, bind in *. cbn. destruct (p w) as [[] w1]. rewrite IH.
    destruct (all_pre l w1) as [[] w2]. destruct (op w2) as [r w3].
    by destruct (all_post l r w3).
Qed.

(** A chain is the nesting its comment describes. [RunChain] and
    [RunChainOr] agree; chaining two lists one inside the other is chaining
    their concatenation; a disabled telemetry interceptor can be inserted
    anywhere without effect; and for interceptors that act before and after
    their call the befores run in list order, the operation once after them,
    and the afters in reverse order on its result. *)
Theorem RunChain_nests (its its' : list Interceptor) (name : string) (operation : M W R) :
  RunChain its operation = RunChainOr its operation /\
  RunChain (its ++ its') operation = RunChain its (RunChain its' operation) /\
  RunChain (its ++ MakeOtelInterceptor name :: its') operation = RunChain (its ++ its') operation /\
  forall l w, RunChain (map (fun pq => around (fst pq) (snd pq)) l) operation w
    = (let! _ := all_pre l in let! r := operation in all_post l r) w.
Proof.
  unfold RunChain. split; [by destruct its|]. split; [|split].
  - by rewrite !BuildChain_nested, foldr_app.
  - by rewrite !BuildChain_nested, !foldr_app.
  - intros l w. by rewrite BuildChain_nested, nested_around.
Qed.

End chain.
