(* ===== verification/ReconnectLoop.v ===== *)
(** * The reconnection loop

    Models the class [ReconnectLoop] of src/internal/transport/reconnect.cc: a
    background thread that runs [Run] and an owner that calls [Start], [Stop]
    and the destructor.  A state has the two atomics, the [std::thread] member
    (with the program point its thread has reached), what the owner is blocked
    in, and the jitter engine; a step is one critical section or one call of
    the connect function. *)

From Stdlib Require Import ZArith Lia Ascii String Floats.
From S2P Require Import Prelude Random Double Backoff.

Local Open Scope Z_scope.
Local Open Scope kubemq_scope.

(** Program points of [Run]; [attempt] is its local variable. *)
Inductive run_pc :=
  | PTest (attempt : Z)                 (* the loop condition and the max_attempts test *)
  | PConnect (attempt : Z)              (* about to call connect_fn *)
  | PWait (attempt delay : Z)           (* in cv_.wait_for, [attempt] already incremented *)
  | PExit                               (* about to store running_ = false *)
  | PReturned                           (* the function has returned *)
  | PUndefined.                         (* the backoff or [++attempt] was undefined behaviour *)

#[export] Instance run_pc_eq_dec : EqDecision run_pc.
Proof. solve_decision. Defined.

(** What the owner is doing: nothing, or blocked in a [thread_.join()]. *)
Inductive owner_pc := OIdle | OStartJoin | OStopJoin | ODtorJoin | ODestroyed | OTerminate.

#[export] Instance owner_pc_eq_dec : EqDecision owner_pc.
Proof. solve_decision. Defined.

Record ReconnectLoop (W : Type) := mkReconnectLoop {
  running_ : bool;
  stop_requested_ : bool;
  thread_ : option run_pc;              (* [None]: not joinable *)
  owner : owner_pc;
  engine : W
}.
Arguments mkReconnectLoop {W} _ _ _ _ _.
Arguments running_ {W} _.
Arguments stop_requested_ {W} _.
Arguments thread_ {W} _.
Arguments owner {W} _.
Arguments engine {W} _.

Inductive rl_label :=
  | RStart (spawns : bool) | RStarted | RStop | RJoined | RDestroy
  | RTest | RConnect (ok : bool) | RWoken | RExit.

Section loop.
Context {W : Type} `{Random W, Libm} (policy_ : ReconnectPolicy).
Implicit Types s : ReconnectLoop W.

Definition ReconnectLoop_init (g : W) : ReconnectLoop W := mkReconnectLoop false false None OIdle g.

(** [IsRunning] *)
Definition IsRunning s : bool := running_ s.

(** [thread_.joinable()] *)
Definition joinable s : bool := match thread_ s with Some _ => true | None => false end.

(** [Start]: returns at once when running; joins a leftover thread; spawns. *)
Definition Start s : ReconnectLoop W :=
  let 'mkReconnectLoop r _ t _ g := s in
  if r then s
  else match t with
       | Some _ => mkReconnectLoop r false t OStartJoin g
       | None => mkReconnectLoop true false (Some (PTest 0)) OIdle g
       end.

(** [Stop], called by the user or, with [after] = [ODtorJoin], by the
    destructor: the early return or the request to stop, then the join. *)
Definition Stop (after : owner_pc) s : ReconnectLoop W :=
  let 'mkReconnectLoop r q t o g := s in
  if negb r then s
  else mkReconnectLoop r true t after g.

(** The end of the destructor: the member [thread_] is destroyed, which calls
    [std::terminate] when it is still joinable. *)
Definition destroy_members s : ReconnectLoop W :=
  let 'mkReconnectLoop r q t _ g := s in
  mkReconnectLoop r q t (match t with Some _ => OTerminate | None => ODestroyed end) g.

(** [~ReconnectLoop] up to a join: [Stop] and, when that returned early, the
    members. *)
Definition Destroy s : ReconnectLoop W :=
  if running_ s then Stop ODtorJoin s else destroy_members s.

(** One step of [Run]'s thread. *)
Definition run_test (attempt : Z) s : run_pc :=
  if stop_requested_ s then PExit
  else if (0 <? max_attempts policy_) && (max_attempts policy_ <=? attempt) then PExit
  else PConnect attempt.

Definition with_thread (t : option run_pc) s : ReconnectLoop W :=
  mkReconnectLoop (running_ s) (stop_requested_ s) t (owner s) (engine s).

(** [connect_fn] has answered. *)
Definition run_connected (attempt : Z) (ok : bool) s : ReconnectLoop W :=
  if ok then with_thread (Some PExit) s
  else
    let '(backoff, g) := CalculateBackoff_reconnect policy_ attempt (engine s) in
    mkReconnectLoop (running_ s) (stop_requested_ s)
      (Some (match backoff with
             | Some d => if attempt + 1 <? 2 ^ 31 then PWait (attempt + 1) d else PUndefined
             | None => PUndefined
             end))
      (owner s) g.

Inductive rl_step : ReconnectLoop W -> rl_label -> ReconnectLoop W -> Prop :=
  | rl_start s :
      owner s = OIdle -> rl_step s (RStart (negb (running_ s) && negb (joinable s))) (Start s)
  | rl_start_joined r q g :
      (* the join returned: the thread is not joinable any more *)
      rl_step (mkReconnectLoop r q (Some PReturned) OStartJoin g) RStarted
              (mkReconnectLoop true q (Some (PTest 0)) OIdle g)
  | rl_stop s : owner s = OIdle -> rl_step s RStop (Stop OStopJoin s)
  | rl_stop_joined r q g :
      rl_step (mkReconnectLoop r q (Some PReturned) OStopJoin g) RJoined
              (mkReconnectLoop r q None OIdle g)
  | rl_destroy s : owner s = OIdle -> rl_step s RDestroy (Destroy s)
  | rl_dtor_joined r q g :
      rl_step (mkReconnectLoop r q (Some PReturned) ODtorJoin g) RJoined
              (destroy_members (mkReconnectLoop r q None ODtorJoin g))
  | rl_test s a :
      thread_ s = Some (PTest a) -> rl_step s RTest (with_thread (Some (run_test a s)) s)
  | rl_connect s a ok :
      thread_ s = Some (PConnect a) -> rl_step s (RConnect ok) (run_connected a ok s)
  | rl_woken s a d :
      (* the delay has passed, or the predicate became true *)
      thread_ s = Some (PWait a d) -> rl_step s RWoken (with_thread (Some (PTest a)) s)
  | rl_exit r q o g :
      rl_step (mkReconnectLoop r q (Some PExit) o g) RExit
              (mkReconnectLoop false q (Some PReturned) o g).

(** The steps as a function, to run schedules. *)
Definition rl_exec_step s (a : rl_label) : option (ReconnectLoop W) :=
  match a with
  | RStart b =>
      if decide (owner s = OIdle /\ b = negb (running_ s) && negb (joinable s))
      then Some (Start s) else None
  | RStop => if decide (owner s = OIdle) then Some (Stop OStopJoin s) else None
  | RDestroy => if decide (owner s = OIdle) then Some (Destroy s) else None
  | RStarted =>
      if decide (owner s = OStartJoin /\ thread_ s = Some PReturned)
      then Some (mkReconnectLoop true (stop_requested_ s) (Some (PTest 0)) OIdle (engine s))
      else None
  | RJoined =>
      if decide (thread_ s = Some PReturned) then
        match owner s with
        | OStopJoin => Some (mkReconnectLoop (running_ s) (stop_requested_ s) None OIdle (engine s))
        | ODtorJoin => Some (destroy_members
            (mkReconnectLoop (running_ s) (stop_requested_ s) None ODtorJoin (engine s)))
        | _ => None
        end
      else None
  | RTest => match thread_ s with
             | Some (PTest a) => Some (with_thread (Some (run_test a s)) s) | _ => None end
  | RConnect ok => match thread_ s with
                   | Some (PConnect a) => Some (run_connected a ok s) | _ => None end
  | RWoken => match thread_ s with
              | Some (PWait a _) => Some (with_thread (Some (PTest a)) s) | _ => None end
  | RExit => match thread_ s with
             | Some PExit =>
                 Some (mkReconnectLoop false (stop_requested_ s) (Some PReturned) (owner s) (engine s))
             | _ => None
             end
  end.

Definition rl_exec (g : W) (l : list rl_label) : option (ReconnectLoop W) :=
  foldl (fun os a => os ≫= fun s => rl_exec_step s a) (Some (ReconnectLoop_init g)) l.

Inductive rl_steps (g : W) : list rl_label -> ReconnectLoop W -> Prop :=
  | rl_nil : rl_steps g [] (ReconnectLoop_init g)
  | rl_snoc l s a s' : rl_steps g l s -> rl_step s a s' -> rl_steps g (l ++ [a]) s'.

Lemma rl_exec_step_sound s a s' : rl_exec_step s a = Some s' -> rl_step s a s'.
Proof.
  destruct a as [b| | | | | |ok| |]; cbn.
  - case_decide as E; [|done]. destruct E as [Eo ->]. intros [= <-]. by constructor.
  - destruct s as [r q t o g]. cbn. case_decide as E; [|done]. destruct E as [-> ->].
    intros [= <-]. constructor.
  - case_decide; [|done]. intros [= <-]. by constructor.
  - destruct s as [r q t o g]. cbn. case_decide as E; [|done]. subst t.
    destruct o; try done; intros [= <-]; constructor.
  - case_decide; [|done]. intros [= <-]. by constructor.
  - destruct (thread_ s) as [[]|] eqn:E; try done. intros [= <-]. by constructor.
  - destruct (thread_ s) as [[]|] eqn:E; try done. intros [= <-]. by constructor.
  - destruct (thread_ s) as [[]|] eqn:E; try done. intros [= <-]. by econstructor.
  - destruct s as [r q t o g]. cbn. destruct t as [[]|]; try done. intros [= <-]. constructor.
Qed.

Lemma rl_exec_sound g l s : rl_exec g l = Some s -> rl_steps g l s.
Proof.
  revert s. induction l as [|a l IH] using rev_ind; intros s E.
  - injection E as <-. constructor.
  - unfold rl_exec in *. rewrite foldl_app in E. cbn in E.
    destruct (foldl _ _ l) as [s1|] eqn:E1; [|done]. cbn in E.
    eapply rl_snoc; [by apply IH|]. by apply rl_exec_step_sound.
Qed.

(** ** Invariant *)

Definition in_run (t : option run_pc) : bool :=
  match t with Some PReturned | None => false | Some _ => true end.

(** Connect calls since the thread was last spawned. *)
Definition connects (l : list rl_label) : Z :=
  foldl (fun n a => match a with
                    | RStart true | RStarted => 0
                    | RConnect _ => n + 1
                    | _ => n
                    end) 0 l.

Definition pc_ok (n : Z) (t : option run_pc) : Prop :=
  0 <= n /\ (0 < max_attempts policy_ -> n <= max_attempts policy_) /\
  match t with
  | Some (PTest a) | Some (PWait a _) => a = n
  | Some (PConnect a) => a = n /\ (0 < max_attempts policy_ -> n < max_attempts policy_)
  | _ => True
  end.

Definition owner_ok s : Prop :=
  match owner s with
  | OIdle => True
  | OStartJoin => thread_ s = Some PReturned
  | OStopJoin | ODtorJoin => stop_requested_ s = true /\ joinable s = true
  | ODestroyed => thread_ s = None
  | OTerminate => thread_ s = Some PReturned
  end.

Definition rl_inv (n : Z) s : Prop :=
  running_ s = in_run (thread_ s) /\ pc_ok n (thread_ s) /\ owner_ok s.

Lemma connects_snoc l a :
  connects (l ++ [a]) = match a with
                        | RStart true | RStarted => 0
                        | RConnect _ => connects l + 1
                        | _ => connects l
                        end.
Proof. unfold connects. by rewrite foldl_app. Qed.

Lemma rl_step_inv l s a s' :
  rl_inv (connects l) s -> rl_step s a s' -> rl_inv (connects (l ++ [a])) s'.
Proof.
  rewrite connects_snoc. unfold rl_inv. intros (Hr & Hp & Ho) Hstep.
  destruct Hstep as [s Eo|r q g|s Eo|r q g|s Eo|r q g|s a Et|s a ok Et|s a d Et|r q o g].
  - destruct s as [r q t o g]. cbn in Eo, Hr. subst r o. unfold pc_ok in *.
    destruct t as [[]|]; cbn in *; intuition lia.
  - unfold pc_ok in *. cbn in *. intuition lia.
  - destruct s as [r q t o g]. cbn in Eo, Hr. subst r o. unfold owner_ok.
    destruct t as [[]|]; cbn in *; intuition done.
  - unfold pc_ok in *. cbn in *. intuition done.
  - destruct s as [r q t o g]. cbn in Eo, Hr. subst r o. unfold owner_ok.
    destruct t as [[]|]; cbn in *; intuition done.
  - unfold pc_ok in *. cbn in *. intuition done.
  - unfold pc_ok, owner_ok, run_test in *. destruct s as [r q t o g]. cbn in *. subst r t. cbn in *.
    destruct q; [|destruct (0 <? max_attempts policy_) eqn:E1; cbn;
      [destruct (max_attempts policy_ <=? a) eqn:E2|]]; cbn; destruct o; intuition (try done; try lia).
  - unfold pc_ok, owner_ok, run_connected in *. destruct s as [r q t o g]. cbn in *. subst r t. cbn in *.
    destruct ok; cbn; [destruct o; intuition (try done; try lia)|].
    destruct (CalculateBackoff_reconnect policy_ a g) as [[d|] g']; cbn;
      [destruct (a + 1 <? 2 ^ 31)|]; destruct o; cbn in *; intuition (try done; try lia).
  - unfold pc_ok, owner_ok in *. destruct s as [r q t o g]. cbn in *. subst r t. cbn in *.
    destruct o; intuition (try done; try lia).
  - unfold pc_ok, owner_ok in *. cbn in *. destruct o; intuition (try done; try lia).
Qed.

Lemma rl_steps_inv g l s : rl_steps g l s -> rl_inv (connects l) s.
Proof.
  induction 1 as [|l s a s' _ IH Hstep]; [|by eapply rl_step_inv].
  unfold rl_inv, pc_ok, owner_ok. cbn. intuition lia.
Qed.

(** ** Stopping *)

(** Steps the thread still has to make once a stop was requested. *)
Definition stop_measure (t : option run_pc) : nat :=
  match t with
  | Some (PConnect _) => 4
  | Some (PWait _ _) => 3
  | Some (PTest _) => 2
  | Some PExit => 1
  | _ => 0
  end.

Lemma rl_step_stopping n s a s' :
  rl_inv n s -> owner s = OStopJoin \/ owner s = ODtorJoin -> rl_step s a s' ->
  (a = RJoined /\ thread_ s = Some PReturned) \/
  (owner s' = owner s /\ (stop_measure (thread_ s') < stop_measure (thread_ s))%nat).
Proof.
  intros (_ & _ & Ho) Hs Hstep. unfold owner_ok in Ho.
  destruct Hstep as [s Eo|r q g|s Eo|r q g|s Eo|r q g|s b Et|s b ok Et|s b d Et|r q o g];
    try (cbn in Hs; destruct Hs; congruence); [by left..| | | |]; right.
  - cbn. rewrite Et. unfold run_test. destruct Hs as [E|E]; rewrite E in Ho;
      destruct Ho as [-> _]; cbn; split; auto; lia.
  - rewrite Et. unfold run_connected. destruct ok; [cbn; split; [done|lia]|].
    destruct (CalculateBackoff_reconnect policy_ b (engine s)) as [[d|] g']; cbn;
      [destruct (_ <? _)|]; cbn; split; auto; lia.
  - cbn. rewrite Et. split; [done|cbn; lia].
  - cbn. split; [done|lia].
Qed.

Lemma rl_stopping_enabled n s :
  rl_inv n s -> owner s = OStopJoin \/ owner s = ODtorJoin -> thread_ s <> Some PUndefined ->
  exists a s', rl_step s a s'.
Proof.
  intros (Hr & _ & Ho) Hs Hu. unfold owner_ok in Ho. destruct s as [r q t o g]. cbn in *.
  assert (joinable (mkReconnectLoop r q t o g) = true) as Hj
    by (destruct Hs; subst o; apply Ho). destruct t as [[a|a|a d| | |]|]; try done.
  - do 2 eexists. by apply (rl_test _ a).
  - do 2 eexists. by apply (rl_connect _ a true).
  - do 2 eexists. by apply (rl_woken _ a d).
  - do 2 eexists. apply rl_exit.
  - destruct Hs; subst o; do 2 eexists; [apply rl_stop_joined|apply rl_dtor_joined].
Qed.

(** A continuation of a run. *)
Inductive rl_path : ReconnectLoop W -> list rl_label -> ReconnectLoop W -> Prop :=
  | path_nil s : rl_path s [] s
  | path_cons s a s' l s'' : rl_step s a s' -> rl_path s' l s'' -> rl_path s (a :: l) s''.

Definition is_connect (a : rl_label) : bool :=
  match a with RConnect _ => true | _ => false end.

Definition connect_calls (l : list rl_label) : nat :=
  length (filter (fun a => is_connect a = true) l).

Lemma rl_path_stopping g l0 s l s' :
  rl_steps g l0 s -> owner s = OStopJoin \/ owner s = ODtorJoin ->
  rl_path s l s' -> RJoined ∉ l ->
  rl_steps g (l0 ++ l) s' /\ owner s' = owner s /\
  (length l + stop_measure (thread_ s') <= stop_measure (thread_ s))%nat /\
  (connect_calls l <= if decide (stop_measure (thread_ s) = 4%nat) then 1 else 0)%nat.
Proof.
  intros Hr Hs Hpath. revert l0 Hr Hs.
  induction Hpath as [s|s a s1 l s2 Hstep Hpath IH]; intros l0 Hr Hs Hno.
  { rewrite app_nil_r. cbn. repeat split; try done. case_decide; cbn; lia. }
  destruct (rl_step_stopping _ _ _ _ (rl_steps_inv _ _ _ Hr) Hs Hstep)
    as [[-> _]|[Eo Hm]]; [destruct Hno; by apply list_elem_of_here|].
  destruct (IH (l0 ++ [a])) as (Hr2 & Eo2 & Hm2 & Hc2).
  - by eapply rl_snoc.
  - by rewrite Eo.
  - intros Hin. apply Hno. by apply list_elem_of_further.
  - rewrite <- app_assoc in Hr2. split; [done|]. split; [congruence|]. split; [cbn; lia|].
    assert (stop_measure (thread_ s) <= 4)%nat by (destruct (thread_ s) as [[]|]; cbn; lia).
    rewrite decide_False in Hc2 by lia. unfold connect_calls in *. rewrite filter_cons.
    destruct (decide (is_connect a = true)) as [Ha|Ha]; [|case_decide; lia].
    destruct a; try done. inversion Hstep; subst. rewrite decide_True; [cbn; lia|].
    match goal with E : thread_ s = Some (PConnect _) |- _ => by rewrite E end.
Qed.

(** ** Properties *)

(** The loop honours [max_attempts]: in every run of owner and thread, the
    connect function is called at most [max_attempts] times per [Start] when
    the bound is positive, the counter of [Run] is exactly the number of calls
    made so far, and [IsRunning] tells whether the thread is still in [Run]. *)
Theorem reconnect_attempts_bounded g l s :
  rl_steps g l s ->
  (0 < max_attempts policy_ -> connects l <= max_attempts policy_) /\
  (forall a, thread_ s = Some (PConnect a) -> a = connects l) /\
  IsRunning s = in_run (thread_ s).
Proof.
  intros Hs. destruct (rl_steps_inv g l s Hs) as (Hr & (_ & Hm & Hp) & _).
  split; [done|]. split; [|done]. intros a E. rewrite E in Hp. by destruct Hp.
Qed.

(** C19: [Stop] (and the destructor, when it has to wait) always returns: once
    it has requested the stop, every run makes at most four steps before the
    join returns, at most one of them a further connect call, and some step is
    always possible, so it cannot hang; the one exception is a thread lost to
    an undefined backoff. *)
Theorem Stop_returns g l0 s l s' :
  rl_steps g l0 s -> owner s = OStopJoin \/ owner s = ODtorJoin ->
  rl_path s l s' -> RJoined ∉ l ->
  (length l <= 4)%nat /\ (connect_calls l <= 1)%nat /\
  (thread_ s' = Some PUndefined \/ exists a s'', rl_step s' a s'').
Proof.
  intros Hr Hs Hp Hno. destruct (rl_path_stopping _ _ _ _ _ Hr Hs Hp Hno) as (Hr' & Eo & Hm & Hc).
  assert (stop_measure (thread_ s) <= 4)%nat by (destruct (thread_ s) as [[]|]; cbn; lia).
  split; [lia|]. split; [case_decide; lia|].
  destruct (decide (thread_ s' = Some PUndefined)) as [|Hne]; [by left|right].
  eapply rl_stopping_enabled; [by apply rl_steps_inv in Hr'|by rewrite Eo|done].
Qed.

(** A loop that ended by itself cannot be destroyed. Whenever the owner is
    idle, the destructor reaches [std::terminate] exactly when the thread has
    returned from [Run] and was not joined: [running_] is then false, so
    [Stop] returns before its join and the member [thread_] is destroyed while
    joinable. A first connection that succeeds is enough, also when [Stop] is
    called before. *)
Theorem destructor_terminates_after_success (g : W) :
  (forall l s, rl_steps g l s -> owner s = OIdle ->
     (owner (Destroy s) = OTerminate <-> thread_ s = Some PReturned)) /\
  exists s, rl_steps g [RStart true; RTest; RConnect true; RExit; RStop; RDestroy] s /\
    owner s = OTerminate.
Proof.
  split.
  - intros l s Hs Eo. destruct (rl_steps_inv _ _ _ Hs) as (Hr & _ & _).
    destruct s as [r q t o g']. cbn in *. subst.
    destruct t as [[]|]; cbn; split; intros E; try discriminate; done.
  - assert ((0 <? max_attempts policy_) && (max_attempts policy_ <=? 0) = false) as Et
      by (destruct (Z.ltb_spec 0 (max_attempts policy_)); cbn; lia).
    exists (mkReconnectLoop false false (Some PReturned) OTerminate g). split; [|done].
    apply rl_exec_sound. unfold rl_exec. cbn -[run_test]. rewrite decide_True by done. cbn -[run_test].
    unfold run_test. cbn -[Z.ltb Z.leb]. rewrite Et. cbn. rewrite decide_True by done. cbn.
    by rewrite decide_True.
Qed.

End loop.

Definition two_attempts : ReconnectPolicy := mkReconnectPolicy 2 1000 30000 2%float kFull 1024.

Definition failing_run : list rl_label :=
  [RStart true; RTest; RConnect false; RWoken; RTest; RConnect false; RWoken; RTest; RExit].

Definition failed_end : ReconnectLoop Z :=
  default (ReconnectLoop_init 1) (rl_exec two_attempts 1 failing_run).

Lemma reconnect_attempts_bounded_witness :
  connects failing_run = 2 /\ thread_ failed_end = Some PReturned /\
  IsRunning failed_end = in_run (thread_ failed_end).
Proof.
  split; [reflexivity|]. split; [vm_compute; reflexivity|].
  apply (reconnect_attempts_bounded two_attempts 1 failing_run failed_end).
  apply rl_exec_sound. vm_compute. reflexivity.
Defined.

Definition stopping_state : ReconnectLoop Z :=
  default (ReconnectLoop_init 1) (rl_exec two_attempts 1 [RStart true; RTest; RStop]).

Lemma Stop_returns_witness :
  exists s' a s'', rl_path two_attempts stopping_state [RConnect false; RWoken] s' /\
    rl_step two_attempts s' a s''.
Proof.
  assert (rl_steps two_attempts 1 [RStart true; RTest; RStop] stopping_state) as Hr
    by (apply rl_exec_sound; vm_compute; reflexivity).
  set (s1 := run_connected two_attempts 0 false stopping_state).
  set (s2 := with_thread (Some (PTest 1)) s1).
  assert (rl_path two_attempts stopping_state [RConnect false; RWoken] s2) as Hp.
  { apply (path_cons _ _ _ s1); [by apply rl_exec_step_sound|].
    apply (path_cons _ _ _ s2); [|constructor]. apply rl_exec_step_sound. vm_compute. reflexivity. }
  destruct (Stop_returns two_attempts 1 _ _ _ _ Hr (or_introl eq_refl) Hp)
    as (_ & _ & [Hu|(a & s'' & Ha)]).
  - rewrite !elem_of_cons. intros [H|[H|H]]; [discriminate|discriminate|by apply elem_of_nil in H].
  - discriminate Hu.
  - exists s2, a, s''. exact (conj Hp Ha).
Defined.
