(* ===== verification/Auth.v ===== *)
(** * Authentication

    Models src/internal/middleware/auth.cc and src/credential_provider.cc: the
    two ways a token reaches a call, [InjectAuthToken] on a [ClientContext]
    and the gRPC credentials plugin.  A provider is a handle; what its
    [GetToken] does is the world's. *)

From Stdlib Require Import ZArith Lia Ascii String.
From S2P Require Import Prelude Status.

Local Open Scope kubemq_scope.

(** User-supplied providers: [provider->GetToken()]. *)
Class Providers (W : Type) := get_token : nat -> M W (StatusOr string).

(** A [StaticTokenProvider] holds its token and returns it. *)
Record StaticTokenProvider := mkStaticTokenProvider { token_ : string }.

Definition GetToken (p : StaticTokenProvider) : StatusOr string := SValue (token_ p).

(** What the sources set on a [grpc::ClientContext]: metadata entries, in the
    order added, and a deadline, as milliseconds from now. *)
Record ClientContext := mkClientContext {
  ctx_metadata : list (string * string);
  ctx_deadline : option Z
}.

Definition ClientContext_new : ClientContext := mkClientContext [] None.

Definition AddMetadata (k v : string) (c : ClientContext) : ClientContext :=
  mkClientContext (ctx_metadata c ++ [(k, v)]) (ctx_deadline c).

Section auth.
Context {W : Type} `{Providers W}.

(** [None] is the null pointer; the context comes back with what was added. *)
Definition InjectAuthToken (context : option ClientContext) (auth_token : string)
    (provider : option nat) : M W (Status * option ClientContext) :=
  match context with
  | None => ret (StatusMsg kValidation "ClientContext is null", None)
  | Some c =>
      if negb (str_empty auth_token) then
        ret (StatusOk, Some (AddMetadata "authorization" auth_token c))
      else
        match provider with
        | Some p =>
            let! token_result := get_token p in
            match token_result with
            | SError s => ret (s, Some c)
            | SValue t =>
                if negb (str_empty t) then ret (StatusOk, Some (AddMetadata "authorization" t c))
                else ret (StatusOk, Some c)
            end
        | None => ret (StatusOk, Some c)
        end
  end.

Record AuthPlugin := mkAuthPlugin { auth_token_ : string; provider_ : option nat }.

Definition MakeAuthPlugin (auth_token : string) (provider : option nat) : AuthPlugin :=
  mkAuthPlugin auth_token provider.

(** Always [grpc::Status::OK]; the multimap comes back with what was added. *)
Definition GetMetadata (p : AuthPlugin) (metadata : option (list (string * string)))
    : M W (option (list (string * string))) :=
  let! token :=
    (if negb (str_empty (auth_token_ p)) then ret (auth_token_ p)
     else match provider_ p with
          | Some h =>
              let! result := get_token h in
              ret (match result with SValue t => t | SError _ => ""%string end)
          | None => ret ""%string
          end) in
  ret (match metadata with
       | Some m =>
           if negb (str_empty token) then Some (m ++ [("authorization"%string, token)]) else Some m
       | None => None
       end).

Definition IsBlocking (p : AuthPlugin) : bool :=
  match provider_ p with Some _ => true | None => false end.

(** ** Properties *)

(** The token a configuration yields: the static one when there is one, else
    what the provider answers now. *)
Definition resolve_token (auth_token : string) (provider : option nat)
    : M W (StatusOr string) :=
  if negb (str_empty auth_token) then ret (SValue auth_token)
  else match provider with Some p => get_token p | None => ret (SValue ""%string) end.

Definition with_token (t : string) (m : list (string * string)) : list (string * string) :=
  if str_empty t then m else m ++ [("authorization"%string, t)].

Lemma InjectAuthToken_resolve c auth_token provider w :
  InjectAuthToken (Some c) auth_token provider w =
    (let! r := resolve_token auth_token provider in
     ret (match r with
          | SValue t => (StatusOk, Some (mkClientContext (with_token t (ctx_metadata c)) (ctx_deadline c)))
          | SError s => (s, Some c)
          end)) w.
Proof.
  unfold InjectAuthToken, resolve_token, with_token, AddMetadata, bind, ret. destruct c as [m d]. cbn.
  destruct (str_empty auth_token) eqn:E; cbn; [|by rewrite E].
  destruct provider as [p|]; [|done].
  destruct (get_token p w) as [[t|s] w']; [|done]. by destruct (str_empty t).
Qed.

Lemma GetMetadata_resolve p m w :
  GetMetadata p (Some m) w =
    (let! r := resolve_token (auth_token_ p) (provider_ p) in
     ret (Some (match r with SValue t => with_token t m | SError _ => m end))) w.
Proof.
  unfold GetMetadata, resolve_token, with_token, bind, ret. destruct p as [tok pr]. cbn.
  destruct (str_empty tok) eqn:E; cbn; [|by rewrite E].
  destruct pr as [h|]; [|done].
  destruct (get_token h w) as [[t|s] w']; [|done]. by destruct (str_empty t).
Qed.

(** Both paths attach the same token: the static one if set, and then no
    provider is asked; else what the provider returns, asked exactly once; an
    empty token attaches nothing, and at most one entry is ever added, under
    [authorization]. They differ on a provider that fails: [InjectAuthToken]
    returns its error and leaves the context as it was, while the plugin lets
    the call go out without the token. A null context is a validation error
    and asks nobody. *)
Theorem auth_paths_agree (c : ClientContext) (auth_token : string) (provider : option nat) (w : W) :
  let r := fst (resolve_token auth_token provider w) in
  let w' := snd (resolve_token auth_token provider w) in
  InjectAuthToken (Some c) auth_token provider w =
    ((match r with SValue _ => StatusOk | SError s => s end,
      Some (mkClientContext (match r with
                             | SValue t => with_token t (ctx_metadata c)
                             | SError _ => ctx_metadata c
                             end) (ctx_deadline c))), w') /\
  GetMetadata (MakeAuthPlugin auth_token provider) (Some (ctx_metadata c)) w =
    (Some (match r with
           | SValue t => with_token t (ctx_metadata c)
           | SError _ => ctx_metadata c
           end), w') /\
  (str_empty auth_token = false -> r = SValue auth_token /\ w' = w) /\
  (str_empty auth_token = true -> provider = None -> r = SValue ""%string /\ w' = w) /\
  InjectAuthToken None auth_token provider w
    = ((StatusMsg kValidation "ClientContext is null", None), w).
Proof.
  intros r w'. subst r w'. rewrite InjectAuthToken_resolve, GetMetadata_resolve.
  cbn [MakeAuthPlugin auth_token_ provider_]. unfold bind, ret.
  destruct (resolve_token auth_token provider w) as [r w'] eqn:E. cbn.
  split; [destruct c; by destruct r|]. split; [by destruct r|].
  unfold resolve_token, ret in E.
  split; [intros Hs; rewrite Hs in E; cbn in E; by injection E as <- <-|].
  split; [intros Hs ->; rewrite Hs in E; cbn in E; by injection E as <- <-|done].
Qed.

End auth.

(** A provider that answers a token once and is then out of order. *)
#[export] Instance demo_providers : Providers nat :=
  fun _ n => match n with
             | O => (SError (StatusMsg kAuthentication "vault sealed"), O)
             | S m => (SValue "secret", m)
             end%string.

Example InjectAuthToken_run :
  fst (InjectAuthToken (Some ClientContext_new) "" (Some 0) 1)
    = (StatusOk, Some (mkClientContext [("authorization", "secret")] None))%string /\
  code_ (fst (fst (InjectAuthToken (Some ClientContext_new) "" (Some 0) 0))) = kAuthentication /\
  fst (GetMetadata (MakeAuthPlugin "" (Some 0)) (Some []) 0) = Some [].
Proof. by vm_compute. Qed.
