(* ===== verification/Tls.v ===== *)
(** * TLS configuration

    Models src/tls_config.cc and src/internal/transport/tls.cc: the factories
    of [TlsConfig] and [BuildChannelCredentials].  The file system is an
    interface; the credentials are what the sources hand to gRPC. *)

From Stdlib Require Import ZArith Lia Ascii String.
From S2P Require Import Prelude Status.

Local Open Scope kubemq_scope.
Local Open Scope string_scope.

Record TlsConfig := mkTlsConfig {
  ca_cert_file_ : string;
  cert_file_ : string;
  key_file_ : string;
  ca_pem_ : string;
  cert_pem_ : string;
  key_pem_ : string;
  server_name_override_ : string;
  insecure_skip_verify_ : bool;
  enabled_ : bool;
  mtls_ : bool
}.

Definition TlsConfig_default : TlsConfig :=
  mkTlsConfig "" "" "" "" "" "" "" false false false.

Definition FromCertFile (ca_cert_file : string) : TlsConfig :=
  mkTlsConfig ca_cert_file "" "" "" "" "" "" false true false.
Definition FromPem (ca_pem : string) : TlsConfig :=
  mkTlsConfig "" "" "" ca_pem "" "" "" false true false.
Definition FromMTLS (cert_file key_file ca_file : string) : TlsConfig :=
  mkTlsConfig ca_file cert_file key_file "" "" "" "" false true true.
Definition FromMTLSPem (cert_pem key_pem ca_pem : string) : TlsConfig :=
  mkTlsConfig "" "" "" ca_pem cert_pem key_pem "" false true true.

Definition set_server_name_override (name : string) (c : TlsConfig) : TlsConfig :=
  let 'mkTlsConfig a b k ap bp kp _ i e m := c in mkTlsConfig a b k ap bp kp name i e m.
Definition set_insecure_skip_verify (skip : bool) (c : TlsConfig) : TlsConfig :=
  let 'mkTlsConfig a b k ap bp kp n _ e m := c in mkTlsConfig a b k ap bp kp n skip e m.

(** [std::ifstream(path)] and its whole content: [None] when it does not open. *)
Class FileSystem (W : Type) := open_and_read : string -> M W (option string).

(** [grpc::InsecureChannelCredentials()] and [grpc::SslCredentials(opts)]. *)
Inductive ChannelCredentials :=
  | InsecureChannelCredentials
  | SslCredentials (pem_root_certs pem_cert_chain pem_private_key : string).

Section tls.
Context {W : Type} `{FileSystem W}.

Definition ReadFile (path : string) : M W (StatusOr string) :=
  if str_empty path then
    ret (SError (MakeError kValidation "TLS file path is empty" "ReadFile" "" ""))
  else
    let! file := open_and_read path in
    match file with
    | None => ret (SError (MakeError kValidation ("failed to open TLS file: " +:+ path) "ReadFile" "" ""))
    | Some content =>
        if str_empty content then
          ret (SError (MakeError kValidation ("TLS file is empty: " +:+ path) "ReadFile" "" ""))
        else ret (SValue content)
    end.

(** [if (!pem.empty()) ... else if (!file.empty()) ...]: the code repeats it
    for each of the three fields, which start empty. *)
Definition pem_or_file (pem file : string) : M W (StatusOr string) :=
  if negb (str_empty pem) then ret (SValue pem)
  else if negb (str_empty file) then ReadFile file
  else ret (SValue "").

Definition BuildChannelCredentials (config : TlsConfig) : M W (StatusOr ChannelCredentials) :=
  if negb (enabled_ config) then ret (SValue InsecureChannelCredentials)
  else if insecure_skip_verify_ config then
    ret (SError (MakeError kValidation
      ("insecure_skip_verify is not supported in the C++ SDK. "
       +:+ "Use a custom root CA certificate instead.") "TlsConfig::Validate" "" ""))
  else
    let? pem_root_certs := pem_or_file (ca_pem_ config) (ca_cert_file_ config) in
    if mtls_ config then
      let? pem_cert_chain := pem_or_file (cert_pem_ config) (cert_file_ config) in
      let? pem_private_key := pem_or_file (key_pem_ config) (key_file_ config) in
      ret (SValue (SslCredentials pem_root_certs pem_cert_chain pem_private_key))
    else ret (SValue (SslCredentials pem_root_certs "" "")).

(** ** Properties *)

(** Where the text of a field may come from. *)
Definition from_source (pem file text : string) : Prop :=
  if str_empty pem then
    if str_empty file then text = ""
    else text <> "" /\ exists w w', open_and_read file w = (Some text, w')
  else text = pem.

Lemma pem_or_file_spec pem file w :
  match fst (pem_or_file pem file w) with
  | SValue t => from_source pem file t /\
      (str_empty pem = false \/ str_empty file = true -> snd (pem_or_file pem file w) = w)
  | SError s => code_ s = kValidation /\ str_empty pem = true /\ str_empty file = false
  end.
Proof.
  unfold pem_or_file, from_source, ReadFile, bind, ret.
  destruct (str_empty pem) eqn:Ep; cbn; [|done].
  destruct (str_empty file) eqn:Ef; cbn; [done|].
  destruct (open_and_read file w) as [[t|] w'] eqn:E; cbn; [|done].
  destruct (str_empty t) eqn:Et; cbn; [done|]. split; [|by intros [?|?]].
  split; [by apply str_empty_false|eauto].
Qed.

(** C32: the credentials are what the configuration asks for or an error, never
    something weaker. A disabled configuration gives insecure credentials and
    is the only one that does; [insecure_skip_verify] is refused, before any
    file is read; every other outcome is a validation error or TLS
    credentials whose root, chain and key come each from its PEM text when
    there is one, else from the non-empty content of its file, chain and key
    staying empty without mTLS; and a configuration given by PEM text reads no
    file and always succeeds. *)
Theorem BuildChannelCredentials_never_weaker (config : TlsConfig) (w : W) :
  (fst (BuildChannelCredentials config w) = SValue InsecureChannelCredentials
     <-> enabled_ config = false) /\
  match fst (BuildChannelCredentials config w) with
  | SValue InsecureChannelCredentials => snd (BuildChannelCredentials config w) = w
  | SValue (SslCredentials root chain key) =>
      insecure_skip_verify_ config = false /\
      from_source (ca_pem_ config) (ca_cert_file_ config) root /\
      (if mtls_ config then
         from_source (cert_pem_ config) (cert_file_ config) chain /\
         from_source (key_pem_ config) (key_file_ config) key
       else chain = "" /\ key = "")
  | SError s => code_ s = kValidation /\
      (insecure_skip_verify_ config = true -> snd (BuildChannelCredentials config w) = w)
  end /\
  (forall ca cert key, str_empty ca = false -> str_empty cert = false -> str_empty key = false ->
     BuildChannelCredentials (FromPem ca) w = (SValue (SslCredentials ca "" ""), w) /\
     BuildChannelCredentials (FromMTLSPem cert key ca) w = (SValue (SslCredentials ca cert key), w)).
Proof.
  split; [|split].
  1,2: unfold BuildChannelCredentials; destruct (enabled_ config); cbn [negb]; [|done];
    destruct (insecure_skip_verify_ config) eqn:Es; [done|]; unfold bind_statusor, bind, ret;
    pose proof (pem_or_file_spec (ca_pem_ config) (ca_cert_file_ config) w) as H1;
    destruct (pem_or_file (ca_pem_ config) (ca_cert_file_ config) w) as [[root|s] w1]; cbn in *;
    [|intuition congruence]; destruct (mtls_ config); [|cbn; intuition congruence];
    pose proof (pem_or_file_spec (cert_pem_ config) (cert_file_ config) w1) as H2;
    destruct (pem_or_file (cert_pem_ config) (cert_file_ config) w1) as [[chain|s] w2]; cbn in *;
    [|intuition congruence];
    pose proof (pem_or_file_spec (key_pem_ config) (key_file_ config) w2) as H3;
    destruct (pem_or_file (key_pem_ config) (key_file_ config) w2) as [[key|s] w3]; cbn in *;
    intuition congruence.
  intros ca cert key Ha Hc Hk.
  unfold BuildChannelCredentials, pem_or_file, bind_statusor, bind, ret. cbn.
  rewrite Ha, Hc, Hk. cbn. split; [done|]. done.
Qed.

End tls.

(** A file system given by an association list. *)
#[export] Instance demo_fs : FileSystem (list (string * string)) :=
  fun path w => (snd <$> List.find (fun e => String.eqb (fst e) path) w, w).

Example BuildChannelCredentials_run :
  let fs := [("ca.pem", "CA"); ("cert.pem", "CERT"); ("key.pem", "")] in
  fst (BuildChannelCredentials (FromCertFile "ca.pem") fs) = SValue (SslCredentials "CA" "" "") /\
  fst (BuildChannelCredentials (FromMTLS "cert.pem" "key.pem" "ca.pem") fs)
    = SError (MakeError kValidation "TLS file is empty: key.pem" "ReadFile" "" "").
Proof. by vm_compute. Qed.
