(* ===== verification/ClientOptions.v ===== *)
(** * Client options

    Models src/client_options.cc with the defaults of
    include/kubemq/client_options.h and types.h: the setters, the two
    [set_address] and [Validate].  [std::chrono] durations are milliseconds,
    callbacks, providers, loggers and the opaque pointers are handles. *)

From Stdlib Require Import ZArith Lia Ascii String Floats.
From S2P Require Import Prelude Status Random Double Backoff Tls.

Local Open Scope Z_scope.
Local Open Scope kubemq_scope.

(** ** Defaults of types.h, in milliseconds and bytes *)

Definition kDefaultConnectionTimeout : Z := 10000.
Definition kDefaultSendTimeout : Z := 5000.
Definition kDefaultRPCTimeout : Z := 10000.
Definition kDefaultDrainTimeout : Z := 5000.
Definition kDefaultKeepaliveTime : Z := 10000.
Definition kDefaultKeepaliveTimeout : Z := 20000.
Definition kDefaultCallbackTimeout : Z := 30000.
Definition kDefaultQueueRecvTimeout : Z := 10000.
Definition kDefaultQueuePollTimeout : Z := 30000.
Definition kDefaultSubscriptionBufferSize : Z := 10.
Definition kDefaultMaxReceiveMessageSize : Z := 4 * 1024 * 1024.
Definition kDefaultMaxSendMessageSize : Z := 100 * 1024 * 1024.
Definition kDefaultMaxConcurrentCallbacks : Z := 1.

(** ** State and setters *)

Record ClientOptions := mkClientOptions {
  host_ : string;
  port_ : Z;
  client_id_ : string;
  opt_auth_token_ : string;
  credential_provider_ : option nat;
  tls_config_ : TlsConfig;
  connection_timeout_ : Z;
  reconnect_policy_ : ReconnectPolicy;
  max_receive_message_size_ : Z;
  max_send_message_size_ : Z;
  wait_for_ready_ : bool;
  check_connection_ : bool;
  keepalive_time_ : Z;
  keepalive_timeout_ : Z;
  permit_keepalive_without_stream_ : bool;
  drain_timeout_ : Z;
  subscription_buffer_size_ : Z;
  retry_policy_ : RetryPolicy;
  default_channel_ : string;
  default_cache_ttl_ : Z;
  cb_connected_ : option nat;
  cb_disconnected_ : option nat;
  cb_reconnecting_ : option nat;
  cb_reconnected_ : option nat;
  cb_closed_ : option nat;
  cb_buffer_drain_ : option nat;
  max_concurrent_callbacks_ : Z;
  callback_timeout_ : Z;
  logger_ : option nat;
  tracer_provider_ : option nat;
  meter_provider_ : option nat
}.

Definition set_client_id (id : string) (o : ClientOptions) : ClientOptions :=
  let 'mkClientOptions x0 x1 _ x3 x4 x5 x6 x7 x8 x9 x10 x11 x12 x13 x14 x15 x16 x17 x18 x19 x20
    x21 x22 x23 x24 x25 x26 x27 x28 x29 x30 := o in
  mkClientOptions x0 x1 id x3 x4 x5 x6 x7 x8 x9 x10 x11 x12 x13 x14 x15 x16 x17 x18 x19 x20 x21
    x22 x23 x24 x25 x26 x27 x28 x29 x30.
Definition set_auth_token (token : string) (o : ClientOptions) : ClientOptions :=
  let 'mkClientOptions x0 x1 x2 _ x4 x5 x6 x7 x8 x9 x10 x11 x12 x13 x14 x15 x16 x17 x18 x19 x20
    x21 x22 x23 x24 x25 x26 x27 x28 x29 x30 := o in
  mkClientOptions x0 x1 x2 token x4 x5 x6 x7 x8 x9 x10 x11 x12 x13 x14 x15 x16 x17 x18 x19 x20
    x21 x22 x23 x24 x25 x26 x27 x28 x29 x30.
Definition set_credential_provider (provider : option nat) (o : ClientOptions) : ClientOptions :=
  let 'mkClientOptions x0 x1 x2 x3 _ x5 x6 x7 x8 x9 x10 x11 x12 x13 x14 x15 x16 x17 x18 x19 x20
    x21 x22 x23 x24 x25 x26 x27 x28 x29 x30 := o in
  mkClientOptions x0 x1 x2 x3 provider x5 x6 x7 x8 x9 x10 x11 x12 x13 x14 x15 x16 x17 x18 x19
    x20 x21 x22 x23 x24 x25 x26 x27 x28 x29 x30.
Definition set_tls_config (config : TlsConfig) (o : ClientOptions) : ClientOptions :=
  let 'mkClientOptions x0 x1 x2 x3 x4 _ x6 x7 x8 x9 x10 x11 x12 x13 x14 x15 x16 x17 x18 x19 x20
    x21 x22 x23 x24 x25 x26 x27 x28 x29 x30 := o in
  mkClientOptions x0 x1 x2 x3 x4 config x6 x7 x8 x9 x10 x11 x12 x13 x14 x15 x16 x17 x18 x19 x20
    x21 x22 x23 x24 x25 x26 x27 x28 x29 x30.
Definition set_connection_timeout (timeout : Z) (o : ClientOptions) : ClientOptions :=
  let 'mkClientOptions x0 x1 x2 x3 x4 x5 _ x7 x8 x9 x10 x11 x12 x13 x14 x15 x16 x17 x18 x19 x20
    x21 x22 x23 x24 x25 x26 x27 x28 x29 x30 := o in
  mkClientOptions x0 x1 x2 x3 x4 x5 timeout x7 x8 x9 x10 x11 x12 x13 x14 x15 x16 x17 x18 x19 x20
    x21 x22 x23 x24 x25 x26 x27 x28 x29 x30.
Definition set_reconnect_policy (policy : ReconnectPolicy) (o : ClientOptions) : ClientOptions :=
  let 'mkClientOptions x0 x1 x2 x3 x4 x5 x6 _ x8 x9 x10 x11 x12 x13 x14 x15 x16 x17 x18 x19 x20
    x21 x22 x23 x24 x25 x26 x27 x28 x29 x30 := o in
  mkClientOptions x0 x1 x2 x3 x4 x5 x6 policy x8 x9 x10 x11 x12 x13 x14 x15 x16 x17 x18 x19 x20
    x21 x22 x23 x24 x25 x26 x27 x28 x29 x30.
Definition set_max_receive_message_size (bytes : Z) (o : ClientOptions) : ClientOptions :=
  let 'mkClientOptions x0 x1 x2 x3 x4 x5 x6 x7 _ x9 x10 x11 x12 x13 x14 x15 x16 x17 x18 x19 x20
    x21 x22 x23 x24 x25 x26 x27 x28 x29 x30 := o in
  mkClientOptions x0 x1 x2 x3 x4 x5 x6 x7 bytes x9 x10 x11 x12 x13 x14 x15 x16 x17 x18 x19 x20
    x21 x22 x23 x24 x25 x26 x27 x28 x29 x30.
Definition set_max_send_message_size (bytes : Z) (o : ClientOptions) : ClientOptions :=
  let 'mkClientOptions x0 x1 x2 x3 x4 x5 x6 x7 x8 _ x10 x11 x12 x13 x14 x15 x16 x17 x18 x19 x20
    x21 x22 x23 x24 x25 x26 x27 x28 x29 x30 := o in
  mkClientOptions x0 x1 x2 x3 x4 x5 x6 x7 x8 bytes x10 x11 x12 x13 x14 x15 x16 x17 x18 x19 x20
    x21 x22 x23 x24 x25 x26 x27 x28 x29 x30.
Definition set_wait_for_ready (wait : bool) (o : ClientOptions) : ClientOptions :=
  let 'mkClientOptions x0 x1 x2 x3 x4 x5 x6 x7 x8 x9 _ x11 x12 x13 x14 x15 x16 x17 x18 x19 x20
    x21 x22 x23 x24 x25 x26 x27 x28 x29 x30 := o in
  mkClientOptions x0 x1 x2 x3 x4 x5 x6 x7 x8 x9 wait x11 x12 x13 x14 x15 x16 x17 x18 x19 x20 x21
    x22 x23 x24 x25 x26 x27 x28 x29 x30.
Definition set_check_connection (check : bool) (o : ClientOptions) : ClientOptions :=
  let 'mkClientOptions x0 x1 x2 x3 x4 x5 x6 x7 x8 x9 x10 _ x12 x13 x14 x15 x16 x17 x18 x19 x20
    x21 x22 x23 x24 x25 x26 x27 x28 x29 x30 := o in
  mkClientOptions x0 x1 x2 x3 x4 x5 x6 x7 x8 x9 x10 check x12 x13 x14 x15 x16 x17 x18 x19 x20
    x21 x22 x23 x24 x25 x26 x27 x28 x29 x30.
Definition set_keepalive_time (time : Z) (o : ClientOptions) : ClientOptions :=
  let 'mkClientOptions x0 x1 x2 x3 x4 x5 x6 x7 x8 x9 x10 x11 _ x13 x14 x15 x16 x17 x18 x19 x20
    x21 x22 x23 x24 x25 x26 x27 x28 x29 x30 := o in
  mkClientOptions x0 x1 x2 x3 x4 x5 x6 x7 x8 x9 x10 x11 time x13 x14 x15 x16 x17 x18 x19 x20 x21
    x22 x23 x24 x25 x26 x27 x28 x29 x30.
Definition set_keepalive_timeout (timeout : Z) (o : ClientOptions) : ClientOptions :=
  let 'mkClientOptions x0 x1 x2 x3 x4 x5 x6 x7 x8 x9 x10 x11 x12 _ x14 x15 x16 x17 x18 x19 x20
    x21 x22 x23 x24 x25 x26 x27 x28 x29 x30 := o in
  mkClientOptions x0 x1 x2 x3 x4 x5 x6 x7 x8 x9 x10 x11 x12 timeout x14 x15 x16 x17 x18 x19 x20
    x21 x22 x23 x24 x25 x26 x27 x28 x29 x30.
Definition set_permit_keepalive_without_stream (permit : bool) (o : ClientOptions) : ClientOptions :=
  let 'mkClientOptions x0 x1 x2 x3 x4 x5 x6 x7 x8 x9 x10 x11 x12 x13 _ x15 x16 x17 x18 x19 x20
    x21 x22 x23 x24 x25 x26 x27 x28 x29 x30 := o in
  mkClientOptions x0 x1 x2 x3 x4 x5 x6 x7 x8 x9 x10 x11 x12 x13 permit x15 x16 x17 x18 x19 x20
    x21 x22 x23 x24 x25 x26 x27 x28 x29 x30.
Definition set_drain_timeout (timeout : Z) (o : ClientOptions) : ClientOptions :=
  let 'mkClientOptions x0 x1 x2 x3 x4 x5 x6 x7 x8 x9 x10 x11 x12 x13 x14 _ x16 x17 x18 x19 x20
    x21 x22 x23 x24 x25 x26 x27 x28 x29 x30 := o in
  mkClientOptions x0 x1 x2 x3 x4 x5 x6 x7 x8 x9 x10 x11 x12 x13 x14 timeout x16 x17 x18 x19 x20
    x21 x22 x23 x24 x25 x26 x27 x28 x29 x30.
Definition set_subscription_buffer_size (size : Z) (o : ClientOptions) : ClientOptions :=
  let 'mkClientOptions x0 x1 x2 x3 x4 x5 x6 x7 x8 x9 x10 x11 x12 x13 x14 x15 _ x17 x18 x19 x20
    x21 x22 x23 x24 x25 x26 x27 x28 x29 x30 := o in
  mkClientOptions x0 x1 x2 x3 x4 x5 x6 x7 x8 x9 x10 x11 x12 x13 x14 x15 size x17 x18 x19 x20 x21
    x22 x23 x24 x25 x26 x27 x28 x29 x30.
Definition set_retry_policy (policy : RetryPolicy) (o : ClientOptions) : ClientOptions :=
  let 'mkClientOptions x0 x1 x2 x3 x4 x5 x6 x7 x8 x9 x10 x11 x12 x13 x14 x15 x16 _ x18 x19 x20
    x21 x22 x23 x24 x25 x26 x27 x28 x29 x30 := o in
  mkClientOptions x0 x1 x2 x3 x4 x5 x6 x7 x8 x9 x10 x11 x12 x13 x14 x15 x16 policy x18 x19 x20
    x21 x22 x23 x24 x25 x26 x27 x28 x29 x30.
Definition set_default_channel (channel : string) (o : ClientOptions) : ClientOptions :=
  let 'mkClientOptions x0 x1 x2 x3 x4 x5 x6 x7 x8 x9 x10 x11 x12 x13 x14 x15 x16 x17 _ x19 x20
    x21 x22 x23 x24 x25 x26 x27 x28 x29 x30 := o in
  mkClientOptions x0 x1 x2 x3 x4 x5 x6 x7 x8 x9 x10 x11 x12 x13 x14 x15 x16 x17 channel x19 x20
    x21 x22 x23 x24 x25 x26 x27 x28 x29 x30.
Definition set_default_cache_ttl (ttl : Z) (o : ClientOptions) : ClientOptions :=
  let 'mkClientOptions x0 x1 x2 x3 x4 x5 x6 x7 x8 x9 x10 x11 x12 x13 x14 x15 x16 x17 x18 _ x20
    x21 x22 x23 x24 x25 x26 x27 x28 x29 x30 := o in
  mkClientOptions x0 x1 x2 x3 x4 x5 x6 x7 x8 x9 x10 x11 x12 x13 x14 x15 x16 x17 x18 ttl x20 x21
    x22 x23 x24 x25 x26 x27 x28 x29 x30.
Definition set_on_connected (callback : option nat) (o : ClientOptions) : ClientOptions :=
  let 'mkClientOptions x0 x1 x2 x3 x4 x5 x6 x7 x8 x9 x10 x11 x12 x13 x14 x15 x16 x17 x18 x19 _
    x21 x22 x23 x24 x25 x26 x27 x28 x29 x30 := o in
  mkClientOptions x0 x1 x2 x3 x4 x5 x6 x7 x8 x9 x10 x11 x12 x13 x14 x15 x16 x17 x18 x19 callback
    x21 x22 x23 x24 x25 x26 x27 x28 x29 x30.
Definition set_on_disconnected (callback : option nat) (o : ClientOptions) : ClientOptions :=
  let 'mkClientOptions x0 x1 x2 x3 x4 x5 x6 x7 x8 x9 x10 x11 x12 x13 x14 x15 x16 x17 x18 x19 x20
    _ x22 x23 x24 x25 x26 x27 x28 x29 x30 := o in
  mkClientOptions x0 x1 x2 x3 x4 x5 x6 x7 x8 x9 x10 x11 x12 x13 x14 x15 x16 x17 x18 x19 x20
    callback x22 x23 x24 x25 x26 x27 x28 x29 x30.
Definition set_on_reconnecting (callback : option nat) (o : ClientOptions) : ClientOptions :=
  let 'mkClientOptions x0 x1 x2 x3 x4 x5 x6 x7 x8 x9 x10 x11 x12 x13 x14 x15 x16 x17 x18 x19 x20
    x21 _ x23 x24 x25 x26 x27 x28 x29 x30 := o in
  mkClientOptions x0 x1 x2 x3 x4 x5 x6 x7 x8 x9 x10 x11 x12 x13 x14 x15 x16 x17 x18 x19 x20 x21
    callback x23 x24 x25 x26 x27 x28 x29 x30.
Definition set_on_reconnected (callback : option nat) (o : ClientOptions) : ClientOptions :=
  let 'mkClientOptions x0 x1 x2 x3 x4 x5 x6 x7 x8 x9 x10 x11 x12 x13 x14 x15 x16 x17 x18 x19 x20
    x21 x22 _ x24 x25 x26 x27 x28 x29 x30 := o in
  mkClientOptions x0 x1 x2 x3 x4 x5 x6 x7 x8 x9 x10 x11 x12 x13 x14 x15 x16 x17 x18 x19 x20 x21
    x22 callback x24 x25 x26 x27 x28 x29 x30.
Definition set_on_closed (callback : option nat) (o : ClientOptions) : ClientOptions :=
  let 'mkClientOptions x0 x1 x2 x3 x4 x5 x6 x7 x8 x9 x10 x11 x12 x13 x14 x15 x16 x17 x18 x19 x20
    x21 x22 x23 _ x25 x26 x27 x28 x29 x30 := o in
  mkClientOptions x0 x1 x2 x3 x4 x5 x6 x7 x8 x9 x10 x11 x12 x13 x14 x15 x16 x17 x18 x19 x20 x21
    x22 x23 callback x25 x26 x27 x28 x29 x30.
Definition set_on_buffer_drain (callback : option nat) (o : ClientOptions) : ClientOptions :=
  let 'mkClientOptions x0 x1 x2 x3 x4 x5 x6 x7 x8 x9 x10 x11 x12 x13 x14 x15 x16 x17 x18 x19 x20
    x21 x22 x23 x24 _ x26 x27 x28 x29 x30 := o in
  mkClientOptions x0 x1 x2 x3 x4 x5 x6 x7 x8 x9 x10 x11 x12 x13 x14 x15 x16 x17 x18 x19 x20 x21
    x22 x23 x24 callback x26 x27 x28 x29 x30.
Definition set_max_concurrent_callbacks (n : Z) (o : ClientOptions) : ClientOptions :=
  let 'mkClientOptions x0 x1 x2 x3 x4 x5 x6 x7 x8 x9 x10 x11 x12 x13 x14 x15 x16 x17 x18 x19 x20
    x21 x22 x23 x24 x25 _ x27 x28 x29 x30 := o in
  mkClientOptions x0 x1 x2 x3 x4 x5 x6 x7 x8 x9 x10 x11 x12 x13 x14 x15 x16 x17 x18 x19 x20 x21
    x22 x23 x24 x25 n x27 x28 x29 x30.
Definition set_callback_timeout (timeout : Z) (o : ClientOptions) : ClientOptions :=
  let 'mkClientOptions x0 x1 x2 x3 x4 x5 x6 x7 x8 x9 x10 x11 x12 x13 x14 x15 x16 x17 x18 x19 x20
    x21 x22 x23 x24 x25 x26 _ x28 x29 x30 := o in
  mkClientOptions x0 x1 x2 x3 x4 x5 x6 x7 x8 x9 x10 x11 x12 x13 x14 x15 x16 x17 x18 x19 x20 x21
    x22 x23 x24 x25 x26 timeout x28 x29 x30.
Definition set_logger (logger : option nat) (o : ClientOptions) : ClientOptions :=
  let 'mkClientOptions x0 x1 x2 x3 x4 x5 x6 x7 x8 x9 x10 x11 x12 x13 x14 x15 x16 x17 x18 x19 x20
    x21 x22 x23 x24 x25 x26 x27 _ x29 x30 := o in
  mkClientOptions x0 x1 x2 x3 x4 x5 x6 x7 x8 x9 x10 x11 x12 x13 x14 x15 x16 x17 x18 x19 x20 x21
    x22 x23 x24 x25 x26 x27 logger x29 x30.
Definition set_tracer_provider (provider : option nat) (o : ClientOptions) : ClientOptions :=
  let 'mkClientOptions x0 x1 x2 x3 x4 x5 x6 x7 x8 x9 x10 x11 x12 x13 x14 x15 x16 x17 x18 x19 x20
    x21 x22 x23 x24 x25 x26 x27 x28 _ x30 := o in
  mkClientOptions x0 x1 x2 x3 x4 x5 x6 x7 x8 x9 x10 x11 x12 x13 x14 x15 x16 x17 x18 x19 x20 x21
    x22 x23 x24 x25 x26 x27 x28 provider x30.
Definition set_meter_provider (provider : option nat) (o : ClientOptions) : ClientOptions :=
  let 'mkClientOptions x0 x1 x2 x3 x4 x5 x6 x7 x8 x9 x10 x11 x12 x13 x14 x15 x16 x17 x18 x19 x20
    x21 x22 x23 x24 x25 x26 x27 x28 x29 _ := o in
  mkClientOptions x0 x1 x2 x3 x4 x5 x6 x7 x8 x9 x10 x11 x12 x13 x14 x15 x16 x17 x18 x19 x20 x21
    x22 x23 x24 x25 x26 x27 x28 x29 provider.
Definition set_address_host_port (host : string) (port : Z) (o : ClientOptions) : ClientOptions :=
  let 'mkClientOptions _ _ x2 x3 x4 x5 x6 x7 x8 x9 x10 x11 x12 x13 x14 x15 x16 x17 x18 x19 x20
    x21 x22 x23 x24 x25 x26 x27 x28 x29 x30 := o in
  mkClientOptions host port x2 x3 x4 x5 x6 x7 x8 x9 x10 x11 x12 x13 x14 x15 x16 x17 x18 x19 x20
    x21 x22 x23 x24 x25 x26 x27 x28 x29 x30.

Definition ClientOptions_default : ClientOptions :=
  mkClientOptions "localhost" 50000 "" "" None TlsConfig_default kDefaultConnectionTimeout
    ReconnectPolicy_default kDefaultMaxReceiveMessageSize kDefaultMaxSendMessageSize true true
    kDefaultKeepaliveTime kDefaultKeepaliveTimeout true kDefaultDrainTimeout
    kDefaultSubscriptionBufferSize RetryPolicy_default "" 0 None None None None None None
    kDefaultMaxConcurrentCallbacks kDefaultCallbackTimeout None None None.

(** ** [std::stoi], base 10

    Leading white space, a sign, then the longest run of digits; what follows
    is ignored.  [None] when it throws: no digit, or a value outside [int]. *)

Definition is_space (c : ascii) : bool :=
  let n := N_of_ascii c in N.eqb n 32 || (N.leb 9 n && N.leb n 13).

Definition digit_val (c : ascii) : option Z :=
  let n := Z.of_N (N_of_ascii c) in
  if (48 <=? n) && (n <=? 57) then Some (n - 48) else None.

Fixpoint skip_spaces (s : string) : string :=
  match s with
  | String c s' => if is_space c then skip_spaces s' else s
  | EmptyString => s
  end.

Fixpoint scan_digits (s : string) (acc : Z) : Z :=
  match s with
  | String c s' => match digit_val c with Some d => scan_digits s' (10 * acc + d) | None => acc end
  | EmptyString => acc
  end.

Definition scan_unsigned (s : string) : option Z :=
  match s with
  | String c _ => match digit_val c with Some _ => Some (scan_digits s 0) | None => None end
  | EmptyString => None
  end.

Definition stoi (s : string) : option Z :=
  let z := match skip_spaces s with
           | String c s' =>
               if Ascii.eqb c "-" then option_map Z.opp (scan_unsigned s')
               else if Ascii.eqb c "+" then scan_unsigned s'
               else scan_unsigned (String c s')
           | EmptyString => None
           end in
  match z with
  | Some v => if bool_decide (- 2 ^ 31 <= v < 2 ^ 31) then Some v else None
  | None => None
  end.

(** [set_address("host:port")]; the sizes are compared as [size_t], and
    [npos], a missing colon, is tested first. *)
Definition set_address (address : string) (o : ClientOptions) : ClientOptions :=
  match str_rfind ":" address with
  | Some pos =>
      if Z.of_nat pos <? Z.of_nat (String.length address) - 1 then
        set_address_host_port (str_take pos address)
          (match stoi (str_drop (S pos) address) with Some p => p | None => 0 end) o
      else set_address_host_port address 0 o
  | None => set_address_host_port address 0 o
  end.

(** ** [Validate] *)

Definition options_error (message : string) : Status :=
  mkStatus kValidation message "ClientOptions::Validate" "" "".

Definition Validate (o : ClientOptions) : Status :=
  if str_empty (host_ o) then options_error "host is required"
  else if port_ o <=? 0 then options_error "port must be > 0"
  else if 65535 <? port_ o then options_error "port must be <= 65535"
  else if subscription_buffer_size_ o <=? 0 then
    options_error "subscription_buffer_size must be > 0"
  else if max_receive_message_size_ o <=? 0 then
    options_error "max_receive_message_size must be > 0"
  else if max_send_message_size_ o <=? 0 then
    options_error "max_send_message_size must be > 0"
  else if connection_timeout_ o <=? 0 then options_error "connection_timeout must be > 0"
  else if max_concurrent_callbacks_ o <=? 0 then
    options_error "max_concurrent_callbacks must be > 0"
  else if (max_retries (retry_policy_ o) <? 0) || (10 <? max_retries (retry_policy_ o)) then
    options_error "retry_policy max_retries must be 0-10"
  else StatusOk.

(** ** Properties *)

(** What [Validate] asks beside the address. *)
Definition limits_ok (o : ClientOptions) : Prop :=
  0 < subscription_buffer_size_ o /\ 0 < max_receive_message_size_ o /\
  0 < max_send_message_size_ o /\ 0 < connection_timeout_ o /\
  0 < max_concurrent_callbacks_ o /\ 0 <= max_retries (retry_policy_ o) <= 10.

Lemma Validate_spec o :
  (status_ok (Validate o) = true <->
     host_ o <> ""%string /\ 1 <= port_ o <= 65535 /\ limits_ok o) /\
  (status_ok (Validate o) = false ->
     code_ (Validate o) = kValidation /\ operation_ (Validate o) = "ClientOptions::Validate"%string).
Proof.
  unfold Validate, limits_ok. destruct (str_empty (host_ o)) eqn:Eh.
  { apply str_empty_true in Eh. split; [|done]. split; [done|]. by intros [[] _]. }
  apply str_empty_false in Eh.
  repeat match goal with
         | |- context [if ?a <=? ?b then _ else _] => destruct (Z.leb_spec a b)
         | |- context [if ?a <? ?b then _ else _] => destruct (Z.ltb_spec a b)
         | |- context [(?a <? ?b) || (?c <? ?d)] =>
             destruct (Z.ltb_spec a b), (Z.ltb_spec c d); cbn [orb]
         end; (split; [|done]); (split; [try done|]); intros Hall;
    try done; try (exfalso; lia). repeat split; try done; lia.
Qed.

Lemma set_address_limits a o : limits_ok (set_address a o) <-> limits_ok o.
Proof. unfold set_address. destruct o. by repeat case_match. Qed.

(** The address strings that name a host and a port. *)
Definition host_port (a host : string) (port : Z) : Prop :=
  exists p, a = host +:+ String ":" p /\ str_contains ":" p = false /\ stoi p = Some port.

Lemma set_address_host_port_spec a h p n o :
  a = h +:+ String ":" p -> str_contains ":" p = false -> stoi p = Some n ->
  set_address a o = set_address_host_port h n o.
Proof.
  intros -> Hp Hn. unfold set_address. rewrite str_rfind_app_absent by done.
  assert (p <> ""%string) as Hne by (by intros ->).
  destruct p as [|c p]; [done|].
  assert (Z.of_nat (String.length h) <?
    Z.of_nat (String.length (h +:+ String ":" (String c p))) - 1 = true) as ->
    by (rewrite str_app_length; cbn [String.length]; apply Z.ltb_lt; lia).
  rewrite str_take_app.
  replace (S (String.length h)) with (String.length (h +:+ ":")) by (rewrite str_app_length; cbn; lia).
  replace (h +:+ String ":" (String c p)) with ((h +:+ ":") +:+ String c p)
    by (by rewrite <- str_app_assoc).
  by rewrite str_drop_app, Hn.
Qed.

(** A client configured with [set_address(a)] passes validation exactly
    when the string is a non-empty host, a colon and a port between 1 and
    65535, split at its last colon (so a host may hold colons), and the other
    limits hold; the host and the port used are then these. Every other string
    leaves an address that [Validate] rejects, with a validation error of its
    own operation name. *)
Theorem set_address_accepted (a : string) (o : ClientOptions) :
  let o' := set_address a o in
  (status_ok (Validate o') = true <->
     exists h n, host_port a h n /\ h <> ""%string /\ 1 <= n <= 65535 /\ limits_ok o) /\
  (forall h n, host_port a h n -> host_ o' = h /\ port_ o' = n) /\
  (status_ok (Validate o') = false ->
     code_ (Validate o') = kValidation /\ operation_ (Validate o') = "ClientOptions::Validate"%string).
Proof.
  intros o'. destruct (Validate_spec o') as [Hv He].
  assert (forall h n, host_port a h n -> host_ o' = h /\ port_ o' = n) as Hset.
  { intros h n (p & Ea & Hp & Hn). subst o'. rewrite (set_address_host_port_spec a h p n) by done.
    by destruct o. }
  split; [|done]. rewrite Hv. subst o'. rewrite set_address_limits. split.
  - intros (Hh & Hp & Hl). exists (host_ (set_address a o)), (port_ (set_address a o)).
    split; [|done]. unfold set_address in *. destruct o; cbn -[str_drop] in *.
    destruct (str_rfind ":" a) as [i|] eqn:E; cbn -[str_drop] in *; [|lia].
    destruct (_ <? _); cbn -[str_drop] in *; [|lia].
    destruct (str_rfind_Some _ _ _ E) as (E1 & E2 & _).
    exists (str_drop (S i) a). split; [done|]. split; [done|].
    by destruct (stoi (str_drop (S i) a)); [|lia].
  - intros (h & n & Ha & Hh & Hn & Hl). destruct (Hset h n Ha) as [-> ->]. done.
Qed.

Example set_address_run :
  (fun a => let o := set_address a ClientOptions_default in
            (host_ o, port_ o, status_ok (Validate o))) <$>
    ["broker:50001"; "::1:50000"; "broker"; "broker:"; "broker:5x"; ":1"; "b:99999999999"]%string
  = [("broker", 50001, true); ("::1", 50000, true); ("broker", 0, false);
     ("broker:", 0, false); ("broker", 5, true); ("", 1, false); ("b", 0, false)]%string.
Proof. vm_compute. reflexivity. Qed.
