(* ===== verification/Messages.v ===== *)
(** * Messages and their builders

    Models src/event.cc, event_store.cc, command.cc, query.cc, queue_message.cc
    and subscription_option.cc with the structs of their headers.  Tags are a
    finite map, durations milliseconds.  A builder's [Build] moves its strings
    and tags out: the builder that comes back has them empty, which is what the
    standard library leaves. *)

From Stdlib Require Import ZArith Lia Ascii String.
From S2P Require Import Prelude Status Random Uuid.

Local Open Scope string_scope.
Local Open Scope Z_scope.
Local Open Scope kubemq_scope.

Abbreviation Tags := (gmap string string).

(** ** Message classes *)

(** *** [Event] *)

Record Event := mkEvent {
  ev_id : string;
  ev_channel : string;
  ev_metadata : string;
  ev_body : string;
  ev_client_id : string;
  ev_tags : Tags
}.

(** [Event::Builder] and its setters. *)
Record EventBuilder := mkEventBuilder {
  evb_id : string;
  evb_channel : string;
  evb_metadata : string;
  evb_body : string;
  evb_client_id : string;
  evb_tags : Tags
}.

Definition EventBuilder_new : EventBuilder := mkEventBuilder "" "" "" "" "" ∅.

Definition Event_SetId (id : string) (b : EventBuilder) : EventBuilder :=
  let 'mkEventBuilder _ x1 x2 x3 x4 x5 := b in mkEventBuilder id x1 x2 x3 x4 x5.
Definition Event_SetChannel (channel : string) (b : EventBuilder) : EventBuilder :=
  let 'mkEventBuilder x0 _ x2 x3 x4 x5 := b in mkEventBuilder x0 channel x2 x3 x4 x5.
Definition Event_SetMetadata (metadata : string) (b : EventBuilder) : EventBuilder :=
  let 'mkEventBuilder x0 x1 _ x3 x4 x5 := b in mkEventBuilder x0 x1 metadata x3 x4 x5.
Definition Event_SetBody (body : string) (b : EventBuilder) : EventBuilder :=
  let 'mkEventBuilder x0 x1 x2 _ x4 x5 := b in mkEventBuilder x0 x1 x2 body x4 x5.
Definition Event_SetClientId (client_id : string) (b : EventBuilder) : EventBuilder :=
  let 'mkEventBuilder x0 x1 x2 x3 _ x5 := b in mkEventBuilder x0 x1 x2 x3 client_id x5.
Definition Event_SetTags (tags : Tags) (b : EventBuilder) : EventBuilder :=
  let 'mkEventBuilder x0 x1 x2 x3 x4 _ := b in mkEventBuilder x0 x1 x2 x3 x4 tags.
Definition Event_AddTag (key value : string) (b : EventBuilder) : EventBuilder :=
  let 'mkEventBuilder x0 x1 x2 x3 x4 x5 := b in mkEventBuilder x0 x1 x2 x3 x4 (<[key :=
    value]> x5).

(** *** [EventStore] *)

Record EventStore := mkEventStore {
  es_id : string;
  es_channel : string;
  es_metadata : string;
  es_body : string;
  es_client_id : string;
  es_tags : Tags
}.

(** [EventStore::Builder] and its setters. *)
Record EventStoreBuilder := mkEventStoreBuilder {
  esb_id : string;
  esb_channel : string;
  esb_metadata : string;
  esb_body : string;
  esb_client_id : string;
  esb_tags : Tags
}.

Definition EventStoreBuilder_new : EventStoreBuilder := mkEventStoreBuilder "" "" "" "" "" ∅.

Definition EventStore_SetId (id : string) (b : EventStoreBuilder) : EventStoreBuilder :=
  let 'mkEventStoreBuilder _ x1 x2 x3 x4 x5 := b in mkEventStoreBuilder id x1 x2 x3 x4 x5.
Definition EventStore_SetChannel (channel : string) (b : EventStoreBuilder) : EventStoreBuilder :=
  let 'mkEventStoreBuilder x0 _ x2 x3 x4 x5 := b in mkEventStoreBuilder x0 channel x2 x3 x4
    x5.
Definition EventStore_SetMetadata (metadata : string) (b : EventStoreBuilder) : EventStoreBuilder :=
  let 'mkEventStoreBuilder x0 x1 _ x3 x4 x5 := b in mkEventStoreBuilder x0 x1 metadata x3 x4
    x5.
Definition EventStore_SetBody (body : string) (b : EventStoreBuilder) : EventStoreBuilder :=
  let 'mkEventStoreBuilder x0 x1 x2 _ x4 x5 := b in mkEventStoreBuilder x0 x1 x2 body x4 x5.
Definition EventStore_SetClientId (client_id : string) (b : EventStoreBuilder) : EventStoreBuilder :=
  let 'mkEventStoreBuilder x0 x1 x2 x3 _ x5 := b in mkEventStoreBuilder x0 x1 x2 x3 client_id
    x5.
Definition EventStore_SetTags (tags : Tags) (b : EventStoreBuilder) : EventStoreBuilder :=
  let 'mkEventStoreBuilder x0 x1 x2 x3 x4 _ := b in mkEventStoreBuilder x0 x1 x2 x3 x4 tags.
Definition EventStore_AddTag (key value : string) (b : EventStoreBuilder) : EventStoreBuilder :=
  let 'mkEventStoreBuilder x0 x1 x2 x3 x4 x5 := b in mkEventStoreBuilder x0 x1 x2 x3 x4 (<[key
    := value]> x5).

(** *** [Command] *)

Record Command := mkCommand {
  cmd_id : string;
  cmd_channel : string;
  cmd_metadata : string;
  cmd_body : string;
  cmd_timeout : Z;
  cmd_client_id : string;
  cmd_tags : Tags
}.

(** [Command::Builder] and its setters. *)
Record CommandBuilder := mkCommandBuilder {
  cmdb_id : string;
  cmdb_channel : string;
  cmdb_metadata : string;
  cmdb_body : string;
  cmdb_timeout : Z;
  cmdb_client_id : string;
  cmdb_tags : Tags
}.

Definition CommandBuilder_new : CommandBuilder := mkCommandBuilder "" "" "" "" 0 "" ∅.

Definition Command_SetId (id : string) (b : CommandBuilder) : CommandBuilder :=
  let 'mkCommandBuilder _ x1 x2 x3 x4 x5 x6 := b in mkCommandBuilder id x1 x2 x3 x4 x5 x6.
Definition Command_SetChannel (channel : string) (b : CommandBuilder) : CommandBuilder :=
  let 'mkCommandBuilder x0 _ x2 x3 x4 x5 x6 := b in mkCommandBuilder x0 channel x2 x3 x4 x5
    x6.
Definition Command_SetMetadata (metadata : string) (b : CommandBuilder) : CommandBuilder :=
  let 'mkCommandBuilder x0 x1 _ x3 x4 x5 x6 := b in mkCommandBuilder x0 x1 metadata x3 x4 x5
    x6.
Definition Command_SetBody (body : string) (b : CommandBuilder) : CommandBuilder :=
  let 'mkCommandBuilder x0 x1 x2 _ x4 x5 x6 := b in mkCommandBuilder x0 x1 x2 body x4 x5 x6.
Definition Command_SetTimeout (timeout : Z) (b : CommandBuilder) : CommandBuilder :=
  let 'mkCommandBuilder x0 x1 x2 x3 _ x5 x6 := b in mkCommandBuilder x0 x1 x2 x3 timeout x5
    x6.
Definition Command_SetClientId (client_id : string) (b : CommandBuilder) : CommandBuilder :=
  let 'mkCommandBuilder x0 x1 x2 x3 x4 _ x6 := b in mkCommandBuilder x0 x1 x2 x3 x4 client_id
    x6.
Definition Command_SetTags (tags : Tags) (b : CommandBuilder) : CommandBuilder :=
  let 'mkCommandBuilder x0 x1 x2 x3 x4 x5 _ := b in mkCommandBuilder x0 x1 x2 x3 x4 x5 tags.
Definition Command_AddTag (key value : string) (b : CommandBuilder) : CommandBuilder :=
  let 'mkCommandBuilder x0 x1 x2 x3 x4 x5 x6 := b in mkCommandBuilder x0 x1 x2 x3 x4 x5 (<[key
    := value]> x6).

(** *** [Query] *)

Record Query := mkQuery {
  qry_id : string;
  qry_channel : string;
  qry_metadata : string;
  qry_body : string;
  qry_timeout : Z;
  qry_client_id : string;
  qry_cache_key : string;
  qry_cache_ttl : Z;
  qry_tags : Tags
}.

(** [Query::Builder] and its setters. *)
Record QueryBuilder := mkQueryBuilder {
  qryb_id : string;
  qryb_channel : string;
  qryb_metadata : string;
  qryb_body : string;
  qryb_timeout : Z;
  qryb_client_id : string;
  qryb_cache_key : string;
  qryb_cache_ttl : Z;
  qryb_tags : Tags
}.

Definition QueryBuilder_new : QueryBuilder := mkQueryBuilder "" "" "" "" 0 "" "" 0 ∅.

Definition Query_SetId (id : string) (b : QueryBuilder) : QueryBuilder :=
  let 'mkQueryBuilder _ x1 x2 x3 x4 x5 x6 x7 x8 := b in mkQueryBuilder id x1 x2 x3 x4 x5 x6 x7
    x8.
Definition Query_SetChannel (channel : string) (b : QueryBuilder) : QueryBuilder :=
  let 'mkQueryBuilder x0 _ x2 x3 x4 x5 x6 x7 x8 := b in mkQueryBuilder x0 channel x2 x3 x4 x5
    x6 x7 x8.
Definition Query_SetMetadata (metadata : string) (b : QueryBuilder) : QueryBuilder :=
  let 'mkQueryBuilder x0 x1 _ x3 x4 x5 x6 x7 x8 := b in mkQueryBuilder x0 x1 metadata x3 x4 x5
    x6 x7 x8.
Definition Query_SetBody (body : string) (b : QueryBuilder) : QueryBuilder :=
  let 'mkQueryBuilder x0 x1 x2 _ x4 x5 x6 x7 x8 := b in mkQueryBuilder x0 x1 x2 body x4 x5 x6
    x7 x8.
Definition Query_SetTimeout (timeout : Z) (b : QueryBuilder) : QueryBuilder :=
  let 'mkQueryBuilder x0 x1 x2 x3 _ x5 x6 x7 x8 := b in mkQueryBuilder x0 x1 x2 x3 timeout x5
    x6 x7 x8.
Definition Query_SetClientId (client_id : string) (b : QueryBuilder) : QueryBuilder :=
  let 'mkQueryBuilder x0 x1 x2 x3 x4 _ x6 x7 x8 := b in mkQueryBuilder x0 x1 x2 x3 x4
    client_id x6 x7 x8.
Definition Query_SetCacheKey (key : string) (b : QueryBuilder) : QueryBuilder :=
  let 'mkQueryBuilder x0 x1 x2 x3 x4 x5 _ x7 x8 := b in mkQueryBuilder x0 x1 x2 x3 x4 x5 key
    x7 x8.
Definition Query_SetCacheTTL (ttl : Z) (b : QueryBuilder) : QueryBuilder :=
  let 'mkQueryBuilder x0 x1 x2 x3 x4 x5 x6 _ x8 := b in mkQueryBuilder x0 x1 x2 x3 x4 x5 x6
    ttl x8.
Definition Query_SetTags (tags : Tags) (b : QueryBuilder) : QueryBuilder :=
  let 'mkQueryBuilder x0 x1 x2 x3 x4 x5 x6 x7 _ := b in mkQueryBuilder x0 x1 x2 x3 x4 x5 x6 x7
    tags.
Definition Query_AddTag (key value : string) (b : QueryBuilder) : QueryBuilder :=
  let 'mkQueryBuilder x0 x1 x2 x3 x4 x5 x6 x7 x8 := b in mkQueryBuilder x0 x1 x2 x3 x4 x5 x6
    x7 (<[key := value]> x8).

Record QueuePolicy := mkQueuePolicy {
  qp_expiration_seconds : Z;
  qp_delay_seconds : Z;
  qp_max_receive_count : Z;
  qp_max_receive_queue : string
}.

Definition QueuePolicy_default : QueuePolicy := mkQueuePolicy 0 0 0 "".

Record QueueMessageAttributes := mkQueueMessageAttributes {
  qa_timestamp : Z;
  qa_sequence : Z;
  qa_md5_of_body : string;
  qa_receive_count : Z;
  qa_re_routed : bool;
  qa_re_routed_from_queue : string;
  qa_expiration_at : Z;
  qa_delayed_to : Z
}.

Definition QueueMessageAttributes_default : QueueMessageAttributes :=
  mkQueueMessageAttributes 0 0 "" 0 false "" 0 0.

(** *** [QueueMessage] *)

Record QueueMessage := mkQueueMessage {
  qm_id : string;
  qm_channel : string;
  qm_metadata : string;
  qm_body : string;
  qm_client_id : string;
  qm_tags : Tags;
  qm_policy : QueuePolicy;
  qm_attributes : QueueMessageAttributes
}.

(** [QueueMessage::Builder] and its setters. *)
Record QueueMessageBuilder := mkQueueMessageBuilder {
  qmb_id : string;
  qmb_channel : string;
  qmb_metadata : string;
  qmb_body : string;
  qmb_client_id : string;
  qmb_tags : Tags;
  qmb_policy : QueuePolicy
}.

Definition QueueMessageBuilder_new : QueueMessageBuilder := mkQueueMessageBuilder "" "" "" ""
  "" ∅ QueuePolicy_default.

Definition QueueMessage_SetId (id : string) (b : QueueMessageBuilder) : QueueMessageBuilder :=
  let 'mkQueueMessageBuilder _ x1 x2 x3 x4 x5 x6 := b in mkQueueMessageBuilder id x1 x2 x3 x4
    x5 x6.
Definition QueueMessage_SetChannel (channel : string) (b : QueueMessageBuilder) : QueueMessageBuilder :=
  let 'mkQueueMessageBuilder x0 _ x2 x3 x4 x5 x6 := b in mkQueueMessageBuilder x0 channel x2
    x3 x4 x5 x6.
Definition QueueMessage_SetMetadata (metadata : string) (b : QueueMessageBuilder) : QueueMessageBuilder :=
  let 'mkQueueMessageBuilder x0 x1 _ x3 x4 x5 x6 := b in mkQueueMessageBuilder x0 x1 metadata
    x3 x4 x5 x6.
Definition QueueMessage_SetBody (body : string) (b : QueueMessageBuilder) : QueueMessageBuilder :=
  let 'mkQueueMessageBuilder x0 x1 x2 _ x4 x5 x6 := b in mkQueueMessageBuilder x0 x1 x2 body
    x4 x5 x6.
Definition QueueMessage_SetClientId (client_id : string) (b : QueueMessageBuilder) : QueueMessageBuilder :=
  let 'mkQueueMessageBuilder x0 x1 x2 x3 _ x5 x6 := b in mkQueueMessageBuilder x0 x1 x2 x3
    client_id x5 x6.
Definition QueueMessage_SetTags (tags : Tags) (b : QueueMessageBuilder) : QueueMessageBuilder :=
  let 'mkQueueMessageBuilder x0 x1 x2 x3 x4 _ x6 := b in mkQueueMessageBuilder x0 x1 x2 x3 x4
    tags x6.
Definition QueueMessage_SetPolicy (policy : QueuePolicy) (b : QueueMessageBuilder) : QueueMessageBuilder :=
  let 'mkQueueMessageBuilder x0 x1 x2 x3 x4 x5 _ := b in mkQueueMessageBuilder x0 x1 x2 x3 x4
    x5 policy.
Definition QueueMessage_AddTag (key value : string) (b : QueueMessageBuilder) : QueueMessageBuilder :=
  let 'mkQueueMessageBuilder x0 x1 x2 x3 x4 x5 x6 := b in mkQueueMessageBuilder x0 x1 x2 x3 x4
    (<[key := value]> x5) x6.

Definition QueueMessage_SetExpirationSeconds (seconds : Z) (b : QueueMessageBuilder) : QueueMessageBuilder :=
  QueueMessage_SetPolicy (mkQueuePolicy seconds (qp_delay_seconds (qmb_policy b))
    (qp_max_receive_count (qmb_policy b)) (qp_max_receive_queue (qmb_policy b))) b.
Definition QueueMessage_SetDelaySeconds (seconds : Z) (b : QueueMessageBuilder) : QueueMessageBuilder :=
  QueueMessage_SetPolicy (mkQueuePolicy (qp_expiration_seconds (qmb_policy b)) seconds
    (qp_max_receive_count (qmb_policy b)) (qp_max_receive_queue (qmb_policy b))) b.
Definition QueueMessage_SetMaxReceiveCount (count : Z) (b : QueueMessageBuilder) : QueueMessageBuilder :=
  QueueMessage_SetPolicy (mkQueuePolicy (qp_expiration_seconds (qmb_policy b))
    (qp_delay_seconds (qmb_policy b)) count (qp_max_receive_queue (qmb_policy b))) b.
Definition QueueMessage_SetMaxReceiveQueue (queue : string) (b : QueueMessageBuilder) : QueueMessageBuilder :=
  QueueMessage_SetPolicy (mkQueuePolicy (qp_expiration_seconds (qmb_policy b))
    (qp_delay_seconds (qmb_policy b)) (qp_max_receive_count (qmb_policy b)) queue) b.

(** *** [CommandReply] *)

Record CommandReply := mkCommandReply {
  crep_request_id : string;
  crep_response_to : string;
  crep_metadata : string;
  crep_body : string;
  crep_client_id : string;
  crep_tags : Tags;
  crep_error : string;
  crep_executed_at : Z;
  crep_executed : bool
}.

Record CommandReplyBuilder := mkCommandReplyBuilder {
  crepb_request_id : string;
  crepb_response_to : string;
  crepb_metadata : string;
  crepb_body : string;
  crepb_client_id : string;
  crepb_tags : Tags;
  crepb_error : string;
  crepb_executed_at : Z;
  crepb_executed : bool
}.

Definition CommandReplyBuilder_new : CommandReplyBuilder := mkCommandReplyBuilder "" "" "" ""
  "" ∅ "" 0 true.

Definition CommandReply_SetRequestId (id : string) (b : CommandReplyBuilder) : CommandReplyBuilder :=
  let 'mkCommandReplyBuilder _ x1 x2 x3 x4 x5 x6 x7 x8 := b in mkCommandReplyBuilder id x1 x2
    x3 x4 x5 x6 x7 x8.
Definition CommandReply_SetResponseTo (channel : string) (b : CommandReplyBuilder) : CommandReplyBuilder :=
  let 'mkCommandReplyBuilder x0 _ x2 x3 x4 x5 x6 x7 x8 := b in mkCommandReplyBuilder x0
    channel x2 x3 x4 x5 x6 x7 x8.
Definition CommandReply_SetMetadata (metadata : string) (b : CommandReplyBuilder) : CommandReplyBuilder :=
  let 'mkCommandReplyBuilder x0 x1 _ x3 x4 x5 x6 x7 x8 := b in mkCommandReplyBuilder x0 x1
    metadata x3 x4 x5 x6 x7 x8.
Definition CommandReply_SetBody (body : string) (b : CommandReplyBuilder) : CommandReplyBuilder :=
  let 'mkCommandReplyBuilder x0 x1 x2 _ x4 x5 x6 x7 x8 := b in mkCommandReplyBuilder x0 x1 x2
    body x4 x5 x6 x7 x8.
Definition CommandReply_SetClientId (client_id : string) (b : CommandReplyBuilder) : CommandReplyBuilder :=
  let 'mkCommandReplyBuilder x0 x1 x2 x3 _ x5 x6 x7 x8 := b in mkCommandReplyBuilder x0 x1 x2
    x3 client_id x5 x6 x7 x8.
Definition CommandReply_SetTags (tags : Tags) (b : CommandReplyBuilder) : CommandReplyBuilder :=
  let 'mkCommandReplyBuilder x0 x1 x2 x3 x4 _ x6 x7 x8 := b in mkCommandReplyBuilder x0 x1 x2
    x3 x4 tags x6 x7 x8.
Definition CommandReply_SetError (error : string) (b : CommandReplyBuilder) : CommandReplyBuilder :=
  let 'mkCommandReplyBuilder x0 x1 x2 x3 x4 x5 _ x7 x8 := b in mkCommandReplyBuilder x0 x1 x2
    x3 x4 x5 error x7 x8.
Definition CommandReply_SetExecutedAt (timestamp : Z) (b : CommandReplyBuilder) : CommandReplyBuilder :=
  let 'mkCommandReplyBuilder x0 x1 x2 x3 x4 x5 x6 _ x8 := b in mkCommandReplyBuilder x0 x1 x2
    x3 x4 x5 x6 timestamp x8.
Definition CommandReply_SetExecuted (v : bool) (b : CommandReplyBuilder) : CommandReplyBuilder :=
  let 'mkCommandReplyBuilder x0 x1 x2 x3 x4 x5 x6 x7 _ := b in mkCommandReplyBuilder x0 x1 x2
    x3 x4 x5 x6 x7 v.

(** *** [QueryReply] *)

Record QueryReply := mkQueryReply {
  qrep_request_id : string;
  qrep_response_to : string;
  qrep_metadata : string;
  qrep_body : string;
  qrep_client_id : string;
  qrep_tags : Tags;
  qrep_error : string;
  qrep_executed_at : Z;
  qrep_cache_hit : bool;
  qrep_executed : bool
}.

Record QueryReplyBuilder := mkQueryReplyBuilder {
  qrepb_request_id : string;
  qrepb_response_to : string;
  qrepb_metadata : string;
  qrepb_body : string;
  qrepb_client_id : string;
  qrepb_tags : Tags;
  qrepb_error : string;
  qrepb_executed_at : Z;
  qrepb_cache_hit : bool;
  qrepb_executed : bool
}.

Definition QueryReplyBuilder_new : QueryReplyBuilder := mkQueryReplyBuilder "" "" "" "" "" ∅
  "" 0 false true.

Definition QueryReply_SetRequestId (id : string) (b : QueryReplyBuilder) : QueryReplyBuilder :=
  let 'mkQueryReplyBuilder _ x1 x2 x3 x4 x5 x6 x7 x8 x9 := b in mkQueryReplyBuilder id x1 x2
    x3 x4 x5 x6 x7 x8 x9.
Definition QueryReply_SetResponseTo (channel : string) (b : QueryReplyBuilder) : QueryReplyBuilder :=
  let 'mkQueryReplyBuilder x0 _ x2 x3 x4 x5 x6 x7 x8 x9 := b in mkQueryReplyBuilder x0 channel
    x2 x3 x4 x5 x6 x7 x8 x9.
Definition QueryReply_SetMetadata (metadata : string) (b : QueryReplyBuilder) : QueryReplyBuilder :=
  let 'mkQueryReplyBuilder x0 x1 _ x3 x4 x5 x6 x7 x8 x9 := b in mkQueryReplyBuilder x0 x1
    metadata x3 x4 x5 x6 x7 x8 x9.
Definition QueryReply_SetBody (body : string) (b : QueryReplyBuilder) : QueryReplyBuilder :=
  let 'mkQueryReplyBuilder x0 x1 x2 _ x4 x5 x6 x7 x8 x9 := b in mkQueryReplyBuilder x0 x1 x2
    body x4 x5 x6 x7 x8 x9.
Definition QueryReply_SetClientId (client_id : string) (b : QueryReplyBuilder) : QueryReplyBuilder :=
  let 'mkQueryReplyBuilder x0 x1 x2 x3 _ x5 x6 x7 x8 x9 := b in mkQueryReplyBuilder x0 x1 x2
    x3 client_id x5 x6 x7 x8 x9.
Definition QueryReply_SetTags (tags : Tags) (b : QueryReplyBuilder) : QueryReplyBuilder :=
  let 'mkQueryReplyBuilder x0 x1 x2 x3 x4 _ x6 x7 x8 x9 := b in mkQueryReplyBuilder x0 x1 x2
    x3 x4 tags x6 x7 x8 x9.
Definition QueryReply_SetError (error : string) (b : QueryReplyBuilder) : QueryReplyBuilder :=
  let 'mkQueryReplyBuilder x0 x1 x2 x3 x4 x5 _ x7 x8 x9 := b in mkQueryReplyBuilder x0 x1 x2
    x3 x4 x5 error x7 x8 x9.
Definition QueryReply_SetExecutedAt (timestamp : Z) (b : QueryReplyBuilder) : QueryReplyBuilder :=
  let 'mkQueryReplyBuilder x0 x1 x2 x3 x4 x5 x6 _ x8 x9 := b in mkQueryReplyBuilder x0 x1 x2
    x3 x4 x5 x6 timestamp x8 x9.
Definition QueryReply_SetCacheHit (hit : bool) (b : QueryReplyBuilder) : QueryReplyBuilder :=
  let 'mkQueryReplyBuilder x0 x1 x2 x3 x4 x5 x6 x7 _ x9 := b in mkQueryReplyBuilder x0 x1 x2
    x3 x4 x5 x6 x7 hit x9.
Definition QueryReply_SetExecuted (v : bool) (b : QueryReplyBuilder) : QueryReplyBuilder :=
  let 'mkQueryReplyBuilder x0 x1 x2 x3 x4 x5 x6 x7 x8 _ := b in mkQueryReplyBuilder x0 x1 x2
    x3 x4 x5 x6 x7 x8 v.

(** ** Plain structs *)

Record EventReceive := mkEventReceive {
  evr_id : string;
  evr_channel : string;
  evr_metadata : string;
  evr_body : string;
  evr_timestamp : Z;
  evr_sequence : Z;
  evr_tags : Tags
}.

Record EventStreamResult := mkEventStreamResult {
  evres_event_id : string;
  evres_sent : bool;
  evres_error : string
}.

Record EventStoreResult := mkEventStoreResult {
  esres_id : string;
  esres_sent : bool;
  esres_error : string
}.

Record EventStoreReceive := mkEventStoreReceive {
  esr_id : string;
  esr_sequence : Z;
  esr_timestamp : Z;
  esr_channel : string;
  esr_metadata : string;
  esr_body : string;
  esr_tags : Tags
}.

Record CommandReceive := mkCommandReceive {
  cmdr_id : string;
  cmdr_client_id : string;
  cmdr_channel : string;
  cmdr_metadata : string;
  cmdr_body : string;
  cmdr_response_to : string;
  cmdr_timeout : Z;
  cmdr_tags : Tags
}.

Record CommandResponse := mkCommandResponse {
  cresp_command_id : string;
  cresp_response_client_id : string;
  cresp_reply_channel : string;
  cresp_executed : bool;
  cresp_executed_at : Z;
  cresp_error : string;
  cresp_tags : Tags
}.

Record QueryReceive := mkQueryReceive {
  qryr_id : string;
  qryr_channel : string;
  qryr_client_id : string;
  qryr_metadata : string;
  qryr_body : string;
  qryr_response_to : string;
  qryr_timeout : Z;
  qryr_cache_key : string;
  qryr_cache_ttl : Z;
  qryr_tags : Tags
}.

Record QueryResponse := mkQueryResponse {
  qresp_query_id : string;
  qresp_reply_channel : string;
  qresp_executed : bool;
  qresp_executed_at : Z;
  qresp_metadata : string;
  qresp_response_client_id : string;
  qresp_body : string;
  qresp_cache_hit : bool;
  qresp_error : string;
  qresp_tags : Tags
}.

Record QueueSendResult := mkQueueSendResult {
  qsr_message_id : string;
  qsr_sent_at : Z;
  qsr_expiration_at : Z;
  qsr_delayed_to : Z;
  qsr_is_error : bool;
  qsr_error : string
}.

Record ReceiveQueueMessagesRequest := mkReceiveQueueMessagesRequest {
  rq_request_id : string;
  rq_client_id : string;
  rq_channel : string;
  rq_max_number_of_messages : Z;
  rq_wait_time_seconds : Z;
  rq_is_peek : bool
}.

Record ReceiveQueueMessagesResponse := mkReceiveQueueMessagesResponse {
  rr_request_id : string;
  rr_messages : list QueueMessage;
  rr_messages_received : Z;
  rr_messages_expired : Z;
  rr_is_peek : bool;
  rr_is_error : bool;
  rr_error : string
}.

Record AckAllQueueMessagesRequest := mkAckAllQueueMessagesRequest {
  aq_request_id : string;
  aq_client_id : string;
  aq_channel : string;
  aq_wait_time_seconds : Z
}.

Record AckAllQueueMessagesResponse := mkAckAllQueueMessagesResponse {
  ar_request_id : string;
  ar_affected_messages : Z;
  ar_is_error : bool;
  ar_error : string
}.

Record ServerInfo := mkServerInfo {
  si_host : string;
  si_version : string;
  si_server_start_time : Z;
  si_server_up_time_seconds : Z
}.

Record ChannelStats := mkChannelStats {
  cst_messages : Z;
  cst_volume : Z;
  cst_responses : Z;
  cst_waiting : Z;
  cst_expired : Z;
  cst_delayed : Z
}.

Record ChannelInfo := mkChannelInfo {
  ci_name : string;
  ci_type : string;
  ci_last_activity : Z;
  ci_is_active : bool;
  ci_incoming : ChannelStats;
  ci_outgoing : ChannelStats
}.

(** ** [Build] *)

Section build.
Context {W : Type} `{Random W}.

(** [id_.empty() ? internal::GenerateUUID() : id_] *)
Definition id_or_uuid (id : string) : M W string :=
  if str_empty id then GenerateUUID else ret id.

Definition validation_error {T} (message : string) : StatusOr T :=
  SError (StatusMsg kValidation message).

Definition Event_Build (b : EventBuilder) : M W (StatusOr Event * EventBuilder) :=
  if str_empty (evb_channel b) then ret (validation_error "channel is required", b)
  else if str_empty (evb_body b) && str_empty (evb_metadata b) then
    ret (validation_error "body or metadata is required", b)
  else
    let! id := id_or_uuid (evb_id b) in
    ret (SValue (mkEvent id (evb_channel b) (evb_metadata b) (evb_body b) (evb_client_id b)
      (evb_tags b)),
         mkEventBuilder (evb_id b) "" "" "" "" ∅).

Definition EventStore_Build (b : EventStoreBuilder) : M W (StatusOr EventStore * EventStoreBuilder) :=
  if str_empty (esb_channel b) then ret (validation_error "channel is required", b)
  else if str_empty (esb_body b) && str_empty (esb_metadata b) then
    ret (validation_error "body or metadata is required", b)
  else
    let! id := id_or_uuid (esb_id b) in
    ret (SValue (mkEventStore id (esb_channel b) (esb_metadata b) (esb_body b) (esb_client_id
      b) (esb_tags b)),
         mkEventStoreBuilder (esb_id b) "" "" "" "" ∅).

Definition Command_Build (b : CommandBuilder) : M W (StatusOr Command * CommandBuilder) :=
  if str_empty (cmdb_channel b) then ret (validation_error "channel is required", b)
  else if str_empty (cmdb_body b) && str_empty (cmdb_metadata b) then
    ret (validation_error "body or metadata is required", b)
  else if cmdb_timeout b <=? 0 then ret (validation_error "timeout must be > 0", b)
  else
    let! id := id_or_uuid (cmdb_id b) in
    ret (SValue (mkCommand id (cmdb_channel b) (cmdb_metadata b) (cmdb_body b) (cmdb_timeout
      b) (cmdb_client_id b) (cmdb_tags b)),
         mkCommandBuilder (cmdb_id b) "" "" "" (cmdb_timeout b) "" ∅).

Definition Query_Build (b : QueryBuilder) : M W (StatusOr Query * QueryBuilder) :=
  if str_empty (qryb_channel b) then ret (validation_error "channel is required", b)
  else if str_empty (qryb_body b) && str_empty (qryb_metadata b) then
    ret (validation_error "body or metadata is required", b)
  else if qryb_timeout b <=? 0 then ret (validation_error "timeout must be > 0", b)
  else
    let! id := id_or_uuid (qryb_id b) in
    ret (SValue (mkQuery id (qryb_channel b) (qryb_metadata b) (qryb_body b) (qryb_timeout b)
      (qryb_client_id b) (qryb_cache_key b) (qryb_cache_ttl b) (qryb_tags b)),
         mkQueryBuilder (qryb_id b) "" "" "" (qryb_timeout b) "" "" (qryb_cache_ttl b) ∅).

Definition QueueMessage_Build (b : QueueMessageBuilder) : M W (StatusOr QueueMessage * QueueMessageBuilder) :=
  if str_empty (qmb_channel b) then ret (validation_error "channel is required", b)
  else if str_empty (qmb_body b) && str_empty (qmb_metadata b) then
    ret (validation_error "body or metadata is required", b)
  else
    let! id := id_or_uuid (qmb_id b) in
    ret (SValue (mkQueueMessage id (qmb_channel b) (qmb_metadata b) (qmb_body b)
      (qmb_client_id b) (qmb_tags b) (qmb_policy b) QueueMessageAttributes_default),
         mkQueueMessageBuilder (qmb_id b) "" "" "" "" ∅ (mkQueuePolicy (qp_expiration_seconds
           (qmb_policy b)) (qp_delay_seconds (qmb_policy b)) (qp_max_receive_count (qmb_policy
           b)) "")).

End build.

Definition CommandReply_Build (b : CommandReplyBuilder) : StatusOr CommandReply * CommandReplyBuilder :=
  if str_empty (crepb_request_id b) then
    (SError (mkStatus kValidation "request_id is required" "CommandReply::Build" "" ""), b)
  else if str_empty (crepb_response_to b) then
    (SError (mkStatus kValidation "response_to is required" "CommandReply::Build" "" ""), b)
  else
    (SValue (mkCommandReply (crepb_request_id b) (crepb_response_to b) (crepb_metadata b)
      (crepb_body b) (crepb_client_id b) (crepb_tags b) (crepb_error b) (crepb_executed_at b)
      (crepb_executed b)),
     mkCommandReplyBuilder "" "" "" "" "" ∅ "" (crepb_executed_at b) (crepb_executed b)).

Definition QueryReply_Build (b : QueryReplyBuilder) : StatusOr QueryReply * QueryReplyBuilder :=
  if str_empty (qrepb_request_id b) then
    (SError (mkStatus kValidation "request_id is required" "QueryReply::Build" "" ""), b)
  else if str_empty (qrepb_response_to b) then
    (SError (mkStatus kValidation "response_to is required" "QueryReply::Build" "" ""), b)
  else
    (SValue (mkQueryReply (qrepb_request_id b) (qrepb_response_to b) (qrepb_metadata b)
      (qrepb_body b) (qrepb_client_id b) (qrepb_tags b) (qrepb_error b) (qrepb_executed_at b)
      (qrepb_cache_hit b) (qrepb_executed b)),
     mkQueryReplyBuilder "" "" "" "" "" ∅ "" (qrepb_executed_at b) (qrepb_cache_hit b)
       (qrepb_executed b)).

(** ** [SubscriptionOption] *)

Record SubscriptionOption := mkSubscriptionOption { type_ : Z; value_ : Z }.

Definition StartFromNewEvents : SubscriptionOption := mkSubscriptionOption 1 0.
Definition StartFromFirstEvent : SubscriptionOption := mkSubscriptionOption 2 0.
Definition StartFromLastEvent : SubscriptionOption := mkSubscriptionOption 3 0.
Definition StartFromSequence (sequence : Z) : SubscriptionOption :=
  mkSubscriptionOption 4 (to_int64 sequence).
(** The time as nanoseconds since the epoch, the clock's own unit. *)
Definition StartFromTime (nanoseconds : Z) : SubscriptionOption :=
  mkSubscriptionOption 5 nanoseconds.
Definition StartFromTimeDelta (seconds : Z) : SubscriptionOption :=
  mkSubscriptionOption 6 seconds.

(** ** What every [Build] promises *)

Section contract.
Context {W : Type} `{Random W}.

(** [valid] are the builders accepted, [given] the identifier set, [made] the
    message from the identifier used and the builder's fields, [rest] the
    builder that is left. *)
Definition build_contract {B T} (build : B -> M W (StatusOr T * B)) (valid : B -> Prop)
    (given : B -> string) (made : string -> B -> T) (rest : B -> B) : Prop :=
  forall b w,
    (valid b -> exists id, build b w = ((SValue (made id b), rest b), snd (id_or_uuid (given b) w)) /\
       id = fst (id_or_uuid (given b) w) /\ str_empty id = false) /\
    (~ valid b -> exists s, build b w = ((SError s, b), w) /\ code_ s = kValidation) /\
    (forall w', fst (fst (build (rest b) w')) = validation_error "channel is required").

Definition content_ok (channel metadata body : string) : Prop :=
  str_empty channel = false /\ (str_empty body = false \/ str_empty metadata = false).

Lemma id_or_uuid_not_empty id w : str_empty (fst (id_or_uuid id w)) = false.
Proof.
  unfold id_or_uuid. destruct (str_empty id) eqn:E; [apply GenerateUUID_not_empty|done].
Qed.

(** The test all builders start with. *)
Lemma content_ok_dec channel metadata body :
  content_ok channel metadata body \/ (str_empty channel = true \/
    (str_empty channel = false /\ str_empty body && str_empty metadata = true)).
Proof. unfold content_ok. destruct (str_empty channel), (str_empty body), (str_empty metadata); auto. Qed.

Ltac build_tac build given :=
  let b := fresh "b" in let w := fresh "w" in
  intros b w; split; [|split; [|done]]; unfold build, bind, ret, content_ok;
  pose proof (id_or_uuid_not_empty (given b) w);
  repeat match goal with
         | |- context [str_empty (?f b)] =>
             lazymatch f with given => fail | _ => destruct (str_empty (f b)) end
         | |- context [?t <=? 0] => destruct (Z.leb_spec t 0)
         end; cbn; intros Hv; try (exfalso; intuition (congruence || lia));
  try (eexists; split; [done|done]);
  destruct (id_or_uuid (given b) w) as [id w'] eqn:Eid; cbn in *; exists id; auto.

Lemma Event_Build_contract :
  build_contract Event_Build
    (fun b => content_ok (evb_channel b) (evb_metadata b) (evb_body b)) evb_id
    (fun id b => mkEvent id (evb_channel b) (evb_metadata b) (evb_body b) (evb_client_id b) (evb_tags b))
    (fun b => mkEventBuilder (evb_id b) "" "" "" "" ∅).
Proof. build_tac (@Event_Build) evb_id. Qed.

Lemma EventStore_Build_contract :
  build_contract EventStore_Build
    (fun b => content_ok (esb_channel b) (esb_metadata b) (esb_body b)) esb_id
    (fun id b => mkEventStore id (esb_channel b) (esb_metadata b) (esb_body b) (esb_client_id b)
                   (esb_tags b))
    (fun b => mkEventStoreBuilder (esb_id b) "" "" "" "" ∅).
Proof. build_tac (@EventStore_Build) esb_id. Qed.

Lemma Command_Build_contract :
  build_contract Command_Build
    (fun b => content_ok (cmdb_channel b) (cmdb_metadata b) (cmdb_body b) /\ 0 < cmdb_timeout b) cmdb_id
    (fun id b => mkCommand id (cmdb_channel b) (cmdb_metadata b) (cmdb_body b) (cmdb_timeout b)
                   (cmdb_client_id b) (cmdb_tags b))
    (fun b => mkCommandBuilder (cmdb_id b) "" "" "" (cmdb_timeout b) "" ∅).
Proof. build_tac (@Command_Build) cmdb_id. Qed.

Lemma Query_Build_contract :
  build_contract Query_Build
    (fun b => content_ok (qryb_channel b) (qryb_metadata b) (qryb_body b) /\ 0 < qryb_timeout b) qryb_id
    (fun id b => mkQuery id (qryb_channel b) (qryb_metadata b) (qryb_body b) (qryb_timeout b)
                   (qryb_client_id b) (qryb_cache_key b) (qryb_cache_ttl b) (qryb_tags b))
    (fun b => mkQueryBuilder (qryb_id b) "" "" "" (qryb_timeout b) "" "" (qryb_cache_ttl b) ∅).
Proof. build_tac (@Query_Build) qryb_id. Qed.

Lemma QueueMessage_Build_contract :
  build_contract QueueMessage_Build
    (fun b => content_ok (qmb_channel b) (qmb_metadata b) (qmb_body b)) qmb_id
    (fun id b => mkQueueMessage id (qmb_channel b) (qmb_metadata b) (qmb_body b) (qmb_client_id b)
                   (qmb_tags b) (qmb_policy b) QueueMessageAttributes_default)
    (fun b => mkQueueMessageBuilder (qmb_id b) "" "" "" "" ∅
                (mkQueuePolicy (qp_expiration_seconds (qmb_policy b)) (qp_delay_seconds (qmb_policy b))
                   (qp_max_receive_count (qmb_policy b)) "")).
Proof. build_tac (@QueueMessage_Build) qmb_id. Qed.

(** C34: [Build] of the five message classes accepts exactly the builders with a
    channel, a body or metadata and, for commands and queries, a positive
    timeout. The message then has the builder's fields and its identifier, or,
    when none was set, a fresh non-empty UUID (two draws, made in no other
    case); a rejected builder comes back unchanged with a validation error. A
    builder that has built is used up: its next [Build] is always rejected. *)
Theorem message_builders_contract :
  build_contract Event_Build
    (fun b => content_ok (evb_channel b) (evb_metadata b) (evb_body b)) evb_id
    (fun id b => mkEvent id (evb_channel b) (evb_metadata b) (evb_body b) (evb_client_id b) (evb_tags b))
    (fun b => mkEventBuilder (evb_id b) "" "" "" "" ∅) /\
  build_contract EventStore_Build
    (fun b => content_ok (esb_channel b) (esb_metadata b) (esb_body b)) esb_id
    (fun id b => mkEventStore id (esb_channel b) (esb_metadata b) (esb_body b) (esb_client_id b)
                   (esb_tags b))
    (fun b => mkEventStoreBuilder (esb_id b) "" "" "" "" ∅) /\
  build_contract Command_Build
    (fun b => content_ok (cmdb_channel b) (cmdb_metadata b) (cmdb_body b) /\ 0 < cmdb_timeout b) cmdb_id
    (fun id b => mkCommand id (cmdb_channel b) (cmdb_metadata b) (cmdb_body b) (cmdb_timeout b)
                   (cmdb_client_id b) (cmdb_tags b))
    (fun b => mkCommandBuilder (cmdb_id b) "" "" "" (cmdb_timeout b) "" ∅) /\
  build_contract Query_Build
    (fun b => content_ok (qryb_channel b) (qryb_metadata b) (qryb_body b) /\ 0 < qryb_timeout b) qryb_id
    (fun id b => mkQuery id (qryb_channel b) (qryb_metadata b) (qryb_body b) (qryb_timeout b)
                   (qryb_client_id b) (qryb_cache_key b) (qryb_cache_ttl b) (qryb_tags b))
    (fun b => mkQueryBuilder (qryb_id b) "" "" "" (qryb_timeout b) "" "" (qryb_cache_ttl b) ∅) /\
  build_contract QueueMessage_Build
    (fun b => content_ok (qmb_channel b) (qmb_metadata b) (qmb_body b)) qmb_id
    (fun id b => mkQueueMessage id (qmb_channel b) (qmb_metadata b) (qmb_body b) (qmb_client_id b)
                   (qmb_tags b) (qmb_policy b) QueueMessageAttributes_default)
    (fun b => mkQueueMessageBuilder (qmb_id b) "" "" "" "" ∅
                (mkQueuePolicy (qp_expiration_seconds (qmb_policy b)) (qp_delay_seconds (qmb_policy b))
                   (qp_max_receive_count (qmb_policy b)) "")).
Proof.
  repeat apply conj; auto using Event_Build_contract, EventStore_Build_contract,
    Command_Build_contract, Query_Build_contract, QueueMessage_Build_contract.
Qed.

End contract.
