(* ===== verification/Proto.v ===== *)
(** * Protocol messages

    The messages of src/proto/kubemq.proto the SDK uses, as records with
    proto3's default values.  A message field is an [option] (its presence
    bit), [bytes] is a [string], an integer a [Z] in the range of its type; the
    generated classes are not modelled beyond getters and setters. *)

From Stdlib Require Import ZArith Lia Ascii String.
From S2P Require Import Prelude Messages.

Local Open Scope string_scope.
Local Open Scope Z_scope.

Inductive SubscribeType :=
  | SubscribeTypeUndefined | SubEvents | SubEventsStore | SubCommands | SubQueries.

Inductive RequestType := RequestTypeUnknown | ReqCommand | ReqQuery.

#[export] Instance RequestType_eq_dec : EqDecision RequestType.
Proof. solve_decision. Defined.

Inductive QueuesDownstreamRequestType :=
  | PollRequestTypeUnknown | Get | AckAll | AckRange | NAckAll | NAckRange | ReQueueAll
  | ReQueueRange | ActiveOffsets | TransactionStatus | CloseByClient | CloseByServer.

#[export] Instance QueuesDownstreamRequestType_eq_dec : EqDecision QueuesDownstreamRequestType.
Proof. solve_decision. Defined.

Record pb_PingResult := mk_pb_PingResult {
  pbPingResult_host : string;
  pbPingResult_version : string;
  pbPingResult_serverstarttime : Z;
  pbPingResult_serveruptimeseconds : Z
}.

Definition pb_PingResult_default : pb_PingResult := mk_pb_PingResult "" "" 0 0.

Definition pb_Empty : Type := unit.

Record pb_Result := mk_pb_Result {
  pbResult_eventid : string;
  pbResult_sent : bool;
  pbResult_error : string
}.

Definition pb_Result_default : pb_Result := mk_pb_Result "" false "".

Record pb_Event := mk_pb_Event {
  pbEvent_eventid : string;
  pbEvent_clientid : string;
  pbEvent_channel : string;
  pbEvent_metadata : string;
  pbEvent_body : string;
  pbEvent_store : bool;
  pbEvent_tags : Tags
}.

Definition pb_Event_default : pb_Event := mk_pb_Event "" "" "" "" "" false ∅.

Record pb_EventReceive := mk_pb_EventReceive {
  pbEventReceive_eventid : string;
  pbEventReceive_channel : string;
  pbEventReceive_metadata : string;
  pbEventReceive_body : string;
  pbEventReceive_timestamp : Z;
  pbEventReceive_sequence : Z;
  pbEventReceive_tags : Tags
}.

Definition pb_EventReceive_default : pb_EventReceive := mk_pb_EventReceive "" "" "" "" 0 0 ∅.

Record pb_Subscribe := mk_pb_Subscribe {
  pbSubscribe_subscribetypedata : SubscribeType;
  pbSubscribe_clientid : string;
  pbSubscribe_channel : string;
  pbSubscribe_group : string;
  pbSubscribe_eventsstoretypedata : Z;
  pbSubscribe_eventsstoretypevalue : Z
}.

Definition pb_Subscribe_default : pb_Subscribe := mk_pb_Subscribe SubscribeTypeUndefined "" ""
  "" 0 0.

Record pb_Request := mk_pb_Request {
  pbRequest_requestid : string;
  pbRequest_requesttypedata : RequestType;
  pbRequest_clientid : string;
  pbRequest_channel : string;
  pbRequest_metadata : string;
  pbRequest_body : string;
  pbRequest_replychannel : string;
  pbRequest_timeout : Z;
  pbRequest_cachekey : string;
  pbRequest_cachettl : Z;
  pbRequest_span : string;
  pbRequest_tags : Tags
}.

Definition pb_Request_default : pb_Request := mk_pb_Request "" RequestTypeUnknown "" "" "" ""
  "" 0 "" 0 "" ∅.

Record pb_Response := mk_pb_Response {
  pbResponse_clientid : string;
  pbResponse_requestid : string;
  pbResponse_replychannel : string;
  pbResponse_metadata : string;
  pbResponse_body : string;
  pbResponse_cachehit : bool;
  pbResponse_timestamp : Z;
  pbResponse_executed : bool;
  pbResponse_error : string;
  pbResponse_span : string;
  pbResponse_tags : Tags
}.

Definition pb_Response_default : pb_Response := mk_pb_Response "" "" "" "" "" false 0 false ""
  "" ∅.

Record pb_SendQueueMessageResult := mk_pb_SendQueueMessageResult {
  pbSendQueueMessageResult_messageid : string;
  pbSendQueueMessageResult_sentat : Z;
  pbSendQueueMessageResult_expirationat : Z;
  pbSendQueueMessageResult_delayedto : Z;
  pbSendQueueMessageResult_iserror : bool;
  pbSendQueueMessageResult_error : string
}.

Definition pb_SendQueueMessageResult_default : pb_SendQueueMessageResult :=
  mk_pb_SendQueueMessageResult "" 0 0 0 false "".

Record pb_QueueMessagePolicy := mk_pb_QueueMessagePolicy {
  pbQueueMessagePolicy_expirationseconds : Z;
  pbQueueMessagePolicy_delayseconds : Z;
  pbQueueMessagePolicy_maxreceivecount : Z;
  pbQueueMessagePolicy_maxreceivequeue : string
}.

Definition pb_QueueMessagePolicy_default : pb_QueueMessagePolicy := mk_pb_QueueMessagePolicy 0
  0 0 "".

Record pb_QueueMessageAttributes := mk_pb_QueueMessageAttributes {
  pbQueueMessageAttributes_timestamp : Z;
  pbQueueMessageAttributes_sequence : Z;
  pbQueueMessageAttributes_md5ofbody : string;
  pbQueueMessageAttributes_receivecount : Z;
  pbQueueMessageAttributes_rerouted : bool;
  pbQueueMessageAttributes_reroutedfromqueue : string;
  pbQueueMessageAttributes_expirationat : Z;
  pbQueueMessageAttributes_delayedto : Z
}.

Definition pb_QueueMessageAttributes_default : pb_QueueMessageAttributes :=
  mk_pb_QueueMessageAttributes 0 0 "" 0 false "" 0 0.

Record pb_QueueMessage := mk_pb_QueueMessage {
  pbQueueMessage_messageid : string;
  pbQueueMessage_clientid : string;
  pbQueueMessage_channel : string;
  pbQueueMessage_metadata : string;
  pbQueueMessage_body : string;
  pbQueueMessage_tags : Tags;
  pbQueueMessage_attributes : option pb_QueueMessageAttributes;
  pbQueueMessage_policy : option pb_QueueMessagePolicy
}.

Definition pb_QueueMessage_default : pb_QueueMessage := mk_pb_QueueMessage "" "" "" "" "" ∅
  None None.

Record pb_QueueMessagesBatchRequest := mk_pb_QueueMessagesBatchRequest {
  pbQueueMessagesBatchRequest_batchid : string;
  pbQueueMessagesBatchRequest_messages : list pb_QueueMessage
}.

Definition pb_QueueMessagesBatchRequest_default : pb_QueueMessagesBatchRequest :=
  mk_pb_QueueMessagesBatchRequest "" [].

Record pb_QueueMessagesBatchResponse := mk_pb_QueueMessagesBatchResponse {
  pbQueueMessagesBatchResponse_batchid : string;
  pbQueueMessagesBatchResponse_results : list pb_SendQueueMessageResult;
  pbQueueMessagesBatchResponse_haveerrors : bool
}.

Definition pb_QueueMessagesBatchResponse_default : pb_QueueMessagesBatchResponse :=
  mk_pb_QueueMessagesBatchResponse "" [] false.

Record pb_ReceiveQueueMessagesRequest := mk_pb_ReceiveQueueMessagesRequest {
  pbReceiveQueueMessagesRequest_requestid : string;
  pbReceiveQueueMessagesRequest_clientid : string;
  pbReceiveQueueMessagesRequest_channel : string;
  pbReceiveQueueMessagesRequest_maxnumberofmessages : Z;
  pbReceiveQueueMessagesRequest_waittimeseconds : Z;
  pbReceiveQueueMessagesRequest_ispeak : bool
}.

Definition pb_ReceiveQueueMessagesRequest_default : pb_ReceiveQueueMessagesRequest :=
  mk_pb_ReceiveQueueMessagesRequest "" "" "" 0 0 false.

Record pb_ReceiveQueueMessagesResponse := mk_pb_ReceiveQueueMessagesResponse {
  pbReceiveQueueMessagesResponse_requestid : string;
  pbReceiveQueueMessagesResponse_messages : list pb_QueueMessage;
  pbReceiveQueueMessagesResponse_messagesreceived : Z;
  pbReceiveQueueMessagesResponse_messagesexpired : Z;
  pbReceiveQueueMessagesResponse_ispeak : bool;
  pbReceiveQueueMessagesResponse_iserror : bool;
  pbReceiveQueueMessagesResponse_error : string
}.

Definition pb_ReceiveQueueMessagesResponse_default : pb_ReceiveQueueMessagesResponse :=
  mk_pb_ReceiveQueueMessagesResponse "" [] 0 0 false false "".

Record pb_AckAllQueueMessagesRequest := mk_pb_AckAllQueueMessagesRequest {
  pbAckAllQueueMessagesRequest_requestid : string;
  pbAckAllQueueMessagesRequest_clientid : string;
  pbAckAllQueueMessagesRequest_channel : string;
  pbAckAllQueueMessagesRequest_waittimeseconds : Z
}.

Definition pb_AckAllQueueMessagesRequest_default : pb_AckAllQueueMessagesRequest :=
  mk_pb_AckAllQueueMessagesRequest "" "" "" 0.

Record pb_AckAllQueueMessagesResponse := mk_pb_AckAllQueueMessagesResponse {
  pbAckAllQueueMessagesResponse_requestid : string;
  pbAckAllQueueMessagesResponse_affectedmessages : Z;
  pbAckAllQueueMessagesResponse_iserror : bool;
  pbAckAllQueueMessagesResponse_error : string
}.

Definition pb_AckAllQueueMessagesResponse_default : pb_AckAllQueueMessagesResponse :=
  mk_pb_AckAllQueueMessagesResponse "" 0 false "".

Record pb_QueuesUpstreamRequest := mk_pb_QueuesUpstreamRequest {
  pbQueuesUpstreamRequest_requestid : string;
  pbQueuesUpstreamRequest_messages : list pb_QueueMessage
}.

Definition pb_QueuesUpstreamRequest_default : pb_QueuesUpstreamRequest :=
  mk_pb_QueuesUpstreamRequest "" [].

Record pb_QueuesUpstreamResponse := mk_pb_QueuesUpstreamResponse {
  pbQueuesUpstreamResponse_refrequestid : string;
  pbQueuesUpstreamResponse_results : list pb_SendQueueMessageResult;
  pbQueuesUpstreamResponse_iserror : bool;
  pbQueuesUpstreamResponse_error : string
}.

Definition pb_QueuesUpstreamResponse_default : pb_QueuesUpstreamResponse :=
  mk_pb_QueuesUpstreamResponse "" [] false "".

Record pb_QueuesDownstreamRequest := mk_pb_QueuesDownstreamRequest {
  pbQueuesDownstreamRequest_requestid : string;
  pbQueuesDownstreamRequest_clientid : string;
  pbQueuesDownstreamRequest_requesttypedata : QueuesDownstreamRequestType;
  pbQueuesDownstreamRequest_channel : string;
  pbQueuesDownstreamRequest_maxitems : Z;
  pbQueuesDownstreamRequest_waittimeout : Z;
  pbQueuesDownstreamRequest_autoack : bool;
  pbQueuesDownstreamRequest_requeuechannel : string;
  pbQueuesDownstreamRequest_sequencerange : list Z;
  pbQueuesDownstreamRequest_reftransactionid : string;
  pbQueuesDownstreamRequest_metadata : Tags
}.

Definition pb_QueuesDownstreamRequest_default : pb_QueuesDownstreamRequest :=
  mk_pb_QueuesDownstreamRequest "" "" PollRequestTypeUnknown "" 0 0 false "" [] "" ∅.

Record pb_QueuesDownstreamResponse := mk_pb_QueuesDownstreamResponse {
  pbQueuesDownstreamResponse_transactionid : string;
  pbQueuesDownstreamResponse_refrequestid : string;
  pbQueuesDownstreamResponse_requesttypedata : QueuesDownstreamRequestType;
  pbQueuesDownstreamResponse_messages : list pb_QueueMessage;
  pbQueuesDownstreamResponse_activeoffsets : list Z;
  pbQueuesDownstreamResponse_iserror : bool;
  pbQueuesDownstreamResponse_error : string;
  pbQueuesDownstreamResponse_transactioncomplete : bool;
  pbQueuesDownstreamResponse_metadata : Tags
}.

Definition pb_QueuesDownstreamResponse_default : pb_QueuesDownstreamResponse :=
  mk_pb_QueuesDownstreamResponse "" "" PollRequestTypeUnknown [] [] false "" false ∅.
