(* ===== verification/Converter.v ===== *)
(** * Conversions between the SDK's types and the protocol's

    Models src/internal/transport/converter.cc.  A [...ToProto] function fills
    a message its caller has just created, so it returns the filled message; a
    field it does not set keeps its proto3 default.  nlohmann::json is an
    interface, with its two exceptions as error values. *)

From Stdlib Require Import ZArith Lia Ascii String.
From S2P Require Import Prelude Status Random Uuid Messages Proto.

Local Open Scope string_scope.
Local Open Scope Z_scope.
Local Open Scope kubemq_scope.

(** ** Helpers *)

Definition FirstNonEmpty (a b : string) : string := if negb (str_empty a) then a else b.

(** [for (const auto& [key, value] : m) out[key] = value;], in whatever order
    the map is iterated. *)
Definition copy_entries (m out : Tags) : Tags := map_fold (fun k v acc => <[k := v]> acc) out m.

Definition CopyTags (proto_tags : Tags) : Tags := copy_entries proto_tags ∅.
Definition SetTags (tags proto_tags : Tags) : Tags := copy_entries tags proto_tags.

Lemma copy_entries_union m out : copy_entries m out = m ∪ out.
Proof.
  unfold copy_entries. apply (map_fold_weak_ind (fun r m => r = m ∪ out)).
  - by rewrite (left_id_L ∅ (∪)).
  - intros k v m' r Hk ->. by rewrite insert_union_l.
Qed.

Lemma CopyTags_id m : CopyTags m = m.
Proof. unfold CopyTags. by rewrite copy_entries_union, (right_id_L ∅ (∪)). Qed.

Lemma SetTags_fresh m : SetTags m ∅ = m.
Proof. apply CopyTags_id. Qed.

#[export] Hint Rewrite CopyTags_id SetTags_fresh : kubemq.

(** Durations: milliseconds to an [int32], seconds to milliseconds and back. *)
Definition seconds_to_ms (s : Z) : Z := 1000 * s.
Definition ms_to_seconds (ms : Z) : Z := div_trunc ms 1000.

(** ** Events *)

Definition EventToProto (event : Event) (client_id : string) : pb_Event :=
  mk_pb_Event (ev_id event) (FirstNonEmpty (ev_client_id event) client_id) (ev_channel event)
    (ev_metadata event) (ev_body event) false (SetTags (ev_tags event) ∅).

Definition EventStoreToProto (event : EventStore) (client_id : string) : pb_Event :=
  mk_pb_Event (es_id event) (FirstNonEmpty (es_client_id event) client_id) (es_channel event)
    (es_metadata event) (es_body event) true (SetTags (es_tags event) ∅).

Definition EventStreamResultFromProto (r : pb_Result) : EventStreamResult :=
  mkEventStreamResult (pbResult_eventid r) (pbResult_sent r) (pbResult_error r).

Definition EventStoreResultFromProto (r : pb_Result) : EventStoreResult :=
  mkEventStoreResult (pbResult_eventid r) (pbResult_sent r) (pbResult_error r).

Definition EventReceiveFromProto (p : pb_EventReceive) : EventReceive :=
  mkEventReceive (pbEventReceive_eventid p) (pbEventReceive_channel p) (pbEventReceive_metadata p)
    (pbEventReceive_body p) (pbEventReceive_timestamp p) (pbEventReceive_sequence p)
    (CopyTags (pbEventReceive_tags p)).

Definition EventStoreReceiveFromProto (p : pb_EventReceive) : EventStoreReceive :=
  mkEventStoreReceive (pbEventReceive_eventid p) (pbEventReceive_sequence p)
    (pbEventReceive_timestamp p) (pbEventReceive_channel p) (pbEventReceive_metadata p)
    (pbEventReceive_body p) (CopyTags (pbEventReceive_tags p)).

(** ** Commands *)

Definition CommandToProto (c : Command) (client_id : string) : pb_Request :=
  mk_pb_Request (cmd_id c) ReqCommand (FirstNonEmpty (cmd_client_id c) client_id) (cmd_channel c)
    (cmd_metadata c) (cmd_body c) "" (to_int32 (cmd_timeout c)) "" 0 "" (SetTags (cmd_tags c) ∅).

Definition CommandResponseFromProto (p : pb_Response) : CommandResponse :=
  mkCommandResponse (pbResponse_requestid p) (pbResponse_clientid p) (pbResponse_replychannel p)
    (pbResponse_executed p) (pbResponse_timestamp p) (pbResponse_error p)
    (CopyTags (pbResponse_tags p)).

Definition CommandReceiveFromProto (p : pb_Request) : CommandReceive :=
  mkCommandReceive (pbRequest_requestid p) (pbRequest_clientid p) (pbRequest_channel p)
    (pbRequest_metadata p) (pbRequest_body p) (pbRequest_replychannel p)
    (seconds_to_ms (pbRequest_timeout p)) (CopyTags (pbRequest_tags p)).

Definition CommandReplyToProto (r : CommandReply) : pb_Response :=
  mk_pb_Response (crep_client_id r) (crep_request_id r) (crep_response_to r) (crep_metadata r)
    (crep_body r) false (crep_executed_at r) (crep_executed r) (crep_error r) ""
    (SetTags (crep_tags r) ∅).

(** ** Queries *)

Definition QueryToProto (q : Query) (client_id : string) : pb_Request :=
  mk_pb_Request (qry_id q) ReqQuery (FirstNonEmpty (qry_client_id q) client_id) (qry_channel q)
    (qry_metadata q) (qry_body q) "" (to_int32 (qry_timeout q)) (qry_cache_key q)
    (to_int32 (ms_to_seconds (qry_cache_ttl q))) "" (SetTags (qry_tags q) ∅).

Definition QueryResponseFromProto (p : pb_Response) : QueryResponse :=
  mkQueryResponse (pbResponse_requestid p) (pbResponse_replychannel p) (pbResponse_executed p)
    (pbResponse_timestamp p) (pbResponse_metadata p) (pbResponse_clientid p) (pbResponse_body p)
    (pbResponse_cachehit p) (pbResponse_error p) (CopyTags (pbResponse_tags p)).

Definition QueryReceiveFromProto (p : pb_Request) : QueryReceive :=
  mkQueryReceive (pbRequest_requestid p) (pbRequest_channel p) (pbRequest_clientid p)
    (pbRequest_metadata p) (pbRequest_body p) (pbRequest_replychannel p)
    (seconds_to_ms (pbRequest_timeout p)) (pbRequest_cachekey p)
    (seconds_to_ms (pbRequest_cachettl p)) (CopyTags (pbRequest_tags p)).

Definition QueryReplyToProto (r : QueryReply) : pb_Response :=
  mk_pb_Response (qrep_client_id r) (qrep_request_id r) (qrep_response_to r) (qrep_metadata r)
    (qrep_body r) (qrep_cache_hit r) (qrep_executed_at r) (qrep_executed r) (qrep_error r) ""
    (SetTags (qrep_tags r) ∅).

(** ** Queue messages *)

(** [policy()] points at a member, so its null test always succeeds. *)
Definition QueueMessageToProto (msg : QueueMessage) (client_id : string) : pb_QueueMessage :=
  let policy := qm_policy msg in
  mk_pb_QueueMessage (qm_id msg) (FirstNonEmpty (qm_client_id msg) client_id) (qm_channel msg)
    (qm_metadata msg) (qm_body msg) (SetTags (qm_tags msg) ∅) None
    (Some (mk_pb_QueueMessagePolicy (to_int32 (qp_expiration_seconds policy))
             (to_int32 (qp_delay_seconds policy)) (to_int32 (qp_max_receive_count policy))
             (qp_max_receive_queue policy))).

Definition QueueMessage_default : QueueMessage :=
  mkQueueMessage "" "" "" "" "" ∅ QueuePolicy_default QueueMessageAttributes_default.

Definition policy_from_proto (p : pb_QueueMessagePolicy) : QueuePolicy :=
  mkQueuePolicy (to_int32 (pbQueueMessagePolicy_expirationseconds p))
    (to_int32 (pbQueueMessagePolicy_delayseconds p))
    (to_int32 (pbQueueMessagePolicy_maxreceivecount p)) (pbQueueMessagePolicy_maxreceivequeue p).

Definition attributes_from_proto (a : pb_QueueMessageAttributes) : QueueMessageAttributes :=
  mkQueueMessageAttributes (pbQueueMessageAttributes_timestamp a)
    (pbQueueMessageAttributes_sequence a) (pbQueueMessageAttributes_md5ofbody a)
    (pbQueueMessageAttributes_receivecount a) (pbQueueMessageAttributes_rerouted a)
    (pbQueueMessageAttributes_reroutedfromqueue a) (pbQueueMessageAttributes_expirationat a)
    (pbQueueMessageAttributes_delayedto a).

Definition with_attributes (a : QueueMessageAttributes) (m : QueueMessage) : QueueMessage :=
  mkQueueMessage (qm_id m) (qm_channel m) (qm_metadata m) (qm_body m) (qm_client_id m) (qm_tags m)
    (qm_policy m) a.

(** The builder [QueueMessageFromProto] fills. *)
Definition builder_from_proto (p : pb_QueueMessage) : QueueMessageBuilder :=
  let builder :=
    QueueMessage_SetTags (CopyTags (pbQueueMessage_tags p))
      (QueueMessage_SetBody (pbQueueMessage_body p)
        (QueueMessage_SetMetadata (pbQueueMessage_metadata p)
          (QueueMessage_SetClientId (pbQueueMessage_clientid p)
            (QueueMessage_SetChannel (pbQueueMessage_channel p)
              (QueueMessage_SetId (pbQueueMessage_messageid p) QueueMessageBuilder_new))))) in
  match pbQueueMessage_policy p with
  | Some pol => QueueMessage_SetPolicy (policy_from_proto pol) builder
  | None => builder
  end.

Definition QueueMessageFromProto {W} `{Random W} (p : pb_QueueMessage) : M W QueueMessage :=
  let! (result, _) := QueueMessage_Build (builder_from_proto p) in
  match result with
  | SError _ => ret QueueMessage_default
  | SValue msg =>
      ret (match pbQueueMessage_attributes p with
           | Some attrs => with_attributes (attributes_from_proto attrs) msg
           | None => msg
           end)
  end.

(** The conversion of a repeated field, element by element. *)
Fixpoint QueueMessagesFromProto {W} `{Random W} (ps : list pb_QueueMessage)
    : M W (list QueueMessage) :=
  match ps with
  | [] => ret []
  | p :: ps' =>
      let! m := QueueMessageFromProto p in
      let! ms := QueueMessagesFromProto ps' in
      ret (m :: ms)
  end.

Definition QueueSendResultFromProto (p : pb_SendQueueMessageResult) : QueueSendResult :=
  mkQueueSendResult (pbSendQueueMessageResult_messageid p) (pbSendQueueMessageResult_sentat p)
    (pbSendQueueMessageResult_expirationat p) (pbSendQueueMessageResult_delayedto p)
    (pbSendQueueMessageResult_iserror p) (pbSendQueueMessageResult_error p).

Definition ReceiveQueueMessagesRequestToProto (r : ReceiveQueueMessagesRequest)
    : pb_ReceiveQueueMessagesRequest :=
  mk_pb_ReceiveQueueMessagesRequest (rq_request_id r) (rq_client_id r) (rq_channel r)
    (rq_max_number_of_messages r) (rq_wait_time_seconds r) (rq_is_peek r).

Definition ReceiveQueueMessagesResponseFromProto {W} `{Random W}
    (p : pb_ReceiveQueueMessagesResponse) : M W ReceiveQueueMessagesResponse :=
  let! messages := QueueMessagesFromProto (pbReceiveQueueMessagesResponse_messages p) in
  ret (mkReceiveQueueMessagesResponse (pbReceiveQueueMessagesResponse_requestid p) messages
         (pbReceiveQueueMessagesResponse_messagesreceived p)
         (pbReceiveQueueMessagesResponse_messagesexpired p)
         (pbReceiveQueueMessagesResponse_ispeak p) (pbReceiveQueueMessagesResponse_iserror p)
         (pbReceiveQueueMessagesResponse_error p)).

Definition AckAllQueueMessagesRequestToProto (r : AckAllQueueMessagesRequest)
    : pb_AckAllQueueMessagesRequest :=
  mk_pb_AckAllQueueMessagesRequest (aq_request_id r) (aq_client_id r) (aq_channel r)
    (aq_wait_time_seconds r).

Definition AckAllQueueMessagesResponseFromProto (p : pb_AckAllQueueMessagesResponse)
    : AckAllQueueMessagesResponse :=
  mkAckAllQueueMessagesResponse (pbAckAllQueueMessagesResponse_requestid p)
    (pbAckAllQueueMessagesResponse_affectedmessages p) (pbAckAllQueueMessagesResponse_iserror p)
    (pbAckAllQueueMessagesResponse_error p).

Definition ServerInfoFromProto (p : pb_PingResult) : ServerInfo :=
  mkServerInfo (pbPingResult_host p) (pbPingResult_version p) (pbPingResult_serverstarttime p)
    (pbPingResult_serveruptimeseconds p).

(** ** Upstream batches *)

Definition QueueUpstreamRequestToProto (request_id : string) (messages : list QueueMessage)
    (client_id : string) : pb_QueuesUpstreamRequest :=
  mk_pb_QueuesUpstreamRequest request_id ((fun m => QueueMessageToProto m client_id) <$> messages).

Record QueueUpstreamResultData := mkQueueUpstreamResultData {
  qu_ref_request_id : string;
  qu_results : list QueueSendResult;
  qu_is_error : bool;
  qu_error : string
}.

Definition QueueUpstreamResponseFromProto (p : pb_QueuesUpstreamResponse)
    : QueueUpstreamResultData :=
  mkQueueUpstreamResultData (pbQueuesUpstreamResponse_refrequestid p)
    (QueueSendResultFromProto <$> pbQueuesUpstreamResponse_results p)
    (pbQueuesUpstreamResponse_iserror p) (pbQueuesUpstreamResponse_error p).

(** ** Channel management *)

Definition kInternalChannel : string := "kubemq.cluster.internal.requests".

Definition BuildChannelManagementRequest (client_id channel_name channel_type operation
    request_id : string) : pb_Request :=
  mk_pb_Request request_id ReqQuery client_id kInternalChannel operation "" "" 10000 "" 0 ""
    (<["client_id" := client_id]> (<["channel_type" := channel_type]>
      (<["channel" := channel_name]> ∅))).

(** What the sources use of nlohmann::json.  [inr] carries the [what()] of
    the exception: a [parse_error] from [parse], a [type_error] from [value]. *)
Class JsonLibrary := {
  json : Type;
  json_parse : string -> json + string;
  json_array : json -> option (list json);          (* is_array() and the elements *)
  json_string : json -> string -> string -> string + string;   (* value(key, default) *)
  json_int : json -> string -> Z -> Z + string;
  json_bool : json -> string -> bool -> bool + string;
  json_contains : json -> string -> bool;
  json_at : json -> string -> json                  (* operator[] on a key that is there *)
}.

Section json.
Context `{JsonLibrary}.

Definition try_bind {A B} (r : A + string) (k : A -> B + string) : B + string :=
  match r with inl a => k a | inr e => inr e end.

Notation "x <-! r ; k" := (try_bind r (fun x => k))
  (at level 20, r at level 100, k at level 200, right associativity).

Definition parse_stats (j : json) : ChannelStats + string :=
  messages <-! json_int j "messages" 0;
  volume <-! json_int j "volume" 0;
  responses <-! json_int j "responses" 0;
  waiting <-! json_int j "waiting" 0;
  expired <-! json_int j "expired" 0;
  delayed <-! json_int j "delayed" 0;
  inl (mkChannelStats messages volume responses waiting expired delayed).

Definition ChannelStats_default : ChannelStats := mkChannelStats 0 0 0 0 0 0.

Definition parse_side (item : json) (key : string) : ChannelStats + string :=
  if json_contains item key then parse_stats (json_at item key) else inl ChannelStats_default.

Definition parse_channel (item : json) : ChannelInfo + string :=
  name <-! json_string item "name" "";
  type <-! json_string item "type" "";
  last_activity <-! json_int item "lastActivity" 0;
  is_active <-! json_bool item "isActive" false;
  incoming <-! parse_side item "incoming";
  outgoing <-! parse_side item "outgoing";
  inl (mkChannelInfo name type last_activity is_active incoming outgoing).

Fixpoint parse_channels (items : list json) : list ChannelInfo + string :=
  match items with
  | [] => inl []
  | item :: items' =>
      info <-! parse_channel item;
      infos <-! parse_channels items';
      inl (info :: infos)
  end.

Definition ParseChannelListResponse (json_body : string) : StatusOr (list ChannelInfo) :=
  if str_empty json_body then SValue []
  else
    match json_parse json_body with
    | inr what => SError (StatusMsg kFatal ("failed to parse channel list JSON: " +:+ what))
    | inl j =>
        match json_array j with
        | None => SError (StatusMsg kFatal "expected JSON array in channel list response")
        | Some items =>
            match parse_channels items with
            | inl channels => SValue channels
            | inr what => SError (StatusMsg kFatal ("unexpected type in channel list JSON: " +:+ what))
            end
        end
    end.

End json.

(** ** Properties *)

Lemma FirstNonEmpty_spec a b :
  FirstNonEmpty a b = a \/ (a = "" /\ FirstNonEmpty a b = b).
Proof. unfold FirstNonEmpty. destruct (str_empty a) eqn:E; [|by left]. right. by apply str_empty_true in E. Qed.

Definition policy_in_range (p : QueuePolicy) : Prop :=
  in_s 32 (qp_expiration_seconds p) /\ in_s 32 (qp_delay_seconds p) /\
  in_s 32 (qp_max_receive_count p).

(** What the builder inside [QueueMessageFromProto] holds. *)
Lemma builder_from_proto_eq p :
  builder_from_proto p =
    mkQueueMessageBuilder (pbQueueMessage_messageid p) (pbQueueMessage_channel p)
      (pbQueueMessage_metadata p) (pbQueueMessage_body p) (pbQueueMessage_clientid p)
      (pbQueueMessage_tags p)
      (match pbQueueMessage_policy p with
       | Some pol => policy_from_proto pol
       | None => QueuePolicy_default
       end).
Proof. unfold builder_from_proto. rewrite CopyTags_id. by destruct (pbQueueMessage_policy p). Qed.

Section queue_properties.
Context {W : Type} `{Random W}.

Lemma QueueMessageFromProto_valid (p : pb_QueueMessage) (w : W) :
  content_ok (pbQueueMessage_channel p) (pbQueueMessage_metadata p) (pbQueueMessage_body p) ->
  str_empty (pbQueueMessage_messageid p) = false ->
  QueueMessageFromProto p w =
    (mkQueueMessage (pbQueueMessage_messageid p) (pbQueueMessage_channel p)
       (pbQueueMessage_metadata p) (pbQueueMessage_body p) (pbQueueMessage_clientid p)
       (pbQueueMessage_tags p)
       (match pbQueueMessage_policy p with
        | Some pol => policy_from_proto pol
        | None => QueuePolicy_default
        end)
       (match pbQueueMessage_attributes p with
        | Some a => attributes_from_proto a
        | None => QueueMessageAttributes_default
        end), w).
Proof.
  intros [Hc Hb] Hid. unfold QueueMessageFromProto. rewrite builder_from_proto_eq.
  unfold QueueMessage_Build, id_or_uuid, bind, ret. cbn. rewrite Hc, Hid.
  assert (str_empty (pbQueueMessage_body p) && str_empty (pbQueueMessage_metadata p) = false) as ->
    by (destruct Hb as [-> | ->]; [done|by rewrite andb_false_r]).
  cbn. by destruct (pbQueueMessage_attributes p).
Qed.

(** C28: a queue message survives the wire. Converting a message that has an
    identifier, a channel and a body or metadata to the protocol and back
    gives the same message, tags and policy included, with the client's
    identifier where it had none and no attributes, and draws nothing; what
    the server adds as attributes is read back unchanged. But a protocol
    message without a channel, or with neither body nor metadata, is replaced
    as a whole by an empty one: its identifier, tags and attributes are lost. *)
Theorem queue_message_roundtrip (m : QueueMessage) (client_id : string)
    (attrs : option pb_QueueMessageAttributes) (w : W) :
  let p := QueueMessageToProto m client_id in
  let p' := mk_pb_QueueMessage (pbQueueMessage_messageid p) (pbQueueMessage_clientid p)
              (pbQueueMessage_channel p) (pbQueueMessage_metadata p) (pbQueueMessage_body p)
              (pbQueueMessage_tags p) attrs (pbQueueMessage_policy p) in
  (content_ok (qm_channel m) (qm_metadata m) (qm_body m) -> str_empty (qm_id m) = false ->
   policy_in_range (qm_policy m) ->
   QueueMessageFromProto p' w =
     (mkQueueMessage (qm_id m) (qm_channel m) (qm_metadata m) (qm_body m)
        (FirstNonEmpty (qm_client_id m) client_id) (qm_tags m) (qm_policy m)
        (match attrs with
         | Some a => attributes_from_proto a
         | None => QueueMessageAttributes_default
         end), w)) /\
  (~ content_ok (qm_channel m) (qm_metadata m) (qm_body m) ->
   QueueMessageFromProto p' w = (QueueMessage_default, w)).
Proof.
  intros p p'. split.
  - intros Hc Hid (H1 & H2 & H3). subst p p'. rewrite QueueMessageFromProto_valid by done. cbn.
    unfold policy_from_proto. cbn. rewrite !wrap_s_id by (done || (apply wrap_s_range; lia)). rewrite SetTags_fresh.
    by destruct m as [? ? ? ? ? ? []].
  - intros Hc. subst p p'. unfold QueueMessageFromProto. rewrite builder_from_proto_eq. cbn.
    unfold QueueMessage_Build, bind, ret, content_ok in *. cbn.
    destruct (str_empty (qm_channel m)); [done|].
    destruct (str_empty (qm_body m)); [|exfalso; intuition congruence].
    destruct (str_empty (qm_metadata m)); [done|exfalso; intuition congruence].
Qed.

End queue_properties.

(** C35: requests and replies survive the wire but for what is said here, for
    timeouts and cache times that an [int] holds. A command read from the
    request it was converted to has the same identifier, channel, metadata,
    body and tags and the sender's (or the client's) identifier, a query also
    its cache key, and its cache time truncated to whole seconds. The reply to a
    query comes back field by field, the cache flag and the execution time
    included; of the reply to a command the metadata and the body are lost, for
    which its response has no field. The timeout does not come back: it is written in
    milliseconds and read as seconds, so the receiver of a timeout of [t] ms
    sees [1000 * t] ms, never the sender's value since a built message has a
    positive timeout. *)
Theorem request_reply_roundtrip (c : Command) (q : Query) (r : CommandReply) (s : QueryReply)
    (client_id : string) :
  0 < cmd_timeout c < 2 ^ 31 -> 0 < qry_timeout q < 2 ^ 31 -> 0 <= qry_cache_ttl q < 2 ^ 31 ->
  CommandReceiveFromProto (CommandToProto c client_id) =
    mkCommandReceive (cmd_id c) (FirstNonEmpty (cmd_client_id c) client_id) (cmd_channel c)
      (cmd_metadata c) (cmd_body c) "" (1000 * cmd_timeout c) (cmd_tags c) /\
  QueryReceiveFromProto (QueryToProto q client_id) =
    mkQueryReceive (qry_id q) (qry_channel q) (FirstNonEmpty (qry_client_id q) client_id)
      (qry_metadata q) (qry_body q) "" (1000 * qry_timeout q) (qry_cache_key q)
      (1000 * (qry_cache_ttl q / 1000)) (qry_tags q) /\
  cmdr_timeout (CommandReceiveFromProto (CommandToProto c client_id)) <> cmd_timeout c /\
  qryr_timeout (QueryReceiveFromProto (QueryToProto q client_id)) <> qry_timeout q /\
  CommandResponseFromProto (CommandReplyToProto r) =
    mkCommandResponse (crep_request_id r) (crep_client_id r) (crep_response_to r)
      (crep_executed r) (crep_executed_at r) (crep_error r) (crep_tags r) /\
  QueryResponseFromProto (QueryReplyToProto s) =
    mkQueryResponse (qrep_request_id s) (qrep_response_to s) (qrep_executed s)
      (qrep_executed_at s) (qrep_metadata s) (qrep_client_id s) (qrep_body s)
      (qrep_cache_hit s) (qrep_error s) (qrep_tags s).
Proof.
  intros Hc Hq Ht.
  assert (0 <= qry_cache_ttl q / 1000 < 2 ^ 31) as Hd.
  { split; [apply Z.div_pos; lia|]. apply Z.div_lt_upper_bound; lia. }
  unfold CommandReceiveFromProto, CommandToProto, QueryReceiveFromProto, QueryToProto,
    CommandResponseFromProto, CommandReplyToProto, QueryResponseFromProto, QueryReplyToProto,
    seconds_to_ms, ms_to_seconds, div_trunc. cbn -[Z.mul Z.quot].
  rewrite Z.quot_div_nonneg by lia. rewrite !wrap_s_id by (done || (unfold in_s; lia)).
  rewrite !SetTags_fresh, !CopyTags_id.
  split; [done|]. split; [done|]. split; [lia|]. split; [lia|]. done.
Qed.

Lemma request_reply_roundtrip_witness :
  let c := mkCommand "1" "ch" "" "go" 5000 "" ∅ in
  let q := mkQuery "2" "ch" "" "go" 5000 "" "k" 60500 ∅ in
  cmdr_timeout (CommandReceiveFromProto (CommandToProto c "me")) = 5000000 /\
  qryr_cache_ttl (QueryReceiveFromProto (QueryToProto q "me")) = 60000 /\
  cmdr_timeout (CommandReceiveFromProto (CommandToProto c "me")) <> cmd_timeout c.
Proof.
  split; [reflexivity|]. split; [reflexivity|].
  apply (request_reply_roundtrip (mkCommand "1" "ch" "" "go" 5000 "" ∅)
    (mkQuery "2" "ch" "" "go" 5000 "" "k" 60500 ∅)
    (mkCommandReply "" "" "" "" "" ∅ "" 0 true) (mkQueryReply "" "" "" "" "" ∅ "" 0 false true));
    cbn; lia.
Defined.

Section json_properties.
Context `{JsonLibrary}.

Lemma parse_channels_spec items :
  match parse_channels items with
  | inl infos => Forall2 (fun item info => parse_channel item = inl info) items infos
  | inr what => exists pre item post infos, items = (pre ++ item :: post)%list /\
      Forall2 (fun i info => parse_channel i = inl info) pre infos /\ parse_channel item = inr what
  end.
Proof.
  induction items as [|item items IH]; cbn; [constructor|].
  destruct (parse_channel item) as [info|what] eqn:E; cbn.
  - destruct (parse_channels items) as [infos|what]; cbn; [by constructor|].
    destruct IH as (pre & it & post & infos & -> & Hp & Hi).
    exists (item :: pre), it, post, (info :: infos). repeat split; [|done]. by constructor.
  - by exists [], item, items, [].
Qed.

(** Parsing a channel list is all or nothing. An empty body is an empty
    list; otherwise the body must parse to an array, and the result is the
    list of its elements' records, in order, one each; the first element with
    a member of the wrong type makes the whole list a fatal error, as do a
    parse error and a value that is not an array, and no exception escapes. *)
Theorem ParseChannelListResponse_total (body : string) :
  match ParseChannelListResponse body with
  | SValue infos =>
      (body = "" /\ infos = []) \/
      exists j items, json_parse body = inl j /\ json_array j = Some items /\
        Forall2 (fun item info => parse_channel item = inl info) items infos
  | SError s =>
      code_ s = kFatal /\ body <> "" /\
      ((exists what, json_parse body = inr what) \/
       (exists j, json_parse body = inl j /\ json_array j = None) \/
       (exists j pre item post infos what, json_parse body = inl j /\
          json_array j = Some (pre ++ item :: post)%list /\
          Forall2 (fun i info => parse_channel i = inl info) pre infos /\
          parse_channel item = inr what))
  end.
Proof.
  unfold ParseChannelListResponse. destruct (str_empty body) eqn:Eb.
  { left. by apply str_empty_true in Eb. }
  apply str_empty_false in Eb. destruct (json_parse body) as [j|what] eqn:Ep; cbn; [|eauto 6].
  destruct (json_array j) as [items|] eqn:Ea; cbn; [|eauto 8].
  pose proof (parse_channels_spec items) as Hs.
  destruct (parse_channels items) as [infos|what]; [eauto 8|].
  destruct Hs as (pre & item & post & infos & -> & Hp & Hi).
  repeat split; [done|]. right. right. by exists j, pre, item, post, infos, what.
Qed.

End json_properties.
