(* ===== verification/Transport.v ===== *)
(** * The gRPC transport

    Models src/internal/transport/grpc_transport.cc and keepalive.cc.  The
    generated stub and the channel are the interface [Grpc]; a channel, a
    reader or a bidirectional stream is a handle.  Every operation is the
    source's: the closed test, a fresh [ClientContext] with its deadline, the
    authentication, one stub call, the mapping of its outcome. *)

From Stdlib Require Import ZArith Lia Ascii String Floats.
From S2P Require Import Prelude Status ErrorMapper Random Double Backoff StateMachine.
From S2P Require Import Auth Tls ClientOptions Messages Proto.

Local Open Scope string_scope.
Local Open Scope Z_scope.
Local Open Scope kubemq_scope.

(** ** The interface *)

Record ChannelArguments := mkChannelArguments {
  arg_max_receive : Z;
  arg_max_send : Z;
  arg_keepalive_time_ms : Z;
  arg_keepalive_timeout_ms : Z;
  arg_keepalive_permit : Z;
  arg_ssl_target_name : option string
}.

Inductive GrpcChannelState :=
  | GRPC_CHANNEL_IDLE | GRPC_CHANNEL_CONNECTING | GRPC_CHANNEL_READY
  | GRPC_CHANNEL_TRANSIENT_FAILURE | GRPC_CHANNEL_SHUTDOWN.

Class Grpc (W : Type) := {
  create_custom_channel : string -> ChannelCredentials -> ChannelArguments -> M W (option nat);
  new_stub : nat -> M W bool;
  wait_for_connected : nat -> Z -> M W bool;
  channel_get_state : nat -> M W GrpcChannelState;
  stub_Ping : ClientContext -> M W (GrpcStatus * pb_PingResult);
  stub_SendEvent : ClientContext -> pb_Event -> M W (GrpcStatus * pb_Result);
  stub_SendRequest : ClientContext -> pb_Request -> M W (GrpcStatus * pb_Response);
  stub_SendResponse : ClientContext -> pb_Response -> M W GrpcStatus;
  stub_SendQueueMessage : ClientContext -> pb_QueueMessage ->
    M W (GrpcStatus * pb_SendQueueMessageResult);
  stub_SendQueueMessagesBatch : ClientContext -> pb_QueueMessagesBatchRequest ->
    M W (GrpcStatus * pb_QueueMessagesBatchResponse);
  stub_ReceiveQueueMessages : ClientContext -> pb_ReceiveQueueMessagesRequest ->
    M W (GrpcStatus * pb_ReceiveQueueMessagesResponse);
  stub_AckAllQueueMessages : ClientContext -> pb_AckAllQueueMessagesRequest ->
    M W (GrpcStatus * pb_AckAllQueueMessagesResponse);
  stub_SendEventsStream : ClientContext -> M W (option nat);
  stub_SubscribeToEvents : ClientContext -> pb_Subscribe -> M W (option nat);
  stub_SubscribeToRequests : ClientContext -> pb_Subscribe -> M W (option nat);
  stub_QueuesUpstream : ClientContext -> M W (option nat);
  stub_QueuesDownstream : ClientContext -> M W (option nat)
}.

(** ** State

    [stub_] is set exactly when [Connect] succeeded, which is when a transport
    exists; [mu_] is held for single steps. *)
Record GrpcTransport := mkGrpcTransport {
  channel_handle_ : option nat;
  opts_ : ClientOptions;
  closed_ : bool;
  close_once_ : bool;
  state_machine_ : option StateMachine
}.

Section transport.
Context {W : Type} `{Grpc W, Providers W, Callbacks W, FileSystem W}.

(** ** Lifecycle *)

(** The keepalive settings, also in keepalive.cc as [ApplyKeepalive]. *)
Definition channel_arguments (o : ClientOptions) : ChannelArguments :=
  mkChannelArguments (max_receive_message_size_ o) (max_send_message_size_ o)
    (to_int32 (keepalive_time_ o)) (to_int32 (keepalive_timeout_ o))
    (if permit_keepalive_without_stream_ o then 1 else 0)
    (if enabled_ (tls_config_ o) && negb (str_empty (server_name_override_ (tls_config_ o)))
     then Some (server_name_override_ (tls_config_ o)) else None).

(** [Connect] and [Create]: the transport exists only when all steps succeed.
    The state machine has no handlers yet. *)
Definition GrpcTransport_Create (o : ClientOptions) : M W (StatusOr GrpcTransport) :=
  let target := host_ o +:+ ":" +:+ pretty (port_ o) in
  let? creds := BuildChannelCredentials (tls_config_ o) in
  let! channel := create_custom_channel target creds (channel_arguments o) in
  match channel with
  | None =>
      ret (SError (MakeError kTransient "failed to create gRPC channel" "GrpcTransport::Connect" "" ""))
  | Some ch =>
      let! has_stub := new_stub ch in
      if negb has_stub then
        ret (SError (MakeError kTransient "failed to create gRPC stub" "GrpcTransport::Connect" "" ""))
      else
        let! connected := (if wait_for_ready_ o then wait_for_connected ch (connection_timeout_ o)
                           else ret true) in
        if negb connected then
          ret (SError (MakeError kTimeout "connection timeout waiting for channel to be ready"
                         "GrpcTransport::Connect" "" ""))
        else
          let! (_, m1) := Transition kConnecting (StateMachine_init kIdle) in
          let! (_, m2) := Transition kReady m1 in
          ret (SValue (mkGrpcTransport (Some ch) o false false (Some m2)))
  end.

(** [Close] and the destructor; the status returned is always OK. *)
Definition GrpcTransport_Close (t : GrpcTransport) : M W (Status * GrpcTransport) :=
  if close_once_ t then ret (StatusOk, t)
  else
    match state_machine_ t with
    | Some m =>
        let! (_, m') := Transition kClosed m in
        ret (StatusOk, mkGrpcTransport (channel_handle_ t) (opts_ t) true true (Some m'))
    | None => ret (StatusOk, mkGrpcTransport (channel_handle_ t) (opts_ t) true true None)
    end.

Definition GrpcTransport_State (t : GrpcTransport) : M W ConnectionState :=
  if closed_ t then ret kClosed
  else
    match state_machine_ t, channel_handle_ t with
    | Some m, _ => ret (Current m)
    | None, Some ch =>
        let! s := channel_get_state ch in
        ret (match s with
             | GRPC_CHANNEL_IDLE => kIdle
             | GRPC_CHANNEL_CONNECTING => kReconnecting
             | GRPC_CHANNEL_READY => kReady
             | GRPC_CHANNEL_TRANSIENT_FAILURE => kReconnecting
             | GRPC_CHANNEL_SHUTDOWN => kClosed
             end)
    | None, None => ret kIdle
    end.

Definition ClientID (t : GrpcTransport) : string := client_id_ (opts_ t).

Definition CheckClosed (t : GrpcTransport) : Status :=
  if closed_ t then kErrClientClosed else StatusOk.

Definition ApplyAuth (t : GrpcTransport) (ctx : ClientContext) : M W (Status * ClientContext) :=
  let! (s, c) := InjectAuthToken (Some ctx) (opt_auth_token_ (opts_ t)) (credential_provider_ (opts_ t)) in
  ret (s, default ctx c).

(** What every call starts with: [CheckClosed], a context with the deadline
    (milliseconds from now), [ApplyAuth]. *)
Definition begin_call (t : GrpcTransport) (deadline : option Z) : M W (StatusOr ClientContext) :=
  let s := CheckClosed t in
  if negb (status_ok s) then ret (SError s)
  else
    let! (auth_status, ctx) := ApplyAuth t (mkClientContext [] deadline) in
    if negb (status_ok auth_status) then ret (SError auth_status) else ret (SValue ctx).

(** ** Calls *)

Definition Transport_Ping (t : GrpcTransport) : M W (StatusOr ServerInfo) :=
  let? ctx := begin_call t (Some (connection_timeout_ (opts_ t))) in
  let! (status, response) := stub_Ping ctx in
  if negb (grpc_ok status) then ret (SError (FromGrpcStatus status "GrpcTransport::Ping" "" ""))
  else
    ret (SValue (mkServerInfo (pbPingResult_host response) (pbPingResult_version response)
                   (pbPingResult_serverstarttime response)
                   (pbPingResult_serveruptimeseconds response))).

Definition Transport_SendEvent (t : GrpcTransport) (proto_event : pb_Event) : M W Status :=
  let/ ctx := begin_call t (Some kDefaultSendTimeout) in
  let! (status, result) := stub_SendEvent ctx proto_event in
  if negb (grpc_ok status) then
    ret (FromGrpcStatus status "GrpcTransport::SendEvent" (pbEvent_channel proto_event) "")
  else if negb (str_empty (pbResult_error result)) then
    ret (FromServerError (pbResult_error result) "GrpcTransport::SendEvent" (pbEvent_channel proto_event))
  else ret StatusOk.

Definition Transport_SendEventStore (t : GrpcTransport) (proto_event : pb_Event)
    : M W (StatusOr EventStoreResult) :=
  let? ctx := begin_call t (Some kDefaultSendTimeout) in
  let! (status, result) := stub_SendEvent ctx proto_event in
  if negb (grpc_ok status) then
    ret (SError (FromGrpcStatus status "GrpcTransport::SendEventStore" (pbEvent_channel proto_event) ""))
  else if negb (str_empty (pbResult_error result)) then
    ret (SError (MakeError kFatal (pbResult_error result) "GrpcTransport::SendEventStore"
                   (pbEvent_channel proto_event) ""))
  else
    ret (SValue (mkEventStoreResult (pbResult_eventid result) (pbResult_sent result)
                   (pbResult_error result))).

(** [stub_->X(ctx)] that opens a stream, with the error for a null one. *)
Definition opened (stream : option nat) (message operation channel : string) : StatusOr nat :=
  match stream with
  | Some h => SValue h
  | None => SError (MakeError kTransient message operation channel "")
  end.

Definition OpenEventStream (t : GrpcTransport) : M W (StatusOr nat) :=
  let? ctx := begin_call t None in
  let! stream := stub_SendEventsStream ctx in
  ret (opened stream "failed to open event stream" "GrpcTransport::OpenEventStream" "").

Definition Transport_SubscribeToEvents (t : GrpcTransport) (sub : pb_Subscribe)
    : M W (StatusOr nat) :=
  let? ctx := begin_call t None in
  let! reader := stub_SubscribeToEvents ctx sub in
  ret (opened reader "failed to open event subscription stream" "GrpcTransport::SubscribeToEvents"
         (pbSubscribe_channel sub)).

(** [kDefaultRPCTimeout] is a count of seconds used as milliseconds. *)
Definition request_timeout_ms (request : pb_Request) : Z :=
  if 0 <? pbRequest_timeout request then pbRequest_timeout request
  else to_int32 (kDefaultRPCTimeout / 1000).

Definition Transport_SendRequest (t : GrpcTransport) (request : pb_Request)
    : M W (StatusOr pb_Response) :=
  let? ctx := begin_call t (Some (request_timeout_ms request)) in
  let! (status, response) := stub_SendRequest ctx request in
  if negb (grpc_ok status) then
    ret (SError (FromGrpcStatus status "GrpcTransport::SendRequest" (pbRequest_channel request) ""))
  else ret (SValue response).

Definition Transport_SendResponse (t : GrpcTransport) (response : pb_Response) : M W Status :=
  let/ ctx := begin_call t (Some kDefaultSendTimeout) in
  let! status := stub_SendResponse ctx response in
  if negb (grpc_ok status) then
    ret (FromGrpcStatus status "GrpcTransport::SendResponse" (pbResponse_replychannel response) "")
  else ret StatusOk.

Definition Transport_SubscribeToRequests (t : GrpcTransport) (sub : pb_Subscribe)
    : M W (StatusOr nat) :=
  let? ctx := begin_call t None in
  let! reader := stub_SubscribeToRequests ctx sub in
  ret (opened reader "failed to open request subscription stream"
         "GrpcTransport::SubscribeToRequests" (pbSubscribe_channel sub)).

Definition Transport_SendQueueMessage (t : GrpcTransport) (msg : pb_QueueMessage)
    : M W (StatusOr pb_SendQueueMessageResult) :=
  let? ctx := begin_call t (Some kDefaultSendTimeout) in
  let! (status, result) := stub_SendQueueMessage ctx msg in
  if negb (grpc_ok status) then
    ret (SError (FromGrpcStatus status "GrpcTransport::SendQueueMessage" (pbQueueMessage_channel msg) ""))
  else ret (SValue result).

Definition Transport_SendQueueMessagesBatch (t : GrpcTransport)
    (req : pb_QueueMessagesBatchRequest) : M W (StatusOr pb_QueueMessagesBatchResponse) :=
  let? ctx := begin_call t (Some kDefaultSendTimeout) in
  let! (status, response) := stub_SendQueueMessagesBatch ctx req in
  if negb (grpc_ok status) then
    ret (SError (FromGrpcStatus status "GrpcTransport::SendQueueMessagesBatch" "" ""))
  else ret (SValue response).

(** [seconds(wait > 0 ? wait + 5 : 30)]; the sum is an [int32_t]'s. *)
Definition wait_deadline_ms (wait : Z) : Z :=
  1000 * (if 0 <? wait then to_int32 (wait + 5) else 30).

Definition Transport_ReceiveQueueMessages (t : GrpcTransport)
    (req : pb_ReceiveQueueMessagesRequest) : M W (StatusOr pb_ReceiveQueueMessagesResponse) :=
  let? ctx := begin_call t
    (Some (wait_deadline_ms (pbReceiveQueueMessagesRequest_waittimeseconds req))) in
  let! (status, response) := stub_ReceiveQueueMessages ctx req in
  if negb (grpc_ok status) then
    ret (SError (FromGrpcStatus status "GrpcTransport::ReceiveQueueMessages"
                   (pbReceiveQueueMessagesRequest_channel req) ""))
  else ret (SValue response).

Definition Transport_AckAllQueueMessages (t : GrpcTransport)
    (req : pb_AckAllQueueMessagesRequest) : M W (StatusOr pb_AckAllQueueMessagesResponse) :=
  let? ctx := begin_call t
    (Some (wait_deadline_ms (pbAckAllQueueMessagesRequest_waittimeseconds req))) in
  let! (status, response) := stub_AckAllQueueMessages ctx req in
  if negb (grpc_ok status) then
    ret (SError (FromGrpcStatus status "GrpcTransport::AckAllQueueMessages"
                   (pbAckAllQueueMessagesRequest_channel req) ""))
  else ret (SValue response).

Definition OpenQueueUpstream (t : GrpcTransport) : M W (StatusOr nat) :=
  let? ctx := begin_call t None in
  let! stream := stub_QueuesUpstream ctx in
  ret (opened stream "failed to open queue upstream stream" "GrpcTransport::OpenQueueUpstream" "").

Definition OpenQueueDownstream (t : GrpcTransport) : M W (StatusOr nat) :=
  let? ctx := begin_call t None in
  let! stream := stub_QueuesDownstream ctx in
  ret (opened stream "failed to open queue downstream stream" "GrpcTransport::OpenQueueDownstream" "").

End transport.

(** ** Observing the stub

    A world extended with the log of the stub calls made, each with the
    context it was made with and what came of it; everything else acts on the
    original world. *)

Inductive StubCall :=
  | CallPing
  | CallSendEvent (event : pb_Event)
  | CallSendRequest (request : pb_Request)
  | CallSendResponse (response : pb_Response)
  | CallSendQueueMessage (msg : pb_QueueMessage)
  | CallSendQueueMessagesBatch (req : pb_QueueMessagesBatchRequest)
  | CallReceiveQueueMessages (req : pb_ReceiveQueueMessagesRequest)
  | CallAckAllQueueMessages (req : pb_AckAllQueueMessagesRequest)
  | CallSendEventsStream
  | CallSubscribeToEvents (sub : pb_Subscribe)
  | CallSubscribeToRequests (sub : pb_Subscribe)
  | CallQueuesUpstream
  | CallQueuesDownstream.

(** A unary call is answered with a status and, for an event, the error text
    of the broker's result; a stream is opened or not. *)
Inductive StubOutcome :=
  | Answered (gs : GrpcStatus) (error : string)
  | Opened (stream : option nat).

Definition answer_of {R} (a : GrpcStatus * R) : StubOutcome := Answered (fst a) "".
Definition result_answer (a : GrpcStatus * pb_Result) : StubOutcome :=
  Answered (fst a) (pbResult_error (snd a)).

Abbreviation call_log := (list (ClientContext * StubCall * StubOutcome)).
Abbreviation Logged W := (W * call_log)%type.

Definition lift_log {W A} (m : M W A) : M (Logged W) A :=
  fun wl => let '(a, w') := m (fst wl) in (a, (w', snd wl)).

Definition record_call {W A} (ctx : ClientContext) (call : StubCall) (out : A -> StubOutcome)
    (m : M W A) : M (Logged W) A :=
  fun wl => let '(a, w') := m (fst wl) in (a, (w', snd wl ++ [(ctx, call, out a)])%list).

#[export] Instance logged_grpc {W} `{Grpc W} : Grpc (Logged W) := {|
  create_custom_channel target creds args := lift_log (create_custom_channel target creds args);
  new_stub ch := lift_log (new_stub ch);
  wait_for_connected ch d := lift_log (wait_for_connected ch d);
  channel_get_state ch := lift_log (channel_get_state ch);
  stub_Ping ctx := record_call ctx CallPing answer_of (stub_Ping ctx);
  stub_SendEvent ctx e := record_call ctx (CallSendEvent e) result_answer (stub_SendEvent ctx e);
  stub_SendRequest ctx r := record_call ctx (CallSendRequest r) answer_of (stub_SendRequest ctx r);
  stub_SendResponse ctx r :=
    record_call ctx (CallSendResponse r) (fun gs => Answered gs "") (stub_SendResponse ctx r);
  stub_SendQueueMessage ctx m :=
    record_call ctx (CallSendQueueMessage m) answer_of (stub_SendQueueMessage ctx m);
  stub_SendQueueMessagesBatch ctx r :=
    record_call ctx (CallSendQueueMessagesBatch r) answer_of (stub_SendQueueMessagesBatch ctx r);
  stub_ReceiveQueueMessages ctx r :=
    record_call ctx (CallReceiveQueueMessages r) answer_of (stub_ReceiveQueueMessages ctx r);
  stub_AckAllQueueMessages ctx r :=
    record_call ctx (CallAckAllQueueMessages r) answer_of (stub_AckAllQueueMessages ctx r);
  stub_SendEventsStream ctx := record_call ctx CallSendEventsStream Opened (stub_SendEventsStream ctx);
  stub_SubscribeToEvents ctx s :=
    record_call ctx (CallSubscribeToEvents s) Opened (stub_SubscribeToEvents ctx s);
  stub_SubscribeToRequests ctx s :=
    record_call ctx (CallSubscribeToRequests s) Opened (stub_SubscribeToRequests ctx s);
  stub_QueuesUpstream ctx := record_call ctx CallQueuesUpstream Opened (stub_QueuesUpstream ctx);
  stub_QueuesDownstream ctx := record_call ctx CallQueuesDownstream Opened (stub_QueuesDownstream ctx)
|}.

#[export] Instance logged_providers {W} `{Providers W} : Providers (Logged W) :=
  fun p => lift_log (get_token p).
#[export] Instance logged_callbacks {W} `{Callbacks W} : Callbacks (Logged W) :=
  fun e f => lift_log (fire e f).
#[export] Instance logged_fs {W} `{FileSystem W} : FileSystem (Logged W) :=
  fun path => lift_log (open_and_read path).
#[export] Instance logged_random {W} `{Random W} : Random (Logged W).
Proof.
  refine {| next_u64 := lift_log next_u64; uniform_int lo hi := lift_log (uniform_int lo hi) |}.
  - intros [w l]. pose proof (next_u64_range w). unfold lift_log. cbn. by destruct (next_u64 w).
  - intros lo hi [w l] Hle. pose proof (uniform_int_range lo hi w Hle). unfold lift_log. cbn.
    by destruct (uniform_int lo hi w).
Defined.

(** The calls, as data. *)
Inductive TransportOp :=
  | OpPing
  | OpSendEvent (event : pb_Event)
  | OpSendEventStore (event : pb_Event)
  | OpOpenEventStream
  | OpSubscribeToEvents (sub : pb_Subscribe)
  | OpSendRequest (request : pb_Request)
  | OpSendResponse (response : pb_Response)
  | OpSubscribeToRequests (sub : pb_Subscribe)
  | OpSendQueueMessage (msg : pb_QueueMessage)
  | OpSendQueueMessagesBatch (req : pb_QueueMessagesBatchRequest)
  | OpReceiveQueueMessages (req : pb_ReceiveQueueMessagesRequest)
  | OpAckAllQueueMessages (req : pb_AckAllQueueMessagesRequest)
  | OpOpenQueueUpstream
  | OpOpenQueueDownstream.

Definition op_call (o : TransportOp) : StubCall :=
  match o with
  | OpPing => CallPing
  | OpSendEvent e | OpSendEventStore e => CallSendEvent e
  | OpOpenEventStream => CallSendEventsStream
  | OpSubscribeToEvents s => CallSubscribeToEvents s
  | OpSendRequest r => CallSendRequest r
  | OpSendResponse r => CallSendResponse r
  | OpSubscribeToRequests s => CallSubscribeToRequests s
  | OpSendQueueMessage m => CallSendQueueMessage m
  | OpSendQueueMessagesBatch r => CallSendQueueMessagesBatch r
  | OpReceiveQueueMessages r => CallReceiveQueueMessages r
  | OpAckAllQueueMessages r => CallAckAllQueueMessages r
  | OpOpenQueueUpstream => CallQueuesUpstream
  | OpOpenQueueDownstream => CallQueuesDownstream
  end.

(** The deadline each call sets; streams have none. *)
Definition op_deadline (t : GrpcTransport) (o : TransportOp) : option Z :=
  match o with
  | OpPing => Some (connection_timeout_ (opts_ t))
  | OpSendEvent _ | OpSendEventStore _ | OpSendResponse _ | OpSendQueueMessage _
  | OpSendQueueMessagesBatch _ => Some 5000
  | OpSendRequest r =>
      Some (if 0 <? pbRequest_timeout r then pbRequest_timeout r else 10)
  | OpReceiveQueueMessages r =>
      Some (wait_deadline_ms (pbReceiveQueueMessagesRequest_waittimeseconds r))
  | OpAckAllQueueMessages r => Some (wait_deadline_ms (pbAckAllQueueMessagesRequest_waittimeseconds r))
  | OpOpenEventStream | OpSubscribeToEvents _ | OpSubscribeToRequests _ | OpOpenQueueUpstream
  | OpOpenQueueDownstream => None
  end.

Definition status_only {W A} (m : M W (StatusOr A)) : M W Status :=
  let! r := m in ret (statusor_status r).

Section gate.
Context {W : Type} `{Grpc W, Providers W}.

Definition run_op {V} `{Grpc V, Providers V} (t : GrpcTransport) (o : TransportOp) : M V Status :=
  match o with
  | OpPing => status_only (Transport_Ping t)
  | OpSendEvent e => Transport_SendEvent t e
  | OpSendEventStore e => status_only (Transport_SendEventStore t e)
  | OpOpenEventStream => status_only (OpenEventStream t)
  | OpSubscribeToEvents s => status_only (Transport_SubscribeToEvents t s)
  | OpSendRequest r => status_only (Transport_SendRequest t r)
  | OpSendResponse r => Transport_SendResponse t r
  | OpSubscribeToRequests s => status_only (Transport_SubscribeToRequests t s)
  | OpSendQueueMessage m => status_only (Transport_SendQueueMessage t m)
  | OpSendQueueMessagesBatch r => status_only (Transport_SendQueueMessagesBatch t r)
  | OpReceiveQueueMessages r => status_only (Transport_ReceiveQueueMessages t r)
  | OpAckAllQueueMessages r => status_only (Transport_AckAllQueueMessages t r)
  | OpOpenQueueUpstream => status_only (OpenQueueUpstream t)
  | OpOpenQueueDownstream => status_only (OpenQueueDownstream t)
  end.

(** The token a transport's calls carry now. *)
Definition transport_token (t : GrpcTransport) : M W (StatusOr string) :=
  resolve_token (opt_auth_token_ (opts_ t)) (credential_provider_ (opts_ t)).

Lemma resolve_token_logged token p (w : W) (log : call_log) :
  resolve_token token p (w, log) =
    (fst (resolve_token token p w), (snd (resolve_token token p w), log)).
Proof.
  unfold resolve_token, ret. destruct (negb (str_empty token)); [done|].
  destruct p as [p|]; [|done]. unfold get_token at 1, logged_providers, lift_log. cbn.
  by destruct (get_token p w).
Qed.

Lemma begin_call_logged t d (w : W) (log : call_log) :
  begin_call t d (w, log) =
    if closed_ t then (SError kErrClientClosed, (w, log))
    else
      match transport_token t w with
      | (SValue tok, w1) => (SValue (mkClientContext (with_token tok []) d), (w1, log))
      | (SError e, w1) =>
          if status_ok e then (SValue (mkClientContext [] d), (w1, log)) else (SError e, (w1, log))
      end.
Proof.
  unfold begin_call, CheckClosed, ApplyAuth, transport_token. destruct (closed_ t); [done|].
  change (status_ok StatusOk) with true. cbn [negb]. unfold bind. rewrite InjectAuthToken_resolve. unfold bind, ret.
  rewrite resolve_token_logged.
  destruct (resolve_token (opt_auth_token_ (opts_ t)) (credential_provider_ (opts_ t)) w)
    as [[tok|e] w1]; cbn; [done|]. by destruct (status_ok e).
Qed.

(** How a call's outcome is reported: OK exactly for an answer that is OK and
    without an error text, or an open stream; gRPC's error mapped, the
    broker's text, or a transient error otherwise. *)
Definition outcome_ok (out : StubOutcome) : bool :=
  match out with
  | Answered gs error => grpc_ok gs && str_empty error
  | Opened stream => match stream with Some _ => true | None => false end
  end.

Definition failure_of (out : StubOutcome) (s : Status) : Prop :=
  match out with
  | Answered gs error =>
      if grpc_ok gs then code_ s = kFatal /\ message_ s = error
      else exists operation channel, s = FromGrpcStatus gs operation channel ""
  | Opened _ => code_ s = kTransient
  end.

Definition reports (out : StubOutcome) (s : Status) : Prop :=
  status_ok s = outcome_ok out /\ (outcome_ok out = false -> failure_of out s).

(** What a call may do to the log: nothing on a closed transport or when the
    token cannot be had, else one entry. *)
Definition gate_spec (t : GrpcTransport) (call : StubCall) (d : option Z) (w : W)
    (log : call_log) (s : Status) (w' : W) (log' : call_log) : Prop :=
  if closed_ t then s = kErrClientClosed /\ w' = w /\ log' = log
  else
    match transport_token t w with
    | (SValue tok, _) =>
        exists out, reports out s /\
          log' = (log ++ [(mkClientContext (with_token tok []) d, call, out)])%list
    | (SError e, w1) =>
        if status_ok e then
          exists out, reports out s /\ log' = (log ++ [(mkClientContext [] d, call, out)])%list
        else s = e /\ w' = w1 /\ log' = log
    end.

(** The shape all calls share; [K] maps the stub's answer to a status. *)
Lemma gate_shape {A} t d (w : W) (log : call_log) call (stub : ClientContext -> M W A)
    (out : A -> StubOutcome) (K : A -> Status) (op : M (Logged W) Status) s w' log' :
  (forall a, reports (out a) (K a)) ->
  (forall wl, op wl =
     let '(r, wl1) := begin_call t d wl in
     match r with
     | SError e => (e, wl1)
     | SValue ctx => let '(a, wl2) := record_call ctx call out (stub ctx) wl1 in (K a, wl2)
     end) ->
  op (w, log) = (s, (w', log')) -> gate_spec t call d w log s w' log'.
Proof.
  intros HK ->. unfold gate_spec, record_call. rewrite begin_call_logged.
  destruct (closed_ t); [by intros [= <- <- <-]|].
  destruct (transport_token t w) as [[tok|e] w1]; cbn.
  - destruct (stub _ w1) as [a w2]. intros [= <- <- <-]. by exists (out a).
  - destruct (status_ok e); cbn; [|by intros [= <- <- <-]].
    destruct (stub _ w1) as [a w2]. intros [= <- <- <-]. by exists (out a).
Qed.

(** The three ways an outcome becomes a status. *)
Lemma reports_status gs op ch :
  reports (Answered gs "") (if grpc_ok gs then StatusOk else FromGrpcStatus gs op ch "").
Proof.
  unfold reports. cbn. destruct (grpc_ok gs) eqn:E; cbn; [done|].
  split; [by rewrite FromGrpcStatus_ok|eauto].
Qed.

Lemma reports_answer {R} (a : GrpcStatus * R) op ch :
  reports (answer_of a) (if grpc_ok (fst a) then StatusOk else FromGrpcStatus (fst a) op ch "").
Proof. apply reports_status. Qed.

Lemma reports_result (a : GrpcStatus * pb_Result) op ch s :
  (pbResult_error (snd a) <> "" -> code_ s = kFatal /\ message_ s = pbResult_error (snd a)) ->
  reports (result_answer a)
    (if negb (grpc_ok (fst a)) then FromGrpcStatus (fst a) op ch ""
     else if negb (str_empty (pbResult_error (snd a))) then s else StatusOk).
Proof.
  unfold reports, result_answer. cbn. intros Hs. destruct (grpc_ok (fst a)) eqn:E; cbn.
  - destruct (str_empty _) eqn:Ee; cbn; [done|]. apply str_empty_false in Ee.
    destruct (Hs Ee) as [Hc Hm]. split; [|done]. apply status_not_ok_spec. congruence.
  - split; [by rewrite FromGrpcStatus_ok|eauto].
Qed.

Lemma reports_server_error (a : GrpcStatus * pb_Result) op ch op' ch' :
  reports (result_answer a)
    (if negb (grpc_ok (fst a)) then FromGrpcStatus (fst a) op ch ""
     else if negb (str_empty (pbResult_error (snd a)))
     then FromServerError (pbResult_error (snd a)) op' ch' else StatusOk).
Proof.
  apply reports_result. intros He%str_empty_false. unfold FromServerError. by rewrite He.
Qed.

Lemma reports_opened st msg op ch : reports (Opened st) (statusor_status (opened st msg op ch)).
Proof. by destruct st. Qed.

(** One operation's shape; [K] maps the stub's answer to a status. *)
Tactic Notation "gate_tac" uconstr(stub) uconstr(out) uconstr(K) :=
  refine (gate_shape _ _ _ _ _ stub out K _ _ _ _ _ _);
  [intros ?; first [apply reports_answer | apply reports_status | apply reports_opened
                   | apply reports_server_error | by apply reports_result]|];
  intros [? ?]; cbn [run_op];
  unfold status_only, Transport_Ping, Transport_SendEvent, Transport_SendEventStore, OpenEventStream,
    Transport_SubscribeToEvents, Transport_SendRequest, Transport_SendResponse,
    Transport_SubscribeToRequests, Transport_SendQueueMessage, Transport_SendQueueMessagesBatch,
    Transport_ReceiveQueueMessages, Transport_AckAllQueueMessages, OpenQueueUpstream,
    OpenQueueDownstream, bind_statusor, bind_status, bind, ret, request_timeout_ms;
  change kDefaultSendTimeout with 5000; change (to_int32 (kDefaultRPCTimeout / 1000)) with 10;
  match goal with |- context [begin_call ?t ?d ?wl] => destruct (begin_call t d wl) as [[?|?] [? ?]] end;
  [|done]; cbn; unfold record_call, opened; cbn;
  repeat case_match; simplify_eq/=; rewrite ?negb_true_iff, ?negb_false_iff in *; congruence.

Lemma run_op_gate (t : GrpcTransport) (o : TransportOp) (w : W) (log : call_log) s w' log' :
  run_op t o (w, log) = (s, (w', log')) ->
  gate_spec t (op_call o) (op_deadline t o) w log s w' log'.
Proof.
  destruct o; cbn [op_call op_deadline].
  - gate_tac stub_Ping answer_of
      (fun sr : GrpcStatus * pb_PingResult => if grpc_ok (fst sr) then StatusOk
      else FromGrpcStatus (fst sr) "GrpcTransport::Ping" "" "").
  - gate_tac (fun ctx => stub_SendEvent ctx event) result_answer
      (fun sr : GrpcStatus * pb_Result => if negb (grpc_ok (fst sr))
      then FromGrpcStatus (fst sr) "GrpcTransport::SendEvent" (pbEvent_channel event) ""
      else if negb (str_empty (pbResult_error (snd sr)))
      then FromServerError (pbResult_error (snd sr)) "GrpcTransport::SendEvent" (pbEvent_channel event)
      else StatusOk).
  - gate_tac (fun ctx => stub_SendEvent ctx event) result_answer
      (fun sr : GrpcStatus * pb_Result => if negb (grpc_ok (fst sr))
      then FromGrpcStatus (fst sr) "GrpcTransport::SendEventStore" (pbEvent_channel event) ""
      else if negb (str_empty (pbResult_error (snd sr)))
      then MakeError kFatal (pbResult_error (snd sr)) "GrpcTransport::SendEventStore"
             (pbEvent_channel event) ""
      else StatusOk).
  - gate_tac stub_SendEventsStream Opened
      (fun st => statusor_status (opened st "failed to open event stream" "GrpcTransport::OpenEventStream" "")).
  - gate_tac (fun ctx => stub_SubscribeToEvents ctx sub) Opened
      (fun st => statusor_status (opened st "failed to open event subscription stream" "GrpcTransport::SubscribeToEvents" (pbSubscribe_channel sub))).
  - gate_tac (fun ctx => stub_SendRequest ctx request) answer_of
      (fun sr : GrpcStatus * pb_Response => if grpc_ok (fst sr) then StatusOk
      else FromGrpcStatus (fst sr) "GrpcTransport::SendRequest" (pbRequest_channel request) "").
  - gate_tac (fun ctx => stub_SendResponse ctx response) (fun gs => Answered gs ""%string)
      (fun st => if grpc_ok st then StatusOk
      else FromGrpcStatus st "GrpcTransport::SendResponse" (pbResponse_replychannel response) "").
  - gate_tac (fun ctx => stub_SubscribeToRequests ctx sub) Opened
      (fun st => statusor_status (opened st "failed to open request subscription stream" "GrpcTransport::SubscribeToRequests" (pbSubscribe_channel sub))).
  - gate_tac (fun ctx => stub_SendQueueMessage ctx msg) answer_of
      (fun sr : GrpcStatus * pb_SendQueueMessageResult => if grpc_ok (fst sr) then StatusOk
      else FromGrpcStatus (fst sr) "GrpcTransport::SendQueueMessage" (pbQueueMessage_channel msg) "").
  - gate_tac (fun ctx => stub_SendQueueMessagesBatch ctx req) answer_of
      (fun sr : GrpcStatus * pb_QueueMessagesBatchResponse => if grpc_ok (fst sr) then StatusOk
      else FromGrpcStatus (fst sr) "GrpcTransport::SendQueueMessagesBatch" "" "").
  - gate_tac (fun ctx => stub_ReceiveQueueMessages ctx req) answer_of
      (fun sr : GrpcStatus * pb_ReceiveQueueMessagesResponse => if grpc_ok (fst sr) then StatusOk
      else FromGrpcStatus (fst sr) "GrpcTransport::ReceiveQueueMessages" (pbReceiveQueueMessagesRequest_channel req) "").
  - gate_tac (fun ctx => stub_AckAllQueueMessages ctx req) answer_of
      (fun sr : GrpcStatus * pb_AckAllQueueMessagesResponse => if grpc_ok (fst sr) then StatusOk
      else FromGrpcStatus (fst sr) "GrpcTransport::AckAllQueueMessages" (pbAckAllQueueMessagesRequest_channel req) "").
  - gate_tac stub_QueuesUpstream Opened
      (fun st => statusor_status (opened st "failed to open queue upstream stream" "GrpcTransport::OpenQueueUpstream" "")).
  - gate_tac stub_QueuesDownstream Opened
      (fun st => statusor_status (opened st "failed to open queue downstream stream" "GrpcTransport::OpenQueueDownstream" "")).
Qed.

(** C5: no call leaves the transport unless it is open and authenticated, and
    every call leaves it once. For each of the fourteen operations: on a
    closed transport it returns the client-closed error and touches nothing;
    when the provider refuses a token it returns that error and makes no call;
    otherwise it makes exactly one stub call, its own, with the request
    unchanged, whose context carries exactly the configured token (no entry
    when it is empty) and the operation's deadline, and reports its outcome:
    OK exactly when gRPC answered OK and the broker gave no error text, or the
    stream opened; else gRPC's status mapped, the broker's text as a fatal
    error, or a transient error for the stream. *)
Theorem transport_gate (t : GrpcTransport) (o : TransportOp) (w : W) (log : call_log) :
  let '(s, (w', log')) := run_op t o (w, log) in
  gate_spec t (op_call o) (op_deadline t o) w log s w' log'.
Proof.
  destruct (run_op t o (w, log)) as [s [w' log']] eqn:E. by apply run_op_gate.
Qed.

End gate.
