(* ===== verification/Calls.v ===== *)
(** * What an operation puts on the wire

    A small program logic over the logged world: [silent m] makes no stub
    call, [calls tr st m P] makes exactly one on the transport [tr], satisfying
    [P] and with its token, and its status [st] reports a failure of the call;
    or none, which only a closed transport or a token provider can cause, and
    then [st] is an error; and
    [gated tr open V P m] is the contract of a client operation: allowed exactly
    under [V], it makes its one call in this sense; refused otherwise, it makes
    none and returns an error. *)

From Stdlib Require Import ZArith Lia Ascii String.
From S2P Require Import Prelude Status Random Uuid StateMachine Auth Tls.
From S2P Require Import ClientOptions Messages Proto Converter Transport.

Local Open Scope kubemq_scope.

(** What can keep an allowed operation from making its call: a closed
    transport, or a token that has to be asked of a provider. *)
Definition may_refuse (tr : GrpcTransport) : Prop :=
  closed_ tr = true \/
  (str_empty (opt_auth_token_ (opts_ tr)) = true /\ credential_provider_ (opts_ tr) <> None).

(** The context of a call carries the configured token, and nothing else,
    unless a provider had to be asked. *)
Definition carries_token (tr : GrpcTransport) (ctx : ClientContext) : Prop :=
  may_refuse tr \/ ctx_metadata ctx = with_token (opt_auth_token_ (opts_ tr)) [].

(** A call that failed is reported: by the mapped status, the broker's text
    or a transient error. *)
Definition answers (out : StubOutcome) (s : Status) : Prop :=
  outcome_ok out = false -> status_ok s = false /\ failure_of out s.

(** [log'] is [log] and one call that satisfies [P], answered as [s] says; or
    [log], [s] an error, and the transport closed or asking its provider. *)
Definition one_call (tr : GrpcTransport) (P : StubCall -> Prop) (s : Status) (log log' : call_log)
    : Prop :=
  (log' = log /\ status_ok s = false /\ may_refuse tr) \/
  exists ctx call out, P call /\ carries_token tr ctx /\ answers out s /\
    log' = (log ++ [(ctx, call, out)])%list.

Section calls.
Context {W : Type} `{Grpc W, Providers W, Random W} {tr : GrpcTransport}.

Definition silent {A} (m : M (Logged W) A) (Q : A -> Prop) : Prop :=
  forall w log, let '(a, (_, log')) := m (w, log) in log' = log /\ Q a.

Definition calls {A} (st : A -> Status) (m : M (Logged W) A) (P : StubCall -> Prop) : Prop :=
  forall w log, let '(a, (_, log')) := m (w, log) in one_call tr P (st a) log log'.

(** [open] tells whether the operation's object is open: then, and only then,
    a refusal is a validation error. *)
Definition gated (open : bool) (V : Prop) (P : StubCall -> Prop) (m : M (Logged W) Status) : Prop :=
  forall w log, let '(s, (_, log')) := m (w, log) in
    (V -> one_call tr P s log log') /\
    (~ V -> log' = log /\ status_ok s = false /\ (open = true -> code_ s = kValidation)).

(** ** Rules *)

Lemma silent_ret {A} (a : A) (Q : A -> Prop) : Q a -> silent (ret a) Q.
Proof. by intros HQ w log. Qed.

Lemma silent_lift {A} (m : M W A) (Q : A -> Prop) :
  (forall w, Q (fst (m w))) -> silent (lift_log m) Q.
Proof. intros HQ w log. unfold lift_log. cbn. specialize (HQ w). by destruct (m w). Qed.

Lemma silent_bind {A B} (m : M (Logged W) A) (k : A -> M (Logged W) B) Q R :
  silent m Q -> (forall a, Q a -> silent (k a) R) -> silent (let! a := m in k a) R.
Proof.
  intros Hm Hk w log. unfold bind. specialize (Hm w log). destruct (m (w, log)) as [a [w1 log1]].
  destruct Hm as [-> HQ]. apply (Hk a HQ).
Qed.

Lemma silent_weaken {A} (m : M (Logged W) A) (Q R : A -> Prop) :
  silent m Q -> (forall a, Q a -> R a) -> silent m R.
Proof.
  intros Hm HQ w log. specialize (Hm w log). destruct (m (w, log)) as [a [w1 log1]].
  destruct Hm as [-> ?]. auto.
Qed.

Lemma calls_bind_silent {A B} st (m : M (Logged W) A) (k : A -> M (Logged W) B) Q P :
  silent m Q -> (forall a, Q a -> calls st (k a) P) -> calls st (let! a := m in k a) P.
Proof.
  intros Hm Hk w log. unfold bind. specialize (Hm w log). destruct (m (w, log)) as [a [w1 log1]].
  destruct Hm as [-> HQ]. apply (Hk a HQ).
Qed.

(** A call whose reply is worked on without another call; a failed call stays
    failed, with its status. *)
Lemma calls_then_silent {A B} st st' (m : M (Logged W) A) (k : A -> M (Logged W) B) P :
  calls st m P ->
  (forall a, silent (k a) (fun b => status_ok (st a) = false -> st' b = st a)) ->
  calls st' (let! a := m in k a) P.
Proof.
  intros Hm Hk w log. unfold bind. specialize (Hm w log). destruct (m (w, log)) as [a [w1 log1]].
  specialize (Hk a w1 log1). destruct (k a (w1, log1)) as [b [w2 log2]]. destruct Hk as [-> Hok].
  destruct Hm as [(-> & Hf & Hr)|(ctx & call & out & HP & Ht & Ha & ->)].
  - left. by rewrite Hok.
  - right. exists ctx, call, out. do 2 (split; [done|]). split; [|done].
    intros Ho. destruct (Ha Ho) as [Hf ?]. by rewrite Hok.
Qed.

Lemma calls_weaken {A} st (m : M (Logged W) A) (P R : StubCall -> Prop) :
  calls st m P -> (forall call, P call -> R call) -> calls st m R.
Proof.
  intros Hm HP w log. specialize (Hm w log). destruct (m (w, log)) as [a [w1 log1]].
  destruct Hm as [?|(ctx & call & out & HPc & Ht & Ha & ->)]; [by left|right]. eauto 9.
Qed.

Lemma calls_bind_statusor {A B} (m : M (Logged W) (StatusOr A)) (k : A -> M (Logged W) (StatusOr B)) P :
  calls statusor_status m P -> (forall a, silent (k a) (fun _ => True)) -> calls statusor_status (bind_statusor m k) P.
Proof.
  intros Hm Hk. eapply calls_then_silent; [exact Hm|]. intros [a|s].
  - eapply silent_weaken; [apply Hk|done].
  - by apply silent_ret.
Qed.

Lemma calls_bind_status {A} (m : M (Logged W) (StatusOr A)) (k : A -> M (Logged W) Status) P :
  calls statusor_status m P -> (forall a, silent (k a) (fun _ => True)) -> calls id (bind_status m k) P.
Proof.
  intros Hm Hk. eapply calls_then_silent; [exact Hm|]. intros [a|s].
  - eapply silent_weaken; [apply Hk|done].
  - by apply silent_ret.
Qed.

Lemma calls_status_only {A} (m : M (Logged W) (StatusOr A)) P :
  calls statusor_status m P -> calls id (status_only m) P.
Proof. intros Hm. eapply calls_then_silent; [exact Hm|]. intros a. by apply silent_ret. Qed.

Lemma calls_of_status_only {A} (m : M (Logged W) (StatusOr A)) P :
  calls id (status_only m) P -> calls statusor_status m P.
Proof.
  intros Hm w log. specialize (Hm w log). unfold status_only, bind, ret in Hm.
  by destruct (m (w, log)) as [a [w1 log1]].
Qed.

Lemma gated_intro open (V : Prop) P m : V -> calls id m P -> gated open V P m.
Proof.
  intros HV Hm w log. specialize (Hm w log). destruct (m (w, log)) as [s [w' log']].
  split; [done|]. intros Hn. by destruct Hn.
Qed.

Lemma gated_refuse open (V : Prop) P s :
  ~ V -> status_ok s = false -> (open = true -> code_ s = kValidation) -> gated open V P (ret s).
Proof. intros HV Hs Hc w log. cbn. split; [|done]. intros Hn. by destruct HV. Qed.

Lemma gated_check open V P s m :
  (status_ok s = true -> gated open V P m) ->
  (status_ok s = false -> ~ V /\ (open = true -> code_ s = kValidation)) ->
  gated open V P (check! ret s in m).
Proof.
  intros Ht Hf. unfold check_status. destruct (status_ok s) eqn:E.
  - intros w log. unfold bind, ret. rewrite E. by apply Ht.
  - intros w log. unfold bind, ret. rewrite E. by apply gated_refuse; try apply Hf.
Qed.

Lemma gated_check_statusor {A} open V P s (m : M (Logged W) (StatusOr A)) :
  gated open V P (check! ret s in status_only m) -> gated open V P (status_only (check? ret s in m)).
Proof.
  intros Hg w log. specialize (Hg w log). revert Hg.
  unfold status_only, check_statusor, check_status, bind, ret. by destruct (status_ok s).
Qed.

Lemma gated_bind {A} open V P (m : M (Logged W) A) k Q :
  silent m Q -> (forall a, Q a -> gated open V P (k a)) -> gated open V P (let! a := m in k a).
Proof.
  intros Hm Hk w log. unfold bind. specialize (Hm w log). destruct (m (w, log)) as [a [w1 log1]].
  destruct Hm as [-> HQ]. apply (Hk a HQ).
Qed.

Lemma gated_weaken open (V V' : Prop) P m : (V <-> V') -> gated open V P m -> gated open V' P m.
Proof.
  intros HV Hg w log. specialize (Hg w log). destruct (m (w, log)) as [s [w' log']].
  destruct Hg as [G1 G2]. split; [intros; apply G1|intros; apply G2]; tauto.
Qed.

(** ** Identifiers and received messages *)

(** An identifier used for a message: the one given, if any. *)
Definition id_for (given id : string) : Prop :=
  str_empty id = false /\ (str_empty given = false -> id = given).

Lemma silent_next_u64 : silent (next_u64 (W := Logged W)) (fun _ => True).
Proof. by apply (silent_lift next_u64). Qed.

Lemma silent_uuid : silent (GenerateUUID (W := Logged W)) (fun id => str_empty id = false).
Proof.
  intros w log. pose proof (GenerateUUID_not_empty (w, log)) as He.
  assert (silent (GenerateUUID (W := Logged W)) (fun _ => True)) as Hs.
  { unfold GenerateUUID. eapply silent_bind; [apply silent_next_u64|intros a _].
    eapply silent_bind; [apply silent_next_u64|intros b _]. by apply silent_ret. }
  specialize (Hs w log). destruct (GenerateUUID (w, log)) as [id [w' log']]. by destruct Hs as [-> _].
Qed.

Lemma silent_id (given : string) : silent (id_or_uuid (W := Logged W) given) (id_for given).
Proof.
  unfold id_or_uuid. destruct (str_empty given) eqn:E.
  - eapply silent_weaken; [apply silent_uuid|]. intros id Hid. by split; [|congruence].
  - by apply silent_ret.
Qed.

(** What is kept of a build: it draws an identifier or nothing. *)
Lemma silent_build {B T} (build : B -> M (Logged W) (StatusOr T * B)) valid given made rest b :
  build_contract build valid given made rest -> valid b \/ ~ valid b ->
  silent (build b) (fun r =>
    match fst r with
    | SValue t => valid b /\ exists id, id_for (given b) id /\ t = made id b
    | SError s => ~ valid b /\ code_ s = kValidation
    end).
Proof.
  intros Hc Hd w log. destruct (Hc b (w, log)) as (Hv & Hi & _). destruct Hd as [V|V].
  - destruct (Hv V) as (id & -> & -> & He). pose proof (silent_id (given b) w log) as Hs.
    destruct (id_or_uuid (given b) (w, log)) as [id [w1 log1]]. cbn. destruct Hs as [-> Hid]. eauto.
  - by destruct (Hi V) as (s & -> & Hs).
Qed.

Lemma silent_QueueMessageFromProto p : silent (QueueMessageFromProto (W := Logged W) p) (fun _ => True).
Proof.
  unfold QueueMessageFromProto, QueueMessage_Build.
  eapply silent_bind with (Q := fun _ => True); [|by intros [[v|s0] b0] _; apply silent_ret].
  repeat case_match; try by apply silent_ret.
  eapply silent_bind; [apply silent_id|]. intros; by apply silent_ret.
Qed.

Lemma silent_QueueMessagesFromProto ps :
  silent (QueueMessagesFromProto (W := Logged W) ps) (fun _ => True).
Proof.
  induction ps as [|p ps IH]; cbn; [by apply silent_ret|].
  eapply silent_bind; [apply silent_QueueMessageFromProto|intros m _].
  eapply silent_bind; [apply IH|intros; by apply silent_ret].
Qed.

(** ** The transport's operations *)

(** A token that is set, or not needed, is had without asking. *)
Lemma transport_token_known (w : W) :
  may_refuse tr \/ transport_token tr w = (SValue (opt_auth_token_ (opts_ tr)), w).
Proof.
  unfold may_refuse, transport_token, resolve_token.
  destruct (str_empty (opt_auth_token_ (opts_ tr))) eqn:E; [|by right].
  destruct (credential_provider_ (opts_ tr)); [by left; right|]. right. apply str_empty_true in E.
  by rewrite E.
Qed.

Lemma reports_answers out s : reports out s -> answers out s.
Proof. intros [Ho Hf] Hn. split; [congruence|auto]. Qed.

Lemma gate_one_call call d w log s (w' : W) log' :
  gate_spec tr call d w log s w' log' -> one_call tr (eq call) s log log'.
Proof.
  unfold gate_spec, one_call, carries_token. destruct (closed_ tr) eqn:Ec.
  { intros (-> & _ & ->). left. split; [done|]. split; [done|]. by left. }
  assert (forall ctx, may_refuse tr \/ ctx_metadata ctx = with_token (opt_auth_token_ (opts_ tr)) [] ->
    (exists out, reports out s /\ log' = (log ++ [(ctx, call, out)])%list) ->
    exists ctx call0 out, call = call0 /\
      (may_refuse tr \/ ctx_metadata ctx = with_token (opt_auth_token_ (opts_ tr)) []) /\
      answers out s /\ log' = (log ++ [(ctx, call0, out)])%list) as Hcall.
  { intros ctx Hc (out & Hr%reports_answers & ->). by exists ctx, call, out. }
  destruct (transport_token_known w) as [Hr| ->]; [|intros Hg; right; eapply Hcall, Hg; by right].
  destruct (transport_token tr w) as [[tok|e] w1]; [intros Hg; right; eapply Hcall, Hg; by left|].
  destruct (status_ok e) eqn:E; [intros Hg; right; eapply Hcall, Hg; by left|].
  by intros (-> & _ & ->); left.
Qed.

Lemma calls_run_op o : calls id (run_op (V := Logged W) tr o) (eq (op_call o)).
Proof.
  intros w log. destruct (run_op tr o (w, log)) as [s [w' log']] eqn:E.
  eapply gate_one_call, run_op_gate, E.
Qed.

End calls.

#[global] Arguments calls {W} tr {A} st m P.
#[global] Arguments gated {W} tr open V P m.
