(* ===== verification/Client.v ===== *)
(** * The client

    Models src/client.cc, src/internal/client_impl.h and the unary operations
    of src/client_events.cc, client_events_store.cc, client_commands.cc,
    client_queries.cc, client_queues.cc, client_channels.cc and
    client_convenience.cc, each step by step: the closed test, the defaults,
    the validations, the identifier, the one transport call, the reply. *)

From Stdlib Require Import ZArith Lia Ascii String Floats.
From S2P Require Import Prelude Status ErrorMapper Validation Random Uuid Double.
From S2P Require Import Backoff StateMachine Auth Tls ClientOptions Messages Proto.
From S2P Require Import Converter Transport Calls.

Local Open Scope string_scope.
Local Open Scope Z_scope.
Local Open Scope kubemq_scope.

(** ** State

    A [Client] exists only with a transport ([Create] is the only way to make
    one), so the pointer is not optional here.  A tracked context is known by
    the handle of the stream it was used for. *)

Class Contexts (W : Type) := {
  lock_context : nat -> M W bool;       (* weak_ptr::lock() is not null *)
  TryCancel : nat -> M W unit
}.

Record Client := mkClient {
  transport : GrpcTransport;
  opts : ClientOptions;
  closed : bool;
  close_once : bool;
  active_contexts : list nat
}.

Definition Client_CheckClosed (c : Client) : Status :=
  if closed c then kErrClientClosed else StatusOk.

Definition TrackContext (ctx : nat) (c : Client) : Client :=
  mkClient (transport c) (opts c) (closed c) (close_once c) (active_contexts c ++ [ctx]).

Section client.
Context {W : Type} `{Grpc W, Providers W, Callbacks W, FileSystem W, Random W, Contexts W}.

(** ** Lifecycle *)

Fixpoint cancel_all (ctxs : list nat) : M W unit :=
  match ctxs with
  | [] => ret tt
  | ctx :: ctxs' =>
      let! alive := lock_context ctx in
      let! _ := (if alive then TryCancel ctx else ret tt) in
      cancel_all ctxs'
  end.

(** The timeout is not used. *)
Definition DrainAll (timeout : Z) (c : Client) : M W Client :=
  let! _ := cancel_all (active_contexts c) in
  ret (mkClient (transport c) (opts c) (closed c) (close_once c) []).

Definition Client_Close (c : Client) : M W (Status * Client) :=
  if close_once c then ret (StatusOk, c)
  else
    let c1 := mkClient (transport c) (opts c) true true (active_contexts c) in
    let! c2 := DrainAll (drain_timeout_ (opts c1)) c1 in
    let! (result, t) := GrpcTransport_Close (transport c2) in
    ret (result, mkClient t (opts c2) (closed c2) (close_once c2) (active_contexts c2)).

Definition Client_Ping (c : Client) : M W (StatusOr ServerInfo) :=
  check? ret (Client_CheckClosed c) in Transport_Ping (transport c).

Definition Client_State (c : Client) : M W ConnectionState :=
  if closed c then ret kClosed else GrpcTransport_State (transport c).

(** A handler is registered only when the option holds one. *)
Definition wire_handler (e : Slot) (h : option nat) (m : StateMachine) : StateMachine :=
  match h with Some f => SetHandler e (Some f) m | None => m end.

Definition wire_handlers (o : ClientOptions) (m : StateMachine) : StateMachine :=
  wire_handler OnClosed (cb_closed_ o)
    (wire_handler OnReconnected (cb_reconnected_ o)
      (wire_handler OnReconnecting (cb_reconnecting_ o)
        (wire_handler OnDisconnected (cb_disconnected_ o)
          (wire_handler OnConnected (cb_connected_ o) m)))).

Definition wire_transport (o : ClientOptions) (t : GrpcTransport) : GrpcTransport :=
  mkGrpcTransport (channel_handle_ t) (opts_ t) (closed_ t) (close_once_ t)
    (wire_handlers o <$> state_machine_ t).

(** A client that is not returned is destroyed, and the destructor closes. *)
Definition Client_Create (options : ClientOptions) : M W (StatusOr Client) :=
  let! o := (if str_empty (client_id_ options) then
               let! id := GenerateUUID in ret (set_client_id id options)
             else ret options) in
  let validation := Validate o in
  if negb (status_ok validation) then ret (SError validation)
  else
    let? t := GrpcTransport_Create o in
    let client := mkClient (wire_transport o t) o false false [] in
    if check_connection_ (opts client) then
      let! ping := Client_Ping client in
      match ping with
      | SError s => let! _ := Client_Close client in ret (SError s)
      | SValue _ => ret (SValue client)
      end
    else ret (SValue client).

(** ** What the operations share *)

Definition effective_channel (channel : string) (c : Client) : string :=
  if str_empty channel then default_channel_ (opts c) else channel.

Definition effective_client_id (client_id : string) (c : Client) : string :=
  if str_empty client_id then client_id_ (opts c) else client_id.

(** ** Events *)

Definition SendEvent (c : Client) (event : Event) : M W Status :=
  check! ret (Client_CheckClosed c) in
  let channel := effective_channel (ev_channel event) c in
  let client_id := effective_client_id (ev_client_id event) c in
  check! ret (ValidateChannelNoWildcard channel "SendEvent") in
  check! ret (ValidateBody (ev_body event) (ev_metadata event) "SendEvent") in
  let! id := id_or_uuid (ev_id event) in
  Transport_SendEvent (transport c)
    (mk_pb_Event id client_id channel (ev_metadata event) (ev_body event) false
       (SetTags (ev_tags event) ∅)).

Definition PublishEvent (c : Client) (channel body metadata : string) (tags : Tags) : M W Status :=
  let! (event_or, _) := Event_Build (Event_SetTags tags (Event_SetMetadata metadata
                          (Event_SetBody body (Event_SetChannel channel EventBuilder_new)))) in
  let/ event := ret event_or in SendEvent c event.

Definition SendEventStore (c : Client) (event : EventStore) : M W (StatusOr EventStoreResult) :=
  check? ret (Client_CheckClosed c) in
  let channel := effective_channel (es_channel event) c in
  let client_id := effective_client_id (es_client_id event) c in
  check? ret (ValidateChannelNoWildcard channel "SendEventStore") in
  check? ret (ValidateBody (es_body event) (es_metadata event) "SendEventStore") in
  let! id := id_or_uuid (es_id event) in
  Transport_SendEventStore (transport c)
    (mk_pb_Event id client_id channel (es_metadata event) (es_body event) true
       (SetTags (es_tags event) ∅)).

Definition PublishEventStore (c : Client) (channel body metadata : string) (tags : Tags)
    : M W (StatusOr EventStoreResult) :=
  let! (event_or, _) := EventStore_Build (EventStore_SetTags tags (EventStore_SetMetadata metadata
                          (EventStore_SetBody body
                             (EventStore_SetChannel channel EventStoreBuilder_new)))) in
  let? event := ret event_or in SendEventStore c event.

(** ** Commands *)

(** A timeout that is not positive is replaced before it is validated. *)
Definition effective_timeout (timeout : Z) : Z :=
  if timeout <=? 0 then kDefaultRPCTimeout else timeout.

Definition SendCommand (c : Client) (command : Command) : M W (StatusOr CommandResponse) :=
  check? ret (Client_CheckClosed c) in
  let channel := effective_channel (cmd_channel command) c in
  let client_id := effective_client_id (cmd_client_id command) c in
  check? ret (ValidateChannelNoWildcard channel "SendCommand") in
  let timeout := effective_timeout (cmd_timeout command) in
  check? ret (ValidateTimeout timeout "SendCommand") in
  check? ret (ValidateBody (cmd_body command) (cmd_metadata command) "SendCommand") in
  let! id := id_or_uuid (cmd_id command) in
  let? proto_resp := Transport_SendRequest (transport c)
    (mk_pb_Request id ReqCommand client_id channel (cmd_metadata command) (cmd_body command) ""
       (to_int32 timeout) "" 0 "" (SetTags (cmd_tags command) ∅)) in
  if negb (str_empty (pbResponse_error proto_resp)) then
    ret (SError (mkStatus kFatal (pbResponse_error proto_resp) "SendCommand" channel id))
  else
    ret (SValue (mkCommandResponse (pbResponse_requestid proto_resp) (pbResponse_clientid proto_resp)
                   (pbResponse_replychannel proto_resp) (pbResponse_executed proto_resp)
                   (pbResponse_timestamp proto_resp) (pbResponse_error proto_resp)
                   (CopyTags (pbResponse_tags proto_resp)))).

Definition SendCommandResponse (c : Client) (reply : CommandReply) : M W Status :=
  check! ret (Client_CheckClosed c) in
  Transport_SendResponse (transport c)
    (mk_pb_Response (effective_client_id (crep_client_id reply) c) (crep_request_id reply)
       (crep_response_to reply) (crep_metadata reply) (crep_body reply) false
       (crep_executed_at reply) (crep_executed reply) (crep_error reply) ""
       (SetTags (crep_tags reply) ∅)).

Definition SendCommandSimple (c : Client) (channel body : string) (timeout : Z)
    : M W (StatusOr CommandResponse) :=
  let! (cmd_or, _) := Command_Build (Command_SetTimeout timeout
                        (Command_SetBody body (Command_SetChannel channel CommandBuilder_new))) in
  let? cmd := ret cmd_or in SendCommand c cmd.

(** ** Queries *)

(** The cache time set on the request, in seconds; 0 when none is set. *)
Definition request_cache_ttl (cache_ttl : Z) (c : Client) : Z :=
  let ttl := if (cache_ttl <=? 0) && (0 <? default_cache_ttl_ (opts c))
             then default_cache_ttl_ (opts c) else cache_ttl in
  if 0 <? ttl then to_int32 (ms_to_seconds ttl) else 0.

Definition SendQuery (c : Client) (query : Query) : M W (StatusOr QueryResponse) :=
  check? ret (Client_CheckClosed c) in
  let channel := effective_channel (qry_channel query) c in
  let client_id := effective_client_id (qry_client_id query) c in
  check? ret (ValidateChannelNoWildcard channel "SendQuery") in
  let timeout := effective_timeout (qry_timeout query) in
  check? ret (ValidateTimeout timeout "SendQuery") in
  check? ret (ValidateBody (qry_body query) (qry_metadata query) "SendQuery") in
  let! id := id_or_uuid (qry_id query) in
  let? proto_resp := Transport_SendRequest (transport c)
    (mk_pb_Request id ReqQuery client_id channel (qry_metadata query) (qry_body query) ""
       (to_int32 timeout) (qry_cache_key query) (request_cache_ttl (qry_cache_ttl query) c) ""
       (SetTags (qry_tags query) ∅)) in
  if negb (str_empty (pbResponse_error proto_resp)) then
    ret (SError (mkStatus kFatal (pbResponse_error proto_resp) "SendQuery" channel id))
  else
    ret (SValue (mkQueryResponse (pbResponse_requestid proto_resp) (pbResponse_replychannel proto_resp)
                   (pbResponse_executed proto_resp) (pbResponse_timestamp proto_resp)
                   (pbResponse_metadata proto_resp) (pbResponse_clientid proto_resp)
                   (pbResponse_body proto_resp) (pbResponse_cachehit proto_resp)
                   (pbResponse_error proto_resp) (CopyTags (pbResponse_tags proto_resp)))).

Definition SendQueryResponse (c : Client) (reply : QueryReply) : M W Status :=
  check! ret (Client_CheckClosed c) in
  Transport_SendResponse (transport c)
    (mk_pb_Response (effective_client_id (qrep_client_id reply) c) (qrep_request_id reply)
       (qrep_response_to reply) (qrep_metadata reply) (qrep_body reply) (qrep_cache_hit reply)
       (qrep_executed_at reply) (qrep_executed reply) (qrep_error reply) ""
       (SetTags (qrep_tags reply) ∅)).

Definition SendQuerySimple (c : Client) (channel body : string) (timeout : Z)
    : M W (StatusOr QueryResponse) :=
  let! (qry_or, _) := Query_Build (Query_SetTimeout timeout
                        (Query_SetBody body (Query_SetChannel channel QueryBuilder_new))) in
  let? qry := ret qry_or in SendQuery c qry.

(** ** Queues *)

(** [proto_msg.set_channel(channel)]. *)
Definition set_proto_channel (channel : string) (p : pb_QueueMessage) : pb_QueueMessage :=
  mk_pb_QueueMessage (pbQueueMessage_messageid p) (pbQueueMessage_clientid p) channel
    (pbQueueMessage_metadata p) (pbQueueMessage_body p) (pbQueueMessage_tags p)
    (pbQueueMessage_attributes p) (pbQueueMessage_policy p).

Definition SendQueueMessage (c : Client) (message : QueueMessage) : M W (StatusOr QueueSendResult) :=
  check? ret (Client_CheckClosed c) in
  let channel := effective_channel (qm_channel message) c in
  check? ret (ValidateChannelNoWildcard channel "SendQueueMessage") in
  check? ret (ValidateBody (qm_body message) (qm_metadata message) "SendQueueMessage") in
  let proto_msg := set_proto_channel channel (QueueMessageToProto message (client_id_ (opts c))) in
  let? proto_result := Transport_SendQueueMessage (transport c) proto_msg in
  let result := QueueSendResultFromProto proto_result in
  if qsr_is_error result then
    ret (SError (mkStatus kFatal (qsr_error result) "SendQueueMessage" channel (qsr_message_id result)))
  else ret (SValue result).

(** The loop of [SendQueueMessages]: stops at the first message refused. *)
Fixpoint batch_messages (c : Client) (messages : list QueueMessage) : StatusOr (list pb_QueueMessage) :=
  match messages with
  | [] => SValue []
  | msg :: messages' =>
      let channel := effective_channel (qm_channel msg) c in
      let s := ValidateChannelNoWildcard channel "SendQueueMessages" in
      if negb (status_ok s) then SError s
      else
        let s := ValidateBody (qm_body msg) (qm_metadata msg) "SendQueueMessages" in
        if negb (status_ok s) then SError s
        else
          match batch_messages c messages' with
          | SError s => SError s
          | SValue protos =>
              SValue (set_proto_channel channel (QueueMessageToProto msg (client_id_ (opts c))) :: protos)
          end
  end.

Definition SendQueueMessages (c : Client) (messages : list QueueMessage)
    : M W (StatusOr (list QueueSendResult)) :=
  check? ret (Client_CheckClosed c) in
  match messages with
  | [] => ret (SError (mkStatus kValidation "messages list is empty" "SendQueueMessages" "" ""))
  | _ =>
      let! batch_id := GenerateUUID in
      let? protos := ret (batch_messages c messages) in
      let? proto_response := Transport_SendQueueMessagesBatch (transport c)
                               (mk_pb_QueueMessagesBatchRequest batch_id protos) in
      ret (SValue (QueueSendResultFromProto <$> pbQueueMessagesBatchResponse_results proto_response))
  end.

Definition ReceiveQueueMessages (c : Client) (request : ReceiveQueueMessagesRequest)
    : M W (StatusOr ReceiveQueueMessagesResponse) :=
  check? ret (Client_CheckClosed c) in
  let channel := effective_channel (rq_channel request) c in
  check? ret (ValidateChannel channel "ReceiveQueueMessages") in
  let! id := id_or_uuid (rq_request_id request) in
  let? proto_response := Transport_ReceiveQueueMessages (transport c)
    (mk_pb_ReceiveQueueMessagesRequest id (effective_client_id (rq_client_id request) c) channel
       (rq_max_number_of_messages request) (rq_wait_time_seconds request) (rq_is_peek request)) in
  if pbReceiveQueueMessagesResponse_iserror proto_response then
    ret (SError (mkStatus kFatal (pbReceiveQueueMessagesResponse_error proto_response)
                   "ReceiveQueueMessages" channel id))
  else
    let! messages := QueueMessagesFromProto (pbReceiveQueueMessagesResponse_messages proto_response) in
    ret (SValue (mkReceiveQueueMessagesResponse
                   (pbReceiveQueueMessagesResponse_requestid proto_response) messages
                   (pbReceiveQueueMessagesResponse_messagesreceived proto_response)
                   (pbReceiveQueueMessagesResponse_messagesexpired proto_response)
                   (pbReceiveQueueMessagesResponse_ispeak proto_response)
                   (pbReceiveQueueMessagesResponse_iserror proto_response)
                   (pbReceiveQueueMessagesResponse_error proto_response))).

Definition AckAllQueueMessages (c : Client) (request : AckAllQueueMessagesRequest)
    : M W (StatusOr AckAllQueueMessagesResponse) :=
  check? ret (Client_CheckClosed c) in
  let channel := effective_channel (aq_channel request) c in
  check? ret (ValidateChannel channel "AckAllQueueMessages") in
  let! id := id_or_uuid (aq_request_id request) in
  let? proto_response := Transport_AckAllQueueMessages (transport c)
    (mk_pb_AckAllQueueMessagesRequest id (effective_client_id (aq_client_id request) c) channel
       (aq_wait_time_seconds request)) in
  if pbAckAllQueueMessagesResponse_iserror proto_response then
    ret (SError (mkStatus kFatal (pbAckAllQueueMessagesResponse_error proto_response)
                   "AckAllQueueMessages" channel id))
  else
    ret (SValue (mkAckAllQueueMessagesResponse
                   (pbAckAllQueueMessagesResponse_requestid proto_response)
                   (pbAckAllQueueMessagesResponse_affectedmessages proto_response)
                   (pbAckAllQueueMessagesResponse_iserror proto_response)
                   (pbAckAllQueueMessagesResponse_error proto_response))).

Definition SendQueueMessageSimple (c : Client) (channel body : string)
    (expiration_seconds delay_seconds : Z) : M W (StatusOr QueueSendResult) :=
  let b := QueueMessage_SetBody body (QueueMessage_SetChannel channel QueueMessageBuilder_new) in
  let b := if 0 <? expiration_seconds then QueueMessage_SetExpirationSeconds expiration_seconds b
           else b in
  let b := if 0 <? delay_seconds then QueueMessage_SetDelaySeconds delay_seconds b else b in
  let! (msg_or, _) := QueueMessage_Build b in
  let? msg := ret msg_or in SendQueueMessage c msg.

(** ** Channel management *)

Definition kChannelTypeEvents : string := "events".
Definition kChannelTypeEventsStore : string := "events_store".
Definition kChannelTypeCommands : string := "commands".
Definition kChannelTypeQueries : string := "queries".
Definition kChannelTypeQueues : string := "queues".

Definition kValidChannelTypeError : string :=
  "invalid channel type; must be one of: events, events_store, commands, queries, queues".

Definition IsValidChannelType (channel_type : string) : bool :=
  String.eqb channel_type kChannelTypeEvents || String.eqb channel_type kChannelTypeEventsStore ||
  String.eqb channel_type kChannelTypeCommands || String.eqb channel_type kChannelTypeQueries ||
  String.eqb channel_type kChannelTypeQueues.

Definition ValidateChannelManagement (channel_name channel_type operation : string) : Status :=
  if str_empty channel_name then
    mkStatus kValidation "channel name is required" operation "" ""
  else if negb (IsValidChannelType channel_type) then
    mkStatus kValidation kValidChannelTypeError operation "" ""
  else StatusOk.

Definition CreateChannel (c : Client) (channel_name channel_type : string) : M W Status :=
  check! ret (Client_CheckClosed c) in
  check! ret (ValidateChannelManagement channel_name channel_type "CreateChannel") in
  let! request_id := GenerateUUID in
  let/ response := Transport_SendRequest (transport c)
    (BuildChannelManagementRequest (client_id_ (opts c)) channel_name channel_type "create-channel"
       request_id) in
  if negb (str_empty (pbResponse_error response)) then
    ret (mkStatus kFatal (pbResponse_error response) "CreateChannel" channel_name request_id)
  else ret StatusOk.

Definition DeleteChannel (c : Client) (channel_name channel_type : string) : M W Status :=
  check! ret (Client_CheckClosed c) in
  check! ret (ValidateChannelManagement channel_name channel_type "DeleteChannel") in
  let! request_id := GenerateUUID in
  let/ response := Transport_SendRequest (transport c)
    (BuildChannelManagementRequest (client_id_ (opts c)) channel_name channel_type "delete-channel"
       request_id) in
  if negb (str_empty (pbResponse_error response)) then
    ret (mkStatus kFatal (pbResponse_error response) "DeleteChannel" channel_name request_id)
  else ret StatusOk.

(** A tag set through [request.mutable_tags()]. *)
Definition set_request_tag (key value : string) (r : pb_Request) : pb_Request :=
  mk_pb_Request (pbRequest_requestid r) (pbRequest_requesttypedata r) (pbRequest_clientid r)
    (pbRequest_channel r) (pbRequest_metadata r) (pbRequest_body r) (pbRequest_replychannel r)
    (pbRequest_timeout r) (pbRequest_cachekey r) (pbRequest_cachettl r) (pbRequest_span r)
    (<[key := value]> (pbRequest_tags r)).

Definition ListChannels `{JsonLibrary} (c : Client) (channel_type search : string)
    : M W (StatusOr (list ChannelInfo)) :=
  check? ret (Client_CheckClosed c) in
  if negb (IsValidChannelType channel_type) then
    ret (SError (mkStatus kValidation kValidChannelTypeError "ListChannels" "" ""))
  else
    let! request_id := GenerateUUID in
    let request := BuildChannelManagementRequest (client_id_ (opts c)) "" channel_type
                     "list-channels" request_id in
    let request := if negb (str_empty search) then set_request_tag "search" search request
                   else request in
    let? response := Transport_SendRequest (transport c) request in
    if negb (str_empty (pbResponse_error response)) then
      ret (SError (mkStatus kFatal (pbResponse_error response) "ListChannels" "" request_id))
    else ret (ParseChannelListResponse (pbResponse_body response)).

Definition CreateEventsChannel c name := CreateChannel c name kChannelTypeEvents.
Definition CreateEventsStoreChannel c name := CreateChannel c name kChannelTypeEventsStore.
Definition CreateCommandsChannel c name := CreateChannel c name kChannelTypeCommands.
Definition CreateQueriesChannel c name := CreateChannel c name kChannelTypeQueries.
Definition CreateQueuesChannel c name := CreateChannel c name kChannelTypeQueues.
Definition DeleteEventsChannel c name := DeleteChannel c name kChannelTypeEvents.
Definition DeleteEventsStoreChannel c name := DeleteChannel c name kChannelTypeEventsStore.
Definition DeleteCommandsChannel c name := DeleteChannel c name kChannelTypeCommands.
Definition DeleteQueriesChannel c name := DeleteChannel c name kChannelTypeQueries.
Definition DeleteQueuesChannel c name := DeleteChannel c name kChannelTypeQueues.
Definition ListEventsChannels `{JsonLibrary} c search := ListChannels c kChannelTypeEvents search.
Definition ListEventsStoreChannels `{JsonLibrary} c search :=
  ListChannels c kChannelTypeEventsStore search.
Definition ListCommandsChannels `{JsonLibrary} c search := ListChannels c kChannelTypeCommands search.
Definition ListQueriesChannels `{JsonLibrary} c search := ListChannels c kChannelTypeQueries search.
Definition ListQueuesChannels `{JsonLibrary} c search := ListChannels c kChannelTypeQueues search.

End client.

(** ** The operations, as data *)

Inductive ClientOp :=
  | COPing
  | COSendEvent (event : Event)
  | COPublishEvent (channel body metadata : string) (tags : Tags)
  | COSendEventStore (event : EventStore)
  | COPublishEventStore (channel body metadata : string) (tags : Tags)
  | COSendCommand (command : Command)
  | COSendCommandResponse (reply : CommandReply)
  | COSendCommandSimple (channel body : string) (timeout : Z)
  | COSendQuery (query : Query)
  | COSendQueryResponse (reply : QueryReply)
  | COSendQuerySimple (channel body : string) (timeout : Z)
  | COSendQueueMessage (message : QueueMessage)
  | COSendQueueMessages (messages : list QueueMessage)
  | COReceiveQueueMessages (request : ReceiveQueueMessagesRequest)
  | COAckAllQueueMessages (request : AckAllQueueMessagesRequest)
  | COSendQueueMessageSimple (channel body : string) (expiration_seconds delay_seconds : Z)
  | COCreateChannel (channel_name channel_type : string)
  | CODeleteChannel (channel_name channel_type : string)
  | COListChannels (channel_type search : string).

Definition run_client_op {V} `{Grpc V, Providers V, Random V, JsonLibrary} (c : Client)
    (o : ClientOp) : M V Status :=
  match o with
  | COPing => status_only (Client_Ping c)
  | COSendEvent e => SendEvent c e
  | COPublishEvent ch b md t => PublishEvent c ch b md t
  | COSendEventStore e => status_only (SendEventStore c e)
  | COPublishEventStore ch b md t => status_only (PublishEventStore c ch b md t)
  | COSendCommand m => status_only (SendCommand c m)
  | COSendCommandResponse r => SendCommandResponse c r
  | COSendCommandSimple ch b t => status_only (SendCommandSimple c ch b t)
  | COSendQuery q => status_only (SendQuery c q)
  | COSendQueryResponse r => SendQueryResponse c r
  | COSendQuerySimple ch b t => status_only (SendQuerySimple c ch b t)
  | COSendQueueMessage m => status_only (SendQueueMessage c m)
  | COSendQueueMessages ms => status_only (SendQueueMessages c ms)
  | COReceiveQueueMessages r => status_only (ReceiveQueueMessages c r)
  | COAckAllQueueMessages r => status_only (AckAllQueueMessages c r)
  | COSendQueueMessageSimple ch b e d => status_only (SendQueueMessageSimple c ch b e d)
  | COCreateChannel n t => CreateChannel c n t
  | CODeleteChannel n t => DeleteChannel c n t
  | COListChannels t s => status_only (ListChannels c t s)
  end.

(** *** What each operation accepts *)

Definition has_content (body metadata : string) : Prop := body <> "" \/ metadata <> "".

Definition message_ok (c : Client) (channel body metadata : string) : Prop :=
  valid_send_channel (effective_channel channel c) /\ has_content body metadata.

(** The convenience forms build their message first, so they need a channel of
    their own. *)
Definition simple_ok (channel body metadata : string) : Prop :=
  valid_send_channel channel /\ has_content body metadata.

Definition channel_type_ok (t : string) : Prop :=
  In t ["events"; "events_store"; "commands"; "queries"; "queues"].

Definition op_valid (c : Client) (o : ClientOp) : Prop :=
  closed c = false /\
  match o with
  | COPing | COSendCommandResponse _ | COSendQueryResponse _ => True
  | COSendEvent e => message_ok c (ev_channel e) (ev_body e) (ev_metadata e)
  | COSendEventStore e => message_ok c (es_channel e) (es_body e) (es_metadata e)
  | COSendCommand m => message_ok c (cmd_channel m) (cmd_body m) (cmd_metadata m)
  | COSendQuery q => message_ok c (qry_channel q) (qry_body q) (qry_metadata q)
  | COSendQueueMessage m => message_ok c (qm_channel m) (qm_body m) (qm_metadata m)
  | COSendQueueMessages ms =>
      ms <> [] /\ Forall (fun m => message_ok c (qm_channel m) (qm_body m) (qm_metadata m)) ms
  | COPublishEvent ch b md _ | COPublishEventStore ch b md _ => simple_ok ch b md
  | COSendCommandSimple ch b t | COSendQuerySimple ch b t => simple_ok ch b "" /\ 0 < t
  | COSendQueueMessageSimple ch b _ _ => simple_ok ch b ""
  | COReceiveQueueMessages r => valid_channel (effective_channel (rq_channel r) c)
  | COAckAllQueueMessages r => valid_channel (effective_channel (aq_channel r) c)
  | COCreateChannel n t | CODeleteChannel n t => n <> "" /\ channel_type_ok t
  | COListChannels t _ => channel_type_ok t
  end.

(** *** What each operation sends *)

Definition sent_event (c : Client) (given client_id channel metadata body : string) (store : bool)
    (tags : Tags) (call : StubCall) : Prop :=
  exists id, id_for given id /\
    call = CallSendEvent (mk_pb_Event id (effective_client_id client_id c)
                            (effective_channel channel c) metadata body store tags).

Definition sent_command (c : Client) (m : Command) (call : StubCall) : Prop :=
  exists id, id_for (cmd_id m) id /\
    call = CallSendRequest (mk_pb_Request id ReqCommand (effective_client_id (cmd_client_id m) c)
             (effective_channel (cmd_channel m) c) (cmd_metadata m) (cmd_body m) ""
             (to_int32 (if cmd_timeout m <=? 0 then 10000 else cmd_timeout m)) "" 0 "" (cmd_tags m)).

Definition sent_query (c : Client) (q : Query) (call : StubCall) : Prop :=
  exists id, id_for (qry_id q) id /\
    call = CallSendRequest (mk_pb_Request id ReqQuery (effective_client_id (qry_client_id q) c)
             (effective_channel (qry_channel q) c) (qry_metadata q) (qry_body q) ""
             (to_int32 (if qry_timeout q <=? 0 then 10000 else qry_timeout q))
             (qry_cache_key q) (request_cache_ttl (qry_cache_ttl q) c) "" (qry_tags q)).

Definition sent_response (c : Client) (client_id request_id response_to metadata body : string)
    (cache_hit : bool) (executed_at : Z) (executed : bool) (error : string) (tags : Tags)
    (call : StubCall) : Prop :=
  call = CallSendResponse (mk_pb_Response (effective_client_id client_id c) request_id response_to
           metadata body cache_hit executed_at executed error "" tags).

(** A queue message keeps its identifier, empty or not. *)
Definition queue_proto (c : Client) (m : QueueMessage) : pb_QueueMessage :=
  set_proto_channel (effective_channel (qm_channel m) c) (QueueMessageToProto m (client_id_ (opts c))).

Definition sent_management (c : Client) (name channel_type operation : string) (search : Tags)
    (call : StubCall) : Prop :=
  exists id, str_empty id = false /\
    call = CallSendRequest (mk_pb_Request id ReqQuery (client_id_ (opts c))
             "kubemq.cluster.internal.requests" operation "" "" 10000 "" 0 ""
             (search ∪ {[ "channel" := name; "channel_type" := channel_type;
                          "client_id" := client_id_ (opts c) ]})).

Definition op_sends (c : Client) (o : ClientOp) (call : StubCall) : Prop :=
  match o with
  | COPing => call = CallPing
  | COSendEvent e =>
      sent_event c (ev_id e) (ev_client_id e) (ev_channel e) (ev_metadata e) (ev_body e) false
        (ev_tags e) call
  | COPublishEvent ch b md t => sent_event c "" "" ch md b false t call
  | COSendEventStore e =>
      sent_event c (es_id e) (es_client_id e) (es_channel e) (es_metadata e) (es_body e) true
        (es_tags e) call
  | COPublishEventStore ch b md t => sent_event c "" "" ch md b true t call
  | COSendCommand m => sent_command c m call
  | COSendCommandSimple ch b t => sent_command c (mkCommand "" ch "" b t "" ∅) call
  | COSendQuery q => sent_query c q call
  | COSendQuerySimple ch b t => sent_query c (mkQuery "" ch "" b t "" "" 0 ∅) call
  | COSendCommandResponse r =>
      sent_response c (crep_client_id r) (crep_request_id r) (crep_response_to r) (crep_metadata r)
        (crep_body r) false (crep_executed_at r) (crep_executed r) (crep_error r) (crep_tags r) call
  | COSendQueryResponse r =>
      sent_response c (qrep_client_id r) (qrep_request_id r) (qrep_response_to r) (qrep_metadata r)
        (qrep_body r) (qrep_cache_hit r) (qrep_executed_at r) (qrep_executed r) (qrep_error r)
        (qrep_tags r) call
  | COSendQueueMessage m => call = CallSendQueueMessage (queue_proto c m)
  | COSendQueueMessages ms =>
      exists id, str_empty id = false /\
        call = CallSendQueueMessagesBatch (mk_pb_QueueMessagesBatchRequest id (queue_proto c <$> ms))
  | COSendQueueMessageSimple ch b e d =>
      exists id, str_empty id = false /\
        call = CallSendQueueMessage (queue_proto c (mkQueueMessage id ch "" b "" ∅
                 (mkQueuePolicy (Z.max 0 e) (Z.max 0 d) 0 "") QueueMessageAttributes_default))
  | COReceiveQueueMessages r =>
      exists id, id_for (rq_request_id r) id /\
        call = CallReceiveQueueMessages (mk_pb_ReceiveQueueMessagesRequest id
                 (effective_client_id (rq_client_id r) c) (effective_channel (rq_channel r) c)
                 (rq_max_number_of_messages r) (rq_wait_time_seconds r) (rq_is_peek r))
  | COAckAllQueueMessages r =>
      exists id, id_for (aq_request_id r) id /\
        call = CallAckAllQueueMessages (mk_pb_AckAllQueueMessagesRequest id
                 (effective_client_id (aq_client_id r) c) (effective_channel (aq_channel r) c)
                 (aq_wait_time_seconds r))
  | COCreateChannel n t => sent_management c n t "create-channel" ∅ call
  | CODeleteChannel n t => sent_management c n t "delete-channel" ∅ call
  | COListChannels t s =>
      sent_management c "" t "list-channels" (if str_empty s then ∅ else {[ "search" := s ]}) call
  end.

(** ** Lemmas *)

Section contract.
Context {W : Type} `{Grpc W, Providers W, Random W, JsonLibrary} {tr : GrpcTransport}.
Implicit Types (c : Client) (V : Prop) (P : StubCall -> Prop) (m : M (Logged W) Status).

Lemma gated_closed c V P m :
  (V -> closed c = false) ->
  (closed c = false -> gated tr (negb (closed c)) V P m) ->
  gated tr (negb (closed c)) V P (check! ret (Client_CheckClosed c) in m).
Proof.
  intros HV Hm. apply gated_check; unfold Client_CheckClosed; destruct (closed c); try done.
  - intros _. by apply Hm.
  - intros _. split; [|done]. intros Hv. by specialize (HV Hv).
Qed.

Lemma gated_send_channel open ch op V P m :
  (V -> valid_send_channel ch) ->
  (valid_send_channel ch -> gated tr open V P m) ->
  gated tr open V P (check! ret (ValidateChannelNoWildcard ch op) in m).
Proof.
  intros HV Hm. apply gated_check.
  - intros Hs. by eapply Hm, ValidateChannelNoWildcard_spec.
  - intros Hs. split; [|intros _; by apply ValidateChannelNoWildcard_error].
    intros Hv%HV. apply (ValidateChannelNoWildcard_spec ch op) in Hv. congruence.
Qed.

Lemma gated_channel open ch op V P m :
  (V -> valid_channel ch) -> (valid_channel ch -> gated tr open V P m) ->
  gated tr open V P (check! ret (ValidateChannel ch op) in m).
Proof.
  intros HV Hm. apply gated_check.
  - intros Hs. by eapply Hm, ValidateChannel_spec.
  - intros Hs. split; [|intros _; by apply ValidateChannel_error].
    intros Hv%HV. apply (ValidateChannel_spec ch op) in Hv. congruence.
Qed.

Lemma gated_body open body md op V P m :
  (V -> has_content body md) -> (has_content body md -> gated tr open V P m) ->
  gated tr open V P (check! ret (ValidateBody body md op) in m).
Proof.
  intros HV Hm. apply gated_check.
  - intros Hs. by eapply Hm, ValidateBody_spec.
  - intros Hs. split.
    + intros Hv%HV. apply (ValidateBody_spec body md op) in Hv. congruence.
    + intros _. revert Hs. unfold ValidateBody. by destruct (str_empty body && str_empty md).
Qed.

(** A timeout that was replaced when not positive always passes. *)
Lemma gated_timeout open t op V P m :
  gated tr open V P m -> gated tr open V P (check! ret (ValidateTimeout (effective_timeout t) op) in m).
Proof.
  intros Hm. apply gated_check; [done|]. intros Hs. exfalso.
  assert (0 < effective_timeout t)%Z as Ht.
  { unfold effective_timeout. destruct (Z.leb_spec t 0); [done|lia]. }
  apply (ValidateTimeout_spec _ op) in Ht. congruence.
Qed.

Lemma IsValidChannelType_spec t : IsValidChannelType t = true <-> channel_type_ok t.
Proof.
  unfold IsValidChannelType, channel_type_ok. rewrite !orb_true_iff, !String.eqb_eq. cbn. naive_solver.
Qed.

Lemma gated_management open n t op V P m :
  (V -> n <> "" /\ channel_type_ok t) -> (n <> "" /\ channel_type_ok t -> gated tr open V P m) ->
  gated tr open V P (check! ret (ValidateChannelManagement n t op) in m).
Proof.
  intros HV Hm. pose proof (IsValidChannelType_spec t) as Ht.
  apply gated_check; unfold ValidateChannelManagement; destruct (str_empty n) eqn:En, (IsValidChannelType t);
    try done; intros _.
  - apply Hm. split; [by apply str_empty_false|by apply Ht].
  - split; [|done]. intros [Hn _]%HV. by apply str_empty_true in En.
  - split; [|done]. intros [Hn _]%HV. by apply str_empty_true in En.
  - split; [|done]. intros [_ Hn%Ht]%HV. done.
Qed.

(** The stub call of each transport operation. *)
Lemma calls_op {A} (m : M (Logged W) (StatusOr A)) o :
  run_op tr o = status_only m -> calls tr statusor_status m (eq (op_call o)).
Proof. intros E. apply calls_of_status_only. rewrite <- E. apply calls_run_op. Qed.

Lemma content_ok_iff ch b md : content_ok ch md b <-> ch <> "" /\ has_content b md.
Proof. unfold content_ok, has_content. by rewrite !str_empty_false. Qed.

Lemma content_ok_decides ch b md : content_ok ch md b \/ ~ content_ok ch md b.
Proof.
  unfold content_ok. destruct (str_empty ch), (str_empty b), (str_empty md); intuition congruence.
Qed.

Lemma valid_send_channel_not_empty ch : valid_send_channel ch -> ch <> "".
Proof. intros [(H' & _) _]. done. Qed.

Lemma effective_channel_own ch c : ch <> "" -> effective_channel ch c = ch.
Proof. intros Hc%str_empty_false. unfold effective_channel. by rewrite Hc. Qed.


Lemma gated_status_only_bind {A B} open V P (m : M (Logged W) A) (k : A -> M (Logged W) (StatusOr B)) :
  gated tr open V P (let! a := m in status_only (k a)) ->
  gated tr open V P (status_only (let! a := m in k a)).
Proof.
  intros Hg w log. specialize (Hg w log). revert Hg. unfold status_only, bind. by destruct (m (w, log)).
Qed.

End contract.

(** The tests of an operation in the order of its source; what is left is the
    call, with every test passed. *)
Ltac gate_step :=
  first
    [ apply gated_check_statusor
    | lazymatch goal with |- gated _ _ _ _ (status_only (bind _ _)) => apply gated_status_only_bind end
    | apply gated_closed; [by intros []|intros ?]
    | apply gated_send_channel; [by intros [_ []]|intros ?]
    | apply gated_channel; [by intros [_ ?]|intros ?]
    | apply gated_body; [by intros [_ []]|intros ?]
    | apply gated_management; [by intros [_ ?]|intros ?]
    | apply gated_timeout
    | eapply gated_bind; [apply silent_id|intros ? ?]
    | eapply gated_bind; [apply silent_uuid|intros ? ?] ].

(** The call of a [StatusOr] transport operation [o] and what is done with its
    reply, which makes no call. *)
Tactic Notation "calls_reply" open_constr(o) :=
  apply calls_status_only; eapply calls_bind_statusor;
  [ eapply calls_weaken; [eapply (calls_op _ o); reflexivity|]
  | intros ?; cbn zeta; repeat case_match; try by apply silent_ret ].

Tactic Notation "calls_here" open_constr(o) :=
  eapply calls_weaken; [first [apply (calls_run_op o) | apply calls_status_only; eapply (calls_op _ o); reflexivity]|].

Ltac gate_op := repeat gate_step; apply gated_intro; [done|].

Section client_contract.
Context {W : Type} `{Grpc W, Providers W, Random W, JsonLibrary}.
Implicit Types (c : Client) (V : Prop) (P : StubCall -> Prop) (m : M (Logged W) Status).

Abbreviation op_gated c o m := (gated (transport c) (negb (closed c)) (op_valid c o) (op_sends c o) m).

Lemma SendEvent_gated c e : op_gated c (COSendEvent e) (SendEvent (W := Logged W) c e).
Proof.
  unfold SendEvent. gate_op. calls_here (OpSendEvent _).
  intros call <-. rewrite SetTags_fresh. cbn. unfold sent_event. eauto.
Qed.

Lemma SendEventStore_gated c e :
  op_gated c (COSendEventStore e) (status_only (SendEventStore (W := Logged W) c e)).
Proof.
  unfold SendEventStore. gate_op. calls_here (OpSendEventStore _).
  intros call <-. rewrite SetTags_fresh. cbn. unfold sent_event. eauto.
Qed.

Lemma SendCommand_gated c (cmd : Command) :
  op_gated c (COSendCommand cmd) (status_only (SendCommand (W := Logged W) c cmd)).
Proof.
  unfold SendCommand. gate_op. calls_reply (OpSendRequest _).
  intros call <-. rewrite SetTags_fresh. cbn. unfold sent_command. eauto.
Qed.

Lemma SendQuery_gated c q :
  op_gated c (COSendQuery q) (status_only (SendQuery (W := Logged W) c q)).
Proof.
  unfold SendQuery. gate_op. calls_reply (OpSendRequest _).
  intros call <-. rewrite SetTags_fresh. cbn. unfold sent_query. eauto.
Qed.

Lemma SendQueueMessage_gated c msg :
  op_gated c (COSendQueueMessage msg) (status_only (SendQueueMessage (W := Logged W) c msg)).
Proof.
  unfold SendQueueMessage. gate_op. calls_reply (OpSendQueueMessage _). by intros call <-.
Qed.

Lemma responses_gated c :
  (forall r, op_gated c (COSendCommandResponse r) (SendCommandResponse (W := Logged W) c r)) /\
  (forall r, op_gated c (COSendQueryResponse r) (SendQueryResponse (W := Logged W) c r)).
Proof.
  split; intros r; [unfold SendCommandResponse|unfold SendQueryResponse]; gate_op; calls_here (OpSendResponse _);
    intros call <-; by rewrite SetTags_fresh.
Qed.

Lemma receives_gated c :
  (forall r, op_gated c (COReceiveQueueMessages r)
     (status_only (ReceiveQueueMessages (W := Logged W) c r))) /\
  (forall r, op_gated c (COAckAllQueueMessages r)
     (status_only (AckAllQueueMessages (W := Logged W) c r))).
Proof.
  split; intros r; [unfold ReceiveQueueMessages|unfold AckAllQueueMessages]; gate_op.
  - calls_reply (OpReceiveQueueMessages _); [intros call <-; cbn; eauto|].
    eapply silent_bind; [apply silent_QueueMessagesFromProto|]. intros; by apply silent_ret.
  - calls_reply (OpAckAllQueueMessages _). intros call <-. cbn. eauto.
Qed.

Lemma management_request c name channel_type operation id :
  BuildChannelManagementRequest (client_id_ (opts c)) name channel_type operation id =
    mk_pb_Request id ReqQuery (client_id_ (opts c)) "kubemq.cluster.internal.requests" operation ""
      "" 10000 "" 0 "" {[ "channel" := name; "channel_type" := channel_type;
                          "client_id" := client_id_ (opts c) ]}.
Proof.
  by unfold BuildChannelManagementRequest; f_equal.
Qed.

Lemma management_gated c :
  (forall n t, op_gated c (COCreateChannel n t) (CreateChannel (W := Logged W) c n t)) /\
  (forall n t, op_gated c (CODeleteChannel n t) (DeleteChannel (W := Logged W) c n t)).
Proof.
  split; intros name channel_type; [unfold CreateChannel|unfold DeleteChannel]; gate_op;
    (eapply calls_bind_status; [eapply calls_weaken; [eapply (calls_op _ (OpSendRequest _)); reflexivity|]
                               |intros r; destruct (negb _); by apply silent_ret]);
    intros call <-; exists a; (split; [done|]); by rewrite management_request, (left_id_L ∅ (∪)).
Qed.

Lemma ListChannels_gated c channel_type search :
  op_gated c (COListChannels channel_type search)
    (status_only (ListChannels (W := Logged W) c channel_type search)).
Proof.
  unfold ListChannels. gate_step. gate_step.
  pose proof (IsValidChannelType_spec channel_type) as Ht.
  destruct (IsValidChannelType channel_type); cbn [negb].
  - assert (channel_type_ok channel_type) by (by apply Ht).
    gate_op. calls_reply (OpSendRequest _). intros call <-. exists a. split; [done|].
    rewrite management_request. cbn. destruct (str_empty search); cbn.
    + by rewrite (left_id_L ∅ (∪)).
    + unfold set_request_tag. cbn. by rewrite insert_union_singleton_l.
  - apply (gated_refuse _ _ _ (mkStatus _ _ _ _ _)); [|done|done].
    intros [_ Hv]. by apply Ht in Hv.
Qed.


Lemma message_ok_tests c op ch b md :
  if status_ok (ValidateChannelNoWildcard (effective_channel ch c) op) &&
     status_ok (ValidateBody b md op)
  then message_ok c ch b md else ~ message_ok c ch b md.
Proof.
  unfold message_ok. pose proof (ValidateChannelNoWildcard_spec (effective_channel ch c) op).
  pose proof (ValidateBody_spec b md op). unfold has_content.
  destruct (status_ok _), (status_ok (ValidateBody _ _ _)); cbn; intuition congruence.
Qed.

(** The batch loop: all messages, in order, or the first refusal. *)
Lemma batch_messages_spec c ms :
  match batch_messages c ms with
  | SValue ps => ps = queue_proto c <$> ms /\
      Forall (fun x => message_ok c (qm_channel x) (qm_body x) (qm_metadata x)) ms
  | SError s => status_ok s = false /\ code_ s = kValidation /\
      ~ Forall (fun x => message_ok c (qm_channel x) (qm_body x) (qm_metadata x)) ms
  end.
Proof.
  induction ms as [|x ms IH]; cbn [batch_messages]; [done|].
  pose proof (message_ok_tests c "SendQueueMessages" (qm_channel x) (qm_body x) (qm_metadata x)) as Hx.
  destruct (status_ok (ValidateChannelNoWildcard _ _)) eqn:E1; cbn [negb andb] in *.
  2: { split; [done|]. split; [by apply ValidateChannelNoWildcard_error|]. intros Hf.
       by apply Forall_cons in Hf as [? _]. }
  destruct (status_ok (ValidateBody _ _ _)) eqn:E2; cbn [negb] in *.
  2: { split; [done|]. split; [|intros Hf; by apply Forall_cons in Hf as [? _]].
       revert E2. unfold ValidateBody. by destruct (_ && _). }
  destruct (batch_messages c ms) as [ps|s]; cbn.
  - destruct IH as [-> Hf]. split; [done|]. by constructor.
  - destruct IH as (? & ? & Hf). split; [done|]. split; [done|]. intros Hc.
    by apply Forall_cons in Hc as [_ ?].
Qed.

Lemma SendQueueMessages_gated c ms :
  op_gated c (COSendQueueMessages ms) (status_only (SendQueueMessages (W := Logged W) c ms)).
Proof.
  unfold SendQueueMessages. gate_step. gate_step. destruct ms as [|x ms'].
  { apply (gated_refuse _ _ _ (mkStatus _ _ _ _ _)); [|done|done]. by intros (_ & Hne & _). }
  set (ms := x :: ms'). gate_step. eapply gated_bind; [apply silent_uuid|intros id Hid].
  pose proof (batch_messages_spec c ms) as Hb. destruct (batch_messages c ms) as [ps|s].
  - destruct Hb as [-> Hf]. apply gated_intro; [done|]. apply calls_status_only.
    eapply calls_bind_silent; [by apply (silent_ret _ (eq (SValue (queue_proto c <$> ms))))|].
    intros _ <-. eapply calls_bind_statusor; [|intros r; by apply silent_ret].
    eapply calls_weaken; [eapply (calls_op _ (OpSendQueueMessagesBatch _)); reflexivity|].
    intros call <-. exists id. by split.
  - destruct Hb as (Hs & Hc & Hf). apply (gated_refuse _ _ _ s); [|done|done].
    by intros (_ & _ & Hv).
Qed.


Lemma gated_transfer tr open V V' P P' m :
  gated tr open V P m -> (V <-> V') -> (forall call, P call -> P' call) -> gated tr open V' P' m.
Proof.
  intros Hg HV HP w log. specialize (Hg w log). destruct (m (w, log)) as [s [w' log']].
  destruct Hg as [G1 G2]. split; [|intros Hn; apply G2; tauto].
  intros Hv%HV. destruct (G1 Hv) as [?|(ctx & call & out & Hc & Ht & Ha & ->)]; [by left|right]. eauto 9.
Qed.

(** A form that builds its message [b] and passes it on: it is the operation
    on the message built, or a refusal. *)
Lemma gated_built {B T} tr open (build : B -> M (Logged W) (StatusOr T * B)) valid given made rest b
    (k : StatusOr T * B -> M (Logged W) Status) V P :
  build_contract build valid given made rest -> valid b \/ ~ valid b ->
  (forall id b', valid b -> id_for (given b) id -> gated tr open V P (k (SValue (made id b), b'))) ->
  (V -> valid b) ->
  (forall s b', k (SError s, b') = ret s) ->
  gated tr open V P (bind (build b) k).
Proof.
  intros Hc Hd Hk HV He. eapply gated_bind; [by eapply silent_build|]. intros [[x|s] b'] Hr; cbn in Hr.
  - destruct Hr as (Hv & id & Hid & ->). by apply Hk.
  - destruct Hr as [Hn Hs]. assert (status_ok s = false) as Hs'.
    { apply status_not_ok_spec. congruence. }
    rewrite He. apply gated_refuse; tauto || done.
Qed.

Lemma simple_message_ok c ch b md :
  content_ok ch md b -> message_ok c ch b md <-> simple_ok ch b md.
Proof. intros [Hc _]. unfold message_ok, simple_ok, effective_channel. by rewrite Hc. Qed.

Lemma simple_content_ok ch b md : simple_ok ch b md -> content_ok ch md b.
Proof. intros [Hc Hb]. apply content_ok_iff. split; [by apply valid_send_channel_not_empty|done]. Qed.

Lemma id_for_fresh id id' : id_for "" id -> id_for id id' -> id_for "" id'.
Proof. intros [Hi _] [Hi' _]. by split. Qed.

Lemma PublishEvent_gated c ch b md t :
  op_gated c (COPublishEvent ch b md t) (PublishEvent (W := Logged W) c ch b md t).
Proof.
  unfold PublishEvent. eapply gated_built; [apply Event_Build_contract|apply content_ok_decides| | |done].
  - intros id b' Hv Hid. cbn in *.
    eapply (gated_transfer _ _ _ _ _ _ (SendEvent c _)); [apply SendEvent_gated|..].
    + unfold op_valid. cbn. by rewrite simple_message_ok.
    + cbn. intros call (id' & Hid' & ->). exists id'. split; [by eapply id_for_fresh|done].
  - intros [_ Hv]. by apply simple_content_ok.
Qed.

Lemma PublishEventStore_gated c ch b md t :
  op_gated c (COPublishEventStore ch b md t)
    (status_only (PublishEventStore (W := Logged W) c ch b md t)).
Proof.
  unfold PublishEventStore. gate_step.
  eapply gated_built; [apply EventStore_Build_contract|apply content_ok_decides| | |done].
  - intros id b' Hv Hid. cbn in *.
    eapply (gated_transfer _ _ _ _ _ _ (status_only (SendEventStore c _))); [apply SendEventStore_gated|..].
    + unfold op_valid. cbn. by rewrite simple_message_ok.
    + cbn. intros call (id' & Hid' & ->). exists id'. split; [by eapply id_for_fresh|done].
  - intros [_ Hv]. by apply simple_content_ok.
Qed.

Lemma timed_decides ch b t :
  (content_ok ch "" b /\ 0 < t) \/ ~ (content_ok ch "" b /\ 0 < t).
Proof. destruct (content_ok_decides ch b ""), (Z.lt_ge_cases 0 t); [left|right..]; intuition lia. Qed.

Lemma SendCommandSimple_gated c ch b t :
  op_gated c (COSendCommandSimple ch b t) (status_only (SendCommandSimple (W := Logged W) c ch b t)).
Proof.
  unfold SendCommandSimple. gate_step.
  eapply gated_built; [apply Command_Build_contract|apply timed_decides| | |done].
  - intros id b' [Hv Ht] Hid. cbn in *.
    eapply (gated_transfer _ _ _ _ _ _ (status_only (SendCommand c _))); [apply SendCommand_gated|..].
    + unfold op_valid. cbn. rewrite simple_message_ok by done. intuition.
    + cbn. intros call (id' & Hid' & ->). exists id'. split; [by eapply id_for_fresh|done].
  - intros [_ [Hv Ht]]. split; [by apply simple_content_ok|done].
Qed.

Lemma SendQuerySimple_gated c ch b t :
  op_gated c (COSendQuerySimple ch b t) (status_only (SendQuerySimple (W := Logged W) c ch b t)).
Proof.
  unfold SendQuerySimple. gate_step.
  eapply gated_built; [apply Query_Build_contract|apply timed_decides| | |done].
  - intros id b' [Hv Ht] Hid. cbn in *.
    eapply (gated_transfer _ _ _ _ _ _ (status_only (SendQuery c _))); [apply SendQuery_gated|..].
    + unfold op_valid. cbn. rewrite simple_message_ok by done. intuition.
    + cbn. intros call (id' & Hid' & ->). exists id'. split; [by eapply id_for_fresh|done].
  - intros [_ [Hv Ht]]. split; [by apply simple_content_ok|done].
Qed.

(** The builder [SendQueueMessageSimple] fills. *)
Lemma simple_builder ch b e d :
  let b0 := QueueMessage_SetBody b (QueueMessage_SetChannel ch QueueMessageBuilder_new) in
  let b1 := if 0 <? e then QueueMessage_SetExpirationSeconds e b0 else b0 in
  (if 0 <? d then QueueMessage_SetDelaySeconds d b1 else b1) =
    mkQueueMessageBuilder "" ch "" b "" ∅ (mkQueuePolicy (Z.max 0 e) (Z.max 0 d) 0 "").
Proof.
  cbn. destruct (Z.ltb_spec 0 e), (Z.ltb_spec 0 d); cbn; repeat f_equal; lia.
Qed.

Lemma SendQueueMessageSimple_gated c ch b e d :
  op_gated c (COSendQueueMessageSimple ch b e d)
    (status_only (SendQueueMessageSimple (W := Logged W) c ch b e d)).
Proof.
  unfold SendQueueMessageSimple. cbv zeta. rewrite simple_builder. gate_step.
  eapply gated_built; [apply QueueMessage_Build_contract|apply content_ok_decides| | |done].
  - intros id b' Hv [Hid _]. cbn in *.
    eapply (gated_transfer _ _ _ _ _ _ (status_only (SendQueueMessage c _))); [apply SendQueueMessage_gated|..].
    + unfold op_valid. cbn. by rewrite simple_message_ok.
    + cbn. intros call ->. by exists id.
  - intros [_ Hv]. by apply simple_content_ok.
Qed.


Lemma Client_Ping_gated c : op_gated c COPing (status_only (Client_Ping (W := Logged W) c)).
Proof. unfold Client_Ping. gate_op. calls_here OpPing. by intros call <-. Qed.

Lemma run_client_op_gated c o : op_gated c o (run_client_op (V := Logged W) c o).
Proof.
  destruct o; cbn [run_client_op];
    first [ apply Client_Ping_gated | apply SendEvent_gated | apply PublishEvent_gated
          | apply SendEventStore_gated | apply PublishEventStore_gated | apply SendCommand_gated
          | apply SendCommandSimple_gated | apply SendQuery_gated | apply SendQuerySimple_gated
          | apply SendQueueMessage_gated | apply SendQueueMessages_gated | apply responses_gated
          | apply receives_gated | apply SendQueueMessageSimple_gated | apply management_gated
          | apply ListChannels_gated ].
Qed.

(** The forms that build their message do so before anything is tested. *)
Definition builds_message (o : ClientOp) : bool :=
  match o with
  | COPublishEvent _ _ _ _ | COPublishEventStore _ _ _ _ | COSendCommandSimple _ _ _ | COSendQuerySimple _ _ _
  | COSendQueueMessageSimple _ _ _ _ => true
  | _ => false
  end.

Lemma build_error {B T} (build : B -> M (Logged W) (StatusOr T * B)) valid given made rest b w :
  build_contract build valid given made rest ->
  match fst (fst (build b w)) with SError s => code_ s = kValidation | SValue _ => True end.
Proof.
  intros Hb. destruct (Hb b w) as (Hv & Hn & _). destruct (build b w) as [[[x|s] b'] w'] eqn:E; [done|]. cbn.
  destruct Hn as (s' & [= -> _] & Hs); [|done]. intros (id & ? & _)%Hv. done.
Qed.

(** A message is built and what was built is refused, as [E] says. *)
Ltac closed_build E build contract :=
  match goal with
  | |- context [build ?b ?w] =>
      let Hb := fresh "Hb" in pose proof (build_error _ _ _ _ _ b w contract) as Hb;
      destruct (build b w) as [[[?|?] ?] ?]; cbn in *; [rewrite E; by left|by right]
  end.

(** A closed client: the operation says so, unless no message can be built. *)
Lemma run_client_op_closed c o (w : Logged W) :
  closed c = true ->
  fst (run_client_op c o w) = kErrClientClosed \/
  (builds_message o = true /\ code_ (fst (run_client_op c o w)) = kValidation).
Proof.
  intros Hc. assert (Client_CheckClosed c = kErrClientClosed) as E by (unfold Client_CheckClosed; by rewrite Hc).
  destruct o; cbn [run_client_op builds_message];
    unfold status_only, SendEvent, PublishEvent, SendEventStore, PublishEventStore, SendCommand, SendCommandResponse,
      SendCommandSimple, SendQuery, SendQueryResponse, SendQuerySimple, SendQueueMessage, SendQueueMessages,
      ReceiveQueueMessages, AckAllQueueMessages, SendQueueMessageSimple, CreateChannel, DeleteChannel, ListChannels,
      Client_Ping, check_status, check_statusor, bind, ret;
    first [rewrite E; by left|idtac].
  all: unfold bind_status, bind_statusor, bind, ret.
  - closed_build E (Event_Build (W := Logged W)) (Event_Build_contract (W := Logged W)).
  - closed_build E (EventStore_Build (W := Logged W)) (EventStore_Build_contract (W := Logged W)).
  - closed_build E (Command_Build (W := Logged W)) (Command_Build_contract (W := Logged W)).
  - closed_build E (Query_Build (W := Logged W)) (Query_Build_contract (W := Logged W)).
  - closed_build E (QueueMessage_Build (W := Logged W)) (QueueMessage_Build_contract (W := Logged W)).
Qed.


End client_contract.

(** ** Life of a client *)

Section lifecycle.
Context {W : Type} `{Grpc W, Providers W, FileSystem W, Random W, Contexts W}.

(** The options [Create] works with: a client identifier is made up. *)
Definition with_client_id (o : ClientOptions) : M W ClientOptions :=
  if str_empty (client_id_ o) then let! id := GenerateUUID in ret (set_client_id id o) else ret o.

(** The client [Create] assembles. *)
Definition assembled (o : ClientOptions) (t : GrpcTransport) : Client :=
  mkClient (wire_transport o t) o false false [].

Lemma wire_handlers_spec o m :
  Current (wire_handlers o m) = Current m /\
  on_closed_ (wire_handlers o m) = match cb_closed_ o with Some f => Some f | None => on_closed_ m end.
Proof.
  destruct m. unfold wire_handlers, wire_handler, SetHandler.
  by destruct (cb_connected_ o), (cb_disconnected_ o), (cb_reconnecting_ o), (cb_reconnected_ o),
    (cb_closed_ o).
Qed.

(** A transport that exists is open, ready and has no handler; building it
    invoked none. *)
Lemma GrpcTransport_Create_spec (cb : Callbacks W) o w :
  match GrpcTransport_Create o w with
  | (SValue t, _) => closed_ t = false /\ close_once_ t = false /\ opts_ t = o /\
      state_machine_ t = Some (mkStateMachine kReady false None None None None None)
  | (SError s, _) => True
  end /\
  forall cb' : Callbacks W, GrpcTransport_Create (H1 := cb') o w = GrpcTransport_Create o w.
Proof.
  unfold GrpcTransport_Create, bind_statusor, bind, ret.
  destruct (BuildChannelCredentials (tls_config_ o) w) as [[creds|s] w1]; [|done].
  destruct (create_custom_channel _ _ _ w1) as [[ch|] w2]; [|done].
  destruct (new_stub ch w2) as [[] w3]; cbn [negb]; [|done].
  destruct (wait_for_ready_ o); [|done].
  by destruct (wait_for_connected _ _ w3) as [[] w4]; cbn.
Qed.

Lemma Transport_Ping_wired o t w : Transport_Ping (wire_transport o t) w = Transport_Ping t w.
Proof. done. Qed.

Lemma Transition_locked_ready_closed m :
  state_ m = kReady ->
  exists m', Transition_locked kClosed m = Some (call_of OnClosed (on_closed_ m), m').
Proof. destruct m. cbn. intros ->. by eexists. Qed.

(** Closing an assembled client: the closed handler of the options, once. *)
Lemma Client_Close_assembled (cb : Callbacks W) o t w :
  closed_ t = false -> close_once_ t = false ->
  state_machine_ t = Some (mkStateMachine kReady false None None None None None) ->
  exists c', Client_Close (assembled o t) w
    = ((StatusOk, c'), snd (fire_all (call_of OnClosed (cb_closed_ o)) w)) /\
    closed c' = true /\ close_once c' = true /\ opts c' = o /\
    closed_ (transport c') = true /\ close_once_ (transport c') = true.
Proof.
  intros Hc Ho Hm. unfold Client_Close, DrainAll, GrpcTransport_Close, assembled, wire_transport.
  cbn. unfold bind, ret. cbn. rewrite Ho, Hm. cbn. unfold Transition.
  destruct (wire_handlers_spec o (mkStateMachine kReady false None None None None None)) as [Hs Hh].
  destruct (Transition_locked_ready_closed _ Hs) as [m' ->]. rewrite Hh. cbn. unfold bind, ret.
  destruct (cb_closed_ o) as [f|]; cbn; [unfold bind, ret; destruct (fire OnClosed f w) as [[] w']|];
    by eexists.
Qed.

Lemma with_client_id_spec o w :
  cb_closed_ (fst (with_client_id o w)) = cb_closed_ o /\
  check_connection_ (fst (with_client_id o w)) = check_connection_ o /\
  str_empty (client_id_ (fst (with_client_id o w))) = false.
Proof.
  unfold with_client_id, bind, ret. destruct (str_empty (client_id_ o)) eqn:E; [|done].
  pose proof (GenerateUUID_not_empty w). destruct (GenerateUUID w) as [id w1], o. done.
Qed.

Lemma Client_Create_eq (cb : Callbacks W) o w o1 w1 :
  with_client_id o w = (o1, w1) ->
  Client_Create o w =
    if status_ok (Validate o1) then
      match GrpcTransport_Create o1 w1 with
      | (SError s, w2) => (SError s, w2)
      | (SValue t, w2) =>
          if check_connection_ o1 then
            match Transport_Ping t w2 with
            | (SValue _, w3) => (SValue (assembled o1 t), w3)
            | (SError s, w3) => (SError s, snd (Client_Close (assembled o1 t) w3))
            end
          else (SValue (assembled o1 t), w2)
      end
    else (SError (Validate o1), w1).
Proof.
  intros E. unfold Client_Create. change (if str_empty (client_id_ o) then _ else _) with (with_client_id o).
  unfold bind_statusor, bind, ret. rewrite E. destruct (status_ok (Validate o1)); cbn [negb]; [|done].
  destruct (GrpcTransport_Create o1 w1) as [[t|s] w2]; [|done]. cbn [opts].
  destruct (check_connection_ o1); [|done].
  change (Client_Ping _ w2) with (Transport_Ping t w2). fold (assembled o1 t).
  destruct (Transport_Ping t w2) as [[info|s] w3]; [done|].
  by destruct (Client_Close (assembled o1 t) w3).
Qed.

Lemma assembled_life (cb : Callbacks W) o t w :
  closed_ t = false -> close_once_ t = false ->
  state_machine_ t = Some (mkStateMachine kReady false None None None None None) ->
  Client_State (assembled o t) w = (kReady, w) /\
  forall w2, exists c',
    Client_Close (assembled o t) w2 = ((StatusOk, c'), snd (fire_all (call_of OnClosed (cb_closed_ o)) w2)) /\
    forall w3, Client_Close c' w3 = ((StatusOk, c'), w3) /\ Client_State c' w3 = (kClosed, w3) /\
      Client_Ping c' w3 = (SError kErrClientClosed, w3).
Proof.
  intros Hc Ho Hm. split.
  - unfold Client_State, GrpcTransport_State, assembled, wire_transport. cbn. rewrite Hc, Hm. cbn.
    unfold ret. f_equal. apply (wire_handlers_spec o (mkStateMachine _ _ _ _ _ _ _)).
  - intros w2. destruct (Client_Close_assembled cb o t w2 Hc Ho Hm) as (c' & E & Hcl & Hon & _).
    exists c'. split; [done|]. intros w3. unfold Client_Close, Client_State, Client_Ping, Client_CheckClosed.
    by rewrite Hon, Hcl.
Qed.

(** C21: the life of a client. A [Create] that succeeds has invoked no handler
    (it behaves the same whatever the handlers do), and its client is open,
    ready, has a client identifier and options that pass validation, unchanged
    but for the identifier. The first [Close] returns OK and invokes exactly
    the closed handler of the options; the client is then closed for good: a
    later [Close] does nothing, [State] is closed and every operation is
    refused with the client-closed error. A [Create] whose check of the
    connection fails returns that failure, and its caller sees the closed
    handler invoked for a client it never had. *)
Theorem client_lifecycle (cb : Callbacks W) (o : ClientOptions) (w : W) :
  match Client_Create o w with
  | (SValue c, w') =>
      (forall cb' : Callbacks W, Client_Create (H1 := cb') o w = (SValue c, w')) /\
      (closed c = false /\ Client_State c w' = (kReady, w') /\
       status_ok (Validate (opts c)) = true /\ opts c = fst (with_client_id o w) /\
       str_empty (client_id_ (opts c)) = false) /\
      forall w2, exists c',
        Client_Close c w2 = ((StatusOk, c'), snd (fire_all (call_of OnClosed (cb_closed_ o)) w2)) /\
        forall w3, Client_Close c' w3 = ((StatusOk, c'), w3) /\ Client_State c' w3 = (kClosed, w3) /\
          Client_Ping c' w3 = (SError kErrClientClosed, w3)
  | (SError s, w') =>
      forall t w2 w3, status_ok (Validate (fst (with_client_id o w))) = true ->
        GrpcTransport_Create (fst (with_client_id o w)) (snd (with_client_id o w)) = (SValue t, w2) ->
        check_connection_ o = true /\ Transport_Ping t w2 = (SError s, w3) ->
        w' = snd (fire_all (call_of OnClosed (cb_closed_ o)) w3)
  end.
Proof.
  destruct (with_client_id_spec o w) as (Hcb & Hck & Hid).
  destruct (with_client_id o w) as [o1 w1] eqn:Eo. cbn [fst snd] in *.
  rewrite (Client_Create_eq cb o w o1 w1 Eo).
  destruct (GrpcTransport_Create_spec cb o1 w1) as [Ht Hn].
  destruct (status_ok (Validate o1)) eqn:Ev; [|by intros].
  destruct (GrpcTransport_Create o1 w1) as [[t|s] w2] eqn:Et; [|by intros].
  destruct Ht as (Htc & Hto & Hopts & Hsm).
  assert (forall cb' : Callbacks W, GrpcTransport_Create (H1 := cb') o1 w1 = (SValue t, w2)) as Hany
    by (intros cb'; etrans; [apply (Hn cb')|exact Et]).
  assert (forall (cb' : Callbacks W) c w3,
    (if check_connection_ o1 then exists i, Transport_Ping t w2 = (SValue i, w3) else w3 = w2) ->
    c = assembled o1 t -> Client_Create (H1 := cb') o w = (SValue c, w3)) as Hsame.
  { intros cb' c w3 Hp ->. rewrite (Client_Create_eq cb' o w o1 w1 Eo), Ev, (Hany cb').
    destruct (check_connection_ o1); [by destruct Hp as [i ->]|by rewrite Hp]. }
  destruct (check_connection_ o1) eqn:Eck.
  - destruct (Transport_Ping t w2) as [[info|s] w3] eqn:Ep.
    + destruct (assembled_life cb o1 t w3 Htc Hto Hsm) as [Hs Hl]. rewrite Hcb in Hl.
      split; [intros cb'; apply Hsame; [by eexists|done]|]. split; [done|exact Hl].
    + intros t' w2' w3' _ [= <- <-] [_ Hp]. rewrite Ep in Hp. injection Hp as <-.
      destruct (Client_Close_assembled cb o1 t w3 Htc Hto Hsm) as (c' & -> & _). by rewrite Hcb.
  - destruct (assembled_life cb o1 t w2 Htc Hto Hsm) as [Hs Hl]. rewrite Hcb in Hl.
    split; [intros cb'; by apply Hsame|]. split; [done|exact Hl].
Qed.

End lifecycle.

(** ** The default channel *)

Section default_channel.
Context {W : Type} `{Grpc W, Providers W, Random W}.

Definition with_default_channel (channel : string) (c : Client) : Client :=
  mkClient (transport c) (set_default_channel channel (opts c)) (closed c) (close_once c)
    (active_contexts c).

(** What a build returned came from a valid builder. *)
Lemma built_valid {B T} (build : B -> M W (StatusOr T * B)) valid given made rest b w x b' w' :
  build_contract build valid given made rest -> valid b \/ ~ valid b ->
  build b w = ((SValue x, b'), w') -> valid b /\ exists id, x = made id b.
Proof.
  intros Hc Hd E. destruct (Hc b w) as (Hv & Hi & _). destruct Hd as [V|V].
  - destruct (Hv V) as (id & E' & _). split; [done|]. exists id. congruence.
  - destruct (Hi V) as (s & E' & _). congruence.
Qed.

Lemma effective_channel_default ch ch' c :
  str_empty ch = false -> effective_channel ch (with_default_channel ch' c) = effective_channel ch c.
Proof. intros E. unfold effective_channel. by rewrite E. Qed.

Ltac default_tac c op contract decides :=
  intros b w0 x b' w1 E;
  eapply built_valid in E; [|apply contract|apply decides];
  destruct E as (Hv & id & ->); unfold op, effective_client_id, request_cache_ttl;
  cbn; rewrite !effective_channel_default by apply Hv; by destruct c as [? [] ? ? ?].

(** The default channel of the options is never used for a message made by
    its builder: a message that omits its channel cannot be built, so sending
    what [Build] returned does the same whatever default is set. *)
Theorem default_channel_unused (c : Client) (channel : string) :
  let c' := with_default_channel channel c in
  (forall b w0 e b' w1, Event_Build b w0 = ((SValue e, b'), w1) ->
     SendEvent c' e = SendEvent c e) /\
  (forall b w0 e b' w1, EventStore_Build b w0 = ((SValue e, b'), w1) ->
     SendEventStore c' e = SendEventStore c e) /\
  (forall b w0 m b' w1, Command_Build b w0 = ((SValue m, b'), w1) ->
     SendCommand c' m = SendCommand c m) /\
  (forall b w0 q b' w1, Query_Build b w0 = ((SValue q, b'), w1) ->
     SendQuery c' q = SendQuery c q) /\
  (forall b w0 m b' w1, QueueMessage_Build b w0 = ((SValue m, b'), w1) ->
     SendQueueMessage c' m = SendQueueMessage c m).
Proof.
  intros c'. subst c'. assert (forall ch md b t, (content_ok ch md b /\ 0 < t) \/ ~ (content_ok ch md b /\ 0 < t)) as Hd.
  { intros ch md b t. destruct (content_ok_decides ch b md), (Z.lt_ge_cases 0 t); [left|right..]; intuition lia. }
  repeat apply conj.
  - default_tac c (@SendEvent) Event_Build_contract content_ok_decides.
  - default_tac c (@SendEventStore) EventStore_Build_contract content_ok_decides.
  - default_tac c (@SendCommand) Command_Build_contract Hd.
  - default_tac c (@SendQuery) Query_Build_contract Hd.
  - default_tac c (@SendQueueMessage) QueueMessage_Build_contract content_ok_decides.
Qed.

End default_channel.
