(* ===== verification/Callback.v ===== *)
(** * Guarded callbacks

    Models src/internal/callback_guard.h: what [SafeInvoke] does with the way
    a user callback ends.  An exception never leaves it. *)

From Stdlib Require Import ZArith Lia Ascii String.
From S2P Require Import Prelude Status.

Local Open Scope string_scope.

(** How a callback ends. *)
Inductive Outcome :=
  | Returned
  | Threw (what : string)      (* a std::exception *)
  | ThrewUnknown.

Definition returned (o : Outcome) : bool :=
  match o with Returned => true | _ => false end.

(** The status the error handler is called with, if it is called; what that
    handler throws is swallowed. *)
Definition SafeInvoke (o : Outcome) (on_error : bool) (operation : string) : option Status :=
  match o with
  | Returned => None
  | Threw what =>
      if on_error then Some (MakeError kFatal ("callback threw: " +:+ what) operation "" "") else None
  | ThrewUnknown =>
      if on_error then Some (MakeError kFatal "callback threw unknown exception" operation "" "")
      else None
  end.

(** A null error handler: everything is swallowed. *)
Definition SafeInvoke_null (o : Outcome) : option Status := None.

Lemma SafeInvoke_fatal o on_error op s :
  SafeInvoke o on_error op = Some s ->
  o <> Returned /\ on_error = true /\ code_ s = kFatal /\ operation_ s = op.
Proof. destruct o, on_error; cbn; naive_solver. Qed.

Lemma SafeInvoke_null_false o op : SafeInvoke o false op = SafeInvoke_null o.
Proof. by destruct o. Qed.
