(* ===== verification/Subscription.v ===== *)
(** * Subscriptions

    Models src/internal/subscription_impl.h and the four subscribe operations
    of src/client_events.cc, client_events_store.cc, client_commands.cc and
    client_queries.cc.  The reader thread and its owner are one automaton:
    an input is a step of the thread with what its environment answers (the
    stream, the user's callback, the transport), or a step of the owner; the
    outputs are the callbacks invoked, the sleeps and the calls made. *)

From Stdlib Require Import ZArith Lia Ascii String Floats.
From S2P Require Import Prelude Automaton Status ErrorMapper Validation Random Uuid.
From S2P Require Import Double Backoff StateMachine Auth Tls ClientOptions Messages.
From S2P Require Import Proto Converter Transport Calls Client Callback.

Local Open Scope string_scope.
Local Open Scope Z_scope.
Local Open Scope kubemq_scope.

(** ** Creating a subscription *)

Record Subscription := mkSubscription {
  sub_id : string;
  sub_reader : nat;
  subscribe_proto : pb_Subscribe
}.

Section subscribe.
Context {W : Type} `{Grpc W, Providers W, Callbacks W, FileSystem W, Random W, Contexts W}.

(** The subscription of a reader, with a fresh identifier. *)
Definition make_subscription (sub : pb_Subscribe) (reader : nat) : M W (StatusOr Subscription) :=
  let! id := GenerateUUID in ret (SValue (mkSubscription id reader sub)).

Definition SubscribeToEvents (c : Client) (channel group : string) : M W (StatusOr Subscription) :=
  check? ret (Client_CheckClosed c) in
  let channel := effective_channel channel c in
  check? ret (ValidateChannel channel "SubscribeToEvents") in
  let sub := mk_pb_Subscribe SubEvents (client_id_ (opts c)) channel group 0 0 in
  let? reader := Transport_SubscribeToEvents (transport c) sub in
  make_subscription sub reader.

Definition SubscribeToEventsStore (c : Client) (channel group : string)
    (start_option : SubscriptionOption) : M W (StatusOr Subscription) :=
  check? ret (Client_CheckClosed c) in
  let channel := effective_channel channel c in
  check? ret (ValidateChannel channel "SubscribeToEventsStore") in
  let sub := mk_pb_Subscribe SubEventsStore (client_id_ (opts c)) channel group
               (type_ start_option) (value_ start_option) in
  let? reader := Transport_SubscribeToEvents (transport c) sub in
  make_subscription sub reader.

Definition SubscribeToCommands (c : Client) (channel group : string) : M W (StatusOr Subscription) :=
  check? ret (Client_CheckClosed c) in
  let channel := effective_channel channel c in
  check? ret (ValidateChannel channel "SubscribeToCommands") in
  let sub := mk_pb_Subscribe SubCommands (client_id_ (opts c)) channel group 0 0 in
  let? reader := Transport_SubscribeToRequests (transport c) sub in
  make_subscription sub reader.

Definition SubscribeToQueries (c : Client) (channel group : string) : M W (StatusOr Subscription) :=
  check? ret (Client_CheckClosed c) in
  let channel := effective_channel channel c in
  check? ret (ValidateChannel channel "SubscribeToQueries") in
  let sub := mk_pb_Subscribe SubQueries (client_id_ (opts c)) channel group 0 0 in
  let? reader := Transport_SubscribeToRequests (transport c) sub in
  make_subscription sub reader.

End subscribe.

(** ** What is made of a message

    The code of the four readers; [None] is a request of another type, which
    the reader skips. *)

Definition event_received (p : pb_EventReceive) : option EventReceive :=
  Some (mkEventReceive (pbEventReceive_eventid p) (pbEventReceive_channel p)
          (pbEventReceive_metadata p) (pbEventReceive_body p) (pbEventReceive_timestamp p)
          (pbEventReceive_sequence p) (copy_entries (pbEventReceive_tags p) ∅)).

Definition event_store_received (p : pb_EventReceive) : option EventStoreReceive :=
  Some (mkEventStoreReceive (pbEventReceive_eventid p) (pbEventReceive_sequence p)
          (pbEventReceive_timestamp p) (pbEventReceive_channel p) (pbEventReceive_metadata p)
          (pbEventReceive_body p) (copy_entries (pbEventReceive_tags p) ∅)).

Definition command_received (p : pb_Request) : option CommandReceive :=
  if decide (pbRequest_requesttypedata p = ReqCommand) then
    Some (mkCommandReceive (pbRequest_requestid p) (pbRequest_clientid p) (pbRequest_channel p)
            (pbRequest_metadata p) (pbRequest_body p) (pbRequest_replychannel p)
            (seconds_to_ms (pbRequest_timeout p)) (copy_entries (pbRequest_tags p) ∅))
  else None.

Definition query_received (p : pb_Request) : option QueryReceive :=
  if decide (pbRequest_requesttypedata p = ReqQuery) then
    Some (mkQueryReceive (pbRequest_requestid p) (pbRequest_channel p) (pbRequest_clientid p)
            (pbRequest_metadata p) (pbRequest_body p) (pbRequest_replychannel p)
            (seconds_to_ms (pbRequest_timeout p)) (pbRequest_cachekey p)
            (seconds_to_ms (pbRequest_cachettl p)) (copy_entries (pbRequest_tags p) ∅))
  else None.

(** ** The reader thread *)

Section reader.
Context {Msg Recv : Type}.

(** What differs between the four readers: the conversion, the names, and
    whether the user gave the two callbacks. *)
Record ReaderKind := mkReaderKind {
  accept : Msg -> option Recv;
  on_message : bool;
  on_error : bool;
  message_operation : string;       (* "SubscribeToEvents::OnEvent" *)
  subscribe_operation : string;     (* "SubscribeToEvents" *)
  ended_message : string            (* "event subscription stream ended: " *)
}.

(** Where the thread is. *)
Inductive reader_pc :=
  | AtOuter                 (* while (!done) *)
  | AtRead                  (* while (reader->Read(&proto)) *)
  | AtMessage (m : Msg)
  | AtFinish
  | AtEnded                 (* if (done) break, after Finish *)
  | AtRetry (backoff : Z)   (* while (!done) of the reconnection *)
  | AtSleep (backoff : Z)
  | AtSlept (backoff : Z)   (* if (done) break, after the sleep *)
  | AtResubscribe (backoff : Z)
  | AtLeave                 (* if (!done), after the loops *)
  | AtReport
  | AtExit.

(** [Subscription::Impl] and the thread's locals. *)
Record SubImpl := mkSubImpl {
  done_ : bool;
  ctx_ : nat;
  reader_ : nat;
  last_status : GrpcStatus;
  pc : reader_pc;
  joined : bool
}.

Inductive sub_input :=
  | ITest                             (* the thread reads [done] *)
  | IRead (m : option Msg)            (* Read: a message, or the end *)
  | IInvoke (o : Outcome)             (* SafeInvoke, and how the callback ends *)
  | IFinish (st : GrpcStatus)
  | IWake                             (* the sleep ends *)
  | IResubscribe (r : StatusOr nat)   (* the transport's answer *)
  | IReport (o : Outcome)             (* the final on_error *)
  | ICancel                           (* owner: Cancel *)
  | IJoin.                            (* owner: JoinReader returns *)

Inductive sub_output :=
  | Delivered (r : Recv)
  | ErrorReported (s : Status)
  | Slept (seconds : Z)
  | Resubscribed
  | Cancelled (ctx : nat).

Definition goto (p : reader_pc) (s : SubImpl) : SubImpl :=
  mkSubImpl (done_ s) (ctx_ s) (reader_ s) (last_status s) p (joined s).

Definition errors_of (e : option Status) : list sub_output :=
  match e with Some st => [ErrorReported st] | None => [] end.

(** The owner's two operations; [JoinReader] returns when the thread is gone,
    or at once if it has been joined before. *)
Definition Cancel (s : SubImpl) : SubImpl * list sub_output :=
  (mkSubImpl true (ctx_ s) (reader_ s) (last_status s) (pc s) (joined s), [Cancelled (ctx_ s)]).

Definition JoinReader (s : SubImpl) : option SubImpl :=
  match pc s with
  | AtExit => Some (mkSubImpl (done_ s) (ctx_ s) (reader_ s) (last_status s) AtExit true)
  | _ => if joined s then Some s else None
  end.

(** One step; [None] when the input is not the one the code is at. *)
Definition sub_step (k : ReaderKind) (s : SubImpl) (i : sub_input)
    : option (SubImpl * list sub_output) :=
  match i, pc s with
  | ITest, AtOuter => Some (goto (if done_ s then AtLeave else AtRead) s, [])
  | IRead (Some m), AtRead => Some (goto (AtMessage m) s, [])
  | IRead None, AtRead => Some (goto AtFinish s, [])
  | IInvoke o, AtMessage m =>
      match accept k m with
      | None => if returned o then Some (goto AtRead s, []) else None
      | Some r =>
          if on_message k then
            Some (goto AtRead s,
                  Delivered r :: errors_of (SafeInvoke o (on_error k) (message_operation k)))
          else if returned o then Some (goto AtRead s, []) else None
      end
  | IFinish st, AtFinish =>
      Some (mkSubImpl (done_ s) (ctx_ s) (reader_ s) st AtEnded (joined s), [])
  | ITest, AtEnded => Some (goto (if done_ s then AtLeave else AtRetry 1) s, [])
  | ITest, AtRetry b => Some (goto (if done_ s then AtLeave else AtSleep b) s, [])
  | IWake, AtSleep b => Some (goto (AtSlept b) s, [Slept b])
  | ITest, AtSlept b => Some (goto (if done_ s then AtLeave else AtResubscribe b) s, [])
  | IResubscribe (SValue h), AtResubscribe b =>
      Some (mkSubImpl (done_ s) h h (last_status s) AtOuter (joined s), [Resubscribed])
  | IResubscribe (SError _), AtResubscribe b =>
      Some (goto (AtRetry (Z.min (b * 2) 30)) s, [Resubscribed])
  | ITest, AtLeave =>
      if done_ s then Some (goto AtExit s, [])
      else Some (mkSubImpl true (ctx_ s) (reader_ s) (last_status s) AtReport (joined s), [])
  | IReport o, AtReport =>
      if on_error k then
        Some (goto AtExit s,
              ErrorReported (mkStatus kTransient
                (ended_message k +:+ error_message (last_status s)) (subscribe_operation k) "" "")
              :: errors_of (SafeInvoke_null o))
      else if returned o then Some (goto AtExit s, []) else None
  | ICancel, _ => Some (Cancel s)
  | IJoin, _ => match JoinReader s with Some s' => Some (s', []) | None => None end
  | _, _ => None
  end.

Definition sub_run (k : ReaderKind) := run (sub_step k).

(** The thread just started on the reader of a new subscription. *)
Definition SubImpl_start (h : nat) : SubImpl :=
  mkSubImpl false h h GrpcStatusOk AtOuter false.

(** ** Observing a run *)

(** The messages the stream delivered. *)
Definition msgs_read (ins : list sub_input) : list Msg :=
  omap (fun i => match i with IRead m => m | _ => None end) ins.

Definition delivered (outs : list sub_output) : list Recv :=
  omap (fun o => match o with Delivered r => Some r | _ => None end) outs.

Definition reported (outs : list sub_output) : list Status :=
  omap (fun o => match o with ErrorReported s => Some s | _ => None end) outs.

(** The message read and not yet passed on. *)
Definition in_hand (s : SubImpl) : list Msg :=
  match pc s with AtMessage m => [m] | _ => [] end.

(** The step functions a case analysis opens. *)
Ltac sub_cases Hs := unfold sub_step, Cancel, JoinReader, goto, errors_of in Hs; step_cases Hs.

(** The thread leaves its loops only when [done] is set. *)
Definition leaves_done (s : SubImpl) : Prop :=
  match pc s with AtLeave | AtExit => done_ s = true | AtReport => False | _ => True end.

Lemma sub_step_leaves_done k s i s' o :
  leaves_done s -> sub_step k s i = Some (s', o) -> leaves_done s'.
Proof.
  unfold leaves_done. intros Hl Hs. destruct s as [d c r st p j]. cbn in *.
  destruct i, p; cbn in *; sub_cases Hs; done.
Qed.

Lemma sub_run_leaves_done k h ins s outs :
  sub_run k (SubImpl_start h) ins = Some (s, outs) -> leaves_done s.
Proof.
  revert ins s outs. apply run_invariant; [done|apply sub_step_leaves_done].
Qed.

Lemma sub_step_delivers k s i s' o :
  on_message k = true -> leaves_done s -> sub_step k s i = Some (s', o) ->
  (delivered o ++ omap (accept k) (in_hand s') =
     omap (accept k) (in_hand s) ++ omap (accept k) (msgs_read [i]))%list /\
  (forall st, In st (reported o) -> exists out, i = IInvoke out /\
     SafeInvoke out (on_error k) (message_operation k) = Some st).
Proof.
  unfold leaves_done, in_hand. intros Hk Hl Hs. destruct s as [d c r st p j]. cbn in *.
  destruct i, p; cbn in *; sub_cases Hs; try done; cbn.
  all: split; [by repeat case_match|].
  all: naive_solver.
Qed.

(** C2: messages are delivered in order, once each, and only broken callbacks
    are reported. In every run of a reader, with any interleaving of its owner
    and any reconnections, the messages passed to the user's callback are the
    accepted ones among those read from the streams, in the order read, each
    exactly once and none missing but the one in hand; and every error
    reported is a fatal one of the message operation, for a callback that
    threw: that the stream ended is never reported. *)
Theorem subscription_delivers_in_order (k : ReaderKind) (h : nat) (ins : list sub_input)
    (s : SubImpl) (outs : list sub_output) :
  on_message k = true ->
  sub_run k (SubImpl_start h) ins = Some (s, outs) ->
  (delivered outs ++ omap (accept k) (in_hand s))%list = omap (accept k) (msgs_read ins) /\
  Forall (fun st => code_ st = kFatal /\ operation_ st = message_operation k) (reported outs) /\
  (forall st, In st (reported outs) -> exists o, In (IInvoke o) ins /\
     SafeInvoke o (on_error k) (message_operation k) = Some st).
Proof.
  intros Hk Hr.
  assert ((delivered outs ++ omap (accept k) (in_hand s))%list = omap (accept k) (msgs_read ins) /\
    (forall st, In st (reported outs) -> exists o, In (IInvoke o) ins /\
       SafeInvoke o (on_error k) (message_operation k) = Some st)) as [Hd He].
  { revert ins s outs Hr. apply run_ind; [done|].
    intros s ins outs i s' o Hr [Hd He] Hs.
    destruct (sub_step_delivers k s i s' o Hk (sub_run_leaves_done _ _ _ _ _ Hr) Hs) as [Hd' He'].
    unfold delivered, reported, msgs_read in *. rewrite !omap_app. split.
    - by rewrite <- app_assoc, Hd', app_assoc, Hd.
    - intros st [Hst|Hst]%in_app_iff.
      + destruct (He st Hst) as (out & Hin & Hsi). exists out. rewrite in_app_iff. auto.
      + destruct (He' st Hst) as (out & -> & Hsi). exists out. rewrite in_app_iff. cbn. auto. }
  split; [done|]. split; [|done]. apply List.Forall_forall. intros st Hst.
  destruct (He st Hst) as (o & _ & Hsi). by apply SafeInvoke_fatal in Hsi as (_ & _ & ? & ?).
Qed.


(** *** Ending *)

(** How far the thread is from its exit once [done] is set. *)
Definition distance (p : reader_pc) : nat :=
  match p with
  | AtMessage _ => 4 | AtRead => 4 | AtFinish => 3 | AtEnded => 2
  | AtSleep _ => 3 | AtSlept _ => 2 | AtResubscribe _ => 3 | AtRetry _ => 2 | AtOuter => 2
  | AtLeave => 1 | AtReport => 1 | AtExit => 0
  end.

(** The inputs that are steps of the thread; [is_message] those that depend on
    how much the stream still holds. *)
Definition is_thread (i : sub_input) : bool :=
  match i with ICancel | IJoin => false | _ => true end.

Definition is_message (i : sub_input) : bool :=
  match i with IRead (Some _) | IInvoke _ => true | _ => false end.

(** An input the thread can take now, whatever its environment answers. *)
Definition next_input (s : SubImpl) : option sub_input :=
  match pc s with
  | AtOuter | AtEnded | AtRetry _ | AtSlept _ | AtLeave => Some ITest
  | AtRead => Some (IRead None)
  | AtMessage _ => Some (IInvoke Returned)
  | AtFinish => Some (IFinish GrpcStatusOk)
  | AtSleep _ => Some IWake
  | AtResubscribe _ => Some (IResubscribe (SValue 0%nat))
  | AtReport => Some (IReport Returned)
  | AtExit => None
  end.

Lemma next_input_enabled k s i :
  next_input s = Some i -> exists s' o, sub_step k s i = Some (s', o).
Proof.
  unfold next_input, sub_step. destruct (pc s); intros [= <-]; cbn; repeat case_match; eauto.
Qed.

Lemma sub_step_done k s i s' o :
  done_ s = true -> sub_step k s i = Some (s', o) ->
  done_ s' = true /\
  (is_thread i = true -> is_message i = false -> distance (pc s') < distance (pc s))%nat /\
  (is_message i = true -> distance (pc s') = distance (pc s)) /\
  (is_thread i = false -> pc s' = pc s).
Proof.
  intros Hd Hs. destruct s as [d c r st p j]. cbn in Hd. subst d.
  destruct i, p; cbn in *; sub_cases Hs; repeat split; intros; try done; cbn; lia.
Qed.

(** Thread steps that are not the passing on of messages. *)
Definition ending_steps (ins : list sub_input) : nat :=
  length (List.filter (fun i => is_thread i && negb (is_message i)) ins).

Lemma ending_steps_cons i ins :
  ending_steps (i :: ins) = ((if is_thread i && negb (is_message i) then 1 else 0) + ending_steps ins)%nat.
Proof. unfold ending_steps. cbn. by destruct (_ && _). Qed.

Lemma sub_run_done k ins : forall s s' outs,
  done_ s = true -> sub_run k s ins = Some (s', outs) ->
  done_ s' = true /\ (ending_steps ins + distance (pc s') <= distance (pc s))%nat.
Proof.
  induction ins as [|i ins IH]; intros s s' outs Hd Hr; cbn in Hr.
  { injection Hr as <- <-. split; [done|]. cbn. lia. }
  destruct (sub_step k s i) as [[s1 o1]|] eqn:Es; [|done].
  destruct (sub_run k s1 ins) as [[s2 o2]|] eqn:Er; [|done]. injection Hr as <- <-.
  destruct (sub_step_done k s i s1 o1 Hd Es) as (Hd1 & H1 & H2 & H3).
  destruct (IH s1 s2 o2 Hd1 Er) as [Hd2 Hl]. split; [done|]. rewrite ending_steps_cons.
  destruct (is_thread i), (is_message i); cbn in *; try specialize (H1 eq_refl eq_refl);
    try specialize (H2 eq_refl); try rewrite (H3 eq_refl) in *; lia.
Qed.

(** Who set [done], and when the thread is joined. *)
Lemma sub_step_owner k s i s' o :
  leaves_done s -> (joined s = true -> pc s = AtExit) -> sub_step k s i = Some (s', o) ->
  (done_ s' = true <-> done_ s = true \/ i = ICancel) /\ (joined s' = true -> pc s' = AtExit).
Proof.
  unfold leaves_done. intros Hl Hj Hs. destruct s as [d c r st p j]. cbn in *.
  destruct i, p; cbn in *; sub_cases Hs;
    (split; [split; [tauto|by intros [?|?]]|intros Hjt; first [done|by specialize (Hj Hjt)]]).
Qed.

Lemma sub_run_owner k h ins s outs :
  sub_run k (SubImpl_start h) ins = Some (s, outs) ->
  (done_ s = true <-> In ICancel ins) /\ (joined s = true -> pc s = AtExit).
Proof.
  revert ins s outs. apply run_ind; [done|].
  intros s ins outs i s' o Hr [Hd Hj] Hs.
  destruct (sub_step_owner k s i s' o (sub_run_leaves_done _ _ _ _ _ Hr) Hj Hs) as [Hd' Hj'].
  split; [|done]. rewrite Hd', Hd, in_app_iff. cbn. intuition.
Qed.

(** C18: a subscription ends when its owner cancels it and not otherwise. In
    every run: the reader thread leaves only after [Cancel], whatever the
    stream, the broker or [Client::Close] do; until it has left, one of its
    steps is always possible; [JoinReader] returns only when it has left; and
    once cancelled it takes at most four more steps besides passing on the
    messages the stream still delivers. *)
Theorem subscription_ends_by_cancel (k : ReaderKind) (h : nat) (ins : list sub_input)
    (s : SubImpl) (outs : list sub_output) :
  sub_run k (SubImpl_start h) ins = Some (s, outs) ->
  (done_ s = true <-> In ICancel ins) /\
  (pc s = AtExit -> In ICancel ins) /\
  (joined s = true -> pc s = AtExit) /\
  (pc s <> AtExit -> exists i s' o, is_thread i = true /\ sub_step k s i = Some (s', o)) /\
  (In ICancel ins -> forall ins2 s2 outs2, sub_run k s ins2 = Some (s2, outs2) ->
     ending_steps ins2 <= 4)%nat.
Proof.
  intros Hr. destruct (sub_run_owner _ _ _ _ _ Hr) as [Hd Hj].
  pose proof (sub_run_leaves_done _ _ _ _ _ Hr) as Hl.
  split; [done|]. split; [|split; [done|split]].
  - intros He. apply Hd. unfold leaves_done in Hl. by rewrite He in Hl.
  - intros He. destruct (next_input s) as [i|] eqn:En.
    + destruct (next_input_enabled k s i En) as (s' & o & Hs). exists i, s', o. split; [|done].
      revert En. unfold next_input. by destruct (pc s); intros [= <-].
    + revert En. unfold next_input. by destruct (pc s).
  - intros Hc ins2 s2 outs2 Hr2. destruct (sub_run_done k ins2 s s2 outs2) as [_ Hn]; [by apply Hd|done|].
    assert (distance (pc s) <= 4)%nat by (destruct (pc s); cbn; lia). lia.
Qed.

(** *** Backing off *)

(** Failed attempts since the last stream ended. *)
Definition failures (ins : list sub_input) : nat :=
  fold_left (fun n i => match i with
                        | IFinish _ => 0
                        | IResubscribe (SError _) => S n
                        | _ => n
                        end)%nat ins 0%nat.

Definition schedule (n : nat) : Z := Z.min (2 ^ Z.of_nat n) 30.

Definition backoff_inv (s : SubImpl) (ins : list sub_input) : Prop :=
  match pc s with
  | AtEnded => failures ins = 0%nat
  | AtRetry b | AtSleep b | AtSlept b | AtResubscribe b => b = schedule (failures ins)
  | _ => True
  end.

Lemma schedule_succ n : schedule (S n) = Z.min (schedule n * 2) 30.
Proof. unfold schedule. rewrite Nat2Z.inj_succ, Z.pow_succ_r by lia. lia. Qed.

Lemma sub_run_backoff k h ins s outs :
  sub_run k (SubImpl_start h) ins = Some (s, outs) -> backoff_inv s ins.
Proof.
  revert ins s outs. apply run_ind; [done|].
  intros s ins outs i s' o _ Hb Hs. unfold backoff_inv, failures in *. rewrite fold_left_app.
  set (n := fold_left _ ins 0%nat) in *. clearbody n. destruct s as [d c r st p j]. cbn in *.
  destruct i, p; cbn in *; sub_cases Hs; try done; by rewrite schedule_succ.
Qed.

(** A reader that lost its stream waits 1, 2, 4, 8, 16 and then 30 seconds
    between its attempts to subscribe again: the sleep before the attempt
    after [n] failures since the stream ended is [min (2^n, 30)] seconds, and
    the count starts anew with every stream. *)
Theorem resubscribe_backoff (k : ReaderKind) (h : nat) (ins : list sub_input) (s s' : SubImpl)
    (outs o : list sub_output) :
  sub_run k (SubImpl_start h) ins = Some (s, outs) ->
  sub_step k s IWake = Some (s', o) ->
  o = [Slept (Z.min (2 ^ Z.of_nat (failures ins)) 30)].
Proof.
  intros Hr Hs. pose proof (sub_run_backoff _ _ _ _ _ Hr) as Hb. unfold backoff_inv in Hb.
  cbn in Hs. destruct (pc s); simplify_eq/=. done.
Qed.

End reader.

(** ** The four readers *)

Definition events_reader (on_event on_error : bool) : ReaderKind :=
  mkReaderKind event_received on_event on_error "SubscribeToEvents::OnEvent" "SubscribeToEvents"
    "event subscription stream ended: ".

Definition events_store_reader (on_event on_error : bool) : ReaderKind :=
  mkReaderKind event_store_received on_event on_error "SubscribeToEventsStore::OnEvent"
    "SubscribeToEventsStore" "events store subscription stream ended: ".

Definition commands_reader (on_command on_error : bool) : ReaderKind :=
  mkReaderKind command_received on_command on_error "SubscribeToCommands::OnCommand"
    "SubscribeToCommands" "commands subscription stream ended: ".

Definition queries_reader (on_query on_error : bool) : ReaderKind :=
  mkReaderKind query_received on_query on_error "SubscribeToQueries::OnQuery" "SubscribeToQueries"
    "queries subscription stream ended: ".

(** The readers convert as the converter does. *)
Lemma readers_convert (e : pb_EventReceive) (r : pb_Request) :
  event_received e = Some (EventReceiveFromProto e) /\
  event_store_received e = Some (EventStoreReceiveFromProto e) /\
  command_received r =
    (if decide (pbRequest_requesttypedata r = ReqCommand) then Some (CommandReceiveFromProto r) else None) /\
  query_received r =
    (if decide (pbRequest_requesttypedata r = ReqQuery) then Some (QueryReceiveFromProto r) else None).
Proof. done. Qed.

(** A run of the commands reader: a command, a query (skipped), a callback
    that throws, a broken stream, one failed attempt, a new stream, the
    cancellation. *)
Definition demo_request (id : string) (t : RequestType) : pb_Request :=
  mk_pb_Request id t "cl" "ch" "" "b" "r" 1 "" 0 "" ∅.

Definition demo_inputs : list (sub_input (Msg := pb_Request)) :=
  [ITest; IRead (Some (demo_request "1" ReqCommand)); IInvoke Returned;
   IRead (Some (demo_request "2" ReqQuery)); IInvoke Returned;
   IRead (Some (demo_request "3" ReqCommand)); IInvoke (Threw "boom");
   IRead None; IFinish GrpcStatusOk; ITest; ITest; IWake; ITest;
   IResubscribe (SError kErrClientClosed); ITest].

Definition demo_state : SubImpl (Msg := pb_Request) := mkSubImpl false 7 7 GrpcStatusOk (AtSleep 2) false.

Definition demo_outputs : list (sub_output (Recv := CommandReceive)) :=
  match command_received (demo_request "1" ReqCommand), command_received (demo_request "3" ReqCommand) with
  | Some a, Some b =>
      [Delivered a; Delivered b;
       ErrorReported (mkStatus kFatal "callback threw: boom" "SubscribeToCommands::OnCommand" "" "");
       Slept 1; Resubscribed]
  | _, _ => []
  end.

Lemma demo_run :
  sub_run (commands_reader true true) (SubImpl_start 7) demo_inputs = Some (demo_state, demo_outputs).
Proof. by vm_compute. Qed.

Lemma subscription_delivers_in_order_witness :
  on_message (commands_reader true true) = true /\
  length (delivered demo_outputs) = 2%nat /\
  (delivered demo_outputs ++ omap (accept (commands_reader true true)) (in_hand demo_state))%list
    = omap (accept (commands_reader true true)) (msgs_read demo_inputs).
Proof.
  split; [done|]. split; [by vm_compute|].
  exact (proj1 (subscription_delivers_in_order (commands_reader true true) 7 demo_inputs demo_state
                  demo_outputs eq_refl demo_run)).
Defined.

Lemma subscription_ends_by_cancel_witness :
  exists s outs,
    sub_run (commands_reader true true) (SubImpl_start 7) (demo_inputs ++ [ICancel]) = Some (s, outs) /\
    forall ins2 s2 outs2, sub_run (commands_reader true true) s ins2 = Some (s2, outs2) ->
      (ending_steps ins2 <= 4)%nat.
Proof.
  eexists _, _.
  assert (sub_run (commands_reader true true) (SubImpl_start 7) (demo_inputs ++ [ICancel])
          = Some (fst (Cancel (Recv := CommandReceive) demo_state), (demo_outputs ++ [Cancelled 7])%list)) as E
    by by vm_compute.
  split; [exact E|].
  refine (proj2 (proj2 (proj2 (proj2 (subscription_ends_by_cancel _ 7 _ _ _ E)))) _).
  apply in_app_iff. right. by left.
Defined.

Lemma resubscribe_backoff_witness :
  exists o, sub_step (commands_reader true true) demo_state IWake
      = Some (mkSubImpl false 7 7 GrpcStatusOk (AtSlept 2) false, o) /\
    o = [Slept (Z.min (2 ^ Z.of_nat (failures demo_inputs)) 30)].
Proof.
  exists [Slept 2]. split; [reflexivity|].
  exact (resubscribe_backoff (commands_reader true true) 7 demo_inputs demo_state
           (mkSubImpl false 7 7 GrpcStatusOk (AtSlept 2) false) demo_outputs [Slept 2] demo_run eq_refl).
Defined.

(** ** Subscribing *)

Inductive SubscribeOp :=
  | SOEvents (channel group : string)
  | SOEventsStore (channel group : string) (start : SubscriptionOption)
  | SOCommands (channel group : string)
  | SOQueries (channel group : string).

Definition run_subscribe_op {V} `{Grpc V, Providers V, Random V} (c : Client) (o : SubscribeOp)
    : M V (StatusOr Subscription) :=
  match o with
  | SOEvents ch g => SubscribeToEvents c ch g
  | SOEventsStore ch g st => SubscribeToEventsStore c ch g st
  | SOCommands ch g => SubscribeToCommands c ch g
  | SOQueries ch g => SubscribeToQueries c ch g
  end.

Definition subscribe_channel (o : SubscribeOp) : string :=
  match o with SOEvents ch _ | SOEventsStore ch _ _ | SOCommands ch _ | SOQueries ch _ => ch end.

(** The subscription asked for. *)
Definition subscribe_request (c : Client) (o : SubscribeOp) : pb_Subscribe :=
  let ch := effective_channel (subscribe_channel o) c in
  match o with
  | SOEvents _ g => mk_pb_Subscribe SubEvents (client_id_ (opts c)) ch g 0 0
  | SOEventsStore _ g st => mk_pb_Subscribe SubEventsStore (client_id_ (opts c)) ch g (type_ st) (value_ st)
  | SOCommands _ g => mk_pb_Subscribe SubCommands (client_id_ (opts c)) ch g 0 0
  | SOQueries _ g => mk_pb_Subscribe SubQueries (client_id_ (opts c)) ch g 0 0
  end.

Definition subscribe_call (c : Client) (o : SubscribeOp) : StubCall :=
  match o with
  | SOEvents _ _ | SOEventsStore _ _ _ => CallSubscribeToEvents (subscribe_request c o)
  | SOCommands _ _ | SOQueries _ _ => CallSubscribeToRequests (subscribe_request c o)
  end.

Section subscribe_contract.
Context {W : Type} `{Grpc W, Providers W, Random W}.

Lemma run_subscribe_op_gated (c : Client) (o : SubscribeOp) :
  gated (transport c) (negb (closed c))
    (closed c = false /\ valid_channel (effective_channel (subscribe_channel o) c))
    (eq (subscribe_call c o)) (status_only (run_subscribe_op (V := Logged W) c o)).
Proof.
  destruct o; cbn [run_subscribe_op subscribe_channel];
    [unfold SubscribeToEvents|unfold SubscribeToEventsStore|unfold SubscribeToCommands|
     unfold SubscribeToQueries]; gate_op.
  1,2: calls_reply (OpSubscribeToEvents _); [done|].
  3,4: calls_reply (OpSubscribeToRequests _); [done|].
  all: (eapply silent_bind; [apply silent_uuid|intros; by apply silent_ret]).
Qed.

(** C27: subscribing. Each of the four operations is allowed exactly on an open
    client for a valid channel (wildcards included), its own or the default
    one. Refused, it makes no call: on a closed client it returns the error
    that the client is closed, on an open one a validation error. Allowed, it
    either makes its one call, with the subscription type, the client's
    identifier, the channel, the group and, for stored events, the start
    option, and returns an error when the stream does not open; or, when the
    transport has been closed or a token has to be asked of a credential
    provider, it may make no call and fail. *)
Theorem subscribe_contract (c : Client) (o : SubscribeOp) (w : W) (log : call_log) :
  let '(r, (_, log')) := run_subscribe_op c o (w, log) in
  let s := statusor_status r in
  let valid := closed c = false /\ valid_channel (effective_channel (subscribe_channel o) c) in
  (valid ->
     (log' = log /\ status_ok s = false /\ may_refuse (transport c)) \/
     exists ctx out, carries_token (transport c) ctx /\ answers out s /\
       log' = (log ++ [(ctx, subscribe_call c o, out)])%list) /\
  (~ valid ->
     log' = log /\ status_ok s = false /\ (closed c = false -> code_ s = kValidation) /\
     (closed c = true -> r = SError kErrClientClosed)).
Proof.
  pose proof (run_subscribe_op_gated c o w log) as Hg. unfold status_only, bind, ret in Hg.
  assert (closed c = true -> run_subscribe_op c o (w, log) = (SError kErrClientClosed, (w, log))) as Hcl.
  { intros Hc. destruct o; cbn [run_subscribe_op]; unfold SubscribeToEvents, SubscribeToEventsStore,
      SubscribeToCommands, SubscribeToQueries, check_statusor, Client_CheckClosed, bind, ret; by rewrite Hc. }
  destruct (run_subscribe_op c o (w, log)) as [r [w' log']]. rewrite negb_true_iff in Hg.
  destruct Hg as [Hv Hn]. split.
  - intros V. destruct (Hv V) as [?|(ctx & call & out & <- & ? & ? & ->)]; eauto 6.
  - intros (? & ? & ?)%Hn. split_and!; [done..|]. intros Hc. by specialize (Hcl Hc) as [= -> _ _].
Qed.

End subscribe_contract.
