(* ===== verification/Session.v ===== *)
(** * A client and the threads that use it

    Composes the client of Client with the threads of a program: the calls of
    its operations, the calls of [Close], the destructor and the reader threads
    of the subscriptions it opened (src/client.cc, internal/client_impl.h, the
    tests at the head of every operation of internal/transport/grpc_transport.cc
    and the attempts of a reader to subscribe again). A step is one atomic
    access or one critical section of one of them; an operation between its
    tests is its own thread's business and appears as the tests, the call of
    the stub and the return. *)

From Stdlib Require Import ZArith Lia Ascii String.
From S2P Require Import Prelude Automaton Status ErrorMapper Random StateMachine Auth Tls ClientOptions Messages.
From S2P Require Import Proto Transport Client Callback Subscription.

Local Open Scope string_scope.

Section session.
Context {Msg Recv : Type}.

Notation ReaderKind := (ReaderKind (Msg := Msg) (Recv := Recv)).
Notation SubImpl := (SubImpl (Msg := Msg)).
Notation sub_input := (sub_input (Msg := Msg)).
Notation sub_output := (sub_output (Recv := Recv)).

(** ** State *)

(** Where a call of an operation is. *)
Inductive call_pc :=
  | AtClientTest       (* impl_->CheckClosed() *)
  | AtTransportTest    (* GrpcTransport: CheckClosed() *)
  | AtStub             (* the call of the stub *)
  | AtAnswer
  | AtReturn.

(** A call; one that subscribes makes a reader of this kind. *)
Record OpCall := mkOpCall { oc_opens : option ReaderKind; oc_pc : call_pc }.

(** Where the body that [close_once] runs is. *)
Inductive close_pc := CloseNot | CloseFlag | CloseDrain | CloseTransport | CloseMachine | CloseDone.

(** A subscription; [os_tested]: its reader is inside the transport, past the
    test. *)
Record OpenSub := mkOpenSub { os_kind : ReaderKind; os_impl : SubImpl; os_tested : bool }.

Record Session := mkSession {
  ss_client : Client;
  ss_close : close_pc;
  ss_closing : nat;          (* calls of Close that have not returned *)
  ss_calls : list OpCall;
  ss_subs : list OpenSub;
  ss_freed : bool            (* the client and its transport are destroyed *)
}.

Definition Session_new (c : Client) : Session := mkSession c CloseNot 0 [] [] false.

Inductive session_input :=
  | SCall (opens : option ReaderKind)      (* an operation is called *)
  | STest (n : nat)                        (* its next test *)
  | SLeave (n : nat) (s : Status)          (* it returns before its call: validation, token *)
  | SStub (n : nat)
  | SAnswer (n : nat) (r : StatusOr nat)   (* the call ends; a stream's handle *)
  | SClose                                 (* Close is called *)
  | SCloseStep (alive : nat -> bool)       (* the body of [close_once]; weak_ptr::lock *)
  | SCloseReturn
  | SDestroy                               (* the members of a closed client are destroyed *)
  | SSub (i : nat) (x : sub_input)         (* a step of a subscription's reader or owner *)
  | SResubTest (i : nat)                   (* the reader calls the transport *)
  | SResubStub (i : nat) (r : StatusOr nat).

Inductive session_output :=
  | OStub (n : nat)
  | OReturned (n : nat) (s : Status)
  | OHandler (e : Slot) (f : nat)
  | OTryCancel (ctx : nat)
  | OCloseReturned
  | OSub (i : nat) (o : sub_output)
  | OResubStub (i : nat)
  | OUseAfterFree (i : nat).

(** ** Steps *)

Definition session_stepped : Type := option (Session * list session_output).

Definition with_close (c : Client) (p : close_pc) (s : Session) : Session :=
  mkSession c p (ss_closing s) (ss_calls s) (ss_subs s) (ss_freed s).
Definition with_closing (p : close_pc) (n : nat) (s : Session) : Session :=
  mkSession (ss_client s) p n (ss_calls s) (ss_subs s) (ss_freed s).
Definition with_call (n : nat) (opens : option ReaderKind) (p : call_pc) (s : Session) : Session :=
  mkSession (ss_client s) (ss_close s) (ss_closing s) (<[n := mkOpCall opens p]> (ss_calls s))
    (ss_subs s) (ss_freed s).
Definition with_subs (subs : list OpenSub) (s : Session) : Session :=
  mkSession (ss_client s) (ss_close s) (ss_closing s) (ss_calls s) subs (ss_freed s).

(** A test: on to [next], or out with the error. *)
Definition call_test (n : nat) (opens : option ReaderKind) (st : Status) (next : call_pc) (s : Session)
    : session_stepped :=
  if status_ok st then Some (with_call n opens next s, [])
  else Some (with_call n opens AtReturn s, [OReturned n st]).

(** An operation of the client. A stream that opens is a new subscription: its
    context is not tracked. *)
Definition call_step (n : nat) (i : session_input) (s : Session) : session_stepped :=
  match ss_calls s !! n with
  | None => None
  | Some (mkOpCall opens p) =>
      match p, i with
      | AtClientTest, STest _ => call_test n opens (Client_CheckClosed (ss_client s)) AtTransportTest s
      | AtTransportTest, STest _ => call_test n opens (CheckClosed (transport (ss_client s))) AtStub s
      | (AtTransportTest | AtStub), SLeave _ st =>
          if status_ok st then None else Some (with_call n opens AtReturn s, [OReturned n st])
      | AtStub, SStub _ => Some (with_call n opens AtAnswer s, [OStub n])
      | AtAnswer, SAnswer _ (SError st) => Some (with_call n opens AtReturn s, [OReturned n st])
      | AtAnswer, SAnswer _ (SValue h) =>
          let s' := with_call n opens AtReturn s in
          Some (match opens with
                | Some k => with_subs (ss_subs s ++ [mkOpenSub k (SubImpl_start h) false])%list s'
                | None => s'
                end, [OReturned n StatusOk])
      | _, _ => None
      end
  end.

(** [Close]: the first call runs the body, the others wait for its end. *)
Definition close_call (s : Session) : session_stepped :=
  Some (match ss_close s with
        | CloseNot =>
            let c := ss_client s in
            mkSession (mkClient (transport c) (opts c) (closed c) true (active_contexts c)) CloseFlag
              (S (ss_closing s)) (ss_calls s) (ss_subs s) (ss_freed s)
        | p => with_closing p (S (ss_closing s)) s
        end, []).

(** The body: the flag, [DrainAll], the transport's flag, the state machine. *)
Definition close_step (alive : nat -> bool) (s : Session) : session_stepped :=
  let c := ss_client s in
  let t := transport c in
  match ss_close s with
  | CloseFlag =>
      Some (with_close (mkClient t (opts c) true (close_once c) (active_contexts c)) CloseDrain s, [])
  | CloseDrain =>
      Some (with_close (mkClient t (opts c) (closed c) (close_once c) []) CloseTransport s,
            OTryCancel <$> List.filter alive (active_contexts c))
  | CloseTransport =>
      if close_once_ t then Some (with_close c CloseDone s, [])
      else
        Some (with_close (mkClient (mkGrpcTransport (channel_handle_ t) (opts_ t) true true (state_machine_ t))
                            (opts c) (closed c) (close_once c) (active_contexts c)) CloseMachine s, [])
  | CloseMachine =>
      let machine m := mkClient (mkGrpcTransport (channel_handle_ t) (opts_ t) (closed_ t) (close_once_ t) (Some m))
                         (opts c) (closed c) (close_once c) (active_contexts c) in
      Some (match state_machine_ t with
            | Some m =>
                match Transition_locked kClosed m with
                | Some (cs, m') =>
                    (with_close (machine m') CloseDone s, (fun ef => OHandler (fst ef) (snd ef)) <$> cs)
                | None => (with_close c CloseDone s, [])
                end
            | None => (with_close c CloseDone s, [])
            end)
  | CloseNot | CloseDone => None
  end.

(** A reader or its owner; the answer of the transport is not the reader's. *)
Definition is_resubscribe (x : sub_input) : bool := match x with IResubscribe _ => true | _ => false end.

Definition sub_of_session (i : nat) (x : sub_input) (s : Session) : session_stepped :=
  match ss_subs s !! i with
  | None => None
  | Some u =>
      match sub_step (os_kind u) (os_impl u) x with
      | None => None
      | Some (m, o) =>
          Some (with_subs (<[i := mkOpenSub (os_kind u) m false]> (ss_subs s)) s, OSub i <$> o)
      end
  end.

(** [sub_impl->transport->SubscribeTo...]: the test, then the stub. *)
Definition resub_test (i : nat) (s : Session) : session_stepped :=
  match ss_subs s !! i with
  | Some (mkOpenSub k m false) =>
      match pc m with
      | AtResubscribe _ =>
          if ss_freed s then Some (s, [OUseAfterFree i])
          else
            let st := CheckClosed (transport (ss_client s)) in
            if status_ok st then Some (with_subs (<[i := mkOpenSub k m true]> (ss_subs s)) s, [])
            else sub_of_session i (IResubscribe (SError st)) s
      | _ => None
      end
  | _ => None
  end.

Definition resub_stub (i : nat) (r : StatusOr nat) (s : Session) : session_stepped :=
  match ss_subs s !! i with
  | Some (mkOpenSub k m true) =>
      if ss_freed s then Some (s, [OUseAfterFree i])
      else
        match sub_of_session i (IResubscribe r) s with
        | Some (s', o) => Some (s', OResubStub i :: o)
        | None => None
        end
  | _ => None
  end.

(** A reader inside the transport takes no other step; its owner does. *)
Definition may_step (u : OpenSub) (x : sub_input) : bool := negb (os_tested u && is_thread x).

Definition idle_call (oc : OpCall) : bool := match oc_pc oc with AtReturn => true | _ => false end.

Definition session_step (s : Session) (i : session_input) : session_stepped :=
  match i with
  | SCall opens =>
      if ss_freed s then None
      else Some (mkSession (ss_client s) (ss_close s) (ss_closing s)
                   (ss_calls s ++ [mkOpCall opens AtClientTest])%list (ss_subs s) (ss_freed s), [])
  | STest n | SLeave n _ | SStub n | SAnswer n _ => call_step n i s
  | SClose => if ss_freed s then None else close_call s
  | SCloseStep alive => close_step alive s
  | SCloseReturn =>
      match ss_close s, ss_closing s with
      | CloseDone, S n => Some (with_closing CloseDone n s, [OCloseReturned])
      | _, _ => None
      end
  | SDestroy =>
      match ss_close s, ss_closing s with
      | CloseDone, O =>
          if ss_freed s then None
          else if forallb idle_call (ss_calls s) then
            Some (mkSession (ss_client s) CloseDone 0 (ss_calls s) (ss_subs s) true, [])
          else None
      | _, _ => None
      end
  | SSub n x =>
      match ss_subs s !! n with
      | Some u =>
          if is_resubscribe x || negb (may_step u x) then None
          else
            match sub_step (os_kind u) (os_impl u) x with
            | None => None
            | Some (m, o) =>
                Some (with_subs (<[n := mkOpenSub (os_kind u) m (os_tested u)]> (ss_subs s)) s, OSub n <$> o)
            end
      | None => None
      end
  | SResubTest n => resub_test n s
  | SResubStub n r => resub_stub n r s
  end.

Definition session_run := run session_step.

(** ** Observing a run *)

Definition handlers (outs : list session_output) : list Call :=
  omap (fun o => match o with OHandler e f => Some (e, f) | _ => None end) outs.

Definition close_returns (outs : list session_output) : nat :=
  length (List.filter (fun o => match o with OCloseReturned => true | _ => false end) outs).

Definition close_calls (ins : list session_input) : nat :=
  length (List.filter (fun i => match i with SClose => true | _ => false end) ins).

Definition close_steps (ins : list session_input) : nat :=
  length (List.filter (fun i => match i with SCloseStep _ => true | _ => false end) ins).

(** Calls of the stub, and the threads that are past the tests before it. *)
Definition stub_calls (outs : list session_output) : nat :=
  length (List.filter (fun o => match o with OStub _ | OResubStub _ => true | _ => false end) outs).

Definition past_tests (s : Session) : nat :=
  (sum_list_with (fun oc => match oc_pc oc with AtStub => 1 | _ => 0 end) (ss_calls s) +
   sum_list_with (fun u => if os_tested u then 1 else 0) (ss_subs s))%nat.

(** ** The client at each stage of its closing *)

(** A client that was created and not closed. *)
Definition fresh_client (c : Client) : Prop :=
  closed c = false /\ close_once c = false /\ active_contexts c = [] /\
  closed_ (transport c) = false /\ close_once_ (transport c) = false /\
  exists m, state_machine_ (transport c) = Some m /\ Current m = kReady.

(** What [Transition(kClosed)] makes of the machine, and the handlers due. *)
Definition closing_machine (t : GrpcTransport) : option StateMachine :=
  (fun m => match Transition_locked kClosed m with Some (_, m') => m' | None => m end) <$> state_machine_ t.

Definition closing_calls (t : GrpcTransport) : list Call :=
  match state_machine_ t with
  | Some m => match Transition_locked kClosed m with Some (cs, _) => cs | None => [] end
  | None => []
  end.

Definition client_at (c : Client) (p : close_pc) : Client :=
  let t := transport c in
  let flagged m := mkGrpcTransport (channel_handle_ t) (opts_ t) true true m in
  match p with
  | CloseNot => c
  | CloseFlag => mkClient t (opts c) false true []
  | CloseDrain | CloseTransport => mkClient t (opts c) true true []
  | CloseMachine => mkClient (flagged (state_machine_ t)) (opts c) true true []
  | CloseDone => mkClient (flagged (closing_machine t)) (opts c) true true []
  end.

Definition close_left (p : close_pc) : nat :=
  match p with
  | CloseNot => 4 | CloseFlag => 4 | CloseDrain => 3 | CloseTransport => 2 | CloseMachine => 1 | CloseDone => 0
  end.

(** Steps that are not of [Close] leave the client and its stage. *)
Definition is_closing (i : session_input) : bool :=
  match i with SClose | SCloseStep _ | SCloseReturn | SDestroy => true | _ => false end.

Ltac session_cases Hs :=
  unfold session_step, call_step, call_test, resub_test, resub_stub, sub_of_session, close_call, close_step in Hs;
  step_cases Hs.

Definition of_client (o : session_output) : bool :=
  match o with OHandler _ _ | OTryCancel _ | OCloseReturned => true | _ => false end.

Lemma sub_outputs_of_client i o : List.filter of_client (OSub i <$> o) = [].
Proof. by induction o. Qed.

Lemma other_step s i s' o :
  is_closing i = false -> session_step s i = Some (s', o) ->
  ss_client s' = ss_client s /\ ss_close s' = ss_close s /\ ss_closing s' = ss_closing s /\
  ss_freed s' = ss_freed s /\ List.filter of_client o = [].
Proof.
  intros Hi Hs. destruct i; try done; session_cases Hs; try (split_and!; done);
    split_and!; try done; cbn; apply sub_outputs_of_client.
Qed.

(** Everything the threads do to the client, in every run. *)
Record closing_inv (c : Client) (s : Session) (ins : list session_input) (outs : list session_output) : Prop := {
  ci_client : ss_client s = client_at c (ss_close s);
  ci_handlers : handlers outs = match ss_close s with CloseDone => closing_calls (transport c) | _ => [] end;
  ci_cancel : forall ctx, ~ In (OTryCancel ctx) outs;
  ci_returns : (close_returns outs + ss_closing s)%nat = close_calls ins;
  ci_waits : close_returns outs = 0%nat \/ ss_close s = CloseDone;
  ci_steps : (close_steps ins + close_left (ss_close s))%nat = 4%nat;
  ci_called : ss_close s <> CloseNot -> (0 < close_calls ins)%nat
}.

Lemma of_client_none o :
  List.filter of_client o = [] ->
  handlers o = [] /\ (forall ctx, ~ In (OTryCancel ctx) o) /\ close_returns o = 0%nat.
Proof.
  unfold handlers, close_returns. induction o as [|x o IH]; cbn; [split; [done|]; split; [by intros ctx []|done]|].
  destruct x; cbn; try done; intros Ho; destruct (IH Ho) as (-> & H2 & ->);
    (split; [done|]; split; [|done]; intros ctx [?|?]; [done|by eapply H2]).
Qed.

Lemma handlers_app o o' : handlers (o ++ o') = (handlers o ++ handlers o')%list.
Proof. apply omap_app. Qed.

Lemma close_returns_app o o' : close_returns (o ++ o') = (close_returns o + close_returns o')%nat.
Proof. unfold close_returns. by rewrite List.filter_app, length_app. Qed.

Lemma close_calls_app i i' : close_calls (i ++ i') = (close_calls i + close_calls i')%nat.
Proof. unfold close_calls. by rewrite List.filter_app, length_app. Qed.

Lemma close_steps_app i i' : close_steps (i ++ i') = (close_steps i + close_steps i')%nat.
Proof. unfold close_steps. by rewrite List.filter_app, length_app. Qed.

Lemma handlers_fired (cs : list Call) :
  let o := (fun ef => OHandler (fst ef) (snd ef)) <$> cs in
  handlers o = cs /\ (forall ctx, ~ In (OTryCancel ctx) o) /\ close_returns o = 0%nat.
Proof.
  unfold handlers, close_returns. induction cs as [|[e f] cs (H1 & H2 & H3)]; cbn; [by split; [|split; [intros ctx []|]]|].
  split; [by f_equal|]. split; [|done]. intros ctx [?|Hin]; [done|by eapply H2].
Qed.

Lemma closing_inv_step c s ins outs i s' o :
  fresh_client c -> closing_inv c s ins outs -> session_step s i = Some (s', o) ->
  closing_inv c s' (ins ++ [i]) (outs ++ o).
Proof.
  intros Hf [Hc Hh Ht Hr Hw Hn Hl] Hs.
  destruct (is_closing i) eqn:Hi.
  2: { destruct (other_step _ _ _ _ Hi Hs) as (E1 & E2 & E3 & _ & (Ho & Hcn & Hrn)%of_client_none).
    constructor; rewrite ?E1, ?E2, ?E3, ?handlers_app, ?close_returns_app, ?close_calls_app, ?close_steps_app, ?Ho, ?Hrn, ?app_nil_r; try done.
    - intros ctx [?|?]%in_app_iff; [by eapply Ht|by eapply Hcn].
    - destruct i; try done; cbn; lia.
    - rewrite Nat.add_0_r. done.
    - destruct i; try done; cbn; lia.
    - destruct i; try done; intros; specialize (Hl H); lia. }
  destruct Hf as (Hf1 & Hf2 & Hf3 & Hf4 & Hf5 & m & Hm & Hmr).
  destruct i as [| | | | | |alive| | | | |]; try done; unfold session_step, close_call, close_step in Hs;
    try rewrite Hc in Hs; destruct (ss_close s) eqn:Ep; cbn in Hs, Hn, Hw, Hc; rewrite ?Hm, ?Hf5 in Hs; cbn in Hs;
    repeat (case_match; try discriminate Hs); try discriminate Hs; injection Hs as <- <-.
  all: constructor; rewrite ?handlers_app, ?close_returns_app, ?Hh, ?app_nil_r, ?close_calls_app, ?close_steps_app; cbn;
     rewrite ?Hf1, ?Hf3, ?Hm; try done; try lia.
  all: try (left; lia); try (by right); try (by intros; lia); try (by intros _; assert (0 < close_calls ins)%nat by (by apply Hl); lia).
  all: try (unfold closing_machine, closing_calls; rewrite Hm; cbn;
            match goal with E : Transition_locked _ _ = _ |- _ => by rewrite E end).
  all: try (destruct Hw as [Hw|Hw]; [left; by rewrite Hw|done]).
  all: try (by rewrite <- Hm).
  all: try (intros ctx [?|?]%in_app_iff; [by eapply Ht|]).
  all: try match goal with E : Transition_locked _ _ = Some (?l, _) |- _ =>
         destruct (handlers_fired l) as (Fh & Fc & Fr) end.
  - rewrite Fh. unfold closing_calls. rewrite Hm. cbn. by case_match; simplify_eq.
  - by eapply Fc.
  - rewrite Fr. lia.
  - cbn in *. intuition congruence.
Qed.

(** ** After the flags *)

Lemma flags_kept s i s' o :
  session_step s i = Some (s', o) ->
  (closed (ss_client s) = true -> closed (ss_client s') = true) /\
  (closed_ (transport (ss_client s)) = true -> closed_ (transport (ss_client s')) = true).
Proof.
  intros Hs. destruct (is_closing i) eqn:Hi.
  - destruct i; try done; session_cases Hs; by split.
  - by destruct (other_step _ _ _ _ Hi Hs) as (-> & _).
Qed.

(** Calls that began when the client was closed. *)
Definition late_calls (n0 : nat) (s : Session) : Prop :=
  (n0 <= length (ss_calls s))%nat /\
  forall n oc, (n0 <= n)%nat -> ss_calls s !! n = Some oc -> oc_pc oc = AtClientTest \/ oc_pc oc = AtReturn.

Definition late_outputs (n0 : nat) (outs : list session_output) : Prop :=
  Forall (fun o => match o with
                   | OStub n => n < n0
                   | OReturned n st => n0 <= n -> st = kErrClientClosed
                   | _ => True
                   end)%nat outs.

Lemma late_outputs_sub n0 i o : late_outputs n0 (OSub i <$> o).
Proof. by apply Forall_fmap, Forall_true. Qed.

Lemma late_with_call n0 n opens p s :
  late_calls n0 s -> (n < n0)%nat \/ p = AtReturn -> late_calls n0 (with_call n opens p s).
Proof.
  intros [Hl Hc] Hp. split; cbn; [by rewrite length_insert|]. intros j oc Hj.
  destruct (decide (j = n)) as [->|Hne]; [|rewrite list_lookup_insert_ne by done; by apply Hc].
  intros Hi. destruct (decide (n < length (ss_calls s)))%nat as [Hlt|Hge].
  - rewrite list_lookup_insert_eq in Hi by done. injection Hi as <-. cbn. destruct Hp; [lia|auto].
  - rewrite list_insert_ge in Hi by lia. by apply (Hc n).
Qed.

(** A call, and anything else. *)
Lemma late_call_step n0 n i s s' o :
  closed (ss_client s) = true -> late_calls n0 s -> call_step n i s = Some (s', o) ->
  late_calls n0 s' /\ late_outputs n0 o.
Proof.
  intros Hcl Hl Hs. unfold call_step in Hs. destruct (ss_calls s !! n) as [[opens p]|] eqn:Hn; [|done].
  destruct (decide (n0 <= n)%nat) as [Hge|Hlt].
  - destruct (proj2 Hl n _ Hge Hn) as [E|E]; cbn in E; subst p; [|by destruct i].
    destruct i; try done. unfold call_test, Client_CheckClosed in Hs. rewrite Hcl in Hs. cbn in Hs.
    injection Hs as <- <-. split; [by apply late_with_call; auto|]. by repeat constructor.
  - assert (forall p', late_calls n0 (with_call n opens p' s)) as Hw by (intros; apply late_with_call; auto; lia).
    unfold call_test in Hs. destruct p, i; try done; repeat (case_match; try discriminate Hs);
      injection Hs as <- <-; (split; [by apply Hw|]); repeat constructor; lia.
Qed.

Lemma late_step n0 s i s' o :
  closed (ss_client s) = true -> late_calls n0 s -> session_step s i = Some (s', o) ->
  late_calls n0 s' /\ late_outputs n0 o.
Proof.
  intros Hcl Hl Hs. destruct i; cbn [session_step] in Hs; try by eapply late_call_step.
  - case_match; [done|]. injection Hs as <- <-. split; [|constructor]. destruct Hl as [Hl Hc].
    split; cbn; [rewrite length_app; lia|]. intros n oc Hn [Hi|[_ Hi]]%lookup_app_Some; [by apply (Hc n)|].
    apply list_lookup_singleton_Some in Hi as [_ <-]. by left.
  - unfold close_call in Hs. repeat (case_match; try discriminate Hs); injection Hs as <- <-; (split; [exact Hl|constructor]).
  - unfold close_step in Hs. repeat (case_match; try discriminate Hs); injection Hs as <- <-; (split; [exact Hl|]);
      try constructor; by apply Forall_fmap, Forall_true.
  - repeat (case_match; try discriminate Hs); injection Hs as <- <-; (split; [exact Hl|by repeat constructor]).
  - repeat (case_match; try discriminate Hs); injection Hs as <- <-; (split; [exact Hl|by repeat constructor]).
  - repeat (case_match; try discriminate Hs); injection Hs as <- <-; (split; [exact Hl|apply late_outputs_sub]).
  - unfold resub_test, sub_of_session in Hs. repeat (case_match; try discriminate Hs); injection Hs as <- <-;
      (split; [exact Hl|]); try apply late_outputs_sub; by repeat constructor.
  - unfold resub_stub, sub_of_session in Hs. step_cases Hs; (split; [exact Hl|]); try (constructor; [done|]); try apply late_outputs_sub; by repeat constructor.
Qed.
(** Past the transport's flag, the calls of the stub still to come are those of
    threads that are past the tests. *)
Definition in_stub (oc : OpCall) : nat := match oc_pc oc with AtStub => 1 | _ => 0 end.
Definition in_resub (u : OpenSub) : nat := if os_tested u then 1 else 0.

Lemma past_tests_call n opens p p' s :
  ss_calls s !! n = Some (mkOpCall opens p) ->
  (past_tests (with_call n opens p' s) + in_stub (mkOpCall opens p) =
     past_tests s + in_stub (mkOpCall opens p'))%nat.
Proof.
  intros Hn. pose proof (sum_list_with_insert in_stub _ n _ (mkOpCall opens p') Hn) as Hs.
  unfold past_tests. cbn [with_call ss_calls ss_subs]. unfold in_stub in *. lia.
Qed.

Lemma past_tests_sub i u u' s :
  ss_subs s !! i = Some u ->
  (past_tests (with_subs (<[i := u']> (ss_subs s)) s) + in_resub u = past_tests s + in_resub u')%nat.
Proof.
  intros Hi. pose proof (sum_list_with_insert in_resub _ i _ u' Hi) as Hs.
  unfold past_tests. cbn [with_subs ss_calls ss_subs]. unfold in_resub in *. lia.
Qed.

Lemma stub_calls_fmap {A} (f : A -> session_output) l :
  (forall a, match f a with OStub _ | OResubStub _ => False | _ => True end) -> stub_calls (f <$> l) = 0%nat.
Proof.
  intros Hf. unfold stub_calls. induction l as [|a l IH]; [done|]. cbn. specialize (Hf a). by destruct (f a).
Qed.

Lemma stub_calls_resub n i o : stub_calls (OResubStub n :: (OSub i <$> o)) = 1%nat.
Proof. transitivity (S (stub_calls (OSub i <$> o))); [done|]. by rewrite stub_calls_fmap. Qed.

Lemma stub_calls_app o o' : stub_calls (o ++ o') = (stub_calls o + stub_calls o')%nat.
Proof. unfold stub_calls. by rewrite List.filter_app, length_app. Qed.

Lemma past_tests_new k m s : past_tests (with_subs (ss_subs s ++ [mkOpenSub k m false])%list s) = past_tests s.
Proof. unfold past_tests. cbn [with_subs ss_calls ss_subs]. rewrite sum_list_with_app. cbn. lia. Qed.

Lemma past_tests_call_step n i s s' o :
  closed_ (transport (ss_client s)) = true -> call_step n i s = Some (s', o) ->
  (stub_calls o + past_tests s' <= past_tests s)%nat.
Proof.
  intros Hcl Hs. unfold call_step in Hs. destruct (ss_calls s !! n) as [[opens p]|] eqn:Hn; [|done].
  pose proof (fun p' => past_tests_call n opens p p' s Hn) as Hp. unfold call_test, CheckClosed in Hs.
  rewrite ?Hcl in Hs. destruct p, i; try done; repeat (case_match; try discriminate Hs); simplify_eq;
    try (match goal with |- context [with_subs ?l ?s'] => change (ss_subs s) with (ss_subs s') end; rewrite past_tests_new);
    match goal with |- context [with_call n ?opens ?p' s] => specialize (Hp p') end; cbn in *; lia.
Qed.

Lemma past_tests_step s i s' o :
  closed_ (transport (ss_client s)) = true -> session_step s i = Some (s', o) ->
  (stub_calls o + past_tests s' <= past_tests s)%nat.
Proof.
  intros Hcl Hs. destruct i as [opens|n|n st|n|n r| |alive| | |n x|n|n r]; cbn [session_step] in Hs;
    try by eapply past_tests_call_step.
  - case_match; [done|]. injection Hs as <- <-. unfold past_tests. cbn. rewrite sum_list_with_app. cbn. lia.
  - unfold close_call in Hs. repeat (case_match; try discriminate Hs); by injection Hs as <- <-.
  - unfold close_step in Hs. repeat (case_match; try discriminate Hs); injection Hs as <- <-; try done;
      by rewrite stub_calls_fmap.
  - repeat (case_match; try discriminate Hs); by injection Hs as <- <-.
  - repeat (case_match; try discriminate Hs); by injection Hs as <- <-.
  - destruct (ss_subs s !! n) as [u|] eqn:Hu; [|done]. pose proof (fun u' => past_tests_sub n u u' s Hu) as Hp.
    repeat (case_match; try discriminate Hs); injection Hs as <- <-. rewrite stub_calls_fmap by done.
    match goal with |- context [<[n := ?u']> _] => specialize (Hp u') end. unfold in_resub in *. cbn in *. lia.
  - unfold resub_test, sub_of_session in Hs. destruct (ss_subs s !! n) as [[k m []]|] eqn:Hu; try done.
    pose proof (fun u' => past_tests_sub n _ u' s Hu) as Hp. unfold CheckClosed in Hs. rewrite Hcl in Hs.
    repeat (case_match; try discriminate Hs); simplify_eq/=; [done|]. rewrite stub_calls_fmap by done.
    match goal with |- context [<[n := ?u']> _] => specialize (Hp u') end. cbn in *. lia.
  - unfold resub_stub, sub_of_session in Hs. destruct (ss_subs s !! n) as [[k m []]|] eqn:Hu; try done.
    pose proof (fun u' => past_tests_sub n _ u' s Hu) as Hp.
    repeat (case_match; try discriminate Hs; simplify_eq); [done|].
    rewrite stub_calls_resub.
    match goal with |- context [<[n := ?u']> _] => specialize (Hp u') end. cbn in *. lia.
Qed.

(** ** Each subscription by itself *)

Definition of_sub (i : nat) (outs : list session_output) : list sub_output :=
  omap (fun o => match o with OSub n x => if decide (n = i) then Some x else None | _ => None end) outs.

(** The steps of a subscription that are not answers of the transport. *)
Definition own_inputs (i : nat) (ins : list session_input) : list sub_input :=
  omap (fun x => match x with SSub n y => if decide (n = i) then Some y else None | _ => None end) ins.

Lemma of_sub_app i o o' : of_sub i (o ++ o') = (of_sub i o ++ of_sub i o')%list.
Proof. apply omap_app. Qed.

Lemma own_inputs_app i x x' : own_inputs i (x ++ x') = (own_inputs i x ++ own_inputs i x')%list.
Proof. apply omap_app. Qed.

Lemma of_sub_fmap i n o : of_sub i (OSub n <$> o) = if decide (n = i) then o else [].
Proof.
  unfold of_sub. induction o as [|x o IH]; cbn; [by case_decide|]. rewrite IH. by case_decide.
Qed.

Lemma of_sub_none {A} i (f : A -> session_output) l :
  (forall a, match f a with OSub _ _ => False | _ => True end) -> of_sub i (f <$> l) = [].
Proof. intros Hf. unfold of_sub. induction l as [|a l IH]; [done|]. cbn. specialize (Hf a). by destruct (f a). Qed.

(** What a step of the session is to its i-th subscription: nothing, a step of
    its own, or its beginning. *)
Definition sub_moves (i : nat) (x : session_input) (u u' : option OpenSub) (o : list sub_output) : Prop :=
  match u, u' with
  | Some u, Some u' =>
      os_kind u' = os_kind u /\
      ((os_impl u' = os_impl u /\ o = [] /\ own_inputs i [x] = []) \/
       exists y, sub_step (os_kind u) (os_impl u) y = Some (os_impl u', o) /\
         own_inputs i [x] = List.filter (fun y => negb (is_resubscribe y)) [y])
  | None, Some u' => o = [] /\ own_inputs i [x] = [] /\ exists h, os_impl u' = SubImpl_start h
  | None, None => o = [] /\ own_inputs i [x] = []
  | Some _, None => False
  end.

Lemma moves_same i x u : own_inputs i [x] = [] -> sub_moves i x u u [].
Proof. intros Hx. destruct u as [u|]; cbn; auto. Qed.

Lemma moves_insert s i n x u u' o :
  ss_subs s !! n = Some u -> os_kind u' = os_kind u ->
  (own_inputs i [x] = [] \/ n = i) -> sub_moves n x (Some u) (Some u') o ->
  sub_moves i x (ss_subs s !! i) (<[n := u']> (ss_subs s) !! i) (if decide (n = i) then o else []).
Proof.
  intros Hn Hk Hx Hm. destruct (decide (n = i)) as [->|Hne].
  - rewrite list_lookup_insert_eq by (by eapply lookup_lt_Some). by rewrite Hn.
  - rewrite list_lookup_insert_ne by done. apply moves_same. by destruct Hx.
Qed.

Lemma moves_append s i x k h :
  own_inputs i [x] = [] ->
  sub_moves i x (ss_subs s !! i) ((ss_subs s ++ [mkOpenSub k (SubImpl_start h) false])%list !! i) [].
Proof.
  intros Hx. destruct (decide (i < length (ss_subs s)))%nat as [Hlt|Hge].
  - rewrite lookup_app_l by done. by apply moves_same.
  - rewrite (lookup_ge_None_2 (ss_subs s)) by lia. rewrite lookup_app_r by lia.
    destruct (i - length (ss_subs s))%nat as [|j]; cbn; [|done]. split; [done|]. split; [done|]. by exists h.
Qed.

(** A step of the reader that the transport answers. *)
Lemma sub_of_session_moves s i n y x s' o :
  is_resubscribe y = true -> sub_of_session n y s = Some (s', o) -> (forall j, own_inputs j [x] = []) ->
  sub_moves i x (ss_subs s !! i) (ss_subs s' !! i) (of_sub i o).
Proof.
  intros Hy Hs Hx. unfold sub_of_session in Hs. destruct (ss_subs s !! n) as [u|] eqn:Hu; [|done].
  destruct (sub_step _ _ y) as [[m o']|] eqn:Hst; [|done]. injection Hs as <- <-. rewrite of_sub_fmap.
  cbn [with_subs ss_subs]. eapply moves_insert; [exact Hu|done|by left|].
  split; [done|]. right. exists y. split; [exact Hst|]. rewrite Hx. cbn. by rewrite Hy.
Qed.

(** The steps that are not a subscription's. *)
Definition is_sub_input (x : session_input) : bool :=
  match x with SSub _ _ | SResubTest _ | SResubStub _ _ => true | _ => false end.

Lemma others_subs s x s' o :
  is_sub_input x = false -> session_step s x = Some (s', o) ->
  (ss_subs s' = ss_subs s \/ exists k h, ss_subs s' = (ss_subs s ++ [mkOpenSub k (SubImpl_start h) false])%list) /\
  forall i, of_sub i o = [] /\ own_inputs i [x] = [].
Proof.
  intros Hx Hs. destruct x as [opens|n|n st|n|n r| |alive| | |n y|n|n r]; try done; cbn [session_step] in Hs.
  2-5: unfold call_step, call_test in Hs; repeat (case_match; try discriminate Hs); injection Hs as <- <-;
    (split; [first [by left|by right; eexists _, _]|by split]).
  - case_match; [done|]. injection Hs as <- <-. split; [by left|by split].
  - unfold close_call in Hs. repeat (case_match; try discriminate Hs); injection Hs as <- <-; (split; [by left|by split]).
  - unfold close_step in Hs. repeat (case_match; try discriminate Hs); injection Hs as <- <-;
      (split; [by left|]); (split; [|done]); try done; by apply of_sub_none.
  - repeat (case_match; try discriminate Hs); injection Hs as <- <-; (split; [by left|by split]).
  - repeat (case_match; try discriminate Hs); injection Hs as <- <-; (split; [by left|by split]).
Qed.

Lemma session_step_moves s x s' o i :
  session_step s x = Some (s', o) -> sub_moves i x (ss_subs s !! i) (ss_subs s' !! i) (of_sub i o).
Proof.
  intros Hs. destruct (is_sub_input x) eqn:Hx.
  2: { destruct (others_subs _ _ _ _ Hx Hs) as [Hsubs Hi]. destruct (Hi i) as [-> ?].
    destruct Hsubs as [->|(k & h & ->)]; [by apply moves_same|by apply moves_append]. }
  destruct x as [opens|n|n st|n|n r| |alive| | |n y|n|n r]; try done; cbn [session_step] in Hs.
  - destruct (ss_subs s !! n) as [u|] eqn:Hu; [|done]. destruct (_ || _) eqn:Hy; [done|].
    destruct (sub_step _ _ y) as [[m o']|] eqn:Hst; [|done]. injection Hs as <- <-. rewrite of_sub_fmap.
    apply orb_false_iff in Hy as [Hy _]. cbn [with_subs ss_subs]. eapply moves_insert; [exact Hu|done|..].
    + cbn. case_decide; auto.
    + cbn. split; [done|]. right. exists y. rewrite decide_True by done. by rewrite Hy.
  - unfold resub_test in Hs. destruct (ss_subs s !! n) as [[k m []]|] eqn:Hu; try done.
    destruct (pc m); try done. destruct (ss_freed s); [injection Hs as <- <-; by apply moves_same|].
    destruct (status_ok _); [|by eapply sub_of_session_moves; [|exact Hs|]]. injection Hs as <- <-. cbn [with_subs ss_subs].
    replace (of_sub i []) with (if decide (n = i) then @nil sub_output else []) by by case_decide.
    eapply moves_insert; [exact Hu|done|by left|]. cbn. auto.
  - unfold resub_stub in Hs. destruct (ss_subs s !! n) as [[k m []]|] eqn:Hu; try done.
    destruct (ss_freed s); [injection Hs as <- <-; by apply moves_same|].
    destruct (sub_of_session _ _ s) as [[s1 o1]|] eqn:Hs1; [|done]. injection Hs as <- <-.
    change (of_sub i (OResubStub n :: o1)) with (of_sub i o1). by eapply sub_of_session_moves; [|exact Hs1|].
Qed.

(** A subscription of a session is where a run of its own is. *)
Lemma session_projects c ins s outs i :
  session_run (Session_new c) ins = Some (s, outs) ->
  match ss_subs s !! i with
  | Some u => exists h own, sub_run (os_kind u) (SubImpl_start h) own = Some (os_impl u, of_sub i outs) /\
      List.filter (fun y => negb (is_resubscribe y)) own = own_inputs i ins
  | None => of_sub i outs = [] /\ own_inputs i ins = []
  end.
Proof.
  revert ins s outs. apply (run_ind session_step (Session_new c) (fun s ins outs =>
    match ss_subs s !! i with
    | Some u => exists h own, sub_run (os_kind u) (SubImpl_start h) own = Some (os_impl u, of_sub i outs) /\
        List.filter (fun y => negb (is_resubscribe y)) own = own_inputs i ins
    | None => of_sub i outs = [] /\ own_inputs i ins = []
    end)); [done|].
  intros s ins outs x s' o _ Hp Hs. pose proof (session_step_moves s x s' o i Hs) as Hm.
  rewrite of_sub_app, own_inputs_app. destruct (ss_subs s !! i) as [u|], (ss_subs s' !! i) as [u'|]; try done.
  - destruct Hp as (h & own & Hr & Hf), Hm as (Hk & [(Hi & Ho & Hx)|(y & Hy & Hx)]); rewrite Hk, Hx.
    + exists h, own. by rewrite Hi, Ho, !app_nil_r.
    + exists h, (own ++ [y])%list. rewrite List.filter_app, Hf. split; [|done].
      unfold sub_run in *. rewrite run_app, Hr. cbn [run]. by rewrite Hy, app_nil_r.
  - destruct Hp as [-> ->], Hm as (-> & -> & h & Hh). exists h, []. by rewrite Hh.
  - destruct Hp as [-> ->], Hm as [-> ->]. done.
Qed.

(** A reader that lost its stream, in a closed transport. *)
Definition lost_pc (p : reader_pc (Msg := Msg)) : bool :=
  match p with AtOuter | AtRead | AtMessage _ | AtFinish => false | _ => true end.

Definition lost (i : nat) (s : Session) : Prop :=
  exists u, ss_subs s !! i = Some u /\ lost_pc (pc (os_impl u)) = true /\ os_tested u = false.

Lemma lost_sub_step (k : ReaderKind) (m : SubImpl) y m' o :
  lost_pc (pc m) = true -> (forall h, y <> IResubscribe (SValue h)) -> sub_step k m y = Some (m', o) ->
  lost_pc (pc m') = true /\ delivered (o : list sub_output) = [].
Proof.
  intros Hl Hy Hs. destruct m as [d c r st p j]. cbn in Hl. destruct y, p; try done; cbn in Hs;
    unfold Cancel, JoinReader, goto, errors_of, SafeInvoke_null in Hs; step_cases Hs; try done; by exfalso; eapply Hy.
Qed.

Lemma lost_insert i n s u' (o : list sub_output) :
  lost i s -> (n = i -> lost_pc (pc (os_impl u')) = true /\ os_tested u' = false /\ delivered (o : list sub_output) = []) ->
  lost i (with_subs (<[n := u']> (ss_subs s)) s) /\ delivered (of_sub i (OSub n <$> o)) = [].
Proof.
  intros (u & Hu & Hp & Ht) Hn. rewrite of_sub_fmap. unfold lost. cbn [with_subs ss_subs].
  destruct (decide (n = i)) as [->|Hne].
  - destruct (Hn eq_refl) as (H1 & H2 & H3). rewrite list_lookup_insert_eq by (by eapply lookup_lt_Some). eauto.
  - rewrite list_lookup_insert_ne by done. eauto.
Qed.

Lemma lost_step i s x s' o :
  closed_ (transport (ss_client s)) = true -> lost i s -> session_step s x = Some (s', o) ->
  lost i s' /\ delivered (of_sub i o) = [].
Proof.
  intros Hcl Hl Hs. destruct (is_sub_input x) eqn:Hx.
  2: { destruct (others_subs _ _ _ _ Hx Hs) as [Hsubs Hi]. destruct (Hi i) as [-> _]. split; [|done].
    destruct Hl as (u & Hu & Hp & Ht). exists u. split; [|done].
    destruct Hsubs as [->|(k & h & ->)]; [done|]. by apply lookup_app_l_Some. }
  destruct x as [opens|n|n st|n|n r| |alive| | |n y|n|n r]; try done; cbn [session_step] in Hs.
  - destruct (ss_subs s !! n) as [u|] eqn:Hu; [|done]. destruct (_ || _) eqn:Hy; [done|].
    apply orb_false_iff in Hy as [Hy _].
    destruct (sub_step _ _ y) as [[m o']|] eqn:Hst; [|done]. injection Hs as <- <-.
    apply lost_insert; [done|]. intros ->. destruct Hl as (u' & Hu' & Hp & Ht). rewrite Hu in Hu'. injection Hu' as <-.
    assert (forall h, y <> IResubscribe (SValue h)) as Hv by by intros h ->.
    destruct (lost_sub_step _ _ _ _ _ Hp Hv Hst) as [Hp' Ho]. by split; [|split].
  - unfold resub_test, sub_of_session, CheckClosed in Hs. rewrite Hcl in Hs.
    destruct (ss_subs s !! n) as [[k m []]|] eqn:Hu; try done. destruct (pc m) eqn:Hpc; try done.
    destruct (ss_freed s); [by injection Hs as <- <-|]. cbn in Hs. rewrite Hpc in Hs. cbn in Hs.
    injection Hs as <- <-. apply (lost_insert i n s _ [Resubscribed]); [done|]. by intros ->.
  - unfold resub_stub, sub_of_session in Hs. destruct (ss_subs s !! n) as [[k m []]|] eqn:Hu; try done.
    destruct (ss_freed s); [by injection Hs as <- <-|].
    destruct (sub_step _ _ _) as [[m' o']|] eqn:Hst; [|done]. injection Hs as <- <-.
    change (of_sub i (OResubStub n :: ?l)) with (of_sub i l). apply lost_insert; [done|]. intros ->.
    destruct Hl as (u' & Hu' & _ & Ht). rewrite Hu in Hu'. by injection Hu' as <-.
Qed.

(** A client destroyed after its subscriptions have ended. *)
Definition exited (u : OpenSub) : Prop := pc (os_impl u) = AtExit /\ os_tested u = false.

Definition quiesced (s : Session) : Prop :=
  ss_freed s = true /\ forallb idle_call (ss_calls s) = true /\ ss_close s = CloseDone /\ Forall exited (ss_subs s).

Definition used_after_free (outs : list session_output) : bool :=
  existsb (fun o => match o with OUseAfterFree _ => true | _ => false end) outs.

Lemma used_after_free_sub i o : used_after_free (OSub i <$> o) = false.
Proof. by induction o. Qed.

Lemma quiesced_step s x s' o :
  quiesced s -> session_step s x = Some (s', o) -> quiesced s' /\ used_after_free o = false.
Proof.
  intros (Hf & Hi & Hd & He) Hs. destruct x as [opens|n|n st|n|n r| |alive| | |n y|n|n r]; cbn [session_step] in Hs;
    rewrite ?Hf in Hs; try done.
  1-4: unfold call_step in Hs; destruct (ss_calls s !! n) as [[op p]|] eqn:Hn; [|done];
    rewrite forallb_forall in Hi; specialize (Hi _ (proj1 (list_elem_of_In _ _) (list_elem_of_lookup_2 _ _ _ Hn)));
    by destruct p.
  - unfold close_step in Hs. by rewrite Hd in Hs.
  - rewrite Hd in Hs. destruct (ss_closing s); [done|]. injection Hs as <- <-. by split.
  - rewrite Hd in Hs. by destruct (ss_closing s).
  - destruct (ss_subs s !! n) as [u|] eqn:Hu; [|done]. destruct (_ || _); [done|].
    destruct (sub_step _ _ y) as [[m o']|] eqn:Hst; [|done]. injection Hs as <- <-.
    split; [|apply used_after_free_sub]. split_and!; try done. apply Forall_insert; [done|].
    destruct (Forall_lookup_1 _ _ _ _ He Hu) as [Hp Ht]. split; [|done]. cbn.
    destruct u as [k [d c r st p j] t]. cbn in *. subst p.
    destruct y; cbn in Hst; try done; unfold Cancel, JoinReader in Hst; step_cases Hst; done.
  - unfold resub_test in Hs. destruct (ss_subs s !! n) as [[k m []]|] eqn:Hu; try done.
    destruct (Forall_lookup_1 _ _ _ _ He Hu) as [Hp _]. cbn in Hp. by rewrite Hp in Hs.
  - unfold resub_stub in Hs. destruct (ss_subs s !! n) as [[k m []]|] eqn:Hu; try done.
    by destruct (Forall_lookup_1 _ _ _ _ He Hu) as [_ Ht].
Qed.

(** *** In every run *)

Lemma closing_run c ins s outs :
  fresh_client c -> session_run (Session_new c) ins = Some (s, outs) -> closing_inv c s ins outs.
Proof.
  intros Hf. revert ins s outs. apply (run_ind session_step (Session_new c) (closing_inv c)).
  - by constructor; auto.
  - intros s ins outs i s' o _ Hi Hs. by eapply closing_inv_step.
Qed.

Lemma late_run n0 ins : forall s s' outs,
  closed (ss_client s) = true -> late_calls n0 s -> session_run s ins = Some (s', outs) -> late_outputs n0 outs.
Proof.
  induction ins as [|i ins IH]; intros s s' outs Hc Hl Hr; unfold session_run in *; cbn [run] in Hr.
  - injection Hr as _ <-. constructor.
  - destruct (session_step s i) as [[s1 o1]|] eqn:Hs; [|done].
    destruct (run session_step s1 ins) as [[s2 o2]|] eqn:Hr1; [|done]. injection Hr as <- <-.
    destruct (late_step _ _ _ _ _ Hc Hl Hs) as [Hl1 Ho1]. apply Forall_app. split; [done|].
    eapply IH; [|exact Hl1|exact Hr1]. by apply (flags_kept _ _ _ _ Hs).
Qed.

Lemma past_tests_run ins : forall s s' outs,
  closed_ (transport (ss_client s)) = true -> session_run s ins = Some (s', outs) ->
  (stub_calls outs + past_tests s' <= past_tests s)%nat.
Proof.
  induction ins as [|i ins IH]; intros s s' outs Hc Hr; unfold session_run in *; cbn [run] in Hr.
  - injection Hr as <- <-. cbn. lia.
  - destruct (session_step s i) as [[s1 o1]|] eqn:Hs; [|done].
    destruct (run session_step s1 ins) as [[s2 o2]|] eqn:Hr1; [|done]. injection Hr as <- <-.
    pose proof (past_tests_step _ _ _ _ Hc Hs). rewrite stub_calls_app.
    pose proof (IH s1 s2 o2 (proj2 (flags_kept _ _ _ _ Hs) Hc) Hr1). lia.
Qed.

Lemma lost_run i ins : forall s s' outs,
  closed_ (transport (ss_client s)) = true -> lost i s -> session_run s ins = Some (s', outs) ->
  lost i s' /\ delivered (of_sub i outs) = [].
Proof.
  induction ins as [|x ins IH]; intros s s' outs Hc Hl Hr; unfold session_run in *; cbn [run] in Hr.
  - by injection Hr as <- <-.
  - destruct (session_step s x) as [[s1 o1]|] eqn:Hs; [|done].
    destruct (run session_step s1 ins) as [[s2 o2]|] eqn:Hr1; [|done]. injection Hr as <- <-.
    destruct (lost_step _ _ _ _ _ Hc Hl Hs) as [Hl1 Ho1].
    destruct (IH s1 s2 o2 (proj2 (flags_kept _ _ _ _ Hs) Hc) Hl1 Hr1) as [Hl2 Ho2]. split; [done|].
    unfold delivered in *. by rewrite of_sub_app, omap_app, Ho1, Ho2.
Qed.

Lemma quiesced_run ins : forall s s' outs,
  quiesced s -> session_run s ins = Some (s', outs) -> used_after_free outs = false.
Proof.
  induction ins as [|x ins IH]; intros s s' outs Hq Hr; unfold session_run in *; cbn [run] in Hr.
  - by injection Hr as _ <-.
  - destruct (session_step s x) as [[s1 o1]|] eqn:Hs; [|done].
    destruct (run session_step s1 ins) as [[s2 o2]|] eqn:Hr1; [|done]. injection Hr as <- <-.
    destruct (quiesced_step _ _ _ _ Hq Hs) as [Hq1 Ho1]. unfold used_after_free in *.
    rewrite existsb_app, Ho1. cbn. by eapply IH.
Qed.

End session.

(** ** The sequential client *)

Section sequential.
Context {W : Type} `{Grpc W, Providers W, Callbacks W, FileSystem W, Random W, Contexts W}.

(** What [Create] returns is a client nobody has closed. *)
Lemma created_fresh (o : ClientOptions) (w w' : W) (c : Client) :
  Client_Create o w = (SValue c, w') -> fresh_client c.
Proof.
  intros Hc. destruct (with_client_id o w) as [o1 w1] eqn:Eo. rewrite (Client_Create_eq _ o w o1 w1 Eo) in Hc.
  destruct (status_ok (Validate o1)); [|done]. pose proof (GrpcTransport_Create_spec _ o1 w1) as [Ht _].
  destruct (GrpcTransport_Create o1 w1) as [[t|] w2]; [|done]. destruct Ht as (H1' & H2' & _ & H3').
  assert (c = assembled o1 t) as ->.
  { destruct (check_connection_ o1); [|by simplify_eq]. by destruct (Transport_Ping t w2) as [[] ?]; simplify_eq. }
  unfold fresh_client, assembled, wire_transport. cbn. rewrite H1', H2', H3'. split_and!; try done.
  eexists. split; [done|]. by rewrite (proj1 (wire_handlers_spec _ _)).
Qed.

(** [Close] without another thread makes the stages one after the other. *)
Lemma Client_Close_stages (c : Client) (w : W) :
  fresh_client c ->
  Client_Close c w = ((StatusOk, client_at c CloseDone), snd (fire_all (closing_calls (transport c)) w)).
Proof.
  intros (H1' & H2' & H3' & H4' & H5' & m & Hm & Hr). unfold Client_Close, DrainAll, GrpcTransport_Close. rewrite H2', H3'.
  cbn. unfold bind, ret. cbn. rewrite H5', Hm. unfold Transition, client_at, closing_calls, closing_machine. rewrite Hm. cbn.
  destruct (Transition_locked kClosed m) as [[cs m']|]; [|done]. unfold bind, ret. by destruct (fire_all cs w) as [[] w'].
Qed.

End sequential.

(** ** The contracts *)

(** C36: closing a client that other threads use. For a client that was created,
    in every interleaving of calls of its operations, calls of [Close], the
    readers of its subscriptions and its destructor: the body of [Close] runs
    once, in four steps each of which is always possible, invokes exactly the
    closed handler and cancels nothing; a call of [Close] returns only when the
    body is over, and then the client is what a [Close] without other threads
    makes of it; an operation called once the client's flag is set returns the
    client-closed error and makes no call; and once the transport's flag is
    set the calls still to come, of operations and of readers that subscribe
    again, are at most those already past their tests. *)
Theorem client_close_is_final {Msg Recv W : Type} `{Callbacks W, Contexts W} (c : Client)
    (ins : list (session_input (Msg := Msg) (Recv := Recv))) (s : Session) (outs : list session_output) :
  fresh_client c -> session_run (Session_new c) ins = Some (s, outs) ->
  (handlers outs = match ss_close s with CloseDone => closing_calls (transport c) | _ => [] end /\
   forall ctx, ~ In (OTryCancel ctx) outs) /\
  ((close_returns outs + ss_closing s)%nat = close_calls ins /\
   (0 < close_returns outs -> ss_close s = CloseDone)%nat /\ (close_steps ins <= 4)%nat /\
   (ss_close s <> CloseNot -> ss_close s <> CloseDone -> forall alive, is_Some (session_step s (SCloseStep alive)))) /\
  (ss_close s = CloseDone -> forall w : W,
     Client_Close c w = ((StatusOk, ss_client s), snd (fire_all (handlers outs) w))) /\
  (closed (ss_client s) = true -> forall ins2 s2 outs2, session_run s ins2 = Some (s2, outs2) ->
     forall n, (length (ss_calls s) <= n)%nat ->
       ~ In (OStub n) outs2 /\ forall st, In (OReturned n st) outs2 -> st = kErrClientClosed) /\
  (closed_ (transport (ss_client s)) = true -> forall ins2 s2 outs2, session_run s ins2 = Some (s2, outs2) ->
     stub_calls outs2 <= past_tests s)%nat.
Proof.
  intros Hf Hr. destruct (closing_run _ _ _ _ Hf Hr) as [Hc Hh Ht Hcr Hw Hn _]. split_and!; try done.
  - intros Hlt. destruct Hw; [lia|done].
  - lia.
  - intros H1' H2' alive. cbn. unfold close_step. destruct (ss_close s); try done; repeat case_match; by eexists.
  - intros Hd w. rewrite Client_Close_stages by done. by rewrite Hc, Hh, Hd.
  - intros Hcl ins2 s2 outs2 Hr2 n Hlen. assert (late_outputs (length (ss_calls s)) outs2) as Hl.
    { eapply late_run; [exact Hcl| |exact Hr2]. split; [done|]. intros j oc Hj Hi. apply lookup_lt_Some in Hi. lia. }
    unfold late_outputs in Hl. rewrite List.Forall_forall in Hl. split.
    + intros Hin. specialize (Hl _ Hin). cbn in Hl. lia.
    + intros st Hin. by apply (Hl _ Hin).
  - intros Hcl ins2 s2 outs2 Hr2. pose proof (past_tests_run _ _ _ _ Hcl Hr2). lia.
Qed.

(** Concrete sessions: a subscription, [Close] from start to end, and what the
    reader does then. *)
Definition open_client : Client :=
  let o := ClientOptions_default in
  mkClient (mkGrpcTransport (Some 0%nat) o false false
              (Some (mkStateMachine kReady false None None None None (Some 9%nat)))) o false false [].

Definition commands_session : Type := session_input (Msg := pb_Request) (Recv := CommandReceive).

Definition subscribed_closed : list commands_session :=
  [SCall (Some (commands_reader true true)); STest 0; STest 0; SStub 0; SAnswer 0 (SValue 7%nat);
   SClose; SCloseStep (fun _ => true); SCloseStep (fun _ => true); SCloseStep (fun _ => true);
   SCloseStep (fun _ => true); SCloseReturn].

Definition delivery_after_close : list commands_session :=
  [SSub 0 ITest; SSub 0 (IRead (Some (demo_request "1" ReqCommand))); SSub 0 (IInvoke Returned)].

Definition reconnect_after_free : list commands_session :=
  [SDestroy; SSub 0 ITest; SSub 0 (IRead None); SSub 0 (IFinish GrpcStatusOk); SSub 0 ITest; SSub 0 ITest;
   SSub 0 IWake; SSub 0 ITest; SResubTest 0].

(** What happens there: a delivery after [Close], a use after free. *)
Definition outlives : bool :=
  match session_run (Session_new open_client) subscribed_closed with
  | Some (s, outs) =>
      (0 <? close_returns outs)%nat &&
      match session_run s delivery_after_close, session_run s reconnect_after_free with
      | Some (_, outs1), Some (_, outs2) =>
          negb (bool_decide (delivered (of_sub 0 outs1) = [])) && used_after_free outs2
      | _, _ => false
      end
  | None => false
  end.

Lemma outlives_true : outlives = true.
Proof. by vm_compute. Qed.

(** C37: a subscription lives by itself, whatever the client does. In every
    session each subscription is where a run of its own reader and owner is,
    so what is proved of those holds of it, and its reader leaves only when its
    owner cancels; [Close] ends none, and after it messages are still passed to
    the callback. Once the transport is closed a reader whose stream has ended
    delivers nothing more. A client destroyed after the readers have left is
    used by none of them; destroyed before, a reader that tries to subscribe
    again uses it. *)
Theorem subscriptions_outlive_close :
  (forall {Msg Recv} c ins (s : Session (Msg := Msg) (Recv := Recv)) outs,
     session_run (Session_new c) ins = Some (s, outs) ->
     (forall i u, ss_subs s !! i = Some u ->
        (exists h own, sub_run (os_kind u) (SubImpl_start h) own = Some (os_impl u, of_sub i outs) /\
           List.filter (fun y => negb (is_resubscribe y)) own = own_inputs i ins) /\
        (pc (os_impl u) = AtExit -> In (SSub i ICancel) ins)) /\
     (closed_ (transport (ss_client s)) = true -> forall i, lost i s ->
        forall ins2 s2 outs2, session_run s ins2 = Some (s2, outs2) -> delivered (of_sub i outs2) = []) /\
     (Forall exited (ss_subs s) -> forall ins2 s2 outs2,
        session_run s (SDestroy :: ins2) = Some (s2, outs2) -> used_after_free outs2 = false)) /\
  (exists s s1 s2 outs outs1 outs2, session_run (Session_new open_client) subscribed_closed = Some (s, outs) /\
     (0 < close_returns outs)%nat /\
     session_run s delivery_after_close = Some (s1, outs1) /\ delivered (of_sub 0 outs1) <> [] /\
     session_run s reconnect_after_free = Some (s2, outs2) /\ used_after_free outs2 = true).
Proof.
  split.
  - intros Msg Recv c ins s outs Hr. split; [|split].
    + intros i u Hi. pose proof (session_projects c ins s outs i Hr) as Hp. rewrite Hi in Hp.
      split; [done|]. destruct Hp as (h & own & Hown & Hf). intros Hx.
      destruct (sub_run_owner _ _ _ _ _ Hown) as [Hd _]. pose proof (sub_run_leaves_done _ _ _ _ _ Hown) as Hl.
      unfold leaves_done in Hl. rewrite Hx in Hl. apply Hd in Hl.
      assert (In ICancel (own_inputs i ins)) as Hin by (rewrite <- Hf; by apply filter_In).
      unfold own_inputs in Hin. apply list_elem_of_In, list_elem_of_omap in Hin as (x & Hxin & Hx').
      apply list_elem_of_In. destruct x; try done. case_decide; [|done]. by simplify_eq.
    + intros Hc i Hl ins2 s2 outs2 Hr2. by apply (lost_run i ins2 s s2 outs2).
    + intros He ins2 s2 outs2 Hr2. unfold session_run in Hr2. cbn [run] in Hr2.
      destruct (session_step s SDestroy) as [[s1 o1]|] eqn:Hs; [|done].
      destruct (run session_step s1 ins2) as [[s3 o3]|] eqn:Hr3; [|done]. injection Hr2 as <- <-.
      cbn in Hs. destruct (ss_close s), (ss_closing s); try done. destruct (ss_freed s); [done|].
      destruct (forallb idle_call (ss_calls s)) eqn:Hi; [|done]. injection Hs as <- <-. cbn.
      eapply quiesced_run; [|exact Hr3]. by split_and!.
  - pose proof outlives_true as Ho. unfold outlives in Ho.
    destruct (session_run (Session_new open_client) subscribed_closed) as [[s outs]|]; [|done].
    apply andb_true_iff in Ho as [Hc Ho]. apply Nat.ltb_lt in Hc.
    destruct (session_run s delivery_after_close) as [[s1 outs1]|] eqn:E1; [|done].
    destruct (session_run s reconnect_after_free) as [[s2 outs2]|] eqn:E2; [|done].
    apply andb_true_iff in Ho as [Hd Ho]. apply negb_true_iff, bool_decide_eq_false in Hd.
    exists s, s1, s2, outs, outs1, outs2. by split_and!.
Qed.

Definition all_closed (s : Session (Msg := pb_Request) (Recv := CommandReceive)) : bool :=
  match ss_close s with CloseDone => closed_ (transport (ss_client s)) && (past_tests s =? 0)%nat | _ => false end.

Lemma client_close_is_final_witness :
  exists s outs, session_run (Session_new open_client) subscribed_closed = Some (s, outs) /\
    handlers outs = [(OnClosed, 9%nat)] /\
    (forall ins2 s2 outs2, session_run s ins2 = Some (s2, outs2) -> stub_calls outs2 <= 0)%nat.
Proof.
  assert (match session_run (Session_new open_client) subscribed_closed with
          | Some (s, _) => all_closed s | None => false end = true) as Ha by (vm_compute; reflexivity).
  destruct (session_run (Session_new open_client) subscribed_closed) as [[s outs]|] eqn:E; [|discriminate Ha].
  exists s, outs. split; [reflexivity|].
  destruct (@client_close_is_final pb_Request CommandReceive unit (fun _ _ => ret tt)
    {| lock_context := fun _ => ret true; TryCancel := fun _ => ret tt |} open_client subscribed_closed s outs)
    as ((Hh & _) & _ & _ & _ & Hg).
  - repeat split. eexists. split; reflexivity.
  - exact E.
  - unfold all_closed in Ha. destruct (ss_close s); try discriminate Ha. apply andb_true_iff in Ha as [Hc Hp].
    apply Nat.eqb_eq in Hp. rewrite Hp in Hg. split; [rewrite Hh; reflexivity|exact (Hg Hc)].
Defined.
