(* ===== verification/StreamHandle.v ===== *)
(** * Stream handles

    Models src/internal/stream_handle_impl.h, the upstream half of
    src/internal/queue_stream_impl.h and the operations of EventStreamHandle,
    EventStoreStreamHandle (src/client_events.cc, client_events_store.cc) and
    QueueUpstreamHandle (src/client_queues_stream.cc).  The three classes are
    the same automaton of a reader thread, the senders that hold [write_mu]
    and the owner; what differs is a [HandleKind]. *)

From Stdlib Require Import ZArith Lia Ascii String Floats.
From S2P Require Import Prelude Automaton Status ErrorMapper Random Uuid Double.
From S2P Require Import Backoff StateMachine Auth Tls ClientOptions Messages Proto.
From S2P Require Import Converter Transport Calls Client Callback.

Local Open Scope string_scope.
Local Open Scope Z_scope.
Local Open Scope kubemq_scope.

(** ** Opening, and what [Send] writes *)

Record StreamHandle := mkStreamHandle {
  sh_stream : nat;
  sh_client_id : string;       (* opts.client_id() *)
  sh_on_result : bool;
  sh_on_error : bool
}.

Section open.
Context {W : Type} `{Grpc W, Providers W, Random W}.

Definition SendEventStream (c : Client) (on_error : bool) : M W (StatusOr StreamHandle) :=
  check? ret (Client_CheckClosed c) in
  let? stream := OpenEventStream (transport c) in
  ret (SValue (mkStreamHandle stream (client_id_ (opts c)) false on_error)).

Definition SendEventStoreStream (c : Client) (on_result on_error : bool) : M W (StatusOr StreamHandle) :=
  check? ret (Client_CheckClosed c) in
  let? stream := OpenEventStream (transport c) in
  ret (SValue (mkStreamHandle stream (client_id_ (opts c)) on_result on_error)).

Definition QueueUpstream (c : Client) (on_result on_error : bool) : M W (StatusOr StreamHandle) :=
  check? ret (Client_CheckClosed c) in
  let? stream := OpenQueueUpstream (transport c) in
  ret (SValue (mkStreamHandle stream (client_id_ (opts c)) on_result on_error)).

(** The message of each [Send], made before the lock is taken. *)
Definition event_stream_message (h : StreamHandle) (event : Event) : M W pb_Event :=
  let! id := id_or_uuid (ev_id event) in
  ret (mk_pb_Event id (if str_empty (ev_client_id event) then sh_client_id h else ev_client_id event)
         (ev_channel event) (ev_metadata event) (ev_body event) false (copy_entries (ev_tags event) ∅)).

Definition event_store_stream_message (h : StreamHandle) (event : EventStore) : M W pb_Event :=
  let! id := id_or_uuid (es_id event) in
  ret (mk_pb_Event id (if str_empty (es_client_id event) then sh_client_id h else es_client_id event)
         (es_channel event) (es_metadata event) (es_body event) true (copy_entries (es_tags event) ∅)).

Definition upstream_message (h : StreamHandle) (request_id : string) (messages : list QueueMessage)
    : M W pb_QueuesUpstreamRequest :=
  let! id := id_or_uuid request_id in
  ret (QueueUpstreamRequestToProto id messages (sh_client_id h)).

End open.

(** ** The automaton *)

Section handle.
Context {Req Resp Res : Type}.

Record HandleKind := mkHandleKind {
  result_of : Resp -> Res;
  tracks_results : bool;           (* EventStreamHandle ignores them *)
  send_operation : string;
  closed_text : string;
  write_text : string;
  result_operation : string;
  finish_operation : string
}.

(** The reader thread. *)
Inductive h_pc := HAtRead | HAtResult (r : Resp) | HAtDone | HAtFinish | HAtReport (st : GrpcStatus) | HAtExit.

(** Who holds [write_mu]. *)
Inductive h_lock := HFree | HSending (m : Req) (channel : string) | HClosing.

(** The owner inside [Close]. *)
Inductive h_close := CIdle | CWritesDone | CJoin | CReturned.

Inductive h_life := Alive | Destroyed | Terminated.

Record HandleImpl := mkHandleImpl {
  h_done : bool;
  h_lock_ : h_lock;
  h_pc_ : h_pc;
  h_close_ : h_close;
  h_joined : bool;
  h_result : bool;                 (* on_result is set *)
  h_error : bool;                  (* on_error is set *)
  h_life_ : h_life
}.

Inductive h_input :=
  | HRead (r : option Resp)             (* stream->Read *)
  | HResultDone (o : Outcome)           (* the callback on a result, under callback_mu *)
  | HSetDone                            (* done.store(true) *)
  | HFinish (st : GrpcStatus)           (* stream->Finish() *)
  | HReport (o : Outcome)               (* on_error on a failed finish *)
  | HSend (m : Req) (channel : string)  (* Send: lock, test done *)
  | HWrite (ok : bool)                  (* stream->Write *)
  | HClose                              (* Close: lock, exchange done *)
  | HWritesDone                         (* stream->WritesDone(), unlock *)
  | HCloseJoin                          (* JoinReader inside Close returns *)
  | HWait                               (* Wait returns *)
  | HSetOnResult (set : bool)
  | HSetOnError (set : bool)
  | HDestroy.                           (* the members are destroyed, after Close *)

Inductive h_output :=
  | OResult (r : Res)
  | OError (s : Status)
  | OSendReturns (s : Status)
  | OWrote (m : Req)
  | OWritesDone
  | OTerminate.

Definition at_pc (p : h_pc) (s : HandleImpl) : HandleImpl :=
  mkHandleImpl (h_done s) (h_lock_ s) p (h_close_ s) (h_joined s) (h_result s) (h_error s) (h_life_ s).

Definition with_lock (d : bool) (l : h_lock) (c : h_close) (s : HandleImpl) : HandleImpl :=
  mkHandleImpl d l (h_pc_ s) c (h_joined s) (h_result s) (h_error s) (h_life_ s).

(** [JoinReader]: returns when the thread is gone, or at once after a join. *)
Definition h_join (c : h_close) (s : HandleImpl) : option HandleImpl :=
  let s' := mkHandleImpl (h_done s) (h_lock_ s) (h_pc_ s) c true (h_result s) (h_error s) (h_life_ s) in
  match h_pc_ s with HAtExit => Some s' | _ => if h_joined s then Some s' else None end.

Definition error_outputs (e : option Status) : list h_output :=
  match e with Some st => [OError st] | None => [] end.

(** A step of the reader thread ([StartReader]). *)
Definition reader_step (k : HandleKind) (s : HandleImpl) (i : h_input)
    : option (HandleImpl * list h_output) :=
  match i, h_pc_ s with
  | HRead (Some r), HAtRead => Some (at_pc (if tracks_results k then HAtResult r else HAtRead) s, [])
  | HRead None, HAtRead => Some (at_pc HAtDone s, [])
  | HResultDone o, HAtResult r =>
      if h_result s then
        Some (at_pc HAtRead s,
              OResult (result_of k r) :: error_outputs (SafeInvoke o (h_error s) (result_operation k)))
      else if returned o then Some (at_pc HAtRead s, []) else None
  | HSetDone, HAtDone => Some (at_pc HAtFinish (with_lock true (h_lock_ s) (h_close_ s) s), [])
  | HFinish st, HAtFinish => Some (at_pc (if grpc_ok st then HAtExit else HAtReport st) s, [])
  | HReport o, HAtReport st =>
      if h_error s then
        Some (at_pc HAtExit s,
              OError (FromGrpcStatus st (finish_operation k) "" "")
              :: error_outputs (SafeInvoke_null o))
      else if returned o then Some (at_pc HAtExit s, []) else None
  | _, _ => None
  end.

(** A step of a sender, the owner or the destructor. *)
Definition owner_step (k : HandleKind) (s : HandleImpl) (i : h_input)
    : option (HandleImpl * list h_output) :=
  match i, h_lock_ s, h_close_ s with
  | HSend m channel, HFree, _ =>
      if h_done s then
        Some (s, [OSendReturns (mkStatus kFatal (closed_text k) (send_operation k) channel "")])
      else Some (with_lock false (HSending m channel) (h_close_ s) s, [])
  | HWrite ok, HSending m channel, _ =>
      Some (with_lock (h_done s) HFree (h_close_ s) s,
            [OWrote m; OSendReturns (if ok then StatusOk
                                     else mkStatus kTransient (write_text k) (send_operation k) channel "")])
  | HClose, HFree, (CIdle | CReturned) =>
      if h_done s then Some (with_lock true HFree CReturned s, [])
      else Some (with_lock true HClosing CWritesDone s, [])
  | HWritesDone, HClosing, CWritesDone => Some (with_lock (h_done s) HFree CJoin s, [OWritesDone])
  | HCloseJoin, _, CJoin => match h_join CReturned s with Some s' => Some (s', []) | None => None end
  | HWait, _, c => match h_join c s with Some s' => Some (s', []) | None => None end
  | HSetOnResult b, _, _ =>
      Some (mkHandleImpl (h_done s) (h_lock_ s) (h_pc_ s) (h_close_ s) (h_joined s) b (h_error s)
              (h_life_ s), [])
  | HSetOnError b, _, _ =>
      Some (mkHandleImpl (h_done s) (h_lock_ s) (h_pc_ s) (h_close_ s) (h_joined s) (h_result s) b
              (h_life_ s), [])
  | HDestroy, HFree, CReturned =>
      Some (mkHandleImpl (h_done s) HFree (h_pc_ s) CReturned (h_joined s) (h_result s) (h_error s)
              (if h_joined s then Destroyed else Terminated),
            if h_joined s then [] else [OTerminate])
  | _, _, _ => None
  end.

Definition is_reader_input (i : h_input) : bool :=
  match i with HRead _ | HResultDone _ | HSetDone | HFinish _ | HReport _ => true | _ => false end.

Definition h_step (k : HandleKind) (s : HandleImpl) (i : h_input)
    : option (HandleImpl * list h_output) :=
  match h_life_ s with
  | Alive => if is_reader_input i then reader_step k s i else owner_step k s i
  | _ => None
  end.

Definition h_run (k : HandleKind) := run (h_step k).

(** A handle with its reader started. *)
Definition HandleImpl_start (on_result on_error : bool) : HandleImpl :=
  mkHandleImpl false HFree HAtRead CIdle false on_result on_error Alive.

Definition IsDone (s : HandleImpl) : bool := h_done s.


(** ** Invariants *)

Ltac h_cases Hs :=
  unfold h_step, reader_step, owner_step, h_join, at_pc, with_lock, error_outputs in Hs; step_cases Hs.

(** How [done], the lock, [Close] and the threads relate. *)
Definition h_inv (s : HandleImpl) : Prop :=
  (h_close_ s <> CIdle -> h_done s = true /\ forall m ch, h_lock_ s <> HSending m ch) /\
  (h_lock_ s = HClosing <-> h_close_ s = CWritesDone) /\
  (match h_pc_ s with HAtFinish | HAtReport _ | HAtExit => h_done s = true | _ => True end) /\
  (h_joined s = true -> h_pc_ s = HAtExit) /\
  (h_life_ s = Terminated -> h_joined s = false).

Lemma h_inv_step k s i s' o : h_inv s -> h_step k s i = Some (s', o) -> h_inv s'.
Proof.
  unfold h_inv. intros (I1 & I2 & I3 & I4 & I5) Hs. destruct s as [d l p c j r e li]. cbn in *.
  destruct li; [|done..].
  destruct i; cbn in Hs; [destruct p; h_cases Hs ..]; try done; cbn in *;
    (split; [|split; [|split; [|split]]]); first [tauto|intuition congruence].
Qed.

Lemma h_inv_run k b1 b2 ins s outs :
  h_run k (HandleImpl_start b1 b2) ins = Some (s, outs) -> h_inv s.
Proof. revert ins s outs. apply run_invariant; [|apply h_inv_step]. repeat split; try done. Qed.


Definition results (outs : list h_output) : list Res :=
  omap (fun o => match o with OResult r => Some r | _ => None end) outs.

Definition responses_read (ins : list h_input) : list Resp :=
  omap (fun i => match i with HRead r => r | _ => None end) ins.

Definition result_in_hand (s : HandleImpl) : list Resp :=
  match h_pc_ s with HAtResult r => [r] | _ => [] end.

Definition is_write (o : h_output) : bool :=
  match o with OWrote _ | OWritesDone => true | _ => false end.

(** Where an element of a concatenation lies. *)
Lemma app_cons_split {A} (l1 l2 pre post : list A) x :
  (l1 ++ l2 = pre ++ x :: post)%list ->
  (exists post', l1 = pre ++ x :: post' /\ post = post' ++ l2)%list \/ (exists pre', l2 = pre' ++ x :: post)%list.
Proof.
  intros E. destruct (app_eq_app _ _ _ _ E) as (l & [[-> E2]|[-> ->]]); [|by right; exists l].
  destruct l as [|y l]; [by right; exists []|]. injection E2 as <- ->. left. by exists l.
Qed.

(** [Close] has set [done] and half-closed, or found the stream done. *)
Definition shut (s : HandleImpl) : Prop := h_close_ s = CJoin \/ h_close_ s = CReturned.

Lemma reader_step_writes k s i s' o :
  reader_step k s i = Some (s', o) ->
  h_close_ s' = h_close_ s /\ Forall (fun x => is_write x = false) o /\ ~ In OWritesDone o.
Proof.
  intros Hs. destruct s as [d l p c j r e li]. cbn in *.
  destruct i; [destruct p; h_cases Hs ..]; try done; cbn in *;
    (split; [done|split; [repeat constructor|intuition congruence]]).
Qed.

Lemma owner_step_writes k s i s' o :
  (h_close_ s <> CIdle -> h_done s = true /\ forall m ch, h_lock_ s <> HSending m ch) ->
  owner_step k s i = Some (s', o) ->
  (shut s -> shut s' /\ Forall (fun x => is_write x = false) o) /\
  (In OWritesDone o -> o = [OWritesDone] /\ shut s').
Proof.
  unfold shut. intros I1 Hs. destruct s as [d l p c j r e li]. cbn in *.
  destruct i; h_cases Hs; try done; cbn in *;
    (split; [intros Hc|intros Hi]; try (exfalso; intuition congruence);
     try (split; [intuition congruence|]); auto).
  all: try (exfalso; destruct I1 as [? I1]; [intuition congruence|by eapply I1]).
  all: repeat constructor.
Qed.

Lemma h_step_writes k s i s' o :
  h_inv s -> h_step k s i = Some (s', o) ->
  (shut s -> shut s' /\ Forall (fun x => is_write x = false) o) /\
  (In OWritesDone o -> o = [OWritesDone] /\ shut s').
Proof.
  intros [I1 _] Hs. unfold h_step in Hs. destruct (h_life_ s); [|done..].
  destruct (is_reader_input i); [|by eapply owner_step_writes].
  destruct (reader_step_writes k s i s' o Hs) as (Hc & Hf & Hn). unfold shut. rewrite Hc. tauto.
Qed.


(** Once half-closed, nothing is written. *)
Lemma h_run_writes k b1 b2 ins s outs :
  h_run k (HandleImpl_start b1 b2) ins = Some (s, outs) ->
  (In OWritesDone outs -> shut s) /\
  forall pre post, outs = (pre ++ OWritesDone :: post)%list -> Forall (fun x => is_write x = false) post.
Proof.
  revert ins s outs. apply run_ind; [split; [by intros []|intros pre post E; by destruct pre]|].
  intros s ins outs i s' o Hr [Hsh Hw] Hs.
  destruct (h_step_writes k s i s' o (h_inv_run _ _ _ _ _ _ Hr) Hs) as [H1 H2]. split.
  - intros [Hi|Hi]%in_app_iff; [by apply H1, Hsh|by apply H2].
  - intros pre post E. destruct (app_cons_split _ _ _ _ _ E) as [(post' & -> & ->)|(pre' & ->)].
    + apply Forall_app. split; [by eapply Hw|]. apply H1, Hsh. rewrite in_app_iff. cbn. auto.
    + destruct H2 as [E' _]; [rewrite in_app_iff; cbn; auto|].
      destruct pre' as [|y pre']; simplify_eq/=; [constructor|by destruct pre'].
Qed.

(** Nothing is written to a closed stream. In every run, with any senders,
    owner and reader interleaved: after [WritesDone] no message is written and
    [WritesDone] is not repeated; a [Send] that finds the stream done is refused
    with the closed error and writes nothing; and while a sender is between its
    test and its write, neither [Close] nor another sender can start. *)
Theorem stream_no_write_after_close (k : HandleKind) (b1 b2 : bool) (ins : list h_input)
    (s : HandleImpl) (outs : list h_output) :
  h_run k (HandleImpl_start b1 b2) ins = Some (s, outs) ->
  (forall pre post, outs = (pre ++ OWritesDone :: post)%list ->
     forall x, In x post -> (forall m, x <> OWrote m) /\ x <> OWritesDone) /\
  (forall m channel s' o, h_step k s (HSend m channel) = Some (s', o) -> IsDone s = true ->
     s' = s /\ o = [OSendReturns (mkStatus kFatal (closed_text k) (send_operation k) channel "")]) /\
  (forall m channel, h_lock_ s = HSending m channel ->
     h_step k s HClose = None /\ forall m' channel', h_step k s (HSend m' channel') = None).
Proof.
  intros Hr. destruct (h_run_writes _ _ _ _ _ _ Hr) as [_ Hw]. split; [|split].
  - intros pre post E x Hx. specialize (Hw pre post E). rewrite List.Forall_forall in Hw.
    specialize (Hw x Hx). split; [intros m|]; intros ->; done.
  - intros m ch s' o Hs Hd. unfold IsDone in Hd. destruct s as [d l p c j r e li]. cbn in Hd. subst d.
    cbn in Hs. destruct li; [|done..]. cbn in Hs. by destruct l; simplify_eq.
  - intros m ch Hl. destruct s as [d l p c j r e li]. cbn in Hl. subst l. cbn. by destruct li.
Qed.

(** What the state tells of the run so far. *)
Definition h_history (s : HandleImpl) (ins : list h_input) (outs : list h_output) : Prop :=
  (h_joined s = true <-> In HCloseJoin ins \/ In HWait ins) /\
  (h_done s = true ->
     In HSetDone ins \/ h_close_ s = CWritesDone \/ h_close_ s = CJoin \/ In HCloseJoin ins) /\
  (In OWritesDone outs -> h_close_ s = CJoin \/ In HCloseJoin ins) /\
  (h_life_ s = Terminated -> h_joined s = false /\ h_close_ s = CReturned).

Lemma h_step_history k s ins outs i s' o :
  h_history s ins outs -> h_step k s i = Some (s', o) -> h_history s' (ins ++ [i])%list (outs ++ o)%list.
Proof.
  unfold h_history. rewrite !in_app_iff. cbn [In].
  generalize (In HCloseJoin ins) (In HWait ins) (In HSetDone ins) (In OWritesDone outs).
  intros P1 P2 P3 P4 (H1 & H2 & H3 & H4) Hs. destruct s as [d l p c j r e li]. cbn in *.
  destruct li; [|done..].
  destruct i; cbn in Hs; [destruct p; h_cases Hs ..]; try done; cbn in *;
    (split; [|split; [|split]]); clear -H1 H2 H3 H4; first [tauto|intuition congruence].
Qed.

Lemma h_run_history k b1 b2 ins s outs :
  h_run k (HandleImpl_start b1 b2) ins = Some (s, outs) -> h_history s ins outs.
Proof.
  revert ins s outs. apply run_ind; [|intros; by eapply h_step_history].
  unfold h_history. cbn. intuition congruence.
Qed.

(** Destroying a stream handle ends the process when the broker ended the
    stream. In every run, the destructor reaches std::terminate only if the
    reader saw the end of the stream by itself, [Close] therefore returned
    without half-closing or joining, and nobody called [Wait]; and whenever
    the broker ends the stream and the owner then just destroys the handle,
    whatever its callbacks and kind, it does. *)
Theorem stream_end_terminates (k : HandleKind) (b1 b2 : bool) :
  (forall ins s outs, h_run k (HandleImpl_start b1 b2) ins = Some (s, outs) ->
     h_life_ s = Terminated ->
     In HSetDone ins /\ ~ In HWait ins /\ ~ In HCloseJoin ins /\ ~ In OWritesDone outs) /\
  (forall st, exists s,
     h_run k (HandleImpl_start b1 b2)
       ([HRead None; HSetDone; HFinish st] ++ (if grpc_ok st then [] else [HReport Returned]) ++
        [HClose; HDestroy])
     = Some (s, ((if grpc_ok st then [] else
                    if b2 then [OError (FromGrpcStatus st (finish_operation k) "" "")] else [])
                 ++ [OTerminate])%list) /\
     h_life_ s = Terminated /\ h_pc_ s = HAtExit).
Proof.
  split.
  - intros ins s outs Hr Hl. destruct (h_run_history _ _ _ _ _ _ Hr) as (H1 & H2 & H3 & H4).
    destruct (h_inv_run _ _ _ _ _ _ Hr) as (I1 & _). destruct (H4 Hl) as [Hj Hc].
    destruct I1 as [Hd _]; [congruence|]. specialize (H2 Hd). rewrite Hj, Hc in *.
    intuition congruence.
  - intros st. unfold h_run. destruct (grpc_ok st) eqn:E; [|destruct b2]; cbn;
      unfold h_step, reader_step; cbn; rewrite E; cbn; by eexists.
Qed.

(** *** Results *)

Lemma h_step_results k s i s' o :
  tracks_results k = true -> h_result s = true -> (forall b, i <> HSetOnResult b) ->
  h_step k s i = Some (s', o) ->
  h_result s' = true /\
  (results o ++ (result_of k <$> result_in_hand s'))%list =
    (result_of k <$> (result_in_hand s ++ responses_read [i])%list).
Proof.
  unfold result_in_hand. intros Hk Hb Hi Hs. destruct s as [d l p c j r e li]. cbn in Hb. subst r.
  cbn in *. destruct li; [|done..].
  destruct i; cbn in Hs; [destruct p; h_cases Hs ..]; try done; cbn in *;
    try (exfalso; by eapply Hi); (split; [congruence|by repeat case_match]).
Qed.

(** C9: every acknowledgement reaches the callback, in order, once. While a
    result callback is set, the results it is given are the responses read
    from the stream, converted, in the order read, none lost and none twice
    but the one in hand; a callback that throws does not stop the reader. *)
Theorem stream_results_in_order (k : HandleKind) (b2 : bool) (ins : list h_input) (s : HandleImpl)
    (outs : list h_output) :
  tracks_results k = true -> (forall b, ~ In (HSetOnResult b) ins) ->
  h_run k (HandleImpl_start true b2) ins = Some (s, outs) ->
  (results outs ++ (result_of k <$> result_in_hand s))%list = (result_of k <$> responses_read ins).
Proof.
  intros Hk Hn Hr.
  enough ((forall b, ~ In (HSetOnResult b) ins) -> h_result s = true /\
    (results outs ++ (result_of k <$> result_in_hand s))%list = (result_of k <$> responses_read ins)) as Hx
    by apply (Hx Hn).
  clear Hn. revert ins s outs Hr.
  apply (run_ind _ _ (fun s ins outs => (forall b, ~ In (HSetOnResult b) ins) -> h_result s = true /\
    (results outs ++ (result_of k <$> result_in_hand s))%list = (result_of k <$> responses_read ins)));
    [done|].
  intros s ins outs i s' o Hr IH Hs Hn.
  destruct IH as [Hb IH]; [intros b Hi; apply (Hn b), in_app_iff; auto|].
  destruct (h_step_results k s i s' o Hk Hb) as [Hb' He]; [|done|].
  { intros b ->. apply (Hn b), in_app_iff. cbn. auto. }
  split; [done|]. unfold results, responses_read in *. rewrite !omap_app, <- app_assoc, He.
  by rewrite fmap_app, app_assoc, IH, <- fmap_app.
Qed.

(** *** Ending *)

Definition h_distance (p : h_pc) : nat :=
  match p with HAtRead | HAtResult _ => 4 | HAtDone => 3 | HAtFinish => 2 | HAtReport _ => 1 | HAtExit => 0 end.

(** Steps of the reader towards its end. *)
Definition is_ending (i : h_input) : bool :=
  match i with HRead None | HSetDone | HFinish _ | HReport _ => true | _ => false end.

Lemma h_step_distance k s i s' o :
  h_step k s i = Some (s', o) ->
  ((if is_ending i then 1 else 0) + h_distance (h_pc_ s') <= h_distance (h_pc_ s))%nat.
Proof.
  intros Hs. destruct s as [d l p c j r e li]. cbn in *. destruct li; [|done..].
  destruct i; cbn in Hs; [destruct p; h_cases Hs ..]; try done; cbn; lia.
Qed.

(** A stream handle shuts down. In every run the reader takes at most four
    steps besides reading and passing on results, and until it has left, one
    of its steps is possible whatever the senders and the owner do; [Close] and
    [Wait] return exactly when it has left (or was joined before). So once the
    stream's [Read] fails, [Close] returns. *)
Theorem stream_handle_shuts_down (k : HandleKind) (b1 b2 : bool) (ins : list h_input)
    (s : HandleImpl) (outs : list h_output) :
  h_run k (HandleImpl_start b1 b2) ins = Some (s, outs) -> h_life_ s = Alive ->
  (length (List.filter is_ending ins) <= 4)%nat /\
  (h_pc_ s <> HAtExit -> exists i s' o, is_reader_input i = true /\ h_step k s i = Some (s', o)) /\
  (h_close_ s = CJoin -> (exists s' o, h_step k s HCloseJoin = Some (s', o)) <-> h_pc_ s = HAtExit) /\
  ((exists s' o, h_step k s HWait = Some (s', o)) <-> h_pc_ s = HAtExit).
Proof.
  intros Hr Ha. destruct (h_inv_run _ _ _ _ _ _ Hr) as (_ & _ & _ & Hj & _). split; [|split; [|split]].
  - enough (length (List.filter is_ending ins) + h_distance (h_pc_ s) <= 4)%nat by lia.
    clear Ha Hj. revert ins s outs Hr. apply run_ind; [done|]. intros s ins outs i s' o Hr IH Hs.
    pose proof (h_step_distance k s i s' o Hs). rewrite List.filter_app, length_app. cbn.
    destruct (is_ending i); cbn; lia.
  - intros Hp. destruct s as [d l p c j r e li]. cbn in Ha, Hp. subst li. unfold h_step. cbn [h_life_].
    destruct p as [|x| | |st|]; [exists (HRead None)|exists (HResultDone Returned)|exists HSetDone|
      exists (HFinish GrpcStatusOk)|exists (HReport Returned)|done]; cbn; repeat case_match; eauto.
  - intros Hc. destruct s as [d l p c j r e li]. cbn in *. subst. cbn. unfold h_join. cbn.
    split; [intros (s' & o & E)|intros ->; eauto]. destruct j; [by apply Hj|by destruct p].
  - destruct s as [d l p c j r e li]. cbn in *. subst. cbn. unfold h_join. cbn.
    split; [intros (s' & o & E)|intros ->; eauto]. destruct j; [by apply Hj|by destruct p].
Qed.

End handle.

(** ** The three handles *)

(** The lambda of each reader makes the result from the response. *)
Definition event_result (r : pb_Result) : unit := tt.

Definition event_store_result (r : pb_Result) : EventStoreResult :=
  mkEventStoreResult (pbResult_eventid r) (pbResult_sent r) (pbResult_error r).

Definition upstream_result (r : pb_QueuesUpstreamResponse) : QueueUpstreamResultData :=
  QueueUpstreamResponseFromProto r.

Definition event_stream_kind : HandleKind :=
  mkHandleKind event_result false "EventStreamHandle::Send" "event stream is closed"
    "failed to write to event stream" "" "EventStreamHandle::Finish".

Definition event_store_stream_kind : HandleKind :=
  mkHandleKind event_store_result true "EventStoreStreamHandle::Send" "event store stream is closed"
    "failed to write to event store stream" "EventStoreStreamHandle::OnResult"
    "EventStoreStreamHandle::Finish".

Definition upstream_kind : HandleKind :=
  mkHandleKind upstream_result true "QueueUpstreamHandle::Send" "upstream stream is closed"
    "failed to write to upstream stream" "QueueUpstreamHandle::OnResult" "QueueUpstreamHandle::Finish".

(** A run of the event store handle: two sends, two results (the second
    callback throws), and a close. *)
Definition demo_event : pb_Event := mk_pb_Event "1" "cl" "ch" "" "b" true ∅.

Definition demo_h_inputs : list (h_input (Req := pb_Event) (Resp := pb_Result)) :=
  [HSend demo_event "ch"; HWrite true; HRead (Some (mk_pb_Result "1" true "")); HResultDone Returned;
   HSend demo_event "ch"; HWrite false; HRead (Some (mk_pb_Result "2" false "full"));
   HResultDone (Threw "boom"); HClose; HWritesDone; HSend demo_event "ch"].

Definition demo_h_state : HandleImpl (Req := pb_Event) (Resp := pb_Result) :=
  mkHandleImpl true HFree HAtRead CJoin false true true Alive.

Definition demo_h_outputs : list (h_output (Req := pb_Event) (Res := EventStoreResult)) :=
  [OWrote demo_event; OSendReturns StatusOk; OResult (mkEventStoreResult "1" true "");
   OWrote demo_event;
   OSendReturns (mkStatus kTransient "failed to write to event store stream"
                   "EventStoreStreamHandle::Send" "ch" "");
   OResult (mkEventStoreResult "2" false "full");
   OError (mkStatus kFatal "callback threw: boom" "EventStoreStreamHandle::OnResult" "" "");
   OWritesDone;
   OSendReturns (mkStatus kFatal "event store stream is closed" "EventStoreStreamHandle::Send" "ch" "")].

Lemma demo_h_run :
  h_run event_store_stream_kind (HandleImpl_start true true) demo_h_inputs
    = Some (demo_h_state, demo_h_outputs).
Proof. by vm_compute. Qed.

Lemma stream_no_write_after_close_witness :
  IsDone demo_h_state = true /\
  forall m channel s' o, h_step event_store_stream_kind demo_h_state (HSend m channel) = Some (s', o) ->
    s' = demo_h_state.
Proof.
  split; [reflexivity|]. intros m channel s' o Hs.
  exact (proj1 (proj1 (proj2 (stream_no_write_after_close event_store_stream_kind true true
    demo_h_inputs demo_h_state demo_h_outputs demo_h_run)) m channel s' o Hs eq_refl)).
Defined.

Lemma stream_results_in_order_witness :
  length (results demo_h_outputs) = 2%nat /\
  (results demo_h_outputs ++ (event_store_result <$> result_in_hand demo_h_state))%list
    = (event_store_result <$> responses_read demo_h_inputs).
Proof.
  split; [reflexivity|].
  refine (stream_results_in_order event_store_stream_kind true demo_h_inputs demo_h_state
    demo_h_outputs eq_refl _ demo_h_run).
  intros b Hi. cbn in Hi. repeat (destruct Hi as [Hi|Hi]; [discriminate Hi|]). exact Hi.
Defined.

Lemma stream_handle_shuts_down_witness :
  h_life_ demo_h_state = Alive /\
  exists i s' o, is_reader_input i = true /\
    h_step event_store_stream_kind demo_h_state i = Some (s', o).
Proof.
  split; [reflexivity|].
  refine (proj1 (proj2 (stream_handle_shuts_down event_store_stream_kind true true demo_h_inputs
    demo_h_state demo_h_outputs demo_h_run eq_refl)) _). discriminate.
Defined.

(** ** What the handles send *)

Section sends.
Context {W : Type} `{Grpc W, Providers W, Random W}.

(** A handle keeps the client's identifier. *)
Lemma opened_client_id {A} (c : Client) (m : M W (StatusOr nat)) (k : nat -> A) (w w' : W) h :
  (check? ret (Client_CheckClosed c) in let? stream := m in ret (SValue (k stream))) w
    = (SValue h, w') -> exists stream, h = k stream.
Proof.
  unfold check_statusor, bind_statusor, bind, ret. destruct (status_ok _); [|done].
  destruct (m w) as [[st|s] w1]; [|done]. intros [= <- _]. by exists st.
Qed.

Lemma id_or_uuid_for given (w : W) : id_for given (fst (id_or_uuid given w)).
Proof.
  unfold id_or_uuid, id_for. destruct (str_empty given) eqn:E.
  - split; [apply GenerateUUID_not_empty|done].
  - by split.
Qed.

Lemma queue_proto_own c m :
  qm_channel m <> "" -> QueueMessageToProto m (client_id_ (opts c)) = queue_proto c m.
Proof. intros Hc. unfold queue_proto. by rewrite effective_channel_own. Qed.

(** What a stream sends is what the unary operation sends, without its
    tests. On a handle opened by a client, the message of each [Send] carries
    the event's own channel, empty or not, never the default one; for an event
    with a channel it is exactly the message the unary operation sends (the
    identifier its own or fresh, the client's identifier where it has none,
    the tags, the store flag), and an upstream request is exactly the batch of
    its messages, in order, under its own or a fresh request identifier. *)
Theorem stream_messages_as_unary (c : Client) (w1 w2 : W) :
  (forall b h w' e, SendEventStream c b w1 = (SValue h, w') ->
     let m := fst (event_stream_message h e w2) in
     pbEvent_channel m = ev_channel e /\
     (ev_channel e <> "" -> op_sends c (COSendEvent e) (CallSendEvent m))) /\
  (forall b1 b2 h w' e, SendEventStoreStream c b1 b2 w1 = (SValue h, w') ->
     let m := fst (event_store_stream_message h e w2) in
     pbEvent_channel m = es_channel e /\
     (es_channel e <> "" -> op_sends c (COSendEventStore e) (CallSendEvent m))) /\
  (forall b1 b2 h w' request_id ms, QueueUpstream c b1 b2 w1 = (SValue h, w') ->
     let m := fst (upstream_message h request_id ms w2) in
     id_for request_id (pbQueuesUpstreamRequest_requestid m) /\
     pbQueueMessage_channel <$> pbQueuesUpstreamRequest_messages m = qm_channel <$> ms /\
     (Forall (fun x => qm_channel x <> "") ms ->
      pbQueuesUpstreamRequest_messages m = queue_proto c <$> ms)).
Proof.
  unfold event_stream_message, event_store_stream_message, upstream_message, bind, ret.
  split; [|split].
  - intros b h w' e [st ->]%opened_client_id. pose proof (id_or_uuid_for (ev_id e) w2) as Hid.
    destruct (id_or_uuid (ev_id e) w2) as [id w3]. split; [done|]. intros Hc. exists id.
    split; [done|]. cbn. by rewrite effective_channel_own, copy_entries_union, (right_id_L ∅ (∪)).
  - intros b1 b2 h w' e [st ->]%opened_client_id. pose proof (id_or_uuid_for (es_id e) w2) as Hid.
    destruct (id_or_uuid (es_id e) w2) as [id w3]. split; [done|]. intros Hc. exists id.
    split; [done|]. cbn. by rewrite effective_channel_own, copy_entries_union, (right_id_L ∅ (∪)).
  - intros b1 b2 h w' rid ms [st ->]%opened_client_id. pose proof (id_or_uuid_for rid w2) as Hid.
    destruct (id_or_uuid rid w2) as [id w3]. split; [done|]. cbn. split.
    + induction ms as [|x ms IH]; cbn; [done|]. by f_equal.
    + intros Hf. induction Hf as [|x ms Hx Hf IH]; cbn; [done|]. by rewrite queue_proto_own, IH.
Qed.

End sends.
