(* ===== verification/StreamOwner.v ===== *)
(** * A stream handle owned by one thread

    The calls of a thread that has a stream handle (StreamHandle) to itself, as
    the programs under src/examples do: [Send], [Close] and the destructor, each
    as its inputs to the automaton of the handle, with the reader thread going
    on between them as the outside says. What becomes of a handle whose stream
    the broker has ended is what the automaton says: [Send] refuses, [Close]
    returns without joining, and the destructor ends the process. *)

From Stdlib Require Import ZArith Lia Ascii String.
From S2P Require Import Prelude Automaton Status ErrorMapper Proto Callback StreamHandle.

Local Open Scope string_scope.
Local Open Scope kubemq_scope.

Inductive StreamKind := KEventStream | KEventStoreStream | KUpstream.

#[export] Instance StreamKind_eq_dec : EqDecision StreamKind.
Proof. solve_decision. Defined.

(** What is written on a stream. *)
Inductive StreamWrite :=
  | WriteEvent (event : pb_Event)
  | WriteUpstream (request : pb_QueuesUpstreamRequest).

(** What results are made of is left to the callbacks. *)
Abbreviation handle := (HandleImpl (Req := StreamWrite) (Resp := unit)).
Abbreviation handle_input := (h_input (Req := StreamWrite) (Resp := unit)).

Definition same_texts {Resp Res} (k : @HandleKind Resp Res) : @HandleKind unit unit :=
  mkHandleKind (fun r => r) (tracks_results k) (send_operation k) (closed_text k) (write_text k)
    (result_operation k) (finish_operation k).

Definition kind_of (k : StreamKind) : @HandleKind unit unit :=
  match k with
  | KEventStream => same_texts event_stream_kind
  | KEventStoreStream => same_texts event_store_stream_kind
  | KUpstream => same_texts upstream_kind
  end.

(** The stream of a handle: the steps its reader thread has taken since the
    owner last came by, and the answers of the stream to the owner. *)
Class Streams (W : Type) := {
  reader_steps : nat -> M W (list handle_input);
  stream_Write : nat -> StreamWrite -> M W bool;
  stream_WritesDone : nat -> M W unit;
  stream_Finish : nat -> M W GrpcStatus        (* how a half-closed stream ends *)
}.

Section owner.
Context {W : Type} `{Streams W} (k : StreamKind) (h : nat).

(** Of the steps said, those the reader can take. *)
Definition reader_goes (ins : list handle_input) (s : handle) : handle :=
  foldl (fun s i =>
    if is_reader_input i then match h_step (kind_of k) s i with Some (s', _) => s' | None => s end
    else s) s ins.

(** From wherever the reader is, out. *)
Definition way_out (st : GrpcStatus) : list handle_input :=
  [HResultDone Returned; HRead None; HSetDone; HFinish st; HReport Returned].

Fixpoint sent_status (outs : list (h_output (Req := StreamWrite) (Res := unit))) : option Status :=
  match outs with
  | [] => None
  | OSendReturns s :: _ => Some s
  | _ :: outs' => sent_status outs'
  end.

(** Each call is [None] when the handle does not allow it. *)
Definition owner_Send (channel : string) (m : StreamWrite) (s : handle) : M W (option (Status * handle)) :=
  let! steps := reader_steps h in
  match h_step (kind_of k) (reader_goes steps s) (HSend m channel) with
  | None => ret None
  | Some (s1, o1) =>
      match sent_status o1 with
      | Some st => ret (Some (st, s1))
      | None =>
          let! ok := stream_Write h m in
          ret match h_step (kind_of k) s1 (HWrite ok) with
              | Some (s2, o2) => match sent_status o2 with Some st => Some (st, s2) | None => None end
              | None => None
              end
      end
  end.

(** [Close] waits for the reader of the stream it has half-closed. *)
Definition owner_Close (s : handle) : M W (option handle) :=
  let! steps := reader_steps h in
  match h_step (kind_of k) (reader_goes steps s) HClose with
  | None => ret None
  | Some (s1, _) =>
      match h_close_ s1 with
      | CWritesDone =>
          let! _ := stream_WritesDone h in
          match h_step (kind_of k) s1 HWritesDone with
          | None => ret None
          | Some (s2, _) =>
              let! steps := reader_steps h in
              let! st := stream_Finish h in
              ret match h_step (kind_of k) (reader_goes (steps ++ way_out st) s2) HCloseJoin with
                  | Some (s3, _) => Some s3
                  | None => None
                  end
          end
      | _ => ret (Some s1)
      end
  end.

(** After its [Close] the destructor destroys the members. *)
Definition owner_destroy (s : handle) : option handle :=
  match h_step (kind_of k) s HDestroy with Some (s', _) => Some s' | None => None end.

(** ** What the calls do *)

(** A state of the handle's automaton after some run, with its inputs and
    outputs. *)
Definition reached (s : handle) (ins : list handle_input) outs : Prop :=
  exists on_result on_error, h_run (kind_of k) (HandleImpl_start on_result on_error) ins = Some (s, outs).

Definition reachable (s : handle) : Prop := exists ins outs, reached s ins outs.

Lemma reachable_step (s s' : handle) i o : reachable s -> h_step (kind_of k) s i = Some (s', o) -> reachable s'.
Proof.
  intros (ins & outs & b1 & b2 & Hr) Hs. exists (ins ++ [i])%list, (outs ++ o)%list, b1, b2.
  unfold h_run in *. rewrite run_app, Hr. cbn. by rewrite Hs, app_nil_r.
Qed.

(** Between two calls of its owner. *)
Record owned (closed : bool) (s : handle) : Prop := {
  owned_reachable : reachable s;
  owned_free : h_lock_ s = HFree;
  owned_alive : h_life_ s = Alive;
  owned_close : h_close_ s = if closed then CReturned else CIdle
}.

Lemma start_owned on_result on_error : owned false (HandleImpl_start on_result on_error).
Proof. split; [|done..]. by exists [], [], on_result, on_error. Qed.

(** The reader leaves the owner's side alone. *)
Lemma reader_leaves (s s' : handle) i o :
  is_reader_input i = true -> h_step (kind_of k) s i = Some (s', o) ->
  h_lock_ s' = h_lock_ s /\ h_life_ s' = h_life_ s /\ h_close_ s' = h_close_ s /\ h_joined s' = h_joined s.
Proof.
  intros Hi Hs. unfold h_step in Hs. rewrite Hi in Hs. destruct s as [d l p c j r e li]. cbn in *.
  destruct li; [|done..]. destruct i; try done; destruct p; unfold reader_step, at_pc, with_lock, error_outputs in Hs; by step_cases Hs.
Qed.

Lemma reader_goes_ind (P : handle -> Prop) ins s :
  (forall s i s' o, P s -> is_reader_input i = true -> h_step (kind_of k) s i = Some (s', o) -> P s') ->
  P s -> P (reader_goes ins s).
Proof.
  intros Hstep. revert s. induction ins as [|i ins IH]; intros s Hs; cbn; [done|]. apply IH.
  destruct (is_reader_input i) eqn:Hi; [|done]. destruct (h_step _ s i) as [[s' o]|] eqn:E; [|done]. eauto.
Qed.

Lemma reader_goes_keeps ins s :
  reachable s -> let s' := reader_goes ins s in
  reachable s' /\ h_lock_ s' = h_lock_ s /\ h_life_ s' = h_life_ s /\ h_close_ s' = h_close_ s.
Proof.
  intros Hr. apply (reader_goes_ind (fun s' => reachable s' /\ h_lock_ s' = h_lock_ s /\
    h_life_ s' = h_life_ s /\ h_close_ s' = h_close_ s)); [|done].
  intros s1 i s2 o (H1 & <- & <- & <-) Hi Hs. split; [by eapply reachable_step|].
  by destruct (reader_leaves _ _ _ _ Hi Hs) as (-> & -> & -> & _).
Qed.

Lemma reader_goes_owned b ins s : owned b s -> owned b (reader_goes ins s).
Proof.
  intros [Hr Hf Ha Hc]. destruct (reader_goes_keeps ins s Hr) as (H1 & H2 & H3 & H4).
  split; [done|congruence..].
Qed.

Lemma reader_goes_app ins ins' s : reader_goes (ins ++ ins') s = reader_goes ins' (reader_goes ins s).
Proof. apply foldl_app. Qed.

Lemma way_out_leaves st s : h_life_ s = Alive -> h_pc_ (reader_goes (way_out st) s) = HAtExit.
Proof.
  intros Ha. destruct s as [d l p c j r e li]. cbn in Ha. subst li. unfold reader_goes, way_out, h_step.
  destruct p, r, e; cbn; try destruct (tracks_results (kind_of k)); cbn; destruct (grpc_ok st) eqn:Eg; cbn; rewrite ?Eg; cbn; try done;
    try (destruct (grpc_ok _); cbn; done).
Qed.

Lemma owner_Close_owned b s (w : W) :
  owned b s -> exists s', fst (owner_Close s w) = Some s' /\ owned true s'.
Proof.
  intros Ho. unfold owner_Close, bind, ret. destruct (reader_steps h w) as [steps w1].
  pose proof (reader_goes_owned b steps s Ho) as [Hr Hf Ha Hc]. revert Hr Hf Ha Hc.
  generalize (reader_goes steps s). intros t Hr Hf Ha Hc.
  destruct (h_step (kind_of k) t HClose) as [[s1 o1]|] eqn:E.
  2: { exfalso. unfold h_step in E. rewrite Ha in E. cbn in E. rewrite Hf, Hc in E. by destruct b, (h_done t). }
  pose proof (reachable_step _ _ _ _ Hr E) as Hr1. unfold h_step in E. rewrite Ha in E. cbn in E. rewrite Hf, Hc in E.
  assert ((s1 = with_lock true HFree CReturned t) \/ s1 = with_lock true HClosing CWritesDone t) as [->| ->]
    by (destruct b, (h_done t); simplify_eq; auto).
  - exists (with_lock true HFree CReturned t). split; [done|]. by split.
  - cbn. destruct (stream_WritesDone h w1) as [[] w2]. unfold h_step at 1. cbn. rewrite Ha.
    destruct (reader_steps h w2) as [steps' w3]. destruct (stream_Finish h w3) as [st w4]. cbn.
    assert (h_step (kind_of k) (with_lock true HClosing CWritesDone t) HWritesDone =
      Some (with_lock true HFree CJoin (with_lock true HClosing CWritesDone t), [OWritesDone])) as Ew
      by (unfold h_step; cbn; by rewrite Ha).
    pose proof (reachable_step _ _ _ _ Hr1 Ew) as Hr2. revert Hr2. unfold with_lock. cbn.
    set (s2 := mkHandleImpl true HFree _ CJoin _ _ _ _). intros Hr2.
    destruct (reader_goes_keeps (steps' ++ way_out st) s2 Hr2) as (Hr3 & Hf3 & Ha3 & Hc3).
    assert (h_pc_ (reader_goes (steps' ++ way_out st) s2) = HAtExit) as Hp.
    { rewrite reader_goes_app. apply way_out_leaves.
      by destruct (reader_goes_keeps steps' s2 Hr2) as (_ & _ & -> & _). }
    revert Hr3 Hf3 Ha3 Hc3 Hp. generalize (reader_goes (steps' ++ way_out st) s2). intros s3 Hr3 Hf3 Ha3 Hc3 Hp.
    cbn in *. rewrite Ha in Ha3.
    destruct (h_step (kind_of k) s3 HCloseJoin) as [[s4 o4]|] eqn:E4.
    2: { exfalso. unfold h_step in E4. rewrite Ha3 in E4. cbn in E4. rewrite Hc3 in E4. unfold h_join in E4.
         by rewrite Hp in E4. }
    exists s4. split; [done|]. pose proof (reachable_step _ _ _ _ Hr3 E4) as Hr4.
    unfold h_step in E4. rewrite Ha3 in E4. cbn in E4. rewrite Hc3 in E4. unfold h_join in E4. rewrite Hp in E4.
    simplify_eq. by split.
Qed.

(** [Send] answers that the stream is closed exactly when its reader has seen
    its end, and otherwise what [Write] did. *)
Definition send_answer (channel : string) (over : bool) (st : Status) : Prop :=
  if over then st = mkStatus kFatal (closed_text (kind_of k)) (send_operation (kind_of k)) channel ""
  else st = StatusOk \/ st = mkStatus kTransient (write_text (kind_of k)) (send_operation (kind_of k)) channel "".

Lemma owner_Send_owned channel m s (w : W) :
  owned false s ->
  exists st s', fst (owner_Send channel m s w) = Some (st, s') /\ owned false s' /\
    send_answer channel (h_done s') st.
Proof.
  intros Ho. unfold owner_Send, bind, ret. destruct (reader_steps h w) as [steps w1].
  pose proof (reader_goes_owned false steps s Ho) as [Hr Hf Ha Hc]. revert Hr Hf Ha Hc.
  generalize (reader_goes steps s). intros t Hr Hf Ha Hc.
  destruct (h_step (kind_of k) t (HSend m channel)) as [[s1 o1]|] eqn:E.
  2: { exfalso. unfold h_step in E. rewrite Ha in E. cbn in E. rewrite Hf in E. by destruct (h_done t). }
  pose proof (reachable_step _ _ _ _ Hr E) as Hr1. unfold h_step in E. rewrite Ha in E. cbn in E. rewrite Hf in E.
  destruct (h_done t) eqn:Hd; simplify_eq.
  - exists (mkStatus kFatal (closed_text (kind_of k)) (send_operation (kind_of k)) channel ""), s1. cbn.
    split; [done|]. split; [by split|]. unfold send_answer. by rewrite Hd.
  - cbn. destruct (stream_Write h m w1) as [ok w2].
    assert (h_step (kind_of k) (with_lock false (HSending m channel) (h_close_ t) t) (HWrite ok) =
      Some (with_lock false HFree (h_close_ t) (with_lock false (HSending m channel) (h_close_ t) t),
            [OWrote m; OSendReturns (if ok then StatusOk
              else mkStatus kTransient (write_text (kind_of k)) (send_operation (kind_of k)) channel "")])) as Ew
      by (unfold h_step; cbn; by rewrite Ha).
    pose proof (reachable_step _ _ _ _ Hr1 Ew) as Hr2. rewrite Ew. cbn. eexists _, _. split; [reflexivity|].
    split; [by split|]. unfold send_answer. cbn. destruct ok; auto.
Qed.

(** The destructor joins the reader or, when the reader had seen the end of
    the stream by itself, ends the process. *)
Definition ended_by_broker (s : handle) : Prop :=
  h_life_ s = Terminated /\ exists ins outs, reached s ins outs /\
    In HSetDone ins /\ ~ In HWait ins /\ ~ In HCloseJoin ins /\ ~ In OWritesDone outs.

Lemma owner_destroy_owned s :
  owned true s ->
  exists s', owner_destroy s = Some s' /\
    ((h_life_ s' = Destroyed /\ h_joined s = true) \/ ended_by_broker s').
Proof.
  intros [Hr Hf Ha Hc]. unfold owner_destroy.
  destruct (h_step (kind_of k) s HDestroy) as [[s2 o2]|] eqn:E.
  2: { exfalso. unfold h_step in E. rewrite Ha in E. cbn in E. by rewrite Hf, Hc in E. }
  exists s2. split; [done|]. pose proof (reachable_step _ _ _ _ Hr E) as (ins & outs & b1 & b2 & Hrun).
  unfold h_step in E. rewrite Ha in E. cbn in E. rewrite Hf, Hc in E. simplify_eq. cbn.
  destruct (h_joined s) eqn:Hj; [by left|]. right. split; [done|]. exists ins, outs. split; [by exists b1, b2|].
  by apply (proj1 (stream_end_terminates (kind_of k) b1 b2) ins _ outs Hrun).
Qed.

End owner.
