(* ===== verification/Program.v ===== *)
(** * Programs that use a library

    A program over an interface [E] is a tree: it returns, or performs an action
    of the interface and goes on with what it answers. [exec] runs it with an
    interpreter of the actions over any world, [wp] is its weakest precondition for
    a contract of the actions over an abstract state, and [wp_sound] says that
    an interpreter that keeps the contract makes the program reach what [wp]
    promises. The programs of the repository's examples are written this way. *)

From Stdlib Require Import ZArith.
From S2P Require Import Prelude Status.

Local Open Scope kubemq_scope.

Section program.
Context {E : Type -> Type}.

Inductive prog (A : Type) : Type :=
  | Ret (a : A)
  | Act {X : Type} (e : E X) (k : X -> prog A).
#[global] Arguments Ret {A} a.
#[global] Arguments Act {A X} e k.

Definition interpreter (W : Type) : Type := forall X, E X -> M W X.

Fixpoint exec {W A} (h : interpreter W) (p : prog A) : M W A :=
  match p with
  | Ret a => ret a
  | Act e k => let! x := h _ e in exec h (k x)
  end.

(** [for (...) body], where the body either goes on to the next round or
    leaves the function with what it returns; [s] is what it updates. *)
Fixpoint for_each {I S A} (l : list I) (body : I -> S -> (S -> prog A) -> prog A) (s : S)
    (rest : S -> prog A) : prog A :=
  match l with
  | [] => rest s
  | i :: l' => body i s (fun s' => for_each l' body s' rest)
  end.

(** [if (!s.ok()) return exit;] for a status and for a result. *)
Definition or_return {A} (exit : A) (e : E Status) (k : prog A) : prog A :=
  Act e (fun s => if status_ok s then k else Ret exit).
Definition or_return_value {A T} (exit : A) (e : E (StatusOr T)) (k : T -> prog A) : prog A :=
  Act e (fun r => match r with SValue x => k x | SError _ => Ret exit end).

(** ** Contracts *)

(** [pre e v]: [e] may be performed in [v]; [post e v x v']: it may answer [x]
    and lead to [v']. *)
Record contract (V : Type) := mkContract {
  pre : forall X, E X -> V -> Prop;
  post : forall X, E X -> V -> X -> V -> Prop
}.
#[global] Arguments pre {V} c {X}.
#[global] Arguments post {V} c {X}.

Context {V : Type} (C : contract V).

Fixpoint wp {A} (p : prog A) (Q : A -> V -> Prop) (v : V) : Prop :=
  match p with
  | Ret a => Q a v
  | Act e k => pre C e v /\ forall x v', post C e v x v' -> wp (k x) Q v'
  end.

Lemma wp_mono {A} (p : prog A) (Q R : A -> V -> Prop) v :
  (forall a w, Q a w -> R a w) -> wp p Q v -> wp p R v.
Proof.
  intros HQ. revert v. induction p as [a|X e k IH]; cbn; [auto|].
  intros v [Hp Hk]. split; [done|]. intros x v' Hx. by apply IH, Hk.
Qed.

(** An interpreter keeps the contract through [R], the relation between its worlds
    and the abstract states. *)
Definition keeps {W} (h : interpreter W) (R : W -> V -> Prop) : Prop :=
  forall X (e : E X) w v, R w v -> pre C e v ->
    exists v', post C e v (fst (h X e w)) v' /\ R (snd (h X e w)) v'.

Lemma wp_sound {W A} (h : interpreter W) (R : W -> V -> Prop) (p : prog A) (Q : A -> V -> Prop) :
  keeps h R -> forall w v, R w v -> wp p Q v ->
  exists v', Q (fst (exec h p w)) v' /\ R (snd (exec h p w)) v'.
Proof.
  intros Hh. induction p as [a|X e k IH]; cbn; intros w v HR Hw; [by exists v|].
  destruct Hw as [Hp Hk]. destruct (Hh X e w v HR Hp) as (v1 & Hx & HR1).
  unfold bind. destruct (h X e w) as [x w1]. by apply (IH x w1 v1), Hk.
Qed.

End program.

#[global] Arguments prog : clear implicits.
#[global] Arguments interpreter : clear implicits.
#[global] Arguments contract : clear implicits.
