(* ===== verification/Threads.v ===== *)
(** * Threads that run programs on shared state

    A component that many threads call at once: each call is a program over an
    interface of atomic accesses (Program), and a step of the pool is the next
    access of one of them, a new call, or a step of the component's own
    threads. A discipline gives every call a contract over what the thread
    knows of the shared state, its view; when the accesses keep the contracts,
    the views of the other threads and a global invariant, every interleaving
    does ([pool_sound]). *)

From Stdlib Require Import ZArith Lia.
From S2P Require Import Prelude Automaton Program.

Section threads.
Context {E : Type -> Type} {S A B C R O : Type}.

(** A call, and what is left of it until it has returned. *)
Record thread := mkThread { th_call : C; th_left : option (prog E R) }.
Record pool := mkPool { pl_shared : S; pl_threads : list thread }.

(** A call begins; thread [i] makes its next access, answered by [a]; the
    component's own threads make a step. *)
Inductive pool_input := PCall (c : C) | PStep (i : nat) (a : A) | PEnv (b : B).
Inductive pool_output := OAct (i : nat) (e : O) | OEnv (e : O) | OReturned (i : nat) (r : R).

Record component := mkComponent {
  cp_program : C -> prog E R;
  cp_may : C -> S -> list thread -> bool;            (* the calls a program may make *)
  cp_perform : forall X, nat -> A -> S -> E X -> option (X * S * list O);
  cp_env : S -> list thread -> B -> option (S * list O)
}.

Definition in_progress (t : thread) : bool := match th_left t with Some _ => true | None => false end.

Definition with_thread (i : nat) (t : thread) (s : S) (p : pool) : pool := mkPool s (<[i := t]> (pl_threads p)).

Definition pool_step (cp : component) (p : pool) (i : pool_input) : option (pool * list pool_output) :=
  match i with
  | PCall c =>
      if cp_may cp c (pl_shared p) (pl_threads p) then
        Some (mkPool (pl_shared p) (pl_threads p ++ [mkThread c (Some (cp_program cp c))]), [])
      else None
  | PStep i a =>
      match pl_threads p !! i with
      | Some (mkThread c (Some (Ret r))) => Some (with_thread i (mkThread c None) (pl_shared p) p, [OReturned i r])
      | Some (mkThread c (Some (Act e k))) =>
          match cp_perform cp _ i a (pl_shared p) e with
          | Some (x, s, evs) => Some (with_thread i (mkThread c (Some (k x))) s p, OAct i <$> evs)
          | None => None
          end
      | _ => None
      end
  | PEnv b => match cp_env cp (pl_shared p) (pl_threads p) b with Some (s, evs) => Some (mkPool s (pl_threads p), OEnv <$> evs) | None => None end
  end.

Definition pool_run (cp : component) (s : S) := run (pool_step cp) (mkPool s []).

(** What happened, and who did it. *)
Definition acts (outs : list pool_output) : list (option nat * O) :=
  omap (fun o => match o with OAct i e => Some (Some i, e) | OEnv e => Some (None, e) | OReturned _ _ => None end) outs.

Lemma acts_app l l' : acts (l ++ l') = acts l ++ acts l'.
Proof. apply omap_app. Qed.

Lemma acts_of i (evs : list O) : acts (OAct i <$> evs) = pair (Some i) <$> evs.
Proof. unfold acts. induction evs as [|e evs IH]; [done|]. cbn. by rewrite IH. Qed.

Lemma acts_env (evs : list O) : acts (OEnv <$> evs) = pair None <$> evs.
Proof. unfold acts. induction evs as [|e evs IH]; [done|]. cbn. by rewrite IH. Qed.

(** The cases of a step. *)
Lemma pool_step_cases cp p i p' o :
  pool_step cp p i = Some (p', o) ->
  (exists c, i = PCall c /\ cp_may cp c (pl_shared p) (pl_threads p) = true /\ o = [] /\
     p' = mkPool (pl_shared p) (pl_threads p ++ [mkThread c (Some (cp_program cp c))])) \/
  (exists n a c r, i = PStep n a /\ pl_threads p !! n = Some (mkThread c (Some (Ret r))) /\
     p' = with_thread n (mkThread c None) (pl_shared p) p /\ o = [OReturned n r]) \/
  (exists n a c X (e : E X) k x s evs, i = PStep n a /\ pl_threads p !! n = Some (mkThread c (Some (Act e k))) /\
     cp_perform cp X n a (pl_shared p) e = Some (x, s, evs) /\
     p' = with_thread n (mkThread c (Some (k x))) s p /\ o = OAct n <$> evs) \/
  (exists b s evs, i = PEnv b /\ cp_env cp (pl_shared p) (pl_threads p) b = Some (s, evs) /\ p' = mkPool s (pl_threads p) /\ o = OEnv <$> evs).
Proof.
  destruct i as [c|n a|b]; cbn [pool_step].
  - destruct (cp_may _ _ _ _) eqn:Hm; [|done]. intros [= <- <-]. left. by exists c.
  - destruct (pl_threads p !! n) as [[c [[r|X e k]|]]|] eqn:Hn; try done.
    + intros [= <- <-]. right; left. by exists n, a, c, r.
    + destruct (cp_perform cp X n a (pl_shared p) e) as [[[x s] evs]|] eqn:Hp; [|done]. intros [= <- <-].
      right; right; left. by exists n, a, c, X, e, k, x, s, evs.
  - destruct (cp_env cp _ _ b) as [[s evs]|] eqn:Hb; [|done]. intros [= <- <-]. right; right; right. by exists b, s, evs.
Qed.

(** ** Disciplines *)

Context {G V : Type}.

(** [ds_view g s i] is what thread [i] knows when the shared state is [s]; [g]
    is history the code does not keep. *)
Record discipline (cp : component) := mkDiscipline {
  ds_contract : C -> contract E V;
  ds_post : C -> R -> V -> Prop;
  ds_start : V;
  ds_view : G -> S -> nat -> V;
  ds_inv : G -> S -> list C -> list (option nat * O) -> Prop;
  ds_program c : wp (ds_contract c) (cp_program cp c) (ds_post c) ds_start;
  ds_call g s ts evs c :
    ds_inv g s (th_call <$> ts) evs -> cp_may cp c s ts = true -> ds_inv g s (th_call <$> (ts ++ [mkThread c None])) evs;
  ds_env g s ts evs b s' o :
    ds_inv g s (th_call <$> ts) evs -> cp_env cp s ts b = Some (s', o) ->
    exists g', ds_inv g' s' (th_call <$> ts) (evs ++ (pair None <$> o)) /\ forall j, ds_view g' s' j = ds_view g s j;
  ds_act g s cs evs i c a X (e : E X) x s' o :
    ds_inv g s cs evs -> cs !! i = Some c -> pre (ds_contract c) e (ds_view g s i) -> cp_perform cp X i a s e = Some (x, s', o) ->
    exists g', ds_inv g' s' cs (evs ++ (pair (Some i) <$> o)) /\ post (ds_contract c) e (ds_view g s i) x (ds_view g' s' i) /\
      forall j, j <> i -> ds_view g' s' j = ds_view g s j
}.

Context {cp : component} (D : discipline cp).

(** What holds of the pool: the invariant, and for every thread that what it
    has left keeps its contract from its view on. *)
Record pool_ok (g : G) (p : pool) (outs : list pool_output) : Prop := {
  po_inv : ds_inv cp D g (pl_shared p) (th_call <$> pl_threads p) (acts outs);
  po_left i c q : pl_threads p !! i = Some (mkThread c (Some q)) ->
    wp (ds_contract cp D c) q (ds_post cp D c) (ds_view cp D g (pl_shared p) i);
  po_over i c : pl_threads p !! i = Some (mkThread c None) ->
    exists r, OReturned i r ∈ outs /\ ds_post cp D c r (ds_view cp D g (pl_shared p) i);
  po_returned i r : OReturned i r ∈ outs ->
    exists c, pl_threads p !! i = Some (mkThread c None) /\ ds_post cp D c r (ds_view cp D g (pl_shared p) i);
  po_rest i : pl_threads p !! i = None -> ds_view cp D g (pl_shared p) i = ds_start cp D
}.

Lemma pool_ok_new g s :
  ds_inv cp D g s [] [] -> (forall i, ds_view cp D g s i = ds_start cp D) -> pool_ok g (mkPool s []) [].
Proof. intros Hi Hv. constructor; cbn; try done. intros i r Hin. by inversion Hin. Qed.

Lemma pool_ok_call g p outs c :
  pool_ok g p outs -> cp_may cp c (pl_shared p) (pl_threads p) = true ->
  pool_ok g (mkPool (pl_shared p) (pl_threads p ++ [mkThread c (Some (cp_program cp c))])) outs.
Proof.
  intros Hok Hm. set (l := mkThread c (Some (cp_program cp c))).
  assert (pl_threads p !! length (pl_threads p) = None) as Hn by by apply lookup_ge_None.
  assert (forall i t, (pl_threads p ++ [l]) !! i = Some t ->
    pl_threads p !! i = Some t \/ (i = length (pl_threads p) /\ t = l)) as Hat.
  { intros i t [Hl|[Hge Hl]]%lookup_app_Some; [by left|]. apply list_lookup_singleton_Some in Hl as [? <-]. right. split; [lia|done]. }
  assert (forall i t, pl_threads p !! i = Some t -> (pl_threads p ++ [l]) !! i = Some t) as Hold
    by (intros; by apply lookup_app_l_Some).
  constructor; cbn [pl_shared pl_threads].
  - pose proof (ds_call cp D g _ (pl_threads p) (acts outs) c (po_inv _ _ _ Hok) Hm) as Hx. by rewrite fmap_app in Hx |- *.
  - intros i c1 q [Hl|[-> [= -> ->]]]%Hat; [by apply (po_left _ _ _ Hok)|].
    rewrite (po_rest _ _ _ Hok _ Hn). apply ds_program.
  - intros i c1 [Hl|[_ [=]]]%Hat. by apply (po_over _ _ _ Hok).
  - intros i r Hr. destruct (po_returned _ _ _ Hok i r Hr) as (c1 & Hl & Hp). exists c1. auto.
  - intros i Hl. apply (po_rest _ _ _ Hok). destruct (pl_threads p !! i) eqn:Ei; [|done]. apply Hold in Ei. congruence.
Qed.

(** A thread goes on to [left']; the views of the others stay. *)
Lemma pool_ok_thread g g' p outs n c q left' s o :
  pool_ok g p outs -> pl_threads p !! n = Some (mkThread c (Some q)) ->
  ds_inv cp D g' s (th_call <$> pl_threads p) (acts (outs ++ o)) ->
  (forall j, j <> n -> ds_view cp D g' s j = ds_view cp D g (pl_shared p) j) ->
  match left' with
  | Some q' => wp (ds_contract cp D c) q' (ds_post cp D c) (ds_view cp D g' s n) /\ forall i r, OReturned i r ∉ o
  | None => exists r, o = [OReturned n r] /\ ds_post cp D c r (ds_view cp D g' s n)
  end ->
  pool_ok g' (with_thread n (mkThread c left') s p) (outs ++ o).
Proof.
  intros Hok Hn Hinv Hv Hl.
  assert (n < length (pl_threads p))%nat as Hlen by by eapply lookup_lt_Some.
  assert (forall i t, <[n := mkThread c left']> (pl_threads p) !! i = Some t ->
    i = n /\ t = mkThread c left' \/ i <> n /\ pl_threads p !! i = Some t) as Hat.
  { intros i t [(-> & -> & _)|[Hne Hi]]%list_lookup_insert_Some; [by left|right]. split; [by intros ->|done]. }
  constructor; cbn [pl_shared pl_threads with_thread].
  - rewrite list_fmap_insert. cbn. rewrite list_insert_id; [done|]. by rewrite list_lookup_fmap, Hn.
  - intros i c1 q1 [[-> Et]|[Hne Hi]]%Hat; [injection Et as -> <-; by destruct Hl|]. rewrite Hv by done. by apply (po_left _ _ _ Hok).
  - intros i c1 [[-> Et]|[Hne Hi]]%Hat.
    + injection Et as -> <-. destruct Hl as (r & -> & Hp). exists r. split; [|done]. apply elem_of_app. right. by apply list_elem_of_singleton.
    + destruct (po_over _ _ _ Hok i c1 Hi) as (r & Hr & Hp). exists r. rewrite Hv by done. split; [|done]. apply elem_of_app. by left.
  - assert (forall i r, OReturned i r ∈ outs -> exists c1, <[n := mkThread c left']> (pl_threads p) !! i = Some (mkThread c1 None) /\
      ds_post cp D c1 r (ds_view cp D g' s i)) as Hold.
    { intros i r Hr. destruct (po_returned _ _ _ Hok i r Hr) as (c1 & Hi & Hp). exists c1.
      assert (i <> n) as Hne by (intros ->; congruence). by rewrite Hv, list_lookup_insert_ne by done. }
    intros i r [Hr|Hr]%elem_of_app; [by apply Hold|]. destruct left' as [q'|]; [by apply Hl in Hr|].
    destruct Hl as (r' & -> & Hp). apply list_elem_of_singleton in Hr as [= -> ->]. exists c. by rewrite list_lookup_insert_eq.
  - intros i Hi. assert (i <> n) as Hne by (intros ->; by rewrite list_lookup_insert_eq in Hi).
    rewrite list_lookup_insert_ne in Hi by done. rewrite Hv by done. by apply (po_rest _ _ _ Hok).
Qed.

Lemma pool_ok_step g p outs i p' o :
  pool_ok g p outs -> pool_step cp p i = Some (p', o) -> exists g', pool_ok g' p' (outs ++ o).
Proof.
  intros Hok [(c & _ & Hm & -> & ->)|[(n & a & c & r & _ & Hn & -> & ->)|[(n & a & c & X & e & k & x & s & evs & _ & Hn & Hp & -> & ->)|
    (b & s & evs & _ & Hb & -> & ->)]]]%pool_step_cases.
  - exists g. rewrite app_nil_r. by apply pool_ok_call.
  - exists g. eapply pool_ok_thread; [done|exact Hn|..].
    + rewrite acts_app. cbn. rewrite app_nil_r. apply (po_inv _ _ _ Hok).
    + done.
    + exists r. split; [done|]. exact (po_left _ _ _ Hok n c _ Hn).
  - destruct (po_left _ _ _ Hok n c _ Hn) as [Hpre Hk].
    destruct (ds_act cp D g (pl_shared p) (th_call <$> pl_threads p) (acts outs) n c a X e x s evs) as (g' & Hi & Hx & Hv);
      [apply (po_inv _ _ _ Hok)|by rewrite list_lookup_fmap, Hn|done|done|].
    exists g'. eapply pool_ok_thread; [done|exact Hn|by rewrite acts_app, acts_of|done|]. split; [by apply Hk|].
    intros j r Hr. by apply list_elem_of_fmap in Hr as (? & ? & _).
  - destruct (ds_env cp D g (pl_shared p) (pl_threads p) (acts outs) b s evs (po_inv _ _ _ Hok) Hb) as (g' & Hi & Hv).
    exists g'. constructor; cbn [pl_shared pl_threads].
    + by rewrite acts_app, acts_env.
    + intros j c q Hl. rewrite Hv. by apply (po_left _ _ _ Hok).
    + intros j c Hl. destruct (po_over _ _ _ Hok j c Hl) as (r & Hr & Hp). exists r. rewrite Hv. split; [|done]. apply elem_of_app. by left.
    + intros j r [Hr|Hr]%elem_of_app; [|by apply list_elem_of_fmap in Hr as (? & ? & _)].
      destruct (po_returned _ _ _ Hok j r Hr) as (c & Hl & Hp). exists c. by rewrite Hv.
    + intros j Hl. rewrite Hv. by apply (po_rest _ _ _ Hok).
Qed.

(** Every interleaving keeps the discipline. *)
Lemma pool_ok_run ins g p outs p' outs' :
  pool_ok g p outs -> run (pool_step cp) p ins = Some (p', outs') -> exists g', pool_ok g' p' (outs ++ outs').
Proof.
  intros Hok. revert ins p' outs'. apply (run_ind (pool_step cp) p (fun p' _ outs' => exists g', pool_ok g' p' (outs ++ outs'))).
  - exists g. by rewrite app_nil_r.
  - intros p1 ins outs1 i p2 o _ [g1 Hok1] Hs. rewrite app_assoc. by eapply pool_ok_step.
Qed.

Lemma pool_sound g s ins p outs :
  ds_inv cp D g s [] [] -> (forall i, ds_view cp D g s i = ds_start cp D) ->
  pool_run cp s ins = Some (p, outs) -> exists g', pool_ok g' p outs.
Proof. intros Hi Hv Hr. by apply (pool_ok_run ins g (mkPool s []) [] p outs); [apply pool_ok_new|]. Qed.

(** ** Returning *)

(** [P c i s]: thread [i], of call [c], may go on alone in [s] when every access is
    answered by [a]. *)
Section returning.
Context (a : A) (P : C -> nat -> S -> Prop).
Hypothesis alone_enabled : forall g s cs evs i c X (e : E X),
  ds_inv cp D g s cs evs -> cs !! i = Some c -> pre (ds_contract cp D c) e (ds_view cp D g s i) -> P c i s ->
  exists x s' o, cp_perform cp X i a s e = Some (x, s', o) /\ P c i s'.

Lemma finish_thread g p outs i c q :
  pool_ok g p outs -> pl_threads p !! i = Some (mkThread c (Some q)) -> P c i (pl_shared p) ->
  exists ins p' outs' g', run (pool_step cp) p ins = Some (p', outs') /\ (forall x, x ∈ ins -> x = PStep i a) /\
    pl_threads p' = <[i := mkThread c None]> (pl_threads p) /\ P c i (pl_shared p') /\ pool_ok g' p' (outs ++ outs').
Proof.
  revert g p outs. induction q as [r|X e k IH]; intros g p outs Hok Hi HP.
  - assert (pool_step cp p (PStep i a) = Some (with_thread i (mkThread c None) (pl_shared p) p, [OReturned i r])) as Hs
      by (cbn [pool_step]; by rewrite Hi).
    destruct (pool_ok_step _ _ _ _ _ _ Hok Hs) as [g' Hok'].
    exists [PStep i a], (with_thread i (mkThread c None) (pl_shared p) p), [OReturned i r], g'.
    split; [cbn [run]; by rewrite Hs|]. split; [by intros x ->%list_elem_of_singleton|]. done.
  - destruct (po_left _ _ _ Hok i c _ Hi) as [Hpre _].
    destruct (alone_enabled g (pl_shared p) (th_call <$> pl_threads p) (acts outs) i c X e) as (x & s & o & Hp & HP');
      [apply (po_inv _ _ _ Hok)|by rewrite list_lookup_fmap, Hi|done|done|].
    assert (pool_step cp p (PStep i a) = Some (with_thread i (mkThread c (Some (k x))) s p, OAct i <$> o)) as Hs
      by (cbn [pool_step]; by rewrite Hi, Hp).
    destruct (pool_ok_step _ _ _ _ _ _ Hok Hs) as [g1 Hok1].
    destruct (IH x g1 (with_thread i (mkThread c (Some (k x))) s p) (outs ++ (OAct i <$> o))) as (ins & p' & outs' & g' & Hr & Hin & Ht & HP1 & Hok'); [done| |done|].
    { cbn. apply list_lookup_insert_eq. by eapply lookup_lt_Some. }
    exists (PStep i a :: ins), p', ((OAct i <$> o) ++ outs'), g'. split; [cbn [run]; by rewrite Hs, Hr|].
    split; [intros y [->|Hy]%elem_of_cons; [done|by apply Hin]|].
    split; [rewrite Ht; cbn; by rewrite list_insert_insert_eq|]. split; [done|]. by rewrite app_assoc.
Qed.

Definition running (p : pool) : nat := length (List.filter in_progress (pl_threads p)).

Lemma running_insert (l : list thread) i c q :
  l !! i = Some (mkThread c (Some q)) ->
  length (List.filter in_progress l) = Datatypes.S (length (List.filter in_progress (<[i := mkThread c None]> l))).
Proof.
  revert i. induction l as [|t l IH]; intros i; [done|]. destruct i as [|i]; cbn [lookup list_lookup].
  - intros [= ->]. done.
  - intros Hi. cbn. destruct (in_progress t); cbn; by rewrite (IH i Hi).
Qed.

Lemma running_none p : running p = 0%nat -> forall t, t ∈ pl_threads p -> th_left t = None.
Proof.
  unfold running. induction (pl_threads p) as [|t l IH]; cbn; [intros _ t Hin; by inversion Hin|]. unfold in_progress at 1.
  destruct (th_left t) eqn:Et; [done|]. intros Hn t1 [->|Hin]%elem_of_cons; [done|auto].
Qed.

Lemma running_some p n : running p = Datatypes.S n -> exists i c q, pl_threads p !! i = Some (mkThread c (Some q)).
Proof.
  unfold running. intros En. assert (exists t, In t (pl_threads p) /\ in_progress t = true) as (t & Hin & Ht).
  { destruct (List.filter in_progress (pl_threads p)) as [|t l] eqn:Ef; [done|]. exists t.
    apply filter_In. rewrite Ef. by left. }
  apply list_elem_of_In, list_elem_of_lookup in Hin as [i Hi]. destruct t as [c [q|]]; [|done]. by exists i, c, q.
Qed.

(** While a call is in progress, one of them may go on alone; [Q] is what the
    shared state needs for it. *)
Context (Q : S -> Prop).
Hypothesis alone_keeps : forall c i s, P c i s -> Q s.
Hypothesis someone_alone : forall g p outs, pool_ok g p outs -> Q (pl_shared p) ->
  (exists i c q, pl_threads p !! i = Some (mkThread c (Some q))) ->
  exists i c q, pl_threads p !! i = Some (mkThread c (Some q)) /\ P c i (pl_shared p).

Lemma all_can_return g p outs :
  pool_ok g p outs -> Q (pl_shared p) ->
  exists ins p' outs', run (pool_step cp) p ins = Some (p', outs') /\ (forall x, x ∈ ins -> exists i, x = PStep i a) /\
    Q (pl_shared p') /\ forall t, t ∈ pl_threads p' -> th_left t = None.
Proof.
  remember (running p) as n eqn:En. revert g p outs En. induction n as [|n IH]; intros g p outs En Hok HP.
  { exists [], p, []. split; [done|]. split; [intros x Hx; by inversion Hx|]. split; [done|by apply running_none]. }
  destruct (someone_alone g p outs Hok HP) as (i & c & q & Hi & HPi); [by eapply running_some|].
  destruct (finish_thread g p outs i c q Hok Hi HPi) as (ins & p1 & outs1 & g1 & Hr & Hin & Ht & HP1 & Hok1).
  destruct (IH g1 p1 (outs ++ outs1)) as (ins2 & p2 & outs2 & Hr2 & Hin2 & Hd); [|done|by eapply alone_keeps|].
  { unfold running in *. rewrite Ht. pose proof (running_insert _ _ _ _ Hi). lia. }
  exists (ins ++ ins2), p2, (outs1 ++ outs2). split; [by rewrite run_app, Hr, Hr2|]. split; [|done].
  intros x [Hx|Hx]%elem_of_app; [exists i; by apply Hin|by apply Hin2].
Qed.

End returning.
End threads.

(** ** Sections of a mutex *)

(** What the threads did while they had a mutex, section by section; a thread
    has it once. *)
Section sections.
Context {T : Type}.

Definition tagged (b : nat * list T) : list (option nat * T) := pair (Some (fst b)) <$> snd b.

(** The section of a thread, once it is over. *)
Definition section_done (i : nat) (sections : list (nat * list T)) : option (list T) :=
  snd <$> List.find (fun b => fst b =? i)%nat sections.

Lemma section_done_app i (l : list (nat * list T)) j evs :
  section_done i l = None -> section_done j (l ++ [(i, evs)]) = if decide (j = i) then Some evs else section_done j l.
Proof.
  unfold section_done. induction l as [|[k b] l IH]; cbn.
  - intros _. case_decide as E; [subst; by rewrite Nat.eqb_refl|]. by destruct (Nat.eqb_spec i j).
  - destruct (Nat.eqb_spec k i) as [->|Hk]; [done|]. intros Hn. destruct (Nat.eqb_spec k j) as [->|]; [|by apply IH].
    by rewrite decide_False by done.
Qed.

Lemma section_done_none i (l : list (nat * list T)) : section_done i l = None -> i ∉ l.*1.
Proof.
  unfold section_done. induction l as [|[k b] l IH]; cbn; [intros _ Hin; by inversion Hin|].
  destruct (Nat.eqb_spec k i) as [|Hne]; [done|]. intros Hn%IH [Hk|Hk]%elem_of_cons; [by apply Hne|done].
Qed.

Lemma section_done_in i b (l : list (nat * list T)) : NoDup l.*1 -> (i, b) ∈ l -> section_done i l = Some b.
Proof.
  unfold section_done. induction l as [|[k c] l IH]; cbn; [intros _ Hin; by inversion Hin|].
  intros [Hk Hn]%NoDup_cons [E|Hin]%elem_of_cons; [injection E as -> ->; by rewrite Nat.eqb_refl|].
  destruct (Nat.eqb_spec k i) as [->|Hne]; [|by apply IH]. destruct Hk. apply list_elem_of_fmap. by exists (i, b).
Qed.

Lemma sections_once i evs (l : list (nat * list T)) :
  section_done i l = None -> NoDup l.*1 -> NoDup (l ++ [(i, evs)]).*1.
Proof.
  intros Hd Hn. rewrite fmap_app. apply NoDup_app. split; [done|]. split; [|by apply NoDup_singleton].
  intros j Hin ->%list_elem_of_singleton. by apply (section_done_none i _ Hd).
Qed.

End sections.

Arguments thread : clear implicits.
Arguments pool : clear implicits.
Arguments pool_input : clear implicits.
Arguments pool_output : clear implicits.
Arguments component : clear implicits.
