(* ===== verification/Downstream.v ===== *)
(** * The downstream receiver and settlement

    Models the downstream half of src/internal/queue_stream_impl.h and
    src/client_queues_stream.cc: polling a queue over one bidirectional
    stream, the messages and the response it yields, and their settlement
    through the stream the receiver owns.  The stream is the interface
    [DownstreamStream]; a message holds its handle as a weak pointer. *)

From Stdlib Require Import ZArith Lia Ascii String Floats.
From S2P Require Import Prelude Status ErrorMapper Validation Random Uuid Double.
From S2P Require Import Backoff StateMachine Auth Tls ClientOptions Messages Proto.
From S2P Require Import Converter Transport Calls Client.

Local Open Scope string_scope.
Local Open Scope Z_scope.
Local Open Scope kubemq_scope.

(** ** The stream *)

Class DownstreamStream (W : Type) := {
  ds_lock : nat -> M W bool;          (* weak_ptr::lock(): the stream still exists *)
  ds_write : nat -> pb_QueuesDownstreamRequest -> M W bool;
  ds_read : nat -> M W (option pb_QueuesDownstreamResponse);
  ds_writes_done : nat -> M W bool
}.

(** ** Data *)

Record PollRequest := mkPollRequest {
  poll_channel : string;
  max_items : Z;
  wait_timeout_seconds : Z;
  auto_ack : bool
}.

Definition PollRequest_default : PollRequest := mkPollRequest "" 1 5 false.

Record QueueDownstreamReceiver := mkReceiver {
  rcv_stream : option nat;
  rcv_client_id : string;          (* opts.client_id() *)
  rcv_closed : bool
}.

Record QueueDownstreamMessage := mkDownstreamMessage {
  dm_message : QueueMessage;
  dm_transaction_id : string;
  dm_sequence : Z;                 (* uint64_t *)
  dm_auto_ack : bool;
  dm_stream : option nat;          (* the weak pointer *)
  dm_stream_mu : bool              (* stream_mu is not null *)
}.

Record PollResponse := mkPollResponse {
  pr_transaction_id : string;
  pr_messages : list QueueDownstreamMessage;
  pr_is_error : bool;
  pr_error : string;
  pr_auto_ack : bool;
  pr_transaction_complete : bool;
  pr_receiver : option QueueDownstreamReceiver;
  pr_stream : option nat;
  pr_stream_mu : bool
}.

(** [static_cast] of a request number. *)
Definition downstream_request_type (n : Z) : QueuesDownstreamRequestType :=
  match n with
  | 1 => Get | 2 => AckAll | 3 => AckRange | 4 => NAckAll | 5 => NAckRange | 6 => ReQueueAll
  | 7 => ReQueueRange | 8 => ActiveOffsets | 9 => TransactionStatus | 10 => CloseByClient
  | 11 => CloseByServer | _ => PollRequestTypeUnknown
  end.

Section downstream.
Context {W : Type} `{DownstreamStream W, Random W}.

(** [stream.lock()]; an empty weak pointer gives null. *)
Definition lock_stream (stream : option nat) : M W (option nat) :=
  match stream with
  | None => ret None
  | Some h => let! alive := ds_lock h in ret (if alive then Some h else None)
  end.

(** ** Settlement *)

Definition settle_request (id : string) (request_type : Z) (transaction_id : string)
    (sequences : list Z) (requeue_channel : string) : pb_QueuesDownstreamRequest :=
  mk_pb_QueuesDownstreamRequest id "" (downstream_request_type request_type) "" 0 0 false
    (if negb (str_empty requeue_channel) then requeue_channel else "") sequences transaction_id ∅.

Definition SendSettle (request_type : Z) (requeue_channel : string) (m : QueueDownstreamMessage)
    : M W Status :=
  let op := "QueueDownstreamMessage::Settle" in
  if dm_auto_ack m then ret (mkStatus kValidation "cannot settle: poll used AutoAck" op "" "")
  else
    let! s := lock_stream (dm_stream m) in
    match s with
    | None => ret (mkStatus kFatal "receiver has been destroyed; settlement no longer possible" op "" "")
    | Some h =>
        if str_empty (dm_transaction_id m) then
          ret (mkStatus kValidation "message has no transaction ID" op "" "")
        else
          let! id := GenerateUUID in
          let req := settle_request id request_type (dm_transaction_id m) [to_int64 (dm_sequence m)]
                       requeue_channel in
          if negb (dm_stream_mu m) then ret (mkStatus kFatal "no stream mutex available" op "" "")
          else
            let! written := ds_write h req in
            ret (if written then StatusOk
                 else mkStatus kTransient "failed to write settlement to downstream stream" op "" "")
    end.

Definition Message_Ack (m : QueueDownstreamMessage) : M W Status := SendSettle 3 "" m.
Definition Message_Nack (m : QueueDownstreamMessage) : M W Status := SendSettle 5 "" m.
Definition Message_ReQueue (channel : string) (m : QueueDownstreamMessage) : M W Status :=
  if str_empty channel then
    ret (mkStatus kValidation "requeue channel is required" "QueueDownstreamMessage::ReQueue" "" "")
  else SendSettle 7 channel m.

(** A batch request names no sequence: the transaction stands for all. *)
Definition SendSettleAll (request_type : Z) (requeue_channel : string) (p : PollResponse)
    : M W Status :=
  let op := "PollResponse::Settle" in
  if pr_auto_ack p then ret (mkStatus kValidation "cannot settle: poll used AutoAck" op "" "")
  else
    let! s := lock_stream (pr_stream p) in
    match s with
    | None => ret (mkStatus kFatal "receiver has been destroyed; settlement no longer possible" op "" "")
    | Some h =>
        if str_empty (pr_transaction_id p) then ret (mkStatus kValidation "no transaction ID" op "" "")
        else
          match pr_messages p with
          | [] => ret StatusOk
          | _ =>
              let! id := GenerateUUID in
              let req := settle_request id request_type (pr_transaction_id p) [] requeue_channel in
              if negb (pr_stream_mu p) then ret (mkStatus kFatal "no stream mutex available" op "" "")
              else
                let! written := ds_write h req in
                ret (if written then StatusOk
                     else mkStatus kTransient "failed to write settlement to downstream stream" op "" "")
          end
    end.

Definition Response_AckAll (p : PollResponse) : M W Status := SendSettleAll 2 "" p.
Definition Response_NackAll (p : PollResponse) : M W Status := SendSettleAll 4 "" p.
Definition Response_ReQueueAll (channel : string) (p : PollResponse) : M W Status :=
  if str_empty channel then
    ret (mkStatus kValidation "requeue channel is required" "PollResponse::ReQueueAll" "" "")
  else SendSettleAll 6 channel p.

(** ** Polling *)

Definition poll_request (id client_id : string) (r : PollRequest) : pb_QueuesDownstreamRequest :=
  mk_pb_QueuesDownstreamRequest id client_id Get (poll_channel r) (max_items r)
    (wait_timeout_seconds r) (auto_ack r) "" [] "" ∅.

(** One message of the response. *)
Definition downstream_message (tx : string) (aa : bool) (stream : option nat) (p : pb_QueueMessage)
    : M W QueueDownstreamMessage :=
  let! message := QueueMessageFromProto p in
  ret (mkDownstreamMessage message tx
         (match pbQueueMessage_attributes p with
          | Some a => pbQueueMessageAttributes_sequence a
          | None => 0
          end) aa stream true).

Fixpoint downstream_messages (tx : string) (aa : bool) (stream : option nat) (ps : list pb_QueueMessage)
    : M W (list QueueDownstreamMessage) :=
  match ps with
  | [] => ret []
  | p :: ps' =>
      let! m := downstream_message tx aa stream p in
      let! ms := downstream_messages tx aa stream ps' in
      ret (m :: ms)
  end.

(** A receiver always has a stream ([NewQueueDownstreamReceiver] is the only
    way to make one); without one the source dereferences null. *)
Definition Poll (rcv : QueueDownstreamReceiver) (h : nat) (request : PollRequest)
    : M W (StatusOr PollResponse) :=
  let op := "QueueDownstreamReceiver::Poll" in
  if rcv_closed rcv then ret (SError (mkStatus kFatal "downstream receiver is closed" op "" ""))
  else
    let channel := poll_channel request in
    check? ret (ValidateChannel channel op) in
    let! id := GenerateUUID in
    let! written := ds_write h (poll_request id (rcv_client_id rcv) request) in
    if negb written then
      ret (SError (mkStatus kTransient "failed to write poll request to downstream stream" op channel ""))
    else
      let! read := ds_read h in
      match read with
      | None =>
          ret (SError (mkStatus kTransient "failed to read poll response from downstream stream" op
                         channel ""))
      | Some resp =>
          if pbQueuesDownstreamResponse_iserror resp then
            ret (SError (mkStatus kFatal (pbQueuesDownstreamResponse_error resp) op channel ""))
          else
            let tx := pbQueuesDownstreamResponse_transactionid resp in
            let! messages := downstream_messages tx (auto_ack request) (Some h)
                               (pbQueuesDownstreamResponse_messages resp) in
            ret (SValue (mkPollResponse tx messages (pbQueuesDownstreamResponse_iserror resp)
                           (pbQueuesDownstreamResponse_error resp) (auto_ack request)
                           (pbQueuesDownstreamResponse_transactioncomplete resp) None (Some h) true))
      end.

(** [Close], which the destructor also calls. *)
Definition Receiver_Close (rcv : QueueDownstreamReceiver) : M W QueueDownstreamReceiver :=
  let rcv' := mkReceiver (rcv_stream rcv) (rcv_client_id rcv) true in
  if rcv_closed rcv then ret rcv'
  else
    match rcv_stream rcv with
    | None => ret rcv'
    | Some h =>
        let! id := GenerateUUID in
        let! _ := ds_write h (mk_pb_QueuesDownstreamRequest id "" CloseByClient "" 0 0 false "" [] "" ∅) in
        let! _ := ds_writes_done h in
        ret rcv'
    end.

(** ** The client's operations *)

Definition NewQueueDownstreamReceiver `{Grpc W, Providers W} (c : Client)
    : M W (StatusOr (QueueDownstreamReceiver * nat)) :=
  check? ret (Client_CheckClosed c) in
  let? stream := OpenQueueDownstream (transport c) in
  ret (SValue (mkReceiver (Some stream) (client_id_ (opts c)) false, stream)).

(** On failure the receiver is destroyed; on success the response owns it. *)
Definition PollQueue `{Grpc W, Providers W} (c : Client) (request : PollRequest)
    : M W (StatusOr PollResponse) :=
  let? receiver := NewQueueDownstreamReceiver c in
  let! poll_result := Poll (fst receiver) (snd receiver) request in
  match poll_result with
  | SError s => let! _ := Receiver_Close (fst receiver) in ret (SError s)
  | SValue p =>
      ret (SValue (mkPollResponse (pr_transaction_id p) (pr_messages p) (pr_is_error p) (pr_error p)
                     (pr_auto_ack p) (pr_transaction_complete p) (Some (fst receiver)) (pr_stream p)
                     (pr_stream_mu p)))
  end.

(** Destroying a response destroys the receiver it owns. *)
Definition PollResponse_destroy (p : PollResponse) : M W unit :=
  match pr_receiver p with
  | None => ret tt
  | Some rcv => let! _ := Receiver_Close rcv in ret tt
  end.

End downstream.

(** ** Observing the stream *)

Inductive DsEvent :=
  | DsWrite (stream : nat) (req : pb_QueuesDownstreamRequest) (written : bool)
  | DsRead (stream : nat) (resp : option pb_QueuesDownstreamResponse)
  | DsWritesDone (stream : nat).

Abbreviation ds_log := (list DsEvent).
Abbreviation DsLogged W := (W * ds_log)%type.

Definition ds_lift {W A} (m : M W A) : M (DsLogged W) A :=
  fun wl => let '(a, w') := m (fst wl) in (a, (w', snd wl)).

Definition ds_record {W A} (event : A -> DsEvent) (m : M W A) : M (DsLogged W) A :=
  fun wl => let '(a, w') := m (fst wl) in (a, (w', snd wl ++ [event a])%list).

#[export] Instance ds_logged_stream {W} `{DownstreamStream W} : DownstreamStream (DsLogged W) := {|
  ds_lock h := ds_lift (ds_lock h);
  ds_write h req := ds_record (DsWrite h req) (ds_write h req);
  ds_read h := ds_record (DsRead h) (ds_read h);
  ds_writes_done h := ds_record (fun _ => DsWritesDone h) (ds_writes_done h)
|}.

#[export] Instance ds_logged_random {W} `{Random W} : Random (DsLogged W).
Proof.
  refine {| next_u64 := ds_lift next_u64; uniform_int lo hi := ds_lift (uniform_int lo hi) |}.
  - intros [w l]. pose proof (next_u64_range w). unfold ds_lift. cbn. by destruct (next_u64 w).
  - intros lo hi [w l] Hle. pose proof (uniform_int_range lo hi w Hle). unfold ds_lift. cbn.
    by destruct (uniform_int lo hi w).
Defined.

Section contract.
Context {W : Type} `{DownstreamStream W, Random W}.

(** A computation over the logged world that leaves the log alone. *)
Definition ds_silent {A} (m : M (DsLogged W) A) (Q : A -> Prop) : Prop :=
  forall w log, exists a w', m (w, log) = (a, (w', log)) /\ Q a.

Lemma ds_silent_ret {A} (a : A) (Q : A -> Prop) : Q a -> ds_silent (ret a) Q.
Proof. intros HQ w log. by exists a, w. Qed.

Lemma ds_silent_bind {A B} (m : M (DsLogged W) A) (k : A -> M (DsLogged W) B) Q R :
  ds_silent m Q -> (forall a, Q a -> ds_silent (k a) R) -> ds_silent (let! a := m in k a) R.
Proof.
  intros Hm Hk w log. unfold bind. destruct (Hm w log) as (a & w1 & -> & HQ). apply (Hk a HQ).
Qed.

Lemma ds_silent_next_u64 : ds_silent next_u64 (fun _ => True).
Proof. intros w log. unfold next_u64 at 1, ds_logged_random, ds_lift. cbn. destruct (next_u64 w). eauto. Qed.

Lemma ds_silent_uuid : ds_silent GenerateUUID (fun id => str_empty id = false).
Proof.
  intros w log. pose proof (GenerateUUID_not_empty (w, log)) as He.
  assert (ds_silent GenerateUUID (fun _ => True)) as Hs.
  { unfold GenerateUUID. eapply ds_silent_bind; [apply ds_silent_next_u64|intros a _].
    eapply ds_silent_bind; [apply ds_silent_next_u64|intros b _]. by apply ds_silent_ret. }
  destruct (Hs w log) as (id & w' & E & _). rewrite E in He. eauto.
Qed.

Lemma ds_silent_lift {A} (m : M W A) : ds_silent (ds_lift m) (fun _ => True).
Proof. intros w log. unfold ds_lift. cbn. destruct (m w) as [a w']. eauto. Qed.

(** *** Settlement *)

Inductive SettleOp :=
  | SAck | SNack | SReQueue (channel : string)
  | SAckAll | SNackAll | SReQueueAll (channel : string).

(** The request type each operation stands for, and the channel. *)
Definition settle_type (o : SettleOp) : QueuesDownstreamRequestType :=
  match o with
  | SAck => AckRange | SNack => NAckRange | SReQueue _ => ReQueueRange
  | SAckAll => AckAll | SNackAll => NAckAll | SReQueueAll _ => ReQueueAll
  end.

Definition settle_channel (o : SettleOp) : string :=
  match o with SReQueue ch | SReQueueAll ch => ch | _ => "" end.

Definition is_requeue (o : SettleOp) : bool :=
  match o with SReQueue _ | SReQueueAll _ => true | _ => false end.

Definition on_batch (o : SettleOp) : bool :=
  match o with SAckAll | SNackAll | SReQueueAll _ => true | _ => false end.

(** What is settled: the message, or the whole response it came with. *)
Definition settle {V} `{DownstreamStream V, Random V} (o : SettleOp) (m : QueueDownstreamMessage)
    (p : PollResponse) : M V Status :=
  match o with
  | SAck => Message_Ack m | SNack => Message_Nack m | SReQueue ch => Message_ReQueue ch m
  | SAckAll => Response_AckAll p | SNackAll => Response_NackAll p
  | SReQueueAll ch => Response_ReQueueAll ch p
  end.

(** The request expected of it. *)
Definition settle_expected (o : SettleOp) (m : QueueDownstreamMessage) (p : PollResponse) (id : string)
    : pb_QueuesDownstreamRequest :=
  mk_pb_QueuesDownstreamRequest id "" (settle_type o) "" 0 0 false (settle_channel o)
    (if on_batch o then [] else [to_int64 (dm_sequence m)])
    (if on_batch o then pr_transaction_id p else dm_transaction_id m) ∅.

Definition settle_stream (o : SettleOp) (m : QueueDownstreamMessage) (p : PollResponse) : option nat :=
  if on_batch o then pr_stream p else dm_stream m.

(** Why nothing is written. *)
Definition settle_blocked (o : SettleOp) (m : QueueDownstreamMessage) (p : PollResponse) : Prop :=
  (is_requeue o = true /\ settle_channel o = "") \/
  (if on_batch o then pr_auto_ack p = true \/ pr_transaction_id p = "" \/ pr_stream p = None \/
                      pr_messages p = [] \/ pr_stream_mu p = false
   else dm_auto_ack m = true \/ dm_transaction_id m = "" \/ dm_stream m = None \/ dm_stream_mu m = false).

(** The receiver the message came from is gone. *)
Definition expired (stream : option nat) (w : W) : Prop :=
  exists h, stream = Some h /\ fst (ds_lock h w) = false.

(** One request written on [h], with the status that tells whether it was. *)
Definition one_write (h : nat) (req : string -> pb_QueuesDownstreamRequest) (s : Status)
    (log log' : ds_log) : Prop :=
  exists id written, str_empty id = false /\ log' = (log ++ [DsWrite h (req id) written])%list /\
    status_ok s = written /\ (written = false -> code_ s = kTransient).

(** The lock on the logged world is the lock. *)
Lemma lock_stream_logged stream (w : W) (log : ds_log) :
  (lock_stream stream (w, log) = (None, (w, log)) /\ stream = None) \/
  exists h, stream = Some h /\
    lock_stream stream (w, log) =
      (if fst (ds_lock h w) then Some h else None, (snd (ds_lock h w), log)).
Proof.
  destruct stream as [h|]; [right|by left]. exists h. split; [done|].
  unfold lock_stream, bind, ret. cbn. unfold ds_lift. cbn. by destruct (ds_lock h w).
Qed.

Lemma SendSettle_spec n ch m w log :
  let '(s, (_, log')) := SendSettle n ch m (w, log) in
  (log' = log /\ status_ok s = false /\
   (dm_auto_ack m = true \/ dm_transaction_id m = "" \/ dm_stream m = None \/ dm_stream_mu m = false \/
    expired (dm_stream m) w)) \/
  exists h, dm_stream m = Some h /\ fst (ds_lock h w) = true /\ dm_auto_ack m = false /\ str_empty (dm_transaction_id m) = false /\
    dm_stream_mu m = true /\
    one_write h (fun id => settle_request id n (dm_transaction_id m) [to_int64 (dm_sequence m)] ch) s log log'.
Proof.
  unfold SendSettle. destruct (dm_auto_ack m); [by left; auto|]. unfold bind.
  destruct (lock_stream_logged (dm_stream m) w log) as [[-> ?]|(h & Eh & ->)]; [left; cbn; auto 6|].
  destruct (fst (ds_lock h w)) eqn:El; [|left; unfold expired; cbn; eauto 10].
  destruct (str_empty (dm_transaction_id m)) eqn:E; [left; apply str_empty_true in E; cbn; auto|].
  destruct (ds_silent_uuid (snd (ds_lock h w)) log) as (id & w2 & -> & Hid).
  destruct (dm_stream_mu m); [|left; cbn; auto 7].
  cbn [negb]. unfold ret, ds_write, ds_logged_stream, ds_record. cbn.
  destruct (ds_write h _ w2) as [b w3]. right. exists h.
  repeat (split; [done|]). exists id, b. by destruct b.
Qed.

Lemma SendSettleAll_spec n ch p w log :
  let '(s, (_, log')) := SendSettleAll n ch p (w, log) in
  (log' = log /\ (status_ok s = false \/ pr_messages p = []) /\
   (pr_auto_ack p = true \/ pr_transaction_id p = "" \/ pr_stream p = None \/ pr_messages p = [] \/
    pr_stream_mu p = false \/ expired (pr_stream p) w)) \/
  exists h, pr_stream p = Some h /\ fst (ds_lock h w) = true /\ pr_auto_ack p = false /\ str_empty (pr_transaction_id p) = false /\
    pr_messages p <> [] /\ pr_stream_mu p = true /\
    one_write h (fun id => settle_request id n (pr_transaction_id p) [] ch) s log log'.
Proof.
  unfold SendSettleAll. destruct (pr_auto_ack p); [by left; auto|]. unfold bind.
  destruct (lock_stream_logged (pr_stream p) w log) as [[-> ?]|(h & Eh & ->)]; [left; cbn; auto 7|].
  destruct (fst (ds_lock h w)) eqn:El; [|left; unfold expired; cbn; eauto 12].
  destruct (str_empty (pr_transaction_id p)) eqn:E; [left; apply str_empty_true in E; cbn; auto 7|].
  destruct (pr_messages p) as [|x ms]; [left; cbn; auto 8|].
  destruct (ds_silent_uuid (snd (ds_lock h w)) log) as (id & w2 & -> & Hid).
  destruct (pr_stream_mu p); [|left; cbn; auto 9].
  cbn [negb]. unfold ret, ds_write, ds_logged_stream, ds_record. cbn.
  destruct (ds_write h _ w2) as [b w3]. right. exists h.
  repeat (split; [done|]). exists id, b. by destruct b.
Qed.

Lemma settle_channel_kept ch : (if negb (str_empty ch) then ch else "") = ch.
Proof. by destruct ch. Qed.

(** The two specifications in the words of the theorem below. *)
Lemma settle_single n ch m p w log (rq : bool) ty :
  downstream_request_type n = ty -> (rq = true -> ch <> "") ->
  let '(s, (_, log')) := SendSettle n ch m (w, log) in
  (log' = log /\ (status_ok s = false \/ (false = true /\ pr_messages p = [])) /\
   (((rq = true /\ ch = "") \/
     (dm_auto_ack m = true \/ dm_transaction_id m = "" \/ dm_stream m = None \/ dm_stream_mu m = false)) \/
    expired (dm_stream m) w)) \/
  (exists h, dm_stream m = Some h /\ fst (ds_lock h w) = true /\
     ~ ((rq = true /\ ch = "") \/
        (dm_auto_ack m = true \/ dm_transaction_id m = "" \/ dm_stream m = None \/ dm_stream_mu m = false)) /\
     one_write h (fun id => mk_pb_QueuesDownstreamRequest id "" ty "" 0 0 false ch
                    [to_int64 (dm_sequence m)] (dm_transaction_id m) ∅) s log log').
Proof.
  intros <- Hch. pose proof (SendSettle_spec n ch m w log) as Hs.
  destruct (SendSettle n ch m (w, log)) as [s [w' log']].
  destruct Hs as [(-> & ? & ?)|(h & E1 & El & E2 & E3%str_empty_false & E4 & Hw)]; [left; tauto|].
  right. exists h. do 2 (split; [done|]). split; [intuition congruence|].
  unfold settle_request in Hw. by rewrite settle_channel_kept in Hw.
Qed.

Lemma settle_batch n ch p w log (rq : bool) ty :
  downstream_request_type n = ty -> (rq = true -> ch <> "") ->
  let '(s, (_, log')) := SendSettleAll n ch p (w, log) in
  (log' = log /\ (status_ok s = false \/ (true = true /\ pr_messages p = [])) /\
   (((rq = true /\ ch = "") \/
     (pr_auto_ack p = true \/ pr_transaction_id p = "" \/ pr_stream p = None \/ pr_messages p = [] \/
      pr_stream_mu p = false)) \/ expired (pr_stream p) w)) \/
  (exists h, pr_stream p = Some h /\ fst (ds_lock h w) = true /\
     ~ ((rq = true /\ ch = "") \/
        (pr_auto_ack p = true \/ pr_transaction_id p = "" \/ pr_stream p = None \/ pr_messages p = [] \/
         pr_stream_mu p = false)) /\
     one_write h (fun id => mk_pb_QueuesDownstreamRequest id "" ty "" 0 0 false ch [] (pr_transaction_id p) ∅)
       s log log').
Proof.
  intros <- Hch. pose proof (SendSettleAll_spec n ch p w log) as Hs.
  destruct (SendSettleAll n ch p (w, log)) as [s [w' log']].
  destruct Hs as [(-> & ? & ?)|(h & E1 & El & E2 & E3%str_empty_false & E4 & E5 & Hw)]; [left; tauto|].
  right. exists h. do 2 (split; [done|]). split; [intuition congruence|].
  unfold settle_request in Hw. by rewrite settle_channel_kept in Hw.
Qed.

Lemma settle_spec o m p w log :
  let '(s, (_, log')) := settle o m p (w, log) in
  (log' = log /\ (status_ok s = false \/ (on_batch o = true /\ pr_messages p = [])) /\
   (settle_blocked o m p \/ expired (settle_stream o m p) w)) \/
  (exists h, settle_stream o m p = Some h /\ fst (ds_lock h w) = true /\ ~ settle_blocked o m p /\
     one_write h (settle_expected o m p) s log log').
Proof.
  unfold settle_blocked, settle_stream, settle_expected.
  destruct o as [| |ch| | |ch]; cbn [settle on_batch is_requeue settle_channel settle_type].
  - by apply (settle_single 3 "" m p w log false).
  - by apply (settle_single 5 "" m p w log false).
  - unfold Message_ReQueue. destruct (str_empty ch) eqn:E; [left; apply str_empty_true in E; cbn; auto 6|]. apply str_empty_false in E.
    by apply (settle_single 7 ch m p w log true).
  - by apply (settle_batch 2 "" p w log false).
  - by apply (settle_batch 4 "" p w log false).
  - unfold Response_ReQueueAll. destruct (str_empty ch) eqn:E; [left; apply str_empty_true in E; cbn; auto 6|]. apply str_empty_false in E.
    by apply (settle_batch 6 ch p w log true).
Qed.

(** C6: settlement is guarded and exact. Each of the six settlement operations
    writes one request on the stream its message or response came from exactly
    when it was polled without auto-ack, has a transaction, the receiver's
    stream still exists and, for a batch, there is something to settle and, for
    a requeue, a channel; otherwise it writes nothing. The request has the
    right type, a fresh identifier, the transaction, the target channel and,
    for a single message, exactly its sequence. OK means written, or a batch
    with nothing in it; a write that fails is a transient error. *)
Theorem settlement_contract (o : SettleOp) (m : QueueDownstreamMessage) (p : PollResponse) (w : W)
    (log : ds_log) :
  let '(s, (_, log')) := settle o m p (w, log) in
  (log' = log /\ (status_ok s = false \/ (on_batch o = true /\ pr_messages p = [])) /\
   (settle_blocked o m p \/ expired (settle_stream o m p) w)) \/
  (exists h, settle_stream o m p = Some h /\ fst (ds_lock h w) = true /\ ~ settle_blocked o m p /\
     one_write h (settle_expected o m p) s log log').
Proof. apply settle_spec. Qed.


(** *** Polling *)

Lemma ds_silent_id given : ds_silent (id_or_uuid given) (fun _ => True).
Proof.
  unfold id_or_uuid. destruct (str_empty given); [|by apply ds_silent_ret].
  intros w log. destruct (ds_silent_uuid w log) as (id & w' & E & _). eauto.
Qed.

Lemma ds_silent_QueueMessageFromProto p :
  ds_silent (QueueMessageFromProto p) (fun m => exists wl : DsLogged W, m = fst (QueueMessageFromProto p wl)).
Proof.
  assert (ds_silent (QueueMessageFromProto p) (fun _ => True)) as Hs.
  { unfold QueueMessageFromProto, QueueMessage_Build.
    eapply ds_silent_bind with (Q := fun _ => True); [|by intros [[v|s] b] _; apply ds_silent_ret].
    repeat case_match; try by apply ds_silent_ret.
    eapply ds_silent_bind; [apply ds_silent_id|]. intros; by apply ds_silent_ret. }
  intros w log. destruct (Hs w log) as (m & w' & E & _). exists m, w'. split; [done|].
  exists (w, log). by rewrite E.
Qed.

(** One message of a response, as the application gets it. *)
Definition polled (tx : string) (aa : bool) (h : nat) (pm : pb_QueueMessage) (m : QueueDownstreamMessage)
    : Prop :=
  (exists wl : DsLogged W, dm_message m = fst (QueueMessageFromProto pm wl)) /\
  dm_transaction_id m = tx /\ dm_auto_ack m = aa /\ dm_stream m = Some h /\ dm_stream_mu m = true /\
  dm_sequence m = match pbQueueMessage_attributes pm with
                  | Some a => pbQueueMessageAttributes_sequence a | None => 0 end.

Lemma downstream_messages_spec tx aa h ps :
  ds_silent (downstream_messages tx aa (Some h) ps) (Forall2 (polled tx aa h) ps).
Proof.
  induction ps as [|p ps IH]; cbn; [by apply ds_silent_ret|].
  eapply ds_silent_bind with (Q := polled tx aa h p).
  - unfold downstream_message. eapply ds_silent_bind; [apply ds_silent_QueueMessageFromProto|].
    intros m Hm. by apply ds_silent_ret.
  - intros m Hm. eapply ds_silent_bind; [apply IH|]. intros ms Hms. apply ds_silent_ret. by constructor.
Qed.

(** C24: a poll asks once and hands over what it got. On a closed receiver, or
    for an invalid channel, it touches nothing and fails (fatal, validation).
    Otherwise it writes one Get request with its parameters and, if that was
    written, reads one response, whichever request that answers. A failed
    write or read is a transient error, a response that reports an error a
    fatal one with its text, so the response the caller gets never reports
    one. It has one message per message of the response, in order, each
    with the transaction, the request's auto-ack and the broker's sequence
    (0 when the message has no attributes). *)
Theorem poll_contract (rcv : QueueDownstreamReceiver) (h : nat) (request : PollRequest) (w : W)
    (log : ds_log) :
  let '(r, (_, log')) := Poll rcv h request (w, log) in
  let ask id := poll_request id (rcv_client_id rcv) request in
  if rcv_closed rcv then log' = log /\ code_ (statusor_status r) = kFatal
  else
    (~ valid_channel (poll_channel request) -> log' = log /\ code_ (statusor_status r) = kValidation) /\
    (valid_channel (poll_channel request) -> exists id, str_empty id = false /\
       ((log' = (log ++ [DsWrite h (ask id) false])%list /\ code_ (statusor_status r) = kTransient) \/
        exists resp, log' = (log ++ [DsWrite h (ask id) true; DsRead h resp])%list /\
          match resp, r with
          | None, SError s => code_ s = kTransient
          | Some resp, SError s =>
              pbQueuesDownstreamResponse_iserror resp = true /\ code_ s = kFatal /\
              message_ s = pbQueuesDownstreamResponse_error resp
          | Some resp, SValue p =>
              pr_is_error p = false /\ pbQueuesDownstreamResponse_iserror resp = false /\
              pr_transaction_id p = pbQueuesDownstreamResponse_transactionid resp /\
              pr_auto_ack p = auto_ack request /\ pr_stream p = Some h /\ pr_stream_mu p = true /\
              Forall2 (polled (pr_transaction_id p) (auto_ack request) h)
                (pbQueuesDownstreamResponse_messages resp) (pr_messages p)
          | None, SValue _ => False
          end)).
Proof.
  unfold Poll. destruct (rcv_closed rcv); [done|]. unfold check_statusor, bind, ret.
  pose proof (ValidateChannel_spec (poll_channel request) "QueueDownstreamReceiver::Poll") as Hv.
  destruct (status_ok (ValidateChannel _ _)) eqn:Ev.
  2: { cbn. split; [intros _; split; [done|by apply ValidateChannel_error]|].
       intros V%Hv. congruence. }
  destruct (ds_silent_uuid w log) as (id & w1 & -> & Hid).
  unfold ds_write at 1, ds_logged_stream, ds_record. cbn.
  destruct (ds_write h _ w1) as [[] w2]; cbn.
  2: { split; [intros V; exfalso; by apply V, Hv|]. intros _. exists id. split; [done|]. by left. }
  destruct (ds_read h w2) as [[resp|] w3]; cbn.
  2: { split; [intros V; exfalso; by apply V, Hv|]. intros _. exists id. split; [done|].
       right. exists None. by rewrite <- app_assoc. }
  destruct (pbQueuesDownstreamResponse_iserror resp) eqn:Ee.
  { split; [intros V; exfalso; by apply V, Hv|]. intros _. exists id. split; [done|].
    right. exists (Some resp). by rewrite <- app_assoc. }
  set (log2 := ((log ++ [DsWrite h _ true]) ++ [DsRead h (Some resp)])%list).
  destruct (downstream_messages_spec (pbQueuesDownstreamResponse_transactionid resp) (auto_ack request) h
    (pbQueuesDownstreamResponse_messages resp) w3 log2) as (ms & w4 & -> & Hms). cbn.
  split; [intros V; exfalso; by apply V, Hv|]. intros _. exists id. split; [done|].
  right. exists (Some resp). subst log2. by rewrite <- app_assoc.
Qed.

(** *** Closing *)

Lemma Message_Ack_writes h m w log :
  dm_stream m = Some h -> dm_auto_ack m = false -> dm_transaction_id m <> "" -> dm_stream_mu m = true ->
  (forall w', fst (ds_lock h w') = true) ->
  exists s w2 id b, Message_Ack m (w, log)
    = (s, (w2, (log ++ [DsWrite h (mk_pb_QueuesDownstreamRequest id "" AckRange "" 0 0 false ""
                          [to_int64 (dm_sequence m)] (dm_transaction_id m) ∅) b])%list)).
Proof.
  intros Hm Ha Ht%str_empty_false Hmu Hl.
  assert (exists w4, lock_stream (Some h) (w, log) = (Some h, (w4, log))) as [w4 El].
  { unfold lock_stream, bind, ret. cbn. unfold ds_lift. cbn. specialize (Hl w).
    destruct (ds_lock h w) as [l w4]. cbn in Hl. subst l. by eexists. }
  unfold Message_Ack, SendSettle, bind. rewrite Ha, Hm, El, Ht, Hmu.
  destruct (ds_silent_uuid w4 log) as (id & w5 & -> & _). cbn. unfold ret, ds_record. cbn.
  destruct (ds_write h _ w5) as [b w6]. by eexists _, w6, id, b.
Qed.

(** Closing a receiver does not stop its messages. The first [Close]
    writes a CloseByClient request and half-closes the stream, a later one
    does nothing, and every later poll is refused without touching the stream.
    But a message polled before, settled after, is still written on the stream
    that was half-closed: the settlement tests that the stream exists, which
    it does as long as the receiver object lives, not that it is open. *)
Theorem settle_after_close (rcv : QueueDownstreamReceiver) (h : nat) (m : QueueDownstreamMessage)
    (w : W) (log : ds_log) :
  rcv_closed rcv = false -> rcv_stream rcv = Some h ->
  dm_stream m = Some h -> dm_auto_ack m = false -> dm_transaction_id m <> "" -> dm_stream_mu m = true ->
  (forall w', fst (ds_lock h w') = true) ->
  exists rcv' w1 id b, Receiver_Close rcv (w, log)
      = (rcv', (w1, log ++ [DsWrite h (mk_pb_QueuesDownstreamRequest id "" CloseByClient "" 0 0 false
                              "" [] "" ∅) b; DsWritesDone h])%list) /\
    rcv_closed rcv' = true /\
    (forall wl, snd (Receiver_Close rcv' wl) = wl) /\
    (forall r wl, exists s, Poll rcv' h r wl = (SError s, wl) /\ code_ s = kFatal) /\
    exists s w2 id' b', Message_Ack m (w1, log ++ [DsWrite h (mk_pb_QueuesDownstreamRequest id ""
                              CloseByClient "" 0 0 false "" [] "" ∅) b; DsWritesDone h])%list
      = (s, (w2, (log ++ [DsWrite h (mk_pb_QueuesDownstreamRequest id "" CloseByClient "" 0 0 false
                             "" [] "" ∅) b; DsWritesDone h]) ++
                  [DsWrite h (mk_pb_QueuesDownstreamRequest id' "" AckRange "" 0 0 false ""
                     [to_int64 (dm_sequence m)] (dm_transaction_id m) ∅) b']))%list.
Proof.
  intros Hc Hs Hm Ha Ht Hmu Hl. unfold Receiver_Close. rewrite Hc, Hs. unfold bind, ret.
  destruct (ds_silent_uuid w log) as (id & w1 & -> & _).
  unfold ds_write, ds_writes_done, ds_logged_stream, ds_record. cbn.
  destruct (ds_write h _ w1) as [b w2]. cbn. destruct (ds_writes_done h w2) as [b2 w3]. cbn.
  rewrite <- app_assoc. cbn. eexists _, w3, id, b. split; [done|]. split; [done|]. split; [done|].
  split; [intros r wl; by eexists|].
  destruct (Message_Ack_writes h m w3 (log ++ [DsWrite h (mk_pb_QueuesDownstreamRequest id "" CloseByClient
    "" 0 0 false "" [] "" ∅) b; DsWritesDone h])%list) as (s & w4 & id' & b' & E); eauto 10.
Qed.

End contract.

(** A stream on which every write succeeds. *)
#[export] Instance demo_stream : DownstreamStream Z := {|
  ds_lock _ w := (true, w);
  ds_write _ _ w := (true, w);
  ds_read _ w := (Some pb_QueuesDownstreamResponse_default, w);
  ds_writes_done _ w := (true, w)
|}.

Definition demo_receiver : QueueDownstreamReceiver := mkReceiver (Some 1%nat) "cl" false.

Definition demo_downstream_message : QueueDownstreamMessage :=
  mkDownstreamMessage QueueMessage_default "tx" 5 false (Some 1%nat) true.

Lemma settle_after_close_witness :
  exists s w1 w2 log id b, Message_Ack demo_downstream_message (w1, log)
    = (s, (w2, (log ++ [DsWrite 1 (mk_pb_QueuesDownstreamRequest id "" AckRange "" 0 0 false "" [5] "tx" ∅) b])%list)) /\
    In (DsWritesDone 1) log.
Proof.
  destruct (@settle_after_close Z demo_stream lcg_random demo_receiver 1%nat demo_downstream_message 7 [] eq_refl eq_refl eq_refl
    eq_refl (fun e => eq_ind "tx" (fun x => match x with EmptyString => False | _ => True end) I "" e)
    eq_refl (fun w' => eq_refl))
    as (rcv' & w1 & id & b & _ & _ & _ & _ & s & w2 & id' & b' & E).
  eexists s, w1, w2, _, id', b'. split; [exact E|]. right. left. reflexivity.
Defined.

(** Polling and settling, step by step. *)
Example poll_and_settle :
  let '(r, (w1, log)) := Poll demo_receiver 1 (mkPollRequest "q" 1 5 false) (7, []) in
  code_ (statusor_status r) = kOk /\ length log = 2%nat /\
  fst (Message_Ack demo_downstream_message (w1, log)) = StatusOk /\
  code_ (fst (Message_ReQueue "" demo_downstream_message (w1, log))) = kValidation.
Proof. by vm_compute. Qed.
