(* ===== verification/Receiver.v ===== *)
(** * A receiver and the threads that use it

    The operations of Downstream once more, as programs of atomic actions on
    what their threads share: the flag and the members of the receiver
    (QueueDownstreamReceiver::Impl), the mutex of the stream and the shared
    pointer to it that a settlement takes from its weak one
    (src/internal/queue_stream_impl.h, src/client_queues_stream.cc). Run by
    itself each program is the operation of Downstream; here any number of
    polls, settlements, calls of [Close] and the destructor are interleaved. *)

From Stdlib Require Import ZArith Lia Ascii String.
From S2P Require Import Prelude Automaton Program Threads Status Validation Random Uuid Messages Proto.
From S2P Require Import Converter Downstream.

Local Open Scope string_scope.
Local Open Scope Z_scope.
Local Open Scope kubemq_scope.

(** ** Actions *)

Inductive racc : Type -> Type :=
  | LoadClosed : racc bool                        (* closed.load() *)
  | ExchangeClosed : racc bool                    (* closed.exchange(true) *)
  | LockStream : racc bool                        (* stream.lock(), and whether it gave one *)
  | DropStream : racc unit                        (* the shared pointer s ends *)
  | LockMutex : racc unit
  | UnlockMutex : racc unit                       (* the lock_guard ends *)
  | StreamWrite (req : pb_QueuesDownstreamRequest) : racc bool
  | StreamRead : racc (option pb_QueuesDownstreamResponse)
  | StreamWritesDone : racc unit
  | NewId : racc string                           (* GenerateUUID() *)
  | Convert (p : pb_QueueMessage) : racc QueueMessage
  | DestroyMembers : racc unit.                   (* impl_: the stream, the context *)

Notation program := (prog racc).
Notation act := (@Act racc _ _).

(** ** The operations *)

Definition write_settlement (request_type : Z) (requeue_channel transaction_id op : string) (sequences : list Z)
    (stream_mu : bool) : program Status :=
  act NewId (fun id =>
  let req := settle_request id request_type transaction_id sequences requeue_channel in
  if negb stream_mu then act DropStream (fun _ => Ret (mkStatus kFatal "no stream mutex available" op "" ""))
  else
    act LockMutex (fun _ =>
    act (StreamWrite req) (fun written =>
    act UnlockMutex (fun _ =>
    act DropStream (fun _ =>
    Ret (if written then StatusOk
         else mkStatus kTransient "failed to write settlement to downstream stream" op "" "")))))).

(** [stream.lock()] of an empty weak pointer gives null. *)
Definition with_stream {A} (stream : option nat) (expired : A) (k : program A) : program A :=
  match stream with
  | None => Ret expired
  | Some _ => act LockStream (fun got => if got then k else Ret expired)
  end.

Definition settle_program (request_type : Z) (requeue_channel : string) (m : QueueDownstreamMessage) : program Status :=
  let op := "QueueDownstreamMessage::Settle" in
  if dm_auto_ack m then Ret (mkStatus kValidation "cannot settle: poll used AutoAck" op "" "")
  else
    with_stream (dm_stream m)
      (mkStatus kFatal "receiver has been destroyed; settlement no longer possible" op "" "")
      (if str_empty (dm_transaction_id m) then
         act DropStream (fun _ => Ret (mkStatus kValidation "message has no transaction ID" op "" ""))
       else
         write_settlement request_type requeue_channel (dm_transaction_id m) op [to_int64 (dm_sequence m)]
           (dm_stream_mu m)).

Definition settle_all_program (request_type : Z) (requeue_channel : string) (p : PollResponse) : program Status :=
  let op := "PollResponse::Settle" in
  if pr_auto_ack p then Ret (mkStatus kValidation "cannot settle: poll used AutoAck" op "" "")
  else
    with_stream (pr_stream p)
      (mkStatus kFatal "receiver has been destroyed; settlement no longer possible" op "" "")
      (if str_empty (pr_transaction_id p) then
         act DropStream (fun _ => Ret (mkStatus kValidation "no transaction ID" op "" ""))
       else
         match pr_messages p with
         | [] => act DropStream (fun _ => Ret StatusOk)
         | _ => write_settlement request_type requeue_channel (pr_transaction_id p) op [] (pr_stream_mu p)
         end).

Definition settlement_program (o : SettleOp) (m : QueueDownstreamMessage) (p : PollResponse) : program Status :=
  let requeue channel op k :=
    if str_empty channel then Ret (mkStatus kValidation "requeue channel is required" op "" "") else k in
  match o with
  | SAck => settle_program 3 "" m
  | SNack => settle_program 5 "" m
  | SReQueue ch => requeue ch "QueueDownstreamMessage::ReQueue" (settle_program 7 ch m)
  | SAckAll => settle_all_program 2 "" p
  | SNackAll => settle_all_program 4 "" p
  | SReQueueAll ch => requeue ch "PollResponse::ReQueueAll" (settle_all_program 6 ch p)
  end.

(** The messages of a response, after the mutex is released. *)
Fixpoint convert_messages {A} (tx : string) (aa : bool) (stream : option nat) (ps : list pb_QueueMessage)
    (k : list QueueDownstreamMessage -> program A) : program A :=
  match ps with
  | [] => k []
  | p :: ps' =>
      act (Convert p) (fun message =>
      let m := mkDownstreamMessage message tx
                 (match pbQueueMessage_attributes p with
                  | Some a => pbQueueMessageAttributes_sequence a
                  | None => 0
                  end) aa stream true in
      convert_messages tx aa stream ps' (fun ms => k (m :: ms)))
  end.

Definition poll_program (client_id : string) (h : nat) (request : PollRequest) : program (StatusOr PollResponse) :=
  let op := "QueueDownstreamReceiver::Poll" in
  let channel := poll_channel request in
  act LoadClosed (fun closed =>
  if closed then Ret (SError (mkStatus kFatal "downstream receiver is closed" op "" ""))
  else
    let s := ValidateChannel channel op in
    if negb (status_ok s) then Ret (SError s)
    else
      act NewId (fun id =>
      act LockMutex (fun _ =>
      act (StreamWrite (poll_request id client_id request)) (fun written =>
      if negb written then
        act UnlockMutex (fun _ =>
        Ret (SError (mkStatus kTransient "failed to write poll request to downstream stream" op channel "")))
      else
        act StreamRead (fun read =>
        act UnlockMutex (fun _ =>
        match read with
        | None =>
            Ret (SError (mkStatus kTransient "failed to read poll response from downstream stream" op channel ""))
        | Some resp =>
            if pbQueuesDownstreamResponse_iserror resp then
              Ret (SError (mkStatus kFatal (pbQueuesDownstreamResponse_error resp) op channel ""))
            else
              let tx := pbQueuesDownstreamResponse_transactionid resp in
              convert_messages tx (auto_ack request) (Some h) (pbQueuesDownstreamResponse_messages resp) (fun messages =>
              Ret (SValue (mkPollResponse tx messages (pbQueuesDownstreamResponse_iserror resp)
                             (pbQueuesDownstreamResponse_error resp) (auto_ack request)
                             (pbQueuesDownstreamResponse_transactioncomplete resp) None (Some h) true)))
        end)))))).

Definition close_request (id : string) : pb_QueuesDownstreamRequest :=
  mk_pb_QueuesDownstreamRequest id "" CloseByClient "" 0 0 false "" [] "" ∅.

Definition close_program {A} (k : program A) : program A :=
  act ExchangeClosed (fun was =>
  if was then k
  else
    act NewId (fun id =>
    act LockMutex (fun _ =>
    act (StreamWrite (close_request id)) (fun _ =>
    act StreamWritesDone (fun _ =>
    act UnlockMutex (fun _ => k)))))).

(** ** One at a time *)

Section sequential.
Context {W : Type} `{DownstreamStream W, Random W} (h : nat).

(** Nobody else uses the receiver; its flag beside the world. *)
Definition alone {X} (e : racc X) : M (W * bool) X :=
  let world {Y} (m : M W Y) : M (W * bool) Y := fun wc => let '(y, w') := m (fst wc) in (y, (w', snd wc)) in
  match e in racc X return M (W * bool) X with
  | LoadClosed => fun wc => (snd wc, wc)
  | ExchangeClosed => fun wc => (snd wc, (fst wc, true))
  | LockStream => world (ds_lock h)
  | DropStream | LockMutex | UnlockMutex | DestroyMembers => ret tt
  | StreamWrite req => world (ds_write h req)
  | StreamRead => world (ds_read h)
  | StreamWritesDone => world (let! _ := ds_writes_done h in ret tt)
  | NewId => world GenerateUUID
  | Convert p => world (QueueMessageFromProto p)
  end.

Definition run_alone {A} (p : program A) : M (W * bool) A := exec (@alone) p.
#[local] Arguments run_alone : simpl never.

Lemma run_alone_act {X A} (e : racc X) (k : X -> program A) w c :
  run_alone (act e k) (w, c) = let '(x, wc) := alone e (w, c) in run_alone (k x) wc.
Proof. done. Qed.

Ltac alone_steps := repeat (rewrite run_alone_act; cbn).

(** A computation of the world, without the flag. *)
Definition beside {A} (m : M W A) (c : bool) : M (W * bool) A :=
  fun wc => let '(a, w') := m (fst wc) in (a, (w', c)).

Lemma write_settlement_alone n ch tx op sq mu w c :
  run_alone (write_settlement n ch tx op sq mu) (w, c) =
  beside (let! id := GenerateUUID in
          if negb mu then ret (mkStatus kFatal "no stream mutex available" op "" "")
          else
            let! written := ds_write h (settle_request id n tx sq ch) in
            ret (if written then StatusOk
                 else mkStatus kTransient "failed to write settlement to downstream stream" op "" "")) c (w, c).
Proof.
  unfold write_settlement, beside, bind, ret. alone_steps.
  destruct (GenerateUUID w) as [id w1]. destruct mu; cbn; [|done]. alone_steps. destruct (ds_write h _ w1) as [b w2]. by alone_steps.
Qed.

Lemma with_stream_alone stream op (k : program Status) (m : nat -> M W Status) w c :
  (forall g, stream = Some g -> g = h) ->
  (forall w', run_alone k (w', c) = beside (m h) c (w', c)) ->
  run_alone (with_stream stream op k) (w, c) =
  beside (let! s := lock_stream stream in match s with None => ret op | Some g => m g end) c (w, c).
Proof.
  intros Hs Hk. unfold with_stream, lock_stream, beside, bind, ret. destruct stream as [g|]; [|done].
  rewrite (Hs g eq_refl), run_alone_act. cbn. destruct (ds_lock h w) as [[] w1]; cbn; [|done]. by rewrite Hk.
Qed.

Lemma settle_alone n ch m w c :
  (forall g, dm_stream m = Some g -> g = h) ->
  run_alone (settle_program n ch m) (w, c) = beside (SendSettle n ch m) c (w, c).
Proof.
  intros Hs. unfold settle_program, SendSettle. destruct (dm_auto_ack m); [done|].
  apply (with_stream_alone (dm_stream m)); [done|]. intros w'. destruct (str_empty (dm_transaction_id m)); [done|].
  by rewrite write_settlement_alone.
Qed.

Lemma settle_all_alone n ch p w c :
  (forall g, pr_stream p = Some g -> g = h) ->
  run_alone (settle_all_program n ch p) (w, c) = beside (SendSettleAll n ch p) c (w, c).
Proof.
  intros Hs. unfold settle_all_program, SendSettleAll. destruct (pr_auto_ack p); [done|].
  apply (with_stream_alone (pr_stream p)); [done|]. intros w'. destruct (str_empty (pr_transaction_id p)); [done|].
  destruct (pr_messages p); [done|]. by rewrite write_settlement_alone.
Qed.

Lemma convert_messages_alone {A} tx aa stream ps (k : list QueueDownstreamMessage -> program A) w c :
  run_alone (convert_messages tx aa stream ps k) (w, c) =
  let '(ms, w') := downstream_messages tx aa stream ps w in run_alone (k ms) (w', c).
Proof.
  revert k w. induction ps as [|p ps IH]; intros k w; [done|].
  cbn [convert_messages downstream_messages]. rewrite run_alone_act. unfold bind, ret, downstream_message, bind, ret. cbn.
  destruct (QueueMessageFromProto p w) as [m w1]. rewrite IH. by destruct (downstream_messages tx aa stream ps w1).
Qed.

Lemma poll_alone rcv r w :
  run_alone (poll_program (rcv_client_id rcv) h r) (w, rcv_closed rcv) = beside (Poll rcv h r) (rcv_closed rcv) (w, rcv_closed rcv).
Proof.
  unfold poll_program, Poll, beside, check_statusor, bind, ret. alone_steps.
  destruct (rcv_closed rcv); [done|]. destruct (status_ok _); cbn; [|done]. alone_steps.
  destruct (GenerateUUID w) as [id w1]. alone_steps. destruct (ds_write h _ w1) as [[] w2]; cbn; [|done].
  alone_steps. destruct (ds_read h w2) as [[resp|] w3]; alone_steps; [|done].
  destruct (pbQueuesDownstreamResponse_iserror resp); [done|]. rewrite convert_messages_alone.
  by destruct (downstream_messages _ _ _ _ w3).
Qed.

Lemma close_alone rcv w :
  rcv_stream rcv = Some h ->
  run_alone (close_program (Ret tt)) (w, rcv_closed rcv) =
  let '(rcv', w') := Receiver_Close rcv w in (tt, (w', rcv_closed rcv')).
Proof.
  intros Hs. unfold close_program, Receiver_Close, bind, ret. rewrite Hs, run_alone_act. cbn.
  destruct (rcv_closed rcv); [done|]. alone_steps. destruct (GenerateUUID w) as [id w1].
  alone_steps. destruct (ds_write h _ w1) as [b w2]. alone_steps. unfold bind, ret.
  by destruct (ds_writes_done h w2).
Qed.

(** The programs are the operations. Over any stream and any world, a poll, a
    settlement of a message or a response of the stream [h], or a [Close] whose
    actions nobody interrupts answers what the operation of Downstream answers
    and leaves the world and the flag as it leaves them. *)
Theorem receiver_programs_are_operations (rcv : QueueDownstreamReceiver) (w : W) :
  rcv_stream rcv = Some h ->
  (forall r, run_alone (poll_program (rcv_client_id rcv) h r) (w, rcv_closed rcv) =
     beside (Poll rcv h r) (rcv_closed rcv) (w, rcv_closed rcv)) /\
  (forall o m p c, (forall g, settle_stream o m p = Some g -> g = h) ->
     run_alone (settlement_program o m p) (w, c) = beside (settle o m p) c (w, c)) /\
  run_alone (close_program (Ret tt)) (w, rcv_closed rcv) =
    (let '(rcv', w') := Receiver_Close rcv w in (tt, (w', rcv_closed rcv'))).
Proof.
  intros Hs. split; [intros r; apply poll_alone|]. split; [|by apply close_alone].
  intros o m p c Hg. unfold settle_stream in Hg. destruct o as [| |ch| | |ch]; cbn [on_batch settlement_program settle] in *.
  1,2: by apply settle_alone.
  2,3: by apply settle_all_alone.
  - unfold Message_ReQueue. destruct (str_empty ch); [done|]. by apply settle_alone.
  - unfold Response_ReQueueAll. destruct (str_empty ch); [done|]. by apply settle_all_alone.
Qed.

End sequential.

(** ** Many at a time *)

Inductive receiver_call :=
  | CPoll (request : PollRequest)
  | CSettle (o : SettleOp) (m : QueueDownstreamMessage) (p : PollResponse)
  | CClose
  | CDestroy.                       (* ~QueueDownstreamReceiver, and then its members *)

Inductive receiver_result :=
  | RPoll (r : StatusOr PollResponse)
  | RSettle (s : Status)
  | RVoid.

Fixpoint then_return {A B} (p : program A) (f : A -> B) : program B :=
  match p with Ret a => Ret (f a) | Act e k => Act e (fun x => then_return (k x) f) end.

Definition call_program (client_id : string) (h : nat) (c : receiver_call) : program receiver_result :=
  match c with
  | CPoll request => then_return (poll_program client_id h request) RPoll
  | CSettle o m p => then_return (settlement_program o m p) RSettle
  | CClose => close_program (Ret RVoid)
  | CDestroy => close_program (act DestroyMembers (fun _ => Ret RVoid))
  end.

(** What all calls share. *)
Record Receiver := mkSharedReceiver {
  rc_closed : bool;
  rc_members : bool;                (* impl_ exists: the context, and a reference to the stream *)
  rc_mutex : option nat;            (* the thread that holds stream_mu *)
  rc_refs : gset nat                (* the threads whose settlement holds the stream *)
}.

Definition Receiver_new : Receiver := mkSharedReceiver false true None ∅.

Inductive stream_event :=
  | SWrite (req : pb_QueuesDownstreamRequest) (written : bool)
  | SRead (resp : option pb_QueuesDownstreamResponse)
  | SWritesDone.

(** What the stream, the random engine and the conversion answer. *)
Record answers := mkAnswers {
  an_written : bool;
  an_read : option pb_QueuesDownstreamResponse;
  an_id : string;
  an_message : QueueMessage
}.

(** The stream exists while the receiver or a settlement holds it. *)
Definition stream_exists (s : Receiver) : bool := rc_members s || bool_decide (rc_refs s <> ∅).

Definition with_closed (s : Receiver) : Receiver := mkSharedReceiver true (rc_members s) (rc_mutex s) (rc_refs s).
Definition without_members (s : Receiver) : Receiver := mkSharedReceiver (rc_closed s) false (rc_mutex s) (rc_refs s).
Definition with_mutex (o : option nat) (s : Receiver) : Receiver := mkSharedReceiver (rc_closed s) (rc_members s) o (rc_refs s).
Definition with_refs (r : gset nat) (s : Receiver) : Receiver := mkSharedReceiver (rc_closed s) (rc_members s) (rc_mutex s) r.

(** One access of thread [i]; [None] waits. An identifier is never empty (Uuid). *)
Definition perform (X : Type) (i : nat) (a : answers) (s : Receiver) (e : racc X) : option (X * Receiver * list stream_event) :=
  match e in racc X return option (X * Receiver * list stream_event) with
  | LoadClosed => Some (rc_closed s, s, [])
  | ExchangeClosed => Some (rc_closed s, with_closed s, [])
  | LockStream =>
      Some (if stream_exists s then (true, with_refs ({[i]} ∪ rc_refs s) s, []) else (false, s, []))
  | DropStream => Some (tt, with_refs (rc_refs s ∖ {[i]}) s, [])
  | LockMutex => match rc_mutex s with None => Some (tt, with_mutex (Some i) s, []) | Some _ => None end
  | UnlockMutex => Some (tt, with_mutex None s, [])
  | StreamWrite req => Some (an_written a, s, [SWrite req (an_written a)])
  | StreamRead => Some (an_read a, s, [SRead (an_read a)])
  | StreamWritesDone => Some (tt, s, [SWritesDone])
  | NewId => if str_empty (an_id a) then None else Some (an_id a, s, [])
  | Convert _ => Some (an_message a, s, [])
  | DestroyMembers => Some (tt, without_members s, [])
  end.

Definition uses_receiver (c : receiver_call) : bool := match c with CSettle _ _ _ => false | _ => true end.
Definition is_destroy (c : receiver_call) : bool := match c with CDestroy => true | _ => false end.

(** The calls a program may make: on the receiver until its destructor begins,
    which it does when they have returned; of settlements at any time. *)
Definition may_call (c : receiver_call) (s : Receiver) (ts : list (thread racc receiver_call receiver_result)) : bool :=
  negb (uses_receiver c) ||
  forallb (fun t => negb (is_destroy (th_call t)) && negb (is_destroy c && uses_receiver (th_call t) && in_progress t)) ts.

Section concurrent.
Context (client_id : string) (h : nat).

Definition receiver_component : component racc Receiver answers Empty_set receiver_call receiver_result stream_event := {|
  cp_program := call_program client_id h;
  cp_may := may_call;
  cp_perform := perform;
  cp_env := fun _ _ (b : Empty_set) => match b with end
|}.

Definition receiver_step := pool_step receiver_component.
Definition receiver_run := pool_run receiver_component Receiver_new.

(** ** What a call may do *)

(** What a call does on the stream while it holds the mutex, *)
Definition section_of (c : receiver_call) (evs : list stream_event) : Prop :=
  exists id, str_empty id = false /\
  match c with
  | CPoll r =>
      evs = [SWrite (poll_request id client_id r) false] \/
      exists resp, evs = [SWrite (poll_request id client_id r) true; SRead resp]
  | CSettle o m p => exists b, evs = [SWrite (settle_expected o m p id) b]
  | CClose | CDestroy => exists b, evs = [SWrite (close_request id) b; SWritesDone]
  end.

(** one message of a response, as the application gets it, *)
Definition polled_as (tx : string) (aa : bool) (pm : pb_QueueMessage) (m : QueueDownstreamMessage) : Prop :=
  dm_transaction_id m = tx /\ dm_auto_ack m = aa /\ dm_stream m = Some h /\ dm_stream_mu m = true /\
  dm_sequence m = match pbQueueMessage_attributes pm with
                  | Some a => pbQueueMessageAttributes_sequence a | None => 0 end.

(** and what a call that did [done] returns. *)
Definition returns (c : receiver_call) (done : option (list stream_event)) (r : receiver_result) : Prop :=
  match c, r with
  | CPoll request, RPoll (SError s) =>
      match done with
      | None => code_ s = kFatal \/ (code_ s = kValidation /\ ~ valid_channel (poll_channel request))
      | Some [SWrite _ false] | Some [SWrite _ true; SRead None] => code_ s = kTransient
      | Some [SWrite _ true; SRead (Some resp)] =>
          pbQueuesDownstreamResponse_iserror resp = true /\ code_ s = kFatal /\
          message_ s = pbQueuesDownstreamResponse_error resp
      | _ => False
      end
  | CPoll request, RPoll (SValue p) =>
      match done with
      | Some [SWrite _ true; SRead (Some resp)] =>
          pbQueuesDownstreamResponse_iserror resp = false /\
          pr_transaction_id p = pbQueuesDownstreamResponse_transactionid resp /\ pr_auto_ack p = auto_ack request /\
          Forall2 (polled_as (pr_transaction_id p) (auto_ack request))
            (pbQueuesDownstreamResponse_messages resp) (pr_messages p)
      | _ => False
      end
  | CSettle o _ p, RSettle s =>
      match done with
      | None => status_ok s = false \/ (on_batch o = true /\ pr_messages p = [])
      | Some [SWrite _ b] => status_ok s = b /\ (b = false -> code_ s = kTransient)
      | _ => False
      end
  | (CClose | CDestroy), RVoid => True
  | _, _ => False
  end.

(** What a thread knows: whether it holds a shared pointer to the stream,
    whether the receiver is its to close, what it did since it has the mutex,
    what it did when it had it, and whether it has destroyed the members. *)
Record spot := mkSpot {
  sp_holds : bool;
  sp_mine : bool;
  sp_now : option (list stream_event);
  sp_done : option (list stream_event);
  sp_over : bool
}.

Definition at_start : spot := mkSpot false false None None false.

Definition set_holds (b : bool) (v : spot) : spot := mkSpot b (sp_mine v) (sp_now v) (sp_done v) (sp_over v).
Definition set_mine (v : spot) : spot := mkSpot (sp_holds v) true (sp_now v) (sp_done v) (sp_over v).
Definition set_now (l : option (list stream_event)) (v : spot) : spot := mkSpot (sp_holds v) (sp_mine v) l (sp_done v) (sp_over v).
Definition set_done (v : spot) : spot := mkSpot (sp_holds v) (sp_mine v) None (sp_now v) (sp_over v).
Definition set_over (v : spot) : spot := mkSpot (sp_holds v) (sp_mine v) (sp_now v) (sp_done v) true.
Definition log_now (e : stream_event) (v : spot) : spot := set_now ((fun l => l ++ [e])%list <$> sp_now v) v.

Definition closes (c : receiver_call) : bool := match c with CClose | CDestroy => true | _ => false end.

(** A thread uses the stream with the mutex, and while it has the stream. *)
Definition may_use (c : receiver_call) (v : spot) : Prop := sp_now v <> None /\ uses_receiver c || sp_holds v = true.

Definition receiver_contract (c : receiver_call) : contract racc spot := {|
  pre X e v := sp_over v = false /\
    match e with
    | LoadClosed | NewId | Convert _ => True
    | ExchangeClosed => closes c = true /\ sp_mine v = false
    | LockStream => sp_holds v = false
    | DropStream => sp_now v = None /\ sp_holds v = true
    | LockMutex => sp_now v = None /\ sp_done v = None /\ sp_mine v = closes c
    | UnlockMutex =>
        (exists evs, sp_now v = Some evs /\ section_of c evs) /\ sp_mine v = closes c /\ sp_done v = None
    | StreamWrite _ | StreamRead | StreamWritesDone => may_use c v
    | DestroyMembers => is_destroy c = true /\ sp_now v = None
    end;
  post X e v x v' :=
    match e in racc Y return Y -> Prop with
    | LoadClosed | Convert _ => fun _ => v' = v
    | NewId => fun id => str_empty id = false /\ v' = v
    | ExchangeClosed => fun was => v' = if was then v else set_mine v
    | LockStream => fun got => v' = if got then set_holds true v else v
    | DropStream => fun _ => v' = set_holds false v
    | LockMutex => fun _ => v' = set_now (Some []) v
    | UnlockMutex => fun _ => v' = set_done v
    | StreamWrite req => fun b => v' = log_now (SWrite req b) v
    | StreamRead => fun r => v' = log_now (SRead r) v
    | StreamWritesDone => fun _ => v' = log_now SWritesDone v
    | DestroyMembers => fun _ => v' = set_over v
    end x
|}.

Definition receiver_post (c : receiver_call) (r : receiver_result) (v : spot) : Prop :=
  sp_now v = None /\ sp_holds v = false /\ returns c (sp_done v) r.

Notation obeys c p v := (wp (receiver_contract c) p (receiver_post c) v).

(** A call that returns; an access whose precondition computation decides. *)
Ltac over := unfold receiver_post; cbn; split_and!; try done; auto.
Ltac allowed := cbn; split_and!; try done; auto.

(** What the access answers. *)
Ltac proceed := let v := fresh "v" in let Hv := fresh "Hv" in intros [] v Hv; cbn in Hv; subst v.
Tactic Notation "next" ident(x) :=
  let v := fresh "v" in let Hv := fresh "Hv" in intros x v Hv; cbn in Hv; first [subst v | destruct Hv as [Hid ->]].

Lemma write_settlement_obeys n ch tx op sq mu o m p :
  (forall id, settle_request id n tx sq ch = settle_expected o m p id) ->
  obeys (CSettle o m p) (then_return (write_settlement n ch tx op sq mu) RSettle) (mkSpot true false None None false).
Proof.
  intros He. unfold write_settlement. cbn [then_return wp]. split; [allowed|]. next id.
  destruct mu; cbn [negb then_return wp]; [|split; [allowed|]; proceed; over].
  split; [allowed|]. proceed. split; [allowed|]. next b. split.
  { allowed. exists [SWrite (settle_request id n tx sq ch) b]. split; [done|]. exists id. split; [done|]. exists b. by rewrite He. }
  proceed. split; [allowed|]. proceed. over; by destruct b.
Qed.

Lemma settle_tests_obey c stream st (k : program Status) :
  uses_receiver c = false -> returns c None (RSettle st) ->
  obeys c (then_return k RSettle) (mkSpot true false None None false) ->
  obeys c (then_return (with_stream stream st k) RSettle) at_start.
Proof.
  intros Hu Hr Hk. unfold with_stream. destruct stream; [|over]. cbn [then_return wp]. split; [allowed|].
  next got. destruct got; [exact Hk|over].
Qed.

Lemma settle_obeys n ch o m p :
  on_batch o = false -> downstream_request_type n = settle_type o -> ch = settle_channel o ->
  obeys (CSettle o m p) (then_return (settle_program n ch m) RSettle) at_start.
Proof.
  intros Ho Hn Hc. unfold settle_program. destruct (dm_auto_ack m); [over|]. apply settle_tests_obey; [done|by left|].
  destruct (str_empty (dm_transaction_id m)); [split; [allowed|]; proceed; over|].
  apply write_settlement_obeys. intros id. unfold settle_request, settle_expected. by rewrite settle_channel_kept, Ho, Hn, Hc.
Qed.

Lemma settle_all_obeys n ch o m p :
  on_batch o = true -> downstream_request_type n = settle_type o -> ch = settle_channel o ->
  obeys (CSettle o m p) (then_return (settle_all_program n ch p) RSettle) at_start.
Proof.
  intros Ho Hn Hc. unfold settle_all_program. destruct (pr_auto_ack p); [over|]. apply settle_tests_obey; [done|by left|].
  destruct (str_empty (pr_transaction_id p)); [split; [allowed|]; proceed; over|].
  destruct (pr_messages p) eqn:E; [split; [allowed|]; proceed; over|].
  apply write_settlement_obeys. intros id. unfold settle_request, settle_expected. by rewrite settle_channel_kept, Ho, Hn, Hc.
Qed.

Lemma convert_obeys c v tx aa ps (k : list QueueDownstreamMessage -> program (StatusOr PollResponse)) :
  sp_over v = false ->
  (forall ms, Forall2 (polled_as tx aa) ps ms -> obeys c (then_return (k ms) RPoll) v) ->
  obeys c (then_return (convert_messages tx aa (Some h) ps k) RPoll) v.
Proof.
  intros Hv. revert k. induction ps as [|p ps IH]; intros k Hk; [by apply Hk|].
  cbn [convert_messages then_return wp]. split; [by split|]. next m. apply IH. intros ms Hms. apply Hk. by constructor.
Qed.

Lemma poll_obeys r : obeys (CPoll r) (then_return (poll_program client_id h r) RPoll) at_start.
Proof.
  unfold poll_program. cbn [then_return wp]. split; [allowed|]. next closed. destruct closed; [over|].
  destruct (status_ok (ValidateChannel (poll_channel r) "QueueDownstreamReceiver::Poll")) eqn:Ev; cbn [negb then_return wp].
  2: { over. right. split; [by apply ValidateChannel_error|]. intros V%(ValidateChannel_spec _ "QueueDownstreamReceiver::Poll"). congruence. }
  split; [allowed|]. next id. split; [allowed|]. proceed. split; [allowed|]. next b.
  destruct b; cbn [negb then_return wp].
  2: { split; [allowed; eexists; split; [done|]; exists id; auto|]. proceed. over. }
  split; [allowed|]. next resp. split; [allowed; eexists; split; [done|]; exists id; eauto|]. proceed.
  destruct resp as [resp|]; [|over]. destruct (pbQueuesDownstreamResponse_iserror resp) eqn:Ei; [over|].
  apply convert_obeys; [done|]. intros ms Hms. over.
Qed.

Lemma close_obeys c k :
  closes c = true -> (forall done, obeys c k (mkSpot false true None done false)) -> obeys c k at_start -> obeys c (close_program k) at_start.
Proof.
  intros Hc Hk Hk0. assert (uses_receiver c = true) as Hu by by destruct c. unfold close_program. cbn [wp].
  split; [allowed|]. next was. destruct was; [done|]. split; [allowed|]. next id.
  split; [by allowed|]. proceed. split; [split; [done|split; [done|by rewrite Hu]]|]. next b. split; [split; [done|split; [done|by rewrite Hu]]|]. proceed.
  split; [|proceed; apply Hk]. allowed. eexists. split; [done|]. exists id. split; [done|]. destruct c; try done; by exists b.
Qed.

(** Every call keeps its contract. *)
Lemma call_obeys c : obeys c (call_program client_id h c) at_start.
Proof.
  destruct c as [r|o m p| |]; cbn [call_program].
  - apply poll_obeys.
  - destruct o as [| |ch| | |ch]; cbn [settlement_program].
    1,2: by apply settle_obeys.
    2,3: by apply settle_all_obeys.
    all: destruct (str_empty ch); [over|].
    + by apply settle_obeys.
    + by apply settle_all_obeys.
  - apply close_obeys; [done|intros d|]; over.
  - apply close_obeys; [done|intros d|]; (split; [allowed|]; proceed; over).
Qed.

(** ** What all of them do *)

(** What the code does not keep: the sections that are over, what was done in
    the one that is not, the call that closes the receiver and the one that
    destroyed its members. *)
Record history := mkHistory {
  hi_sections : list (nat * list stream_event);
  hi_now : list stream_event;
  hi_owner : option nat;
  hi_destroyer : option nat
}.

Definition spot_of (g : history) (s : Receiver) (i : nat) : spot :=
  mkSpot (bool_decide (i ∈ rc_refs s)) (bool_decide (hi_owner g = Some i))
    (if decide (rc_mutex s = Some i) then Some (hi_now g) else None) (section_done i (hi_sections g))
    (bool_decide (hi_destroyer g = Some i)).

Definition in_section (s : Receiver) (now : list stream_event) : list (option nat * stream_event) :=
  match rc_mutex s with Some i => tagged (i, now) | None => [] end.

Record receiver_inv (g : history) (s : Receiver) (cs : list receiver_call) (evs : list (option nat * stream_event)) : Prop := {
  ri_events : evs = (concat (tagged <$> hi_sections g) ++ in_section s (hi_now g))%list;
  ri_sections : forall i l, (i, l) ∈ hi_sections g ->
    exists c, cs !! i = Some c /\ section_of c l /\ (closes c = true -> hi_owner g = Some i);
  ri_once : NoDup (hi_sections g).*1;
  ri_owner : rc_closed s = false -> hi_owner g = None;
  ri_destroyed : rc_members s = false -> hi_destroyer g <> None;
  ri_destroyer i : hi_destroyer g = Some i -> cs !! i = Some CDestroy;
  ri_one i j : cs !! i = Some CDestroy -> cs !! j = Some CDestroy -> i = j
}.

(** An access that leaves the sections alone. *)
Lemma quiet_inv g s s' cs evs :
  receiver_inv g s cs evs -> rc_mutex s' = rc_mutex s -> rc_closed s' = rc_closed s -> rc_members s' = rc_members s ->
  receiver_inv g s' cs (evs ++ []).
Proof.
  intros [He Hs Ho Hc Hd Hr H1] Em Ec Ed. rewrite app_nil_r. constructor; try done; rewrite ?Ec, ?Ed; auto.
  unfold in_section in *. by rewrite Em.
Qed.

(** The views that an access of another thread leaves alone. *)
Lemma spot_same g g' s s' j :
  (rc_mutex s' = Some j <-> rc_mutex s = Some j) -> (rc_mutex s = Some j -> hi_now g' = hi_now g) ->
  (j ∈ rc_refs s' <-> j ∈ rc_refs s) -> (hi_owner g' = Some j <-> hi_owner g = Some j) ->
  (hi_destroyer g' = Some j <-> hi_destroyer g = Some j) -> section_done j (hi_sections g') = section_done j (hi_sections g) ->
  spot_of g' s' j = spot_of g s j.
Proof.
  intros Hm Hn Hr Ho Hd Hs. unfold spot_of. rewrite Hs. f_equal; try (by apply bool_decide_ext).
  destruct (decide (rc_mutex s = Some j)) as [E|E].
  - rewrite decide_True by (by apply Hm). by rewrite Hn.
  - by rewrite decide_False by (by rewrite Hm).
Qed.

Ltac spot :=
  unfold spot_of, log_now, set_holds, set_mine, set_now, set_done, set_over;
  cbn [sp_now sp_holds sp_mine sp_done sp_over hi_now hi_sections hi_owner hi_destroyer
       rc_closed rc_members rc_mutex rc_refs with_closed without_members with_mutex with_refs].

(** An event on the stream. *)
Lemma stream_act g s cs evs i c e :
  receiver_inv g s cs evs -> may_use c (spot_of g s i) ->
  exists g', receiver_inv g' s cs (evs ++ [(Some i, e)]) /\ spot_of g' s i = log_now e (spot_of g s i) /\
    forall j, j <> i -> spot_of g' s j = spot_of g s j.
Proof.
  intros [He Hs Ho Hc Hd Hr H1] [Hn _]. cbn in Hn. destruct (decide (rc_mutex s = Some i)) as [Em|]; [|done].
  exists (mkHistory (hi_sections g) (hi_now g ++ [e]) (hi_owner g) (hi_destroyer g)). split; [|split].
  - constructor; try done. rewrite He. unfold in_section. rewrite Em. unfold tagged. cbn. by rewrite fmap_app, app_assoc.
  - spot. by rewrite !(decide_True (P := rc_mutex s = Some i)) by done.
  - intros j Hj. apply spot_same; try done. congruence.
Qed.

Lemma receiver_act g s cs evs i c a {X} (e : racc X) x s' o :
  receiver_inv g s cs evs -> cs !! i = Some c -> pre (receiver_contract c) e (spot_of g s i) -> perform X i a s e = Some (x, s', o) ->
  exists g', receiver_inv g' s' cs (evs ++ (pair (Some i) <$> o)) /\ post (receiver_contract c) e (spot_of g s i) x (spot_of g' s' i) /\
    forall j, j <> i -> spot_of g' s' j = spot_of g s j.
Proof.
  intros Hok Hc Hp Hs. destruct Hok as [He Hsec Honce Hown Hdes Hdr Hone] eqn:Eok. clear Eok.
  destruct e as [| | | | | |req| | | |p|]; cbn [perform] in Hs; cbn in Hp; destruct Hp as [Hover Hp].
  - injection Hs as <- <- <-. exists g. split; [by apply (quiet_inv _ s)|done].
  - injection Hs as <- <- <-. destruct (rc_closed s) eqn:Ec.
    + exists g. split; [|done]. rewrite app_nil_r. by constructor.
    + specialize (Hown eq_refl). exists (mkHistory (hi_sections g) (hi_now g) (Some i) (hi_destroyer g)). split; [|split].
      * rewrite app_nil_r. constructor; try done. intros j l Hin. destruct (Hsec j l Hin) as (cj & Hj & Hl & Hcl). exists cj.
        split; [done|]. split; [done|]. intros X%Hcl. congruence.
      * spot. by rewrite (bool_decide_eq_true_2 (Some i = Some i)) by done.
      * intros j Hj. apply spot_same; try done. cbn. rewrite Hown. split; congruence.
  - destruct (stream_exists s); injection Hs as <- <- <-; exists g; (split; [by apply (quiet_inv _ s)|]); [|done]. split.
    + spot. by rewrite (bool_decide_eq_true_2 (i ∈ {[i]} ∪ rc_refs s)) by (clear; set_solver).
    + intros j Hj. apply spot_same; try done. cbn. clear -Hj. set_solver.
  - injection Hs as <- <- <-. exists g. split; [by apply (quiet_inv _ s)|]. split.
    + spot. by rewrite (bool_decide_eq_false_2 (i ∈ rc_refs s ∖ {[i]})) by (clear; set_solver).
    + intros j Hj. apply spot_same; try done. cbn. clear -Hj. set_solver.
  - destruct (rc_mutex s) eqn:Em; [done|]. injection Hs as <- <- <-.
    exists (mkHistory (hi_sections g) [] (hi_owner g) (hi_destroyer g)). split; [|split].
    + rewrite app_nil_r. constructor; try done. rewrite He. unfold in_section. cbn. by rewrite Em.
    + spot. by rewrite (decide_True (P := Some i = Some i)) by done.
    + intros j Hj. apply spot_same; try done; cbn; rewrite Em; [split|]; congruence.
  - injection Hs as <- <- <-. destruct Hp as ((l & Hl & Hsl) & Hmi & Hd).
    destruct (decide (rc_mutex s = Some i)) as [Em|]; [|done]. injection Hl as <-.
    exists (mkHistory (hi_sections g ++ [(i, hi_now g)]) [] (hi_owner g) (hi_destroyer g)). split; [|split].
    + rewrite app_nil_r. constructor; try done; cbn.
      * rewrite He. unfold in_section. cbn [rc_mutex with_mutex]. rewrite Em, fmap_app, concat_app. cbn. by rewrite !app_nil_r.
      * intros j l [Hin|Hin%list_elem_of_singleton]%elem_of_app; [by apply Hsec|]. injection Hin as -> ->. exists c.
        split; [done|]. split; [done|]. intros Hcl. rewrite Hcl in Hmi. by apply bool_decide_eq_true in Hmi.
      * by apply sections_once.
    + spot. rewrite (section_done_app i) by done. rewrite (decide_True (P := i = i)) by done.
      by rewrite (decide_True (P := rc_mutex s = Some i)) by done.
    + intros j Hj. apply spot_same; try done; spot; rewrite ?Em; [split; congruence|congruence|].
      rewrite (section_done_app i) by done. by rewrite decide_False by done.
  - injection Hs as <- <- <-. by apply (stream_act g s cs evs i c).
  - injection Hs as <- <- <-. by apply (stream_act g s cs evs i c).
  - injection Hs as <- <- <-. by apply (stream_act g s cs evs i c).
  - destruct (str_empty (an_id a)) eqn:Eid; [done|]. injection Hs as <- <- <-. exists g. split; [by apply (quiet_inv _ s)|done].
  - injection Hs as <- <- <-. exists g. split; [by apply (quiet_inv _ s)|done].
  - injection Hs as <- <- <-. destruct Hp as [Hdc _]. exists (mkHistory (hi_sections g) (hi_now g) (hi_owner g) (Some i)).
    split; [|split].
    + rewrite app_nil_r. assert (cs !! i = Some CDestroy) as Hi by by destruct c. constructor; try done. by intros j [= <-].
    + spot. by rewrite (bool_decide_eq_true_2 (Some i = Some i)) by done.
    + intros j Hj. apply spot_same; try done. cbn. assert (cs !! i = Some CDestroy) as Hi by by destruct c.
      split; [congruence|]. intros Hx%Hdr. by destruct (Hj (Hone j i Hx Hi)).
Qed.

Lemma may_call_destroy c s ts i ti :
  may_call c s ts = true -> ts !! i = Some ti -> is_destroy (th_call ti) = true -> uses_receiver c = false.
Proof.
  unfold may_call. intros Hm Hi Hd. destruct (uses_receiver c); [|done]. cbn in Hm. rewrite forallb_forall in Hm.
  assert (In ti ts) as Hin by (apply list_elem_of_In; by eapply list_elem_of_lookup_2).
  specialize (Hm ti Hin). by rewrite Hd in Hm.
Qed.

Lemma may_call_others c s ts j tj :
  may_call c s ts = true -> is_destroy c = true -> ts !! j = Some tj -> uses_receiver (th_call tj) = true -> th_left tj = None.
Proof.
  unfold may_call. intros Hm Hd Hj Hu. assert (uses_receiver c = true) as Hc by by destruct c.
  rewrite Hc, Hd in Hm. cbn in Hm. rewrite forallb_forall in Hm.
  assert (In tj ts) as Hin by (apply list_elem_of_In; by eapply list_elem_of_lookup_2).
  specialize (Hm tj Hin). rewrite Hu in Hm. unfold in_progress in Hm. destruct (th_left tj); [|done].
  by rewrite andb_false_r in Hm.
Qed.

Lemma receiver_call_inv g s (ts : list (thread racc receiver_call receiver_result)) evs c :
  receiver_inv g s (th_call <$> ts) evs -> may_call c s ts = true -> receiver_inv g s (th_call <$> (ts ++ [mkThread c None])%list) evs.
Proof.
  intros [He Hsec Honce Hown Hdes Hdr Hone] Hm. rewrite fmap_app.
  assert (forall i d, (th_call <$> ts) !! i = Some d -> ((th_call <$> ts) ++ [c])%list !! i = Some d) as Hold
    by (intros; by apply lookup_app_l_Some).
  assert (forall i, (th_call <$> ts) !! i = Some CDestroy -> c <> CDestroy) as Hnew.
  { intros i Hi ->. rewrite list_lookup_fmap in Hi. destruct (ts !! i) as [t|] eqn:Et; [|done]. injection Hi as Hi.
    pose proof (may_call_destroy CDestroy s ts i t Hm Et) as Hx. rewrite Hi in Hx. by specialize (Hx eq_refl). }
  constructor; try done; cbn.
  - intros i l Hin. destruct (Hsec i l Hin) as (d & Hi & Hl). exists d. split; [by apply Hold|done].
  - intros i Hi. by apply Hold, Hdr.
  - intros i j [Hi|[Hgi Hi]]%lookup_app_Some [Hj|[Hgj Hj]]%lookup_app_Some.
    + by apply Hone.
    + apply list_lookup_singleton_Some in Hj as [_ Hj]. by destruct (Hnew i Hi).
    + apply list_lookup_singleton_Some in Hi as [_ Hi]. by destruct (Hnew j Hj).
    + apply list_lookup_singleton_Some in Hi as [Hi _], Hj as [Hj _]. lia.
Qed.

Definition receiver_discipline : discipline receiver_component (G := history) (V := spot).
Proof.
  refine {| ds_contract := receiver_contract; ds_post := receiver_post; ds_start := at_start;
            ds_view := spot_of; ds_inv := receiver_inv |}.
  - apply call_obeys.
  - intros g s ts evs c. apply receiver_call_inv.
  - by intros g s cs evs [].
  - intros g s cs evs i c a X e x s' o. apply receiver_act.
Defined.

Notation receiver_ok := (pool_ok receiver_discipline).

Lemma receiver_run_ok ins p outs : receiver_run ins = Some (p, outs) -> exists g, receiver_ok g p outs.
Proof.
  apply (pool_sound receiver_discipline (mkHistory [] [] None None)).
  - constructor; cbn; try done; try set_solver. by constructor.
  - intros i. unfold receiver_discipline. cbn. spot. by rewrite !bool_decide_eq_false_2 by set_solver.
Qed.

(** ** Returning, and being alone *)

(** The mutex is free, or the thread's. *)
Definition mutex_for (i : nat) (s : Receiver) : Prop := forall j, rc_mutex s = Some j -> j = i.

Lemma mutex_enabled a g s cs evs i c {X} (e : racc X) :
  str_empty (an_id a) = false -> receiver_inv g s cs evs -> cs !! i = Some c -> pre (receiver_contract c) e (spot_of g s i) -> mutex_for i s ->
  exists x s' o, perform X i a s e = Some (x, s', o) /\ mutex_for i s'.
Proof.
  intros Hid _ _ Hp Hm. destruct e; cbn [perform]; rewrite ?Hid; try (by eexists _, _, _).
  - destruct (stream_exists s); by eexists _, _, _.
  - destruct Hp as (_ & Hn & _). cbn in Hn. destruct (rc_mutex s) as [j|] eqn:Em.
    + pose proof (Hm j Em) as ->. by rewrite decide_True in Hn by done.
    + eexists _, _, _. split; [done|]. by intros j [= <-].
Qed.

(** The thread that has the mutex is in progress. *)
Lemma holder_in_progress g p outs i :
  receiver_ok g p outs -> rc_mutex (pl_shared p) = Some i -> exists c q, pl_threads p !! i = Some (mkThread c (Some q)).
Proof.
  intros Hok Hm. destruct (pl_threads p !! i) as [[c [q|]]|] eqn:Hi; [by exists c, q|exfalso..].
  - destruct (po_over _ _ _ _ Hok i c Hi) as (r & _ & Hn & _). cbn in Hn. by rewrite decide_True in Hn by done.
  - pose proof (f_equal sp_now (po_rest _ _ _ _ Hok i Hi)) as Hn. cbn in Hn. by rewrite decide_True in Hn by done.
Qed.

Lemma holder_alone g p outs :
  receiver_ok g p outs -> (exists i c q, pl_threads p !! i = Some (mkThread c (Some q))) ->
  exists i c q, pl_threads p !! i = Some (mkThread c (Some q)) /\ mutex_for i (pl_shared p).
Proof.
  intros Hok (i & c & q & Hi). destruct (rc_mutex (pl_shared p)) as [n|] eqn:Em.
  - destruct (holder_in_progress _ _ _ _ Hok Em) as (c' & q' & Hn). exists n, c', q'. split; [done|]. intros j E. congruence.
  - exists i, c, q. split; [done|]. intros j E. congruence.
Qed.

(** While the receiver is destroyed no other call uses it. *)
Definition destroyed_alone (p : pool racc Receiver receiver_call receiver_result) : Prop :=
  forall i j ti tj, pl_threads p !! i = Some ti -> is_destroy (th_call ti) = true ->
    pl_threads p !! j = Some tj -> i <> j -> uses_receiver (th_call tj) = true -> th_left tj = None.

Lemma destroyed_alone_step p i p' o : destroyed_alone p -> receiver_step p i = Some (p', o) -> destroyed_alone p'.
Proof.
  intros Ha Hs.
  assert (forall n c q left' s, pl_threads p !! n = Some (mkThread c (Some q)) -> destroyed_alone (with_thread n (mkThread c left') s p)) as Hth.
  { intros n c q left' s Hn i1 j ti tj Hi Hd Hj Hne Hu. cbn in Hi, Hj.
    apply list_lookup_insert_Some in Hi as [(-> & <- & _)|[Hni Hi]]; apply list_lookup_insert_Some in Hj as [(<- & <- & _)|[Hnj Hj]]; [done|..].
    - by eapply (Ha i1 j).
    - pose proof (Ha i1 n _ _ Hi Hd Hn ltac:(done) Hu). done.
    - by eapply (Ha i1 j). }
  apply pool_step_cases in Hs as [(c & _ & Hm & _ & ->)|[(n & a & c & r & _ & Hn & -> & _)|[(n & a & c & X & e & k & x & s & evs & _ & Hn & _ & -> & _)|
    (b & s & evs & _ & Hb & _)]]].
  - intros i1 j ti tj Hi Hd Hj Hne Hu. cbn in Hi, Hj, Hm.
    apply lookup_app_Some in Hi as [Hi|[Hgi Hi]]; apply lookup_app_Some in Hj as [Hj|[Hgj Hj]].
    + by eapply (Ha i1 j).
    + apply list_lookup_singleton_Some in Hj as [_ <-]. cbn in Hu. pose proof (may_call_destroy _ _ _ _ _ Hm Hi Hd). congruence.
    + apply list_lookup_singleton_Some in Hi as [_ <-]. by eapply may_call_others.
    + apply list_lookup_singleton_Some in Hi as [Hi _]. apply list_lookup_singleton_Some in Hj as [Hj _]. lia.
  - by eapply Hth.
  - by eapply Hth.
  - destruct b.
Qed.

Lemma destroyed_alone_run ins p outs : receiver_run ins = Some (p, outs) -> destroyed_alone p.
Proof. apply (run_invariant receiver_step); [|apply destroyed_alone_step]. intros i j ti tj Hi. cbn in Hi. by rewrite lookup_nil in Hi. Qed.

(** A call that uses the receiver has it until it has nothing left to do. *)
Lemma members_used g p outs i c q :
  receiver_ok g p outs -> destroyed_alone p -> rc_members (pl_shared p) = false ->
  pl_threads p !! i = Some (mkThread c (Some q)) -> uses_receiver c = true -> exists r, q = Ret r.
Proof.
  intros Hok Ha Hm Hi Hu. pose proof (po_inv _ _ _ _ Hok) as Hinv.
  destruct (hi_destroyer g) as [d|] eqn:Ed; [|by destruct (ri_destroyed _ _ _ _ Hinv Hm)].
  pose proof (ri_destroyer _ _ _ _ Hinv d Ed) as Hd. rewrite list_lookup_fmap in Hd.
  destruct (pl_threads p !! d) as [td|] eqn:Etd; [|done]. injection Hd as Hd.
  assert (i = d) as ->.
  { destruct (decide (d = i)) as [|Hne]; [done|]. pose proof (Ha d i _ _ Etd ltac:(by rewrite Hd) Hi Hne Hu). done. }
  pose proof (po_left _ _ _ _ Hok d c q Hi) as Hw. destruct q as [r|X e k]; [by exists r|]. destruct Hw as [[Hov _] _].
  cbn in Hov. by rewrite bool_decide_eq_true_2 in Hov by done.
Qed.

(** The stream is used only while it exists. *)
Lemma used_while_exists g p outs i p' o n ev :
  receiver_ok g p outs -> destroyed_alone p -> receiver_step p i = Some (p', o) -> OAct n ev ∈ o ->
  stream_exists (pl_shared p) = true /\ (rc_members (pl_shared p) = false -> n ∈ rc_refs (pl_shared p)).
Proof.
  intros Hok Ha [(c & _ & _ & -> & _)|[(m & a & c & r & _ & _ & _ & ->)|[(m & a & c & X & e & k & x & s & evs & _ & Hn & Hp & _ & ->)|
    ([] & _)]]]%pool_step_cases Hin.
  1: by inversion Hin. 1: by apply list_elem_of_singleton in Hin.
  apply list_elem_of_fmap in Hin as (ev' & [= <- <-] & Hin). destruct (po_left _ _ _ _ Hok n c _ Hn) as [Hpre _].
  assert (uses_receiver c || bool_decide (n ∈ rc_refs (pl_shared p)) = true) as Hu.
  { cbn in Hp, Hpre. destruct Hpre as [_ Hpre]. clear Hn k. destruct e; cbn [perform] in Hp; try (injection Hp as <- <- <-; by inversion Hin);
      try (by destruct Hpre as [_ ?]).
    - destruct (stream_exists _); injection Hp as <- <- <-; by inversion Hin.
    - destruct (rc_mutex _); [done|]. injection Hp as <- <- <-; by inversion Hin.
    - destruct (str_empty (an_id a)); [done|]. injection Hp as <- <- <-; by inversion Hin. }
  unfold stream_exists. destruct (rc_members (pl_shared p)) eqn:Hg; [done|].
  destruct (uses_receiver c) eqn:Huc; [by destruct (members_used _ _ _ _ _ _ Hok Ha Hg Hn Huc)|].
  apply bool_decide_eq_true in Hu. split; [|done]. apply bool_decide_eq_true. intros E. rewrite E in Hu. set_solver.
Qed.

Lemma perform_frame n a s {X} (e : racc X) x s1 evs :
  perform X n a s e = Some (x, s1, evs) ->
  (rc_closed s = true -> rc_closed s1 = true) /\ (stream_exists s = false -> stream_exists s1 = false).
Proof.
  unfold stream_exists. destruct e; cbn [perform]; try (by intros [= <- <- <-]).
  - unfold stream_exists. destruct (_ || _) eqn:Es; intros [= <- <- <-]; [done|]. by rewrite Es.
  - intros [= <- <- <-]. split; [done|]. cbn. intros [-> Hr%bool_decide_eq_false]%orb_false_iff. apply bool_decide_eq_false.
    intros Hne. apply Hr. intros E. apply Hne. rewrite E. set_solver.
  - destruct (rc_mutex s); [done|]. by intros [= <- <- <-].
  - destruct (str_empty (an_id a)); [done|]. by intros [= <- <- <-].
  - intros [= <- <- <-]. split; [done|]. cbn. by intros [_ ?]%orb_false_iff.
Qed.

(** Nothing brings the stream back. *)
Lemma gone_step p i p' o : receiver_step p i = Some (p', o) -> stream_exists (pl_shared p) = false -> stream_exists (pl_shared p') = false.
Proof.
  intros [(c & _ & _ & _ & ->)|[(m & a & c & r & _ & _ & -> & _)|[(m & a & c & X & e & k & x & s & evs & _ & Hn & Hp & -> & _)|
    ([] & _)]]]%pool_step_cases; try done. by eapply perform_frame in Hp as [_ Hp].
Qed.

Definition refused : receiver_result :=
  RPoll (SError (mkStatus kFatal "downstream receiver is closed" "QueueDownstreamReceiver::Poll" "" "")).

(** A poll [n] that began on a closed receiver. *)
Definition poll_refused (n : nat) (request : PollRequest) (p : pool racc Receiver receiver_call receiver_result)
    (outs : list (pool_output receiver_result stream_event)) : Prop :=
  rc_closed (pl_shared p) = true /\
  (exists left', pl_threads p !! n = Some (mkThread (CPoll request) left') /\
     (left' = Some (call_program client_id h (CPoll request)) \/ left' = Some (Ret refused) \/ left' = None)) /\
  (forall ev, OAct n ev ∉ outs) /\ (forall r, OReturned n r ∈ outs -> r = refused).

Lemma poll_refused_step n request p outs i p' o :
  poll_refused n request p outs -> receiver_step p i = Some (p', o) -> poll_refused n request p' (outs ++ o).
Proof.
  intros (Hc & (l & Hn & Hl) & He & Hr) Hs.
  assert (n < length (pl_threads p))%nat as Hlen by by eapply lookup_lt_Some.
  assert ((exists a, i = PStep n a) \/ forall a, i <> PStep n a) as [[a ->]|Hne]
    by (destruct i as [c|m a|b]; [by right| |by right]; destruct (decide (m = n)) as [->|]; [left; by exists a|right; naive_solver]).
  - unfold receiver_step in Hs. cbn [pool_step] in Hs. rewrite Hn in Hs. destruct Hl as [->|[->| ->]]; [| |done].
    + cbn in Hs. rewrite Hc in Hs. injection Hs as <- <-. rewrite app_nil_r. split; [done|]. split; [|done].
      exists (Some (Ret refused)). split; [by apply list_lookup_insert_eq|auto].
    + injection Hs as <- <-. split; [done|]. split; [|split].
      * exists None. split; [by apply list_lookup_insert_eq|auto].
      * intros ev [Hin|Hin%list_elem_of_singleton]%elem_of_app; [by eapply He|done].
      * intros r1 [Hin|Hin%list_elem_of_singleton]%elem_of_app; [by apply Hr|]. by injection Hin as ->.
  - apply pool_step_cases in Hs as [(c & _ & _ & -> & ->)|[(m & a & c & r & -> & Hm & -> & ->)|[(m & a & c & X & e & k & x & s & evs & -> & Hm & Hp & -> & ->)|
      ([] & _)]]].
    + rewrite app_nil_r. split; [done|]. split; [|done]. exists l. split; [by apply lookup_app_l_Some|done].
    + assert (m <> n) as Hmn by (intros ->; by eapply Hne).
      split; [done|]. split; [exists l; cbn; by rewrite list_lookup_insert_ne|]. split.
      * intros ev [Hin|Hin%list_elem_of_singleton]%elem_of_app; [by eapply He|done].
      * intros r1 [Hin|Hin%list_elem_of_singleton]%elem_of_app; [by apply Hr|]. congruence.
    + assert (m <> n) as Hmn by (intros ->; by eapply Hne). apply perform_frame in Hp as [Hcl _].
      split; [by apply Hcl|]. split; [exists l; cbn; by rewrite list_lookup_insert_ne|]. split.
      * intros ev [Hin|Hin]%elem_of_app; [by eapply He|]. apply list_elem_of_fmap in Hin as (? & ? & _). congruence.
      * intros r1 [Hin|Hin]%elem_of_app; [by apply Hr|]. by apply list_elem_of_fmap in Hin as (? & ? & _).
Qed.

(** C7: the operations of a receiver do not mix on its stream. In every
    interleaving of polls, settlements, calls of [Close] and the destructor:
    what happens on the stream is a sequence of sections, each that of one
    call, whole but for the one of the call that has the mutex; the section of a
    poll is its Get request and, if that was written, one read, of a settlement
    its one request, of a [Close] its CloseByClient request and the half-close;
    a call has at most one, and one call at most closes. A call that returned
    answers what Downstream says for what its section met: a poll has the
    messages of the response it read, with their transaction, auto-ack and
    sequence. And whatever the stream answers, all calls in progress can still
    return. *)
Theorem receiver_calls_serialized (ins : list (pool_input answers Empty_set receiver_call))
    (p : pool racc Receiver receiver_call receiver_result) (outs : list (pool_output receiver_result stream_event)) :
  receiver_run ins = Some (p, outs) ->
  (exists sections now,
     acts outs = (concat (tagged <$> sections) ++ in_section (pl_shared p) now)%list /\ NoDup sections.*1 /\
     (forall i evs, (i, evs) ∈ sections -> exists t, pl_threads p !! i = Some t /\ section_of (th_call t) evs) /\
     (forall i j evs evs' t t', (i, evs) ∈ sections -> (j, evs') ∈ sections -> pl_threads p !! i = Some t ->
        pl_threads p !! j = Some t' -> closes (th_call t) = true -> closes (th_call t') = true -> i = j) /\
     (forall i r, OReturned i r ∈ outs ->
        exists c, pl_threads p !! i = Some (mkThread c None) /\ returns c (section_done i sections) r)) /\
  (forall a, str_empty (an_id a) = false -> exists ins' p' outs', run receiver_step p ins' = Some (p', outs') /\
     (forall x, x ∈ ins' -> exists i, x = PStep i a) /\ forall t, t ∈ pl_threads p' -> th_left t = None).
Proof.
  intros Hr. destruct (receiver_run_ok _ _ _ Hr) as [g Hok]. pose proof (po_inv _ _ _ _ Hok) as Hinv. split.
  - assert (forall i t c, pl_threads p !! i = Some t -> (th_call <$> pl_threads p) !! i = Some c -> th_call t = c) as Hcall
      by (intros i t c Hi; rewrite list_lookup_fmap, Hi; by intros [= <-]).
    exists (hi_sections g), (hi_now g). split; [apply (ri_events _ _ _ _ Hinv)|]. split; [apply (ri_once _ _ _ _ Hinv)|].
    split; [|split].
    + intros i evs Hin. destruct (ri_sections _ _ _ _ Hinv i evs Hin) as (c & Hi & Hs & _). rewrite list_lookup_fmap in Hi.
      destruct (pl_threads p !! i) as [t|]; [|done]. injection Hi as <-. by exists t.
    + intros i j evs evs' t t' Hi Hj Hti Htj Hci Hcj.
      destruct (ri_sections _ _ _ _ Hinv i _ Hi) as (c & Hc & _ & H1), (ri_sections _ _ _ _ Hinv j _ Hj) as (c' & Hc' & _ & H2).
      rewrite (Hcall i t c Hti Hc) in Hci. rewrite (Hcall j t' c' Htj Hc') in Hcj.
      pose proof (H1 Hci). pose proof (H2 Hcj). congruence.
    + intros i r Hin. destruct (po_returned _ _ _ _ Hok i r Hin) as (c & Hi & _ & _ & Hret). by exists c.
  - intros a Ha.
    destruct (all_can_return receiver_discipline a (fun _ => mutex_for)) with (Q := fun _ : Receiver => True) (g := g) (p := p) (outs := outs)
      as (ins' & p' & outs' & Hr' & Hin & _ & Hd); [|..|done|done|by exists ins', p', outs'].
    + intros g1 s cs evs i c X e Hinv1 Hc Hpre Hm. by eapply mutex_enabled.
    + done.
    + intros g1 p1 outs1 Hok1 _ Hi. by eapply holder_alone.
Qed.

(** C8: the stream, the receiver and the flag. In every such interleaving the
    stream is used only while it exists, and when the receiver's members are
    destroyed only by settlements that hold it; a call that uses the receiver
    has it until it has nothing left to do; a stream that is gone is never
    used again; and a poll that begins once a [Close] has begun is refused
    and does not touch the stream. *)
Theorem receiver_lifetime (ins : list (pool_input answers Empty_set receiver_call))
    (p : pool racc Receiver receiver_call receiver_result) (outs : list (pool_output receiver_result stream_event)) :
  receiver_run ins = Some (p, outs) ->
  let s := pl_shared p in
  (forall i p' o n ev, receiver_step p i = Some (p', o) -> OAct n ev ∈ o ->
     stream_exists s = true /\ (rc_members s = false -> n ∈ rc_refs s)) /\
  (rc_members s = false -> forall i c q, pl_threads p !! i = Some (mkThread c (Some q)) -> uses_receiver c = true ->
     exists r, q = Ret r) /\
  (stream_exists s = false -> forall ins' p' outs', run receiver_step p ins' = Some (p', outs') -> acts outs' = []) /\
  (rc_closed s = true -> forall request p1 o ins' p' outs', receiver_step p (PCall (CPoll request)) = Some (p1, o) ->
     run receiver_step p1 ins' = Some (p', outs') ->
     let n := length (pl_threads p) in
     (forall ev, OAct n ev ∉ outs') /\ (forall r, OReturned n r ∈ outs' -> r = refused)).
Proof.
  intros Hr s. destruct (receiver_run_ok _ _ _ Hr) as [g Hok]. pose proof (destroyed_alone_run _ _ _ Hr) as Ha.
  split; [intros; by eapply used_while_exists|]. split; [intros; by eapply members_used|]. split.
  - intros Hg ins' p' outs' Hr'.
    assert (exists g', receiver_ok g' p' (outs ++ outs') /\ destroyed_alone p' /\ stream_exists (pl_shared p') = false /\ acts outs' = [])
      as (_ & _ & _ & _ & Hx); [|done].
    revert ins' p' outs' Hr'. apply (run_ind receiver_step p (fun p' _ outs' => exists g',
      receiver_ok g' p' (outs ++ outs') /\ destroyed_alone p' /\ stream_exists (pl_shared p') = false /\ acts outs' = [])).
    + exists g. by rewrite app_nil_r.
    + intros p1 ins1 outs1 i p2 o _ (g1 & Hok1 & Ha1 & Hg1 & He1) Hs.
      destruct (pool_ok_step _ _ _ _ _ _ _ Hok1 Hs) as [g2 Hok2]. exists g2. rewrite app_assoc, acts_app, He1.
      split; [done|]. split; [by eapply destroyed_alone_step|]. split; [by eapply gone_step|].
      cbn [app]. destruct (acts o) as [|[w ev] l] eqn:Eo; [done|exfalso].
      assert (exists n, OAct n ev ∈ o) as [n Hin].
      { assert ((w, ev) ∈ acts o) as Hx by (rewrite Eo; by left).
        apply list_elem_of_omap in Hx as (x & Hin & Hx). destruct x as [n e|e|]; [|exfalso|done].
        - exists n. by injection Hx as _ ->.
        - apply pool_step_cases in Hs as [(c & _ & _ & -> & _)|[(m & a & c & r & _ & _ & _ & ->)|[(m & a & c & X & e1 & k & x & s1 & evs & _ & _ & _ & _ & ->)|([] & _)]]].
          + by inversion Hin.
          + by apply list_elem_of_singleton in Hin.
          + by apply list_elem_of_fmap in Hin as (? & ? & _). }
      destruct (used_while_exists _ _ _ _ _ _ _ _ Hok1 Ha1 Hs Hin). congruence.
  - intros Hc request p1 o ins' p' outs' Hs Hr' n.
    assert (poll_refused n request p' outs') as (_ & _ & He & Hret); [|done].
    revert ins' p' outs' Hr'. apply (run_ind receiver_step p1 (fun p' _ outs' => poll_refused n request p' outs')).
    + unfold receiver_step in Hs. cbn [pool_step] in Hs. destruct (cp_may _ _ _ _); [|done]. injection Hs as <- _.
      split; [done|]. split; [|split; intros ? Hin; by inversion Hin].
      eexists. split; [by apply list_lookup_middle|by left].
    + intros p2 ins2 outs2 i p3 o3 _ Hp Hs3. by eapply poll_refused_step.
Qed.

End concurrent.

(** ** Concrete interleavings *)

(** A response with one message that has no attributes. *)
Definition one_message : pb_QueuesDownstreamResponse :=
  mk_pb_QueuesDownstreamResponse "tx" "" Get [pb_QueueMessage_default] [] false "" false ∅.
Definition demo_answers : answers := mkAnswers true (Some one_message) "id" QueueMessage_default.
Definition steps (i n : nat) : list (pool_input answers Empty_set receiver_call) := repeat (PStep i demo_answers) n.
Definition demo_poll : receiver_call := CPoll (mkPollRequest "q" 1 5 false).
Definition demo_response : PollResponse :=
  mkPollResponse "tx" [demo_downstream_message] false "" false false None (Some 1%nat) true.
Definition demo_ack : receiver_call := CSettle SAck demo_downstream_message demo_response.

Notation receiver_demo := (receiver_run "cl" 1).
Notation demo_receiver_step := (receiver_step "cl" 1).

(** A poll has its mutex while a settlement waits, and a [Close] begins. *)
Definition overlapping : list (pool_input answers Empty_set receiver_call) :=
  (PCall demo_poll :: steps 0 4 ++ PCall demo_ack :: steps 1 2 ++ PCall CClose :: steps 2 2)%list.

(** What was done on the stream, by whom. *)
Inductive stream_use := UGet | URead | USettle | UCloseRequest | UHalfClose.
Definition use_of (e : stream_event) : stream_use :=
  match e with
  | SWrite req _ =>
      match pbQueuesDownstreamRequest_requesttypedata req with Get => UGet | CloseByClient => UCloseRequest | _ => USettle end
  | SRead _ => URead
  | SWritesDone => UHalfClose
  end.
Definition uses (outs : list (pool_output receiver_result stream_event)) : list (option nat * stream_use) := (fun p => (fst p, use_of (snd p))) <$> acts outs.

(** What the receiver does not keep apart. [Close] sets its flag without
    the mutex under which a poll writes, so a poll past its test writes on the
    stream that [Close] has half-closed. And the shared pointer of a settlement
    keeps the stream but not the context of its call, which belongs to the
    receiver: a settlement that holds the stream while the receiver is
    destroyed writes on it when the context is freed, and lets another
    settlement take the stream that would have been told it is gone. *)
Theorem receiver_close_races :
  (exists s outs, receiver_demo (PCall demo_poll :: steps 0 2 ++ PCall CClose :: steps 1 6 ++ steps 0 2) = Some (s, outs) /\
     uses outs = [(Some 1%nat, UCloseRequest); (Some 1%nat, UHalfClose); (Some 0%nat, UGet)]) /\
  (exists s outs s1 o1 s2 o2,
     receiver_demo (PCall demo_ack :: steps 0 1 ++ PCall CDestroy :: steps 1 7) = Some (s, outs) /\ rc_members (pl_shared s) = false /\
     run demo_receiver_step s (steps 0 3) = Some (s1, o1) /\ uses o1 = [(Some 0%nat, USettle)] /\
     run demo_receiver_step s (PCall demo_ack :: steps 2 1 ++ steps 0 5 ++ steps 2 3) = Some (s2, o2) /\
     uses o2 = [(Some 0%nat, USettle); (Some 2%nat, USettle)]).
Proof.
  split.
  - eexists _, _. split; [vm_compute; reflexivity|reflexivity].
  - eexists _, _, _, _, _, _. split; [vm_compute; reflexivity|]. split; [reflexivity|].
    split; [vm_compute; reflexivity|]. split; [reflexivity|]. split; [vm_compute; reflexivity|reflexivity].
Qed.

Lemma receiver_calls_serialized_witness :
  exists s outs, receiver_demo overlapping = Some (s, outs) /\ rc_mutex (pl_shared s) = Some 0%nat /\ running s = 3%nat /\
    (exists sections now, acts outs = (concat (tagged <$> sections) ++ in_section (pl_shared s) now)%list) /\
    exists ins' s' outs', run demo_receiver_step s ins' = Some (s', outs') /\ forall t, t ∈ pl_threads s' -> th_left t = None.
Proof.
  destruct (receiver_demo overlapping) as [[s outs]|] eqn:E; [|vm_compute in E; discriminate E].
  destruct (receiver_calls_serialized "cl" 1 overlapping s outs E) as ((sections & now & He & _) & Hl).
  destruct (Hl demo_answers eq_refl) as (ins' & s' & outs' & Hr & _ & Hd).
  exists s, outs. split; [reflexivity|].
  assert (rc_mutex (pl_shared s) = Some 0%nat /\ running s = 3%nat) as [H1 H2] by (vm_compute in E; injection E as <- _; vm_compute; auto).
  split; [exact H1|]. split; [exact H2|]. split; [by exists sections, now|]. by exists ins', s', outs'.
Defined.

(** A receiver that was closed refuses; one that is gone is not used. *)
Lemma receiver_lifetime_witness :
  exists s outs, receiver_demo (PCall CDestroy :: steps 0 8) = Some (s, outs) /\ stream_exists (pl_shared s) = false /\
    (forall ins' s' outs', run demo_receiver_step s ins' = Some (s', outs') -> acts outs' = []) /\
    exists s1 outs1 s2 o, receiver_demo (PCall CClose :: steps 0 1) = Some (s1, outs1) /\
      demo_receiver_step s1 (PCall demo_poll) = Some (s2, o) /\
      forall ins' s' outs', run demo_receiver_step s2 ins' = Some (s', outs') ->
        forall r, OReturned 1 r ∈ outs' -> r = refused.
Proof.
  destruct (receiver_demo (PCall CDestroy :: steps 0 8)) as [[s outs]|] eqn:E; [|vm_compute in E; discriminate E].
  destruct (receiver_lifetime "cl" 1 (PCall CDestroy :: steps 0 8) s outs E) as (_ & _ & Hg & _).
  exists s, outs. split; [reflexivity|].
  assert (stream_exists (pl_shared s) = false) as H1 by (vm_compute in E; injection E as <- _; vm_compute; auto).
  split; [exact H1|]. split; [exact (Hg H1)|].
  destruct (receiver_demo (PCall CClose :: steps 0 1)) as [[s1 outs1]|] eqn:E1; [|vm_compute in E1; discriminate E1].
  destruct (receiver_lifetime "cl" 1 (PCall CClose :: steps 0 1) s1 outs1 E1) as (_ & _ & _ & Hc).
  assert (rc_closed (pl_shared s1) = true /\ length (pl_threads s1) = 1%nat /\ may_call demo_poll (pl_shared s1) (pl_threads s1) = true) as (H2 & H3 & H4)
    by (vm_compute in E1; injection E1 as <- _; vm_compute; auto).
  assert (exists s2 o, demo_receiver_step s1 (PCall demo_poll) = Some (s2, o)) as (s2 & o & Hs)
    by (unfold receiver_step; cbn [pool_step]; change (cp_may (receiver_component "cl" 1)) with may_call; rewrite H4; eexists _, _; reflexivity).
  exists s1, outs1, s2, o. split; [reflexivity|]. split; [exact Hs|].
  intros ins' s' outs' Hr r Hin. destruct (Hc H2 _ s2 o ins' s' outs' Hs Hr) as [_ Hx]. apply Hx. rewrite H3. exact Hin.
Defined.

Lemma receiver_programs_are_operations_witness :
  run_alone 1 (poll_program "cl" 1 (mkPollRequest "q" 1 5 false)) (7, false) =
  beside (Poll demo_receiver 1 (mkPollRequest "q" 1 5 false)) false (7, false).
Proof. exact (proj1 (@receiver_programs_are_operations Z demo_stream lcg_random 1 demo_receiver 7 eq_refl) _). Defined.
