(* ===== verification/SharedHandle.v ===== *)
(** * A stream handle and the threads that use it

    The handles of StreamHandle with any number of threads at once: calls of
    [Send], [Close], [Wait] and the setters, the destructor, the reader thread,
    and the calls the reader's own callbacks make of the handle
    (src/internal/stream_handle_impl.h, src/internal/queue_stream_impl.h, the
    operations of client_events.cc, client_events_store.cc and
    client_queues_stream.cc). The reader is the one of StreamHandle; a call is a
    program of accesses (Threads). *)

From Stdlib Require Import ZArith Lia Ascii String.
From S2P Require Import Prelude Automaton Program Threads Status ErrorMapper Messages Proto Callback StreamHandle.

Local Open Scope string_scope.
Local Open Scope kubemq_scope.

(** ** Accesses *)

Section shared.
Context {Req Resp Res : Type}.

Inductive hacc : Type -> Type :=
  | HLock : hacc unit                         (* write_mu *)
  | HUnlock : hacc unit
  | HLoadDone : hacc bool                     (* done.load(), with write_mu *)
  | HPeekDone : hacc bool                     (* done.load() of IsDone *)
  | HExchangeDone : hacc bool                 (* done.exchange(true) *)
  | HStreamWrite (m : Req) : hacc bool
  | HStreamWritesDone : hacc unit
  | HEnterOnce : hacc bool                    (* call_once(join_once, ...): whether it has run before *)
  | HThreadJoin (own : bool) : hacc bool      (* reader_thread.join() there, on the reader thread itself or not: whether it returned *)
  | HPutResult (set : bool) : hacc unit       (* on_result = callback, under callback_mu *)
  | HPutError (set : bool) : hacc unit
  | HDestroyMembers : hacc unit.

Notation program := (prog hacc).
Notation act := (@Act hacc _ _).

(** ** The operations *)

Inductive handle_op :=
  | OpSend (m : Req) (channel : string)
  | OpClose | OpWait | OpIsDone
  | OpSetOnResult (set : bool) | OpSetOnError (set : bool)
  | OpDestroy.

(** A call, and whether a callback makes it, on the reader thread. *)
Record handle_call := mkHandleCall { hc_callback : bool; hc_op : handle_op }.

Inductive handle_result :=
  | HSent (s : Status)
  | HVoid
  | HIs (done : bool)
  | HThrew.                                   (* std::system_error: a thread that joins itself *)

Definition send_program (k : HandleKind (Resp := Resp) (Res := Res)) (m : Req) (channel : string) : program handle_result :=
  act HLock (fun _ =>
  act HLoadDone (fun done =>
  if done then
    act HUnlock (fun _ => Ret (HSent (mkStatus kFatal (closed_text k) (send_operation k) channel "")))
  else
    act (HStreamWrite m) (fun written =>
    act HUnlock (fun _ =>
    Ret (HSent (if written then StatusOk else mkStatus kTransient (write_text k) (send_operation k) channel "")))))).

Definition join_program (own : bool) (k : program handle_result) : program handle_result :=
  act HEnterOnce (fun over =>
  if over then k else act (HThreadJoin own) (fun joined => if joined then k else Ret HThrew)).

Definition close_handle_program (own : bool) (k : program handle_result) : program handle_result :=
  act HLock (fun _ =>
  act HExchangeDone (fun was =>
  if was then act HUnlock (fun _ => k)
  else
    act HStreamWritesDone (fun _ =>
    act HUnlock (fun _ =>
    join_program own k)))).

Definition handle_program (k : HandleKind (Resp := Resp) (Res := Res)) (c : handle_call) : program handle_result :=
  match hc_op c with
  | OpSend m channel => send_program k m channel
  | OpClose => close_handle_program (hc_callback c) (Ret HVoid)
  | OpWait => join_program (hc_callback c) (Ret HVoid)
  | OpIsDone => act HPeekDone (fun done => Ret (HIs done))
  | OpSetOnResult b => act (HPutResult b) (fun _ => Ret HVoid)
  | OpSetOnError b => act (HPutError b) (fun _ => Ret HVoid)
  | OpDestroy => close_handle_program (hc_callback c) (act HDestroyMembers (fun _ => Ret HVoid))
  end.

(** ** What they share *)

Record SharedHandle := mkSharedHandle {
  sd_done : bool;
  sd_pc : h_pc (Resp := Resp);                (* the reader thread *)
  sd_once : option nat;                       (* who is inside join_once *)
  sd_joined : bool;                           (* join_once has run: the reader is joined *)
  sd_result : bool;
  sd_error : bool;
  sd_calling : bool;                          (* a callback runs, with callback_mu *)
  sd_mutex : option nat;                      (* who holds write_mu *)
  sd_life : h_life
}.

Definition SharedHandle_start (on_result on_error : bool) : SharedHandle :=
  mkSharedHandle false HAtRead None false on_result on_error false None Alive.

Inductive handle_event :=
  | EWrite (m : Req) (written : bool)
  | EWritesDone
  | EReader (o : h_output (Req := Req) (Res := Res))
  | ETerminate.

Definition put_done (s : SharedHandle) : SharedHandle :=
  mkSharedHandle true (sd_pc s) (sd_once s) (sd_joined s) (sd_result s) (sd_error s) (sd_calling s) (sd_mutex s) (sd_life s).
Definition put_mutex (o : option nat) (s : SharedHandle) : SharedHandle :=
  mkSharedHandle (sd_done s) (sd_pc s) (sd_once s) (sd_joined s) (sd_result s) (sd_error s) (sd_calling s) o (sd_life s).
Definition put_once (o : option nat) (joined : bool) (s : SharedHandle) : SharedHandle :=
  mkSharedHandle (sd_done s) (sd_pc s) o joined (sd_result s) (sd_error s) (sd_calling s) (sd_mutex s) (sd_life s).
Definition put_callbacks (r e : bool) (s : SharedHandle) : SharedHandle :=
  mkSharedHandle (sd_done s) (sd_pc s) (sd_once s) (sd_joined s) r e (sd_calling s) (sd_mutex s) (sd_life s).
Definition put_calling (b : bool) (s : SharedHandle) : SharedHandle :=
  mkSharedHandle (sd_done s) (sd_pc s) (sd_once s) (sd_joined s) (sd_result s) (sd_error s) b (sd_mutex s) (sd_life s).
Definition put_life (l : h_life) (s : SharedHandle) : SharedHandle :=
  mkSharedHandle (sd_done s) (sd_pc s) (sd_once s) (sd_joined s) (sd_result s) (sd_error s) (sd_calling s) (sd_mutex s) l.

(** Whoever calls [join_once] while another thread is inside waits for it; a
    thread that joins itself gets an exception, after which [join_once] is as
    before it. *)
Definition hperform (X : Type) (i : nat) (a : bool) (s : SharedHandle) (e : hacc X) : option (X * SharedHandle * list handle_event) :=
  match e in hacc X return option (X * SharedHandle * list handle_event) with
  | HLock => match sd_mutex s with None => Some (tt, put_mutex (Some i) s, []) | Some _ => None end
  | HUnlock => Some (tt, put_mutex None s, [])
  | HLoadDone | HPeekDone => Some (sd_done s, s, [])
  | HExchangeDone => Some (sd_done s, put_done s, [])
  | HStreamWrite m => Some (a, s, [EWrite m a])
  | HStreamWritesDone => Some (tt, s, [EWritesDone])
  | HEnterOnce =>
      if sd_joined s then Some (true, s, [])
      else match sd_once s with None => Some (false, put_once (Some i) false s, []) | Some _ => None end
  | HThreadJoin own =>
      if own then Some (false, put_once None false s, [])
      else match sd_pc s with HAtExit => Some (true, put_once None true s, []) | _ => None end
  | HPutResult b => if sd_calling s then None else Some (tt, put_callbacks b (sd_error s) s, [])
  | HPutError b => if sd_calling s then None else Some (tt, put_callbacks (sd_result s) b s, [])
  | HDestroyMembers =>
      Some (tt, put_life (if sd_joined s then Destroyed else Terminated) s, if sd_joined s then [] else [ETerminate])
  end.

Notation thread := (thread hacc handle_call handle_result).

Definition is_destroy_op (o : handle_op) : bool := match o with OpDestroy => true | _ => false end.

(** What a callback may call: locking callback_mu again is undefined. *)
Definition callback_op (o : handle_op) : bool := match o with OpSend _ _ | OpClose | OpWait | OpIsDone => true | _ => false end.

Definition calling (t : thread) : bool := hc_callback (th_call t) && in_progress t.

(** Calls are made until the destructor begins, which it does when they have
    returned; of callbacks while one runs, one at a time. *)
Definition may_handle (c : handle_call) (s : SharedHandle) (ts : list thread) : bool :=
  forallb (fun t => negb (is_destroy_op (hc_op (th_call t))) && negb (is_destroy_op (hc_op c) && in_progress t)) ts &&
  (negb (hc_callback c) || (callback_op (hc_op c) && sd_calling s && forallb (fun t => negb (calling t)) ts)).

(** ** The reader thread *)

Inductive reader_input :=
  | RCallback                                 (* callback_mu is taken and a callback begins *)
  | RReader (i : h_input (Req := Req) (Resp := Resp)).

(** The handle as its reader sees it. *)
Definition reader_view (s : SharedHandle) : HandleImpl (Req := Req) (Resp := Resp) :=
  mkHandleImpl (sd_done s) HFree (sd_pc s) CIdle (sd_joined s) (sd_result s) (sd_error s) (sd_life s).

Definition of_reader (r : HandleImpl (Req := Req) (Resp := Resp)) (s : SharedHandle) : SharedHandle :=
  mkSharedHandle (h_done r) (h_pc_ r) (sd_once s) (sd_joined s) (sd_result s) (sd_error s) false (sd_mutex s) (sd_life s).

Definition callback_due (s : SharedHandle) : bool :=
  match sd_pc s with HAtResult _ => sd_result s | HAtReport _ => sd_error s | _ => false end.

(** A callback returns when the calls it made have. *)
Definition reader_env (k : HandleKind (Resp := Resp) (Res := Res)) (s : SharedHandle) (ts : list thread) (b : reader_input)
    : option (SharedHandle * list handle_event) :=
  match sd_life s, b with
  | Alive, RCallback => if callback_due s && negb (sd_calling s) then Some (put_calling true s, []) else None
  | Alive, RReader i =>
      if is_reader_input i && (negb (callback_due s) || sd_calling s) && forallb (fun t => negb (calling t)) ts then
        match reader_step k (reader_view s) i with
        | Some (r, o) => Some (of_reader r s, EReader <$> o)
        | None => None
        end
      else None
  | _, _ => None
  end.

Definition handle_component (k : HandleKind) : component hacc SharedHandle bool reader_input handle_call handle_result handle_event := {|
  cp_program := handle_program k;
  cp_may := may_handle;
  cp_perform := hperform;
  cp_env := reader_env k
|}.

Definition handle_step (k : HandleKind) := pool_step (handle_component k).
Definition handle_run (k : HandleKind) (on_result on_error : bool) :=
  pool_run (handle_component k) (SharedHandle_start on_result on_error).

(** ** What a call may do *)

(** What a call does on the stream while it has [write_mu], *)
Definition handle_section (c : handle_call) (evs : list handle_event) : Prop :=
  match hc_op c with
  | OpSend m _ => evs = [] \/ exists b, evs = [EWrite m b]
  | OpClose | OpDestroy => evs = [] \/ evs = [EWritesDone]
  | _ => False
  end.

(** and what a call that did [done] returns; [joined]: its [JoinReader] returned. *)
Definition handle_returns (k : HandleKind (Resp := Resp) (Res := Res)) (c : handle_call) (done : option (list handle_event)) (joined : bool)
    (r : handle_result) : Prop :=
  match hc_op c with
  | OpSend _ channel =>
      match done with
      | Some [] => r = HSent (mkStatus kFatal (closed_text k) (send_operation k) channel "")
      | Some [EWrite _ written] =>
          r = HSent (if written then StatusOk else mkStatus kTransient (write_text k) (send_operation k) channel "")
      | _ => False
      end
  | OpClose | OpDestroy =>
      match done with
      | Some [] => r = HVoid
      | Some [EWritesDone] => (r = HVoid /\ joined = true) \/ (r = HThrew /\ hc_callback c = true)
      | _ => False
      end
  | OpWait => (r = HVoid /\ joined = true) \/ (r = HThrew /\ hc_callback c = true)
  | OpIsDone => exists b, r = HIs b
  | OpSetOnResult _ | OpSetOnError _ => r = HVoid
  end.

(** What a thread found when it looked at [done] under [write_mu]. *)
Inductive looked := NotOpen | FoundOpen | SetDone.

(** What a thread knows: what it did since it has [write_mu], what it found of
    [done] there, what it did when it had it, whether it is inside [join_once],
    and whether it has seen the reader leave. *)
Record hspot := mkHSpot {
  hs_now : option (list handle_event);
  hs_open : looked;
  hs_done : option (list handle_event);
  hs_once : bool;
  hs_joined : bool
}.

Definition h_start : hspot := mkHSpot None NotOpen None false false.
Definition see_open (b : looked) (v : hspot) : hspot := mkHSpot (hs_now v) b (hs_done v) (hs_once v) (hs_joined v).
Definition see_once (v : hspot) : hspot := mkHSpot (hs_now v) (hs_open v) (hs_done v) true (hs_joined v).
Definition see_joined (ok : bool) (v : hspot) : hspot := mkHSpot (hs_now v) (hs_open v) (hs_done v) false (ok || hs_joined v).
Definition see_event (e : handle_event) (b : looked) (v : hspot) : hspot :=
  mkHSpot ((fun l => l ++ [e])%list <$> hs_now v) b (hs_done v) (hs_once v) (hs_joined v).

Definition handle_contract (c : handle_call) : contract hacc hspot := {|
  pre X e v :=
    match e with
    | HLock => (hs_now v = None /\ hs_once v = false) /\ hs_done v = None
    | HUnlock => (exists evs, hs_now v = Some evs /\ handle_section c evs) /\ hs_done v = None
    | HLoadDone | HExchangeDone => hs_now v <> None
    | HPeekDone => hs_now v = None
    | HStreamWrite _ => hs_now v <> None /\ hs_open v = FoundOpen
    | HStreamWritesDone => hs_now v <> None /\ hs_open v = SetDone
    | HEnterOnce => (hs_now v = None /\ hs_once v = false) /\ (hc_op c = OpWait \/ hc_op c = OpClose \/ hc_op c = OpDestroy)
    | HThreadJoin own => (hs_now v = None /\ hs_once v = true) /\ own = hc_callback c
    | HPutResult _ | HPutError _ => hs_now v = None /\ callback_op (hc_op c) = false
    | HDestroyMembers => hs_now v = None /\ hc_op c = OpDestroy
    end;
  post X e v x v' :=
    match e in hacc Y return Y -> Prop with
    | HLock => fun _ => v' = mkHSpot (Some []) NotOpen None (hs_once v) (hs_joined v)
    | HUnlock => fun _ => v' = mkHSpot None NotOpen (hs_now v) (hs_once v) (hs_joined v)
    | HLoadDone => fun done => v' = see_open (if done then NotOpen else FoundOpen) v
    | HExchangeDone => fun was => v' = see_open (if was then NotOpen else SetDone) v
    | HStreamWrite m => fun b => v' = see_event (EWrite m b) FoundOpen v
    | HStreamWritesDone => fun _ => v' = see_event EWritesDone NotOpen v
    | HEnterOnce => fun over => v' = if over then see_joined true v else see_once v
    | HThreadJoin own => fun ok => v' = see_joined ok v /\ (ok = false -> own = true)
    | HPeekDone => fun _ => v' = v
    | HPutResult _ | HPutError _ | HDestroyMembers => fun _ => v' = v
    end x
|}.

Definition handle_post (k : HandleKind) (c : handle_call) (r : handle_result) (v : hspot) : Prop :=
  (hs_now v = None /\ hs_once v = false) /\ handle_returns k c (hs_done v) (hs_joined v) r.

Notation obeys k c p v := (wp (handle_contract c) p (handle_post k c) v).

Ltac allowed := cbn; split_and?; try done; eauto.
Ltac proceed := let v := fresh "v" in let Hv := fresh "Hv" in intros [] v Hv; cbn in Hv; first [subst v | destruct Hv as [-> ->]].
Ltac over := unfold handle_post, handle_returns; cbn; split_and?; try done; auto.

Lemma join_obeys k c v (rest : program handle_result) :
  hs_now v = None -> hs_once v = false -> hc_op c = OpWait \/ hc_op c = OpClose \/ hc_op c = OpDestroy ->
  obeys k c rest (see_joined true v) -> (hc_callback c = true -> handle_returns k c (hs_done v) (hs_joined v) HThrew) ->
  obeys k c (join_program (hc_callback c) rest) v.
Proof.
  intros Hn Ho Hop Hr Ht. unfold join_program. cbn [wp]. split; [by allowed|]. intros over v' Hv. cbn in Hv. subst v'.
  destruct over; [done|]. cbn [wp]. split; [by allowed|]. intros ok v' [-> Hc]. destruct ok; [exact Hr|].
  split; [done|]. apply Ht. by apply Hc.
Qed.

Lemma close_handle_obeys k c (rest : program handle_result) :
  hc_op c = OpClose \/ hc_op c = OpDestroy ->
  obeys k c rest (mkHSpot None NotOpen (Some []) false false) -> obeys k c rest (mkHSpot None NotOpen (Some [EWritesDone]) false true) ->
  obeys k c (close_handle_program (hc_callback c) rest) h_start.
Proof.
  intros Hop H0 H1. unfold close_handle_program. cbn [wp].
  assert (handle_section c [] /\ handle_section c [EWritesDone]) as [Hs0 Hs1] by (unfold handle_section; destruct Hop as [-> | ->]; auto).
  split; [allowed|]. proceed. split; [allowed|]. proceed; cbn [wp].
  - split; [allowed|]. by proceed.
  - split; [allowed|]. proceed. split; [allowed|]. proceed. apply join_obeys; try done; [by right|].
    intros Hc. unfold handle_returns. cbn. destruct Hop as [-> | ->]; auto.
Qed.

(** Every call keeps its contract. *)
Lemma handle_obeys k c : obeys k c (handle_program k c) h_start.
Proof.
  unfold handle_program. destruct (hc_op c) as [m ch| | | |b|b|] eqn:Eo.
  - unfold send_program. cbn [wp]. split; [allowed|]. proceed. split; [allowed|]. proceed; cbn [wp].
    + split; [allowed; exists []; unfold handle_section; rewrite Eo; auto|]. proceed. over. by rewrite Eo.
    + split; [allowed|]. intros w v Hv. cbn in Hv. subst v. split; [allowed; eexists; unfold handle_section; rewrite Eo; eauto|].
      proceed. over. by rewrite Eo.
  - apply close_handle_obeys; [by left|..]; over; rewrite Eo; auto.
  - apply join_obeys; try done; [by left|over; rewrite Eo; auto|]. intros Hc. unfold handle_returns. rewrite Eo. auto.
  - cbn [wp]. split; [allowed|]. intros b v Hv. cbn in Hv. subst v. over. rewrite Eo. eauto.
  - cbn [wp]. split; [allowed; by rewrite Eo|]. proceed. over. by rewrite Eo.
  - cbn [wp]. split; [allowed; by rewrite Eo|]. proceed. over. by rewrite Eo.
  - apply close_handle_obeys; [by right|..]; (cbn [wp]; split; [allowed|]; proceed; over; rewrite Eo; auto).
Qed.


(** ** What all of them do *)

(** What the code does not keep: the sections that are over, what was done in
    the one that is not, whether it saw the stream open, whether the stream is
    half-closed, and who saw the reader leave. *)
Record handle_history := mkHandleHistory {
  hh_sections : list (nat * list handle_event);
  hh_now : list handle_event;
  hh_open : looked;
  hh_half : bool;
  hh_joiners : gset nat
}.

Definition hspot_of (g : handle_history) (s : SharedHandle) (i : nat) : hspot :=
  mkHSpot (if decide (sd_mutex s = Some i) then Some (hh_now g) else None)
    (if decide (sd_mutex s = Some i) then hh_open g else NotOpen) (section_done i (hh_sections g))
    (bool_decide (sd_once s = Some i)) (bool_decide (i ∈ hh_joiners g)).

(** What happens on the stream. *)
Definition on_stream (e : handle_event) : bool := match e with EWrite _ _ | EWritesDone => true | _ => false end.
Definition stream_acts (evs : list (option nat * handle_event)) : list (option nat * handle_event) :=
  List.filter (fun p => on_stream (snd p)) evs.

Definition handle_in_section (s : SharedHandle) (now : list handle_event) : list (option nat * handle_event) :=
  match sd_mutex s with Some i => tagged (i, now) | None => [] end.

(** A half-close, and nothing after it. *)
Definition half_closed (half : bool) (l : list (option nat * handle_event)) : Prop :=
  if half then exists pre i, l = (pre ++ [(i, EWritesDone)])%list /\ forall j, (j, EWritesDone) ∉ pre
  else forall j, (j, EWritesDone) ∉ l.

Record handle_inv (g : handle_history) (s : SharedHandle) (cs : list handle_call) (evs : list (option nat * handle_event)) : Prop := {
  hi_events : stream_acts evs = (concat (tagged <$> hh_sections g) ++ handle_in_section s (hh_now g))%list;
  hi_sections i l : (i, l) ∈ hh_sections g -> exists c, cs !! i = Some c /\ handle_section c l;
  hi_once : NoDup (hh_sections g).*1;
  hi_half : hh_half g = true -> sd_done s = true;
  hi_open : hh_open g <> NotOpen -> hh_half g = false;
  hi_set : hh_open g = SetDone -> sd_done s = true;
  hi_shape : half_closed (hh_half g) (stream_acts evs);
  hi_once_ : is_Some (sd_once s) -> sd_joined s = false;
  hi_left : sd_joined s = true -> sd_pc s = HAtExit;
  hi_joiners i : i ∈ hh_joiners g -> sd_joined s = true;
  hi_calling : sd_calling s = true -> callback_due s = true;
  hi_callbacks i c : cs !! i = Some c -> hc_callback c = true -> callback_op (hc_op c) = true;
  hi_end : match sd_pc s with HAtFinish | HAtReport _ | HAtExit => sd_done s = true | _ => True end
}.

Lemma stream_acts_app l l' : stream_acts (l ++ l') = (stream_acts l ++ stream_acts l')%list.
Proof. apply List.filter_app. Qed.

Lemma reader_acts (o : list h_output) : stream_acts (pair None <$> (EReader <$> o)) = [].
Proof. unfold stream_acts. by induction o. Qed.

Definition with_joiners (J : gset nat) (g : handle_history) : handle_history :=
  mkHandleHistory (hh_sections g) (hh_now g) (hh_open g) (hh_half g) J.

(** The views that an access of another thread leaves alone. *)
Lemma hspot_same g g' s s' j :
  (sd_mutex s' = Some j <-> sd_mutex s = Some j) -> (sd_once s' = Some j <-> sd_once s = Some j) ->
  (sd_mutex s = Some j -> hh_now g' = hh_now g /\ hh_open g' = hh_open g) ->
  section_done j (hh_sections g') = section_done j (hh_sections g) -> (j ∈ hh_joiners g' <-> j ∈ hh_joiners g) ->
  hspot_of g' s' j = hspot_of g s j.
Proof.
  intros Hm Ho Hn Hs Hj. unfold hspot_of. rewrite Hs.
  assert (bool_decide (sd_once s' = Some j) = bool_decide (sd_once s = Some j)) as -> by by apply bool_decide_ext.
  assert (bool_decide (j ∈ hh_joiners g') = bool_decide (j ∈ hh_joiners g)) as -> by by apply bool_decide_ext.
  destruct (decide (sd_mutex s = Some j)) as [E|E].
  - rewrite !(decide_True (P := sd_mutex s' = Some j)) by (by apply Hm). by destruct (Hn E) as [-> ->].
  - by rewrite !(decide_False (P := sd_mutex s' = Some j)) by (by rewrite Hm).
Qed.

Ltac hspot :=
  unfold hspot_of, with_joiners, see_open, see_once, see_joined, see_event;
  cbn [hs_now hs_open hs_done hs_once hs_joined hh_sections hh_now hh_open hh_half hh_joiners sd_done sd_pc sd_once sd_joined sd_result sd_error
       sd_calling sd_mutex sd_life put_done put_mutex put_once put_callbacks put_calling put_life].

(** The thread that has [write_mu]. *)
Lemma holder g s i : hs_now (hspot_of g s i) <> None -> sd_mutex s = Some i.
Proof. cbn. by destruct (decide (sd_mutex s = Some i)). Qed.

(** The thread inside [join_once]. *)
Lemma inside g s i : hs_once (hspot_of g s i) = true -> sd_once s = Some i.
Proof. cbn. by intros ?%bool_decide_eq_true. Qed.

(** An event on the stream, of a section that saw it open. *)
Lemma handle_stream_act g s cs evs i e half :
  handle_inv g s cs evs -> sd_mutex s = Some i -> hh_open g <> NotOpen -> on_stream e = true ->
  (half = true -> sd_done s = true) -> half_closed half (stream_acts evs ++ [(Some i, e)]) ->
  exists g', handle_inv g' s cs (evs ++ [(Some i, e)]) /\ hspot_of g' s i = see_event e (if half then NotOpen else hh_open g) (hspot_of g s i) /\
    forall j, j <> i -> hspot_of g' s j = hspot_of g s j.
Proof.
  intros [He Hs Ho Hh Hop Hst Hsh Hon Hl Hj Hca Hcb Hen] Em Hopen He' Hd Hshape.
  assert (stream_acts (evs ++ [(Some i, e)]) = (stream_acts evs ++ [(Some i, e)])%list) as Eacts
    by (rewrite stream_acts_app; cbn; by rewrite He').
  exists (mkHandleHistory (hh_sections g) (hh_now g ++ [e]) (if half then NotOpen else hh_open g) half (hh_joiners g)). split; [|split].
  - constructor; try done; cbn [hh_sections hh_now hh_open hh_half hh_joiners].
    + rewrite Eacts, He. unfold handle_in_section. rewrite Em. unfold tagged. cbn. by rewrite fmap_app, app_assoc.
    + by destruct half.
    + by destruct half.
    + by rewrite Eacts.
  - hspot. by rewrite !(decide_True (P := sd_mutex s = Some i)) by done.
  - intros j Hne. apply hspot_same; try done. congruence.
Qed.

(** An access that leaves the stream and the mutex alone. *)
Lemma handle_quiet J g s s' cs evs o :
  handle_inv g s cs evs -> sd_mutex s' = sd_mutex s -> sd_pc s' = sd_pc s -> (sd_done s = true -> sd_done s' = true) ->
  (is_Some (sd_once s') -> sd_joined s' = false) -> (forall i, i ∈ J -> sd_joined s' = true) ->
  (sd_joined s' = true -> sd_pc s' = HAtExit) -> (sd_calling s' = true -> callback_due s' = true) -> stream_acts o = [] ->
  handle_inv (with_joiners J g) s' cs (evs ++ o).
Proof.
  intros [He Hs Ho Hh Hop Hst Hsh Hon Hl Hj Hca Hcb Hen] Em Ep Hd Hon' HJ Hle Hc Ho'.
  assert (stream_acts (evs ++ o) = stream_acts evs) as Ea by (rewrite stream_acts_app, Ho'; apply app_nil_r).
  constructor; auto; cbn [hh_sections hh_now hh_open hh_half hh_joiners with_joiners]; rewrite ?Ea; auto.
  - unfold handle_in_section in *. by rewrite Em.
  - rewrite Ep. destruct (sd_pc s); auto.
Qed.

(** A join that returns. *)
Lemma handle_joined g s s' cs evs i :
  handle_inv g s cs evs -> sd_mutex s' = sd_mutex s -> sd_pc s' = sd_pc s -> (sd_done s = true -> sd_done s' = true) ->
  sd_once s' <> Some i -> (forall j, j <> i -> sd_once s' = Some j <-> sd_once s = Some j) -> sd_joined s' = true ->
  (is_Some (sd_once s') -> sd_joined s' = false) -> sd_pc s' = HAtExit -> (sd_calling s' = true -> callback_due s' = true) ->
  exists g', handle_inv g' s' cs (evs ++ []) /\ hspot_of g' s' i = see_joined true (hspot_of g s i) /\ forall j, j <> i -> hspot_of g' s' j = hspot_of g s j.
Proof.
  intros Hok Em Ep Hd Ho Hoj Hjo Hon Hex Hc. exists (with_joiners ({[i]} ∪ hh_joiners g) g). split; [|split].
  - by apply (handle_quiet _ _ s).
  - hspot. rewrite Em, (bool_decide_eq_false_2 (sd_once s' = Some i)) by done.
    by rewrite (bool_decide_eq_true_2 (i ∈ {[i]} ∪ hh_joiners g)) by (clear; set_solver).
  - intros j Hne. apply hspot_same; auto; [by rewrite Em|]. cbn. clear -Hne. set_solver.
Qed.

Lemma handle_act g s cs evs i c a {X} (e : hacc X) x s' o :
  handle_inv g s cs evs -> cs !! i = Some c -> pre (handle_contract c) e (hspot_of g s i) -> hperform X i a s e = Some (x, s', o) ->
  exists g', handle_inv g' s' cs (evs ++ (pair (Some i) <$> o)) /\ post (handle_contract c) e (hspot_of g s i) x (hspot_of g' s' i) /\
    forall j, j <> i -> hspot_of g' s' j = hspot_of g s j.
Proof.
  intros Hok Hc Hp Hs. pose proof Hok as Hnil0. assert (handle_inv g s cs (evs ++ [])) as Hnil by by rewrite app_nil_r.
  destruct Hok as [He Hsec Honce Hh Hop Hst Hsh Hon Hl Hj Hca Hcb Hen] eqn:Eok. clear Eok.
  destruct e as [| | | | |m| | |own|b|b|]; cbn [hperform] in Hs; cbn [pre handle_contract] in Hp.
  - destruct (sd_mutex s) eqn:Em; [done|]. injection Hs as <- <- <-. destruct Hp as [_ Hd].
    exists (mkHandleHistory (hh_sections g) [] NotOpen (hh_half g) (hh_joiners g)). split; [|split].
    + rewrite app_nil_r. constructor; try done. rewrite He. unfold handle_in_section. cbn. by rewrite Em.
    + cbn in Hd. hspot. rewrite !(decide_True (P := Some i = Some i)) by done. cbn. by rewrite Hd.
    + intros j Hne. apply hspot_same; try done; hspot; rewrite Em; [split|]; congruence.
  - injection Hs as <- <- <-. destruct Hp as [(l & El & Hsl) Hd].
    assert (sd_mutex s = Some i) as Em by (apply (holder g); by rewrite El).
    assert (l = hh_now g) as -> by (cbn in El; rewrite decide_True in El by done; by injection El).
    exists (mkHandleHistory (hh_sections g ++ [(i, hh_now g)]) [] NotOpen (hh_half g) (hh_joiners g)). split; [|split].
    + rewrite app_nil_r. constructor; try done; cbn [hh_sections hh_now hh_open hh_half hh_joiners].
      * rewrite He. unfold handle_in_section. cbn [sd_mutex put_mutex]. rewrite Em, fmap_app, concat_app. cbn. by rewrite !app_nil_r.
      * intros j l [Hin|Hin%list_elem_of_singleton]%elem_of_app; [by apply Hsec|]. injection Hin as -> ->. by exists c.
      * by apply sections_once.
    + cbn [post handle_contract]. hspot. rewrite (section_done_app i) by done. rewrite (decide_True (P := i = i)) by done.
      by rewrite !(decide_True (P := sd_mutex s = Some i)) by done.
    + intros j Hne. apply hspot_same; try done; hspot; rewrite ?Em; [split; congruence|congruence|].
      rewrite (section_done_app i) by done. by rewrite decide_False by done.
  - injection Hs as <- <- <-. pose proof (holder g s i Hp) as Em.
    exists (mkHandleHistory (hh_sections g) (hh_now g) (if sd_done s then NotOpen else FoundOpen) (hh_half g) (hh_joiners g)).
    split; [|split].
    + rewrite app_nil_r. constructor; try done; cbn; destruct (sd_done s) eqn:Ed; try done.
      intros _. destruct (hh_half g); [|done]. by specialize (Hh eq_refl).
    + hspot. by rewrite !(decide_True (P := sd_mutex s = Some i)) by done.
    + intros j Hne. apply hspot_same; try done. congruence.
  - injection Hs as <- <- <-. by exists g.
  - injection Hs as <- <- <-. pose proof (holder g s i Hp) as Em.
    exists (mkHandleHistory (hh_sections g) (hh_now g) (if sd_done s then NotOpen else SetDone) (hh_half g) (hh_joiners g)).
    split; [|split].
    + rewrite app_nil_r. constructor; try done; cbn.
      * destruct (sd_done s); [done|]. intros _. destruct (hh_half g); [|done]. by specialize (Hh eq_refl).
      * by destruct (sd_pc s).
    + hspot. by rewrite !(decide_True (P := sd_mutex s = Some i)) by done.
    + intros j Hne. apply hspot_same; try done. congruence.
  - injection Hs as <- <- <-. destruct Hp as [Hn Ho]. pose proof (holder g s i Hn) as Em.
    assert (hh_open g = FoundOpen) as Hopen by (cbn in Ho; by rewrite decide_True in Ho by done).
    assert (hh_open g <> NotOpen) as Hno by congruence.
    destruct (handle_stream_act g s cs evs i (EWrite m a) false) as (g' & Hi & Hx & Hj'); try done; [|by exists g'; rewrite Hopen in Hx].
    rewrite (Hop Hno) in Hsh. intros j [Hin|Hin%list_elem_of_singleton]%elem_of_app; [by eapply Hsh|done].
  - injection Hs as <- <- <-. destruct Hp as [Hn Ho]. pose proof (holder g s i Hn) as Em.
    assert (hh_open g = SetDone) as Hopen by (cbn in Ho; by rewrite decide_True in Ho by done).
    assert (hh_open g <> NotOpen) as Hno by congruence.
    apply (handle_stream_act g s cs evs i EWritesDone true); try done; [by intros _; apply Hst|].
    exists (stream_acts evs), (Some i). split; [done|]. by rewrite (Hop Hno) in Hsh.
  - destruct (sd_joined s) eqn:Ej; [|destruct (sd_once s) eqn:Eo; [done|]].
    + injection Hs as <- <- <-. assert (sd_once s = None) as Eo by (destruct (sd_once s); [by specialize (Hon ltac:(eauto))|done]).
      apply (handle_joined g s); auto; by rewrite Eo.
    + injection Hs as <- <- <-. exists (with_joiners (hh_joiners g) g). split; [|split].
      * by apply (handle_quiet _ _ s).
      * cbn [post handle_contract]. hspot. by rewrite (bool_decide_eq_true_2 (Some i = Some i)) by done.
      * intros j Hne. apply hspot_same; try done. cbn. rewrite Eo. split; congruence.
  - destruct Hp as [[Hn Hi] ->]. apply inside in Hi. assert (sd_joined s = false) as Ej by (apply Hon; eauto).
    assert (forall j, j <> i -> None = Some j <-> sd_once s = Some j) as Hothers by (intros j Hne; rewrite Hi; split; congruence).
    destruct (hc_callback c) eqn:Ec.
    + injection Hs as <- <- <-. exists (with_joiners (hh_joiners g) g). split; [|split].
      * apply (handle_quiet _ _ s); try done; cbn. intros j Hin%Hj. congruence.
      * cbn [post handle_contract]. split; [|done]. hspot. by rewrite (bool_decide_eq_false_2 (None = Some i)) by done.
      * intros j Hne. apply hspot_same; try done. by apply Hothers.
    + destruct (sd_pc s) eqn:Ep; try done. injection Hs as <- <- <-.
      destruct (handle_joined g s (put_once None true s) cs evs i Hnil0) as (g' & Hi' & Hx & Hy); auto; try done;
        try (cbn; by intros [? [=]]). exists g'. by split; [|split].
  - destruct (sd_calling s) eqn:Ec; [done|]. injection Hs as <- <- <-. exists (with_joiners (hh_joiners g) g). split; [|done].
    apply (handle_quiet _ _ s); try done. cbn. by rewrite Ec.
  - destruct (sd_calling s) eqn:Ec; [done|]. injection Hs as <- <- <-. exists (with_joiners (hh_joiners g) g). split; [|done].
    apply (handle_quiet _ _ s); try done. cbn. by rewrite Ec.
  - injection Hs as <- <- <-. exists (with_joiners (hh_joiners g) g). split; [|done]. apply (handle_quiet _ _ s); try done. by destruct (sd_joined s).
Qed.

(** The reader's step. *)
Ltac reader_cases Hs := unfold reader_step, at_pc, with_lock, error_outputs in Hs; step_cases Hs.

Lemma reader_step_end (k : HandleKind (Resp := Resp) (Res := Res)) s i r o :
  match sd_pc s with HAtFinish | HAtReport _ | HAtExit => sd_done s = true | _ => True end ->
  reader_step k (reader_view s) i = Some (r, o) ->
  sd_pc s <> HAtExit /\ (sd_done s = true -> h_done r = true) /\
  match h_pc_ r with HAtFinish | HAtReport _ | HAtExit => h_done r = true | _ => True end.
Proof.
  intros He Hs. destruct s as [d p on j re er ca mu li]. cbn in *.
  destruct i; cbn in Hs; destruct p; reader_cases Hs; try done; cbn in *; split_and?; try done; repeat case_match; done.
Qed.

Lemma handle_env (k : HandleKind (Resp := Resp) (Res := Res)) g s ts evs b s' o :
  handle_inv g s (th_call <$> ts) evs -> reader_env k s ts b = Some (s', o) ->
  exists g', handle_inv g' s' (th_call <$> ts) (evs ++ (pair None <$> o)) /\ forall j, hspot_of g' s' j = hspot_of g s j.
Proof.
  intros Hok Hs. unfold reader_env in Hs. destruct (sd_life s) eqn:El; [|done..]. destruct b as [|i].
  - destruct (callback_due s) eqn:Ed; [|done]. destruct (sd_calling s); [done|]. injection Hs as <- <-.
    exists (with_joiners (hh_joiners g) g). split; [|done]. destruct Hok. by apply (handle_quiet _ _ s).
  - destruct (_ && _); [|done]. destruct (reader_step k (reader_view s) i) as [[r o1]|] eqn:Hr; [|done]. injection Hs as <- <-.
    destruct (reader_step_end k s i r o1 (hi_end _ _ _ _ Hok) Hr) as (Hne & Hd & He). exists g. split; [|done].
    destruct Hok as [Hev Hsec Honce Hh Hop Hst Hsh Hon Hl Hj Hca Hcb Hen].
    assert (stream_acts (evs ++ (pair None <$> (EReader <$> o1))) = stream_acts evs) as Ea
      by (rewrite stream_acts_app, reader_acts; apply app_nil_r).
    constructor; rewrite ?Ea; auto; cbn; try done. intros Hjo. by destruct Hne; apply Hl.
Qed.

Lemma handle_call_inv g s (ts : list thread) evs c :
  handle_inv g s (th_call <$> ts) evs -> may_handle c s ts = true -> handle_inv g s (th_call <$> (ts ++ [mkThread c None])%list) evs.
Proof.
  intros [Hev Hsec Honce Hh Hop Hst Hsh Hon Hl Hj Hca Hcb Hen] Hm. rewrite fmap_app. constructor; try done.
  - intros i l Hin. destruct (Hsec i l Hin) as (d & Hi & Hx). exists d. split; [by apply lookup_app_l_Some|done].
  - intros i d [Hi|[_ Hi]]%lookup_app_Some; [by apply (Hcb i)|]. apply list_lookup_singleton_Some in Hi as [_ <-].
    cbn. intros Hc. unfold may_handle in Hm. rewrite Hc in Hm. apply andb_true_iff in Hm as [_ Hm]. cbn in Hm. by destruct (callback_op _).
Qed.

Definition handle_discipline (k : HandleKind) : discipline (handle_component k) (G := handle_history) (V := hspot).
Proof.
  refine {| ds_contract := handle_contract; ds_post := handle_post k; ds_start := h_start;
            ds_view := hspot_of; ds_inv := handle_inv |}.
  - apply handle_obeys.
  - intros g s ts evs c. apply handle_call_inv.
  - intros g s ts evs b s' o. apply handle_env.
  - intros g s cs evs i c a X e x s' o. apply handle_act.
Defined.

Notation handle_ok k := (pool_ok (handle_discipline k)).

Lemma handle_run_ok k b1 b2 ins p outs : handle_run k b1 b2 ins = Some (p, outs) -> exists g, handle_ok k g p outs.
Proof.
  apply (pool_sound (handle_discipline k) (mkHandleHistory [] [] NotOpen false ∅)).
  - constructor; cbn; try done; try set_solver. by constructor.
  - intros i. unfold handle_discipline. cbn. hspot. by rewrite (bool_decide_eq_false_2 (i ∈ ∅)) by set_solver.
Qed.

(** The thread that has [write_mu], or is inside [join_once], is in progress. *)
Lemma busy g k p outs i :
  handle_ok k g p outs -> sd_mutex (pl_shared p) = Some i \/ sd_once (pl_shared p) = Some i ->
  exists c q, pl_threads p !! i = Some (mkThread c (Some q)).
Proof.
  intros Hok Hm.
  assert (hs_now (hspot_of g (pl_shared p) i) <> None \/ hs_once (hspot_of g (pl_shared p) i) = true) as Hv
    by (cbn; destruct Hm as [Hm|Hm]; [left; by rewrite decide_True|right; by apply bool_decide_eq_true]).
  destruct (pl_threads p !! i) as [[c [q|]]|] eqn:Hi; [by exists c, q|exfalso..].
  - destruct (po_over _ _ _ _ Hok i c Hi) as (r & _ & [Hn Ho] & _). cbn [ds_view handle_discipline] in *. destruct Hv; congruence.
  - pose proof (po_rest _ _ _ _ Hok i Hi) as Hr. cbn [ds_view ds_start handle_discipline] in Hr. rewrite Hr in Hv. by destruct Hv.
Qed.

(** C4: the calls of a stream handle are serialized. Whatever threads call
    [Send], [Close], [Wait], [IsDone] and the setters, the callbacks among them,
    and however their steps and the reader's interleave: what happens on the
    stream is the concatenation of the sections of [write_mu], each of one call,
    which it has at most once, and in it [Send] writes its message or nothing,
    [Close] half-closes the stream or nothing; every call that returned, returned
    what its section makes it return, and one that says it joined the reader has;
    the stream is half-closed at most once, and nothing is written after it; and
    from then on [done] is set. *)
Theorem handle_calls_serialized (k : HandleKind (Resp := Resp) (Res := Res)) (on_result on_error : bool)
    (ins : list (pool_input bool reader_input handle_call))
    (p : pool hacc SharedHandle handle_call handle_result) (outs : list (pool_output handle_result handle_event)) :
  handle_run k on_result on_error ins = Some (p, outs) ->
  exists sections now,
    stream_acts (acts outs) = (concat (tagged <$> sections) ++ handle_in_section (pl_shared p) now)%list /\
    NoDup sections.*1 /\
    (forall i l, (i, l) ∈ sections -> exists c, (th_call <$> pl_threads p) !! i = Some c /\ handle_section c l) /\
    (forall i r, OReturned i r ∈ outs -> exists c joined, pl_threads p !! i = Some (mkThread c None) /\
       handle_returns k c (section_done i sections) joined r /\ (joined = true -> sd_joined (pl_shared p) = true)) /\
    (forall before i after, stream_acts (acts outs) = (before ++ (i, EWritesDone) :: after)%list ->
       after = [] /\ sd_done (pl_shared p) = true).
Proof.
  intros Hr. destruct (handle_run_ok _ _ _ _ _ _ Hr) as [g Hok]. pose proof (po_inv _ _ _ _ Hok) as Hi.
  cbn [ds_inv handle_discipline] in Hi. exists (hh_sections g), (hh_now g).
  split; [apply (hi_events _ _ _ _ Hi)|]. split; [apply (hi_once _ _ _ _ Hi)|]. split; [apply (hi_sections _ _ _ _ Hi)|]. split.
  - intros i r Hin. destruct (po_returned _ _ _ _ Hok i r Hin) as (c & Hc & [_ _] & Hx).
    exists c, (hs_joined (hspot_of g (pl_shared p) i)). split; [done|]. split; [exact Hx|].
    intros Hj%bool_decide_eq_true. by eapply (hi_joiners _ _ _ _ Hi).
  - intros before i after E. pose proof (hi_shape _ _ _ _ Hi) as Hs. unfold half_closed in Hs. rewrite E in Hs.
    destruct (hh_half g) eqn:Eh.
    + split; [|by apply (hi_half _ _ _ _ Hi)]. destruct Hs as (l & j & El & Hn). destruct after as [|x after _] using rev_ind; [done|].
      rewrite app_comm_cons, app_assoc in El. apply app_inj_tail in El as [El _]. destruct (Hn i). rewrite <- El. set_solver.
    + destruct (Hs i). set_solver.
Qed.

(** ** Ending *)

(** Nobody, or the thread itself. *)
Definition free_for (o : option nat) (i : nat) : Prop := forall j, o = Some j -> j = i.

Lemma free_for_none i : free_for None i.
Proof. by intros j [=]. Qed.

Lemma free_for_self i : free_for (Some i) i.
Proof. by intros j [= ->]. Qed.

Lemma free_or_own o i : free_for o i -> o = None \/ o = Some i.
Proof. intros Hf. destruct o as [j|]; [right|by left]. by rewrite (Hf j). Qed.

#[local] Hint Resolve free_for_none free_for_self : core.

(** [write_mu] can be released: what a thread does with it waits for nothing. *)
Lemma release_mutex k g p outs :
  handle_ok k g p outs ->
  exists ins p' outs' g', run (handle_step k) p ins = Some (p', outs') /\ handle_ok k g' p' (outs ++ outs') /\
    sd_mutex (pl_shared p') = None /\ sd_once (pl_shared p') = sd_once (pl_shared p) /\ sd_life (pl_shared p') = sd_life (pl_shared p) /\
    (forall i c q, pl_threads p' !! i = Some (mkThread c (Some q)) -> exists q0, pl_threads p !! i = Some (mkThread c (Some q0))).
Proof.
  intros Hok. destruct (sd_mutex (pl_shared p)) as [i|] eqn:Em.
  2: { exists [], p, [], g. rewrite app_nil_r. split_and?; try done. intros i c q Hi. by exists q. }
  destruct (busy g k p outs i Hok) as (c & q & Hi); [by left|]. revert g p outs Hok Em Hi.
  induction q as [r|X e cont IH]; intros g p outs Hok Em Hi.
  { destruct (po_left _ _ _ _ Hok i c _ Hi) as [[Hn _] _]. cbn in Hn. by rewrite decide_True in Hn by done. }
  destruct (po_left _ _ _ _ Hok i c _ Hi) as [Hpre _].
  assert (hs_now (hspot_of g (pl_shared p) i) <> None) as Hnow by (cbn; by rewrite decide_True by done).
  cbn [ds_contract ds_view handle_discipline] in Hpre.
  assert (exists x s o, hperform X i true (pl_shared p) e = Some (x, s, o) /\ (sd_mutex s = None \/ sd_mutex s = Some i) /\
    sd_once s = sd_once (pl_shared p) /\ sd_life s = sd_life (pl_shared p)) as (x & s & o & Hp & Hm & Ho & Hl).
  { destruct e; cbn [pre handle_contract] in Hpre; cbn [hperform]; try (by eexists _, _, _; split_and?; auto); exfalso; tauto. }
  assert (handle_step k p (PStep i true) = Some (with_thread i (mkThread c (Some (cont x))) s p, OAct i <$> o)) as Hs
    by (unfold handle_step, pool_step; rewrite Hi; cbn [cp_perform handle_component]; by rewrite Hp).
  destruct (pool_ok_step _ _ _ _ _ _ _ Hok Hs) as [g1 Hok1]. set (p1 := with_thread i (mkThread c (Some (cont x))) s p) in *.
  assert (pl_threads p1 !! i = Some (mkThread c (Some (cont x)))) as Hi1 by (apply list_lookup_insert_eq; by eapply lookup_lt_Some).
  assert (forall j d q, pl_threads p1 !! j = Some (mkThread d (Some q)) -> exists q0, pl_threads p !! j = Some (mkThread d (Some q0))) as Hback.
  { intros j d q [(<- & [= -> _] & _)|[_ Hj]]%list_lookup_insert_Some; [by exists (Act e cont)|by exists q]. }
  destruct Hm as [Hm|Hm].
  - exists [PStep i true], p1, (OAct i <$> o), g1. split; [cbn [run]; rewrite Hs; by rewrite app_nil_r|]. by split_and?.
  - destruct (IH x g1 p1 (outs ++ (OAct i <$> o))%list Hok1 Hm Hi1) as (ins & p' & outs' & g' & Hr & Hok' & Hm' & Ho' & Hl' & Hb').
    exists (PStep i true :: ins), p', ((OAct i <$> o) ++ outs')%list, g'. split; [cbn [run]; by rewrite Hs, Hr|].
    rewrite app_assoc. split_and?; try done; [by rewrite Ho'|by rewrite Hl'|]. intros j d q1 (q2 & Hq)%Hb'. by apply Hback in Hq.
Qed.

(** Calls that end in [JoinReader]. *)
Definition joins (o : handle_op) : bool := match o with OpClose | OpWait | OpDestroy => true | _ => false end.

(** A call of a callback may go on alone: it cannot join the reader it runs on,
    but gets through unless another thread is inside [join_once]. *)
Definition callback_alone (once : option nat) (c : handle_call) (i : nat) (s : SharedHandle) : Prop :=
  hc_callback c = true /\ free_for (sd_mutex s) i /\ (joins (hc_op c) = true -> free_for (sd_once s) i) /\
  (sd_once s = None \/ sd_once s = Some i \/ sd_once s = once) /\ sd_life s = Alive.

Ltac performs := eexists _, _, _; split; [reflexivity|]; cbn; split_and?; auto.

Lemma callback_enabled once g s cs evs i c {X} (e : hacc X) :
  handle_inv g s cs evs -> cs !! i = Some c -> pre (handle_contract c) e (hspot_of g s i) -> callback_alone once c i s ->
  exists x s' o, hperform X i true s e = Some (x, s', o) /\ callback_alone once c i s'.
Proof.
  intros Hi Hc Hp (Hcb & Hm & Ho & Hx & Hl). unfold callback_alone.
  pose proof (hi_callbacks _ _ _ _ Hi i c Hc Hcb) as Hop.
  destruct e as [| | | | |m| | |own|b|b|]; cbn [pre handle_contract] in Hp; cbn [hperform].
  - destruct Hp as [[Hn _] _]. destruct (free_or_own _ _ Hm) as [-> | E]; [performs|].
    cbn in Hn. by rewrite decide_True in Hn by done.
  - performs.
  - by eexists _, _, _.
  - by eexists _, _, _.
  - by eexists _, _, _.
  - by eexists _, _, _.
  - by eexists _, _, _.
  - destruct (sd_joined s); [by eexists _, _, _|]. destruct Hp as [[_ Hn] Hj]. cbn in Hn. apply bool_decide_eq_false in Hn.
    destruct (free_or_own (sd_once s) i) as [-> | E]; [apply Ho; by destruct Hj as [-> |[-> | ->]]| |done].
    performs.
  - destruct Hp as [_ ->]. rewrite Hcb. performs.
  - destruct Hp as [_ Hb]. congruence.
  - destruct Hp as [_ Hb]. congruence.
  - destruct Hp as [_ Hb]. by rewrite Hb in Hop.
Qed.

(** No callback waits for a thread that waits for the reader. *)
Definition callbacks_can_return (p : pool hacc SharedHandle handle_call handle_result) : Prop :=
  forall i t, pl_threads p !! i = Some t -> calling t = true -> joins (hc_op (th_call t)) = true -> free_for (sd_once (pl_shared p)) i.

Lemma calling_insert (l : list thread) i c q :
  l !! i = Some (mkThread c (Some q)) -> hc_callback c = true ->
  length (List.filter calling l) = S (length (List.filter calling (<[i := mkThread c None]> l))).
Proof.
  intros Hi Hc. revert i Hi. induction l as [|t l IH]; intros i; [done|]. destruct i as [|i]; cbn [lookup list_lookup].
  - intros [= ->]. unfold calling at 1. cbn. by rewrite Hc; unfold calling; cbn; rewrite andb_false_r.
  - intros Hi. cbn. destruct (calling t); cbn; by rewrite (IH i Hi).
Qed.

(** The calls of callbacks can return. *)
Lemma callbacks_return k g p outs :
  handle_ok k g p outs -> sd_mutex (pl_shared p) = None -> sd_life (pl_shared p) = Alive -> callbacks_can_return p ->
  exists ins p' outs' g', run (handle_step k) p ins = Some (p', outs') /\ handle_ok k g' p' (outs ++ outs') /\
    sd_mutex (pl_shared p') = None /\ sd_life (pl_shared p') = Alive /\ forallb (fun t => negb (calling t)) (pl_threads p') = true.
Proof.
  remember (length (List.filter calling (pl_threads p))) as n eqn:En.
  revert g p outs En. induction n as [|n IH]; intros g p outs En Hok Hm Hl Hw.
  { exists [], p, [], g. rewrite app_nil_r. split_and?; try done. clear -En. induction (pl_threads p) as [|t l IH]; [done|].
    cbn in *. destruct (calling t); [done|]. by apply IH. }
  assert (exists t, In t (pl_threads p) /\ calling t = true) as (t & Hin & Ht).
  { destruct (List.filter calling (pl_threads p)) as [|t l] eqn:Ef; [done|]. exists t. apply filter_In. rewrite Ef. by left. }
  apply list_elem_of_In, list_elem_of_lookup in Hin as [i Hi]. pose proof Ht as [Hcb Hq]%andb_true_iff.
  pose proof (Hw i t Hi Ht) as Hfree. destruct t as [c [q|]]; [|done]. cbn in Hcb, Hfree.
  set (once := sd_once (pl_shared p)) in *.
  destruct (finish_thread (handle_discipline k) true (callback_alone once)) with (g := g) (p := p) (outs := outs) (i := i) (c := c) (q := q)
    as (ins & p1 & outs1 & g1 & Hr & _ & Ht1 & (_ & Hm1 & Ho1 & Hx1 & Hl1) & Hok1); try done.
  { intros. by eapply callback_enabled. }
  { unfold callback_alone. rewrite Hm. split_and?; auto. }
  assert (pl_threads p1 !! i = Some (mkThread c None)) as Hi1 by (rewrite Ht1; apply list_lookup_insert_eq; by eapply lookup_lt_Some).
  assert (sd_mutex (pl_shared p1) = None) as Hm2.
  { destruct (free_or_own _ _ Hm1) as [|E]; [done|]. destruct (busy g1 k p1 _ i Hok1) as (? & ? & Hb); [by left|]. congruence. }
  assert (sd_once (pl_shared p1) = None \/ sd_once (pl_shared p1) = once) as Ho2.
  { destruct Hx1 as [|[E|]]; [by left| |by right]. destruct (busy g1 k p1 _ i Hok1) as (? & ? & Hb); [by right|]. congruence. }
  destruct (IH g1 p1 (outs ++ outs1)%list) as (ins2 & p2 & outs2 & g2 & Hr2 & Hok2 & H2); try done.
  - rewrite Ht1. pose proof (calling_insert _ _ _ _ Hi Hcb). lia.
  - intros j t1 Hj Hc Hjo. rewrite Ht1 in Hj. apply list_lookup_insert_Some in Hj as [(_ & <- & _)|[_ Hj]].
    { unfold calling in Hc. cbn in Hc. by rewrite andb_false_r in Hc. }
    destruct Ho2 as [-> | ->]; [done|by eapply Hw].
  - exists (ins ++ ins2)%list, p2, (outs1 ++ outs2)%list, g2. rewrite app_assoc. split; [|done].
    unfold handle_step in *. by rewrite run_app, Hr, Hr2.
Qed.

(** How far the reader is from its end, its callbacks counted. *)
Definition reader_far (s : SharedHandle) : nat :=
  2 * match sd_pc s with HAtResult _ => 5 | HAtRead => 4 | HAtDone => 3 | HAtFinish => 2 | HAtReport _ => 1 | HAtExit => 0 end
  + (if sd_calling s then 0 else 1).

(** Until it is gone a step leads the reader there, once [Read] fails and
    [Finish] is fine. *)
Lemma reader_nears (k : HandleKind (Resp := Resp) (Res := Res)) s ts :
  sd_life s = Alive -> forallb (fun t => negb (calling t)) ts = true -> sd_pc s <> HAtExit ->
  exists b s' o, reader_env k s ts b = Some (s', o) /\ sd_life s' = Alive /\ sd_mutex s' = sd_mutex s /\ sd_once s' = sd_once s /\
    (reader_far s' < reader_far s)%nat.
Proof.
  intros Hl Hc Hp. destruct s as [d p on j r e ca mu li]. cbn in Hl, Hp. subst li. unfold reader_env. cbn [sd_life].
  destruct (callback_due (mkSharedHandle d p on j r e ca mu Alive) && negb ca) eqn:Ed.
  { exists RCallback. cbn. rewrite Ed. apply andb_true_iff in Ed as [_ Ec]. destruct ca; [done|]. eexists _, _.
    split; [reflexivity|]. split_and?; try done. unfold reader_far. cbn. lia. }
  exists (RReader match p with HAtRead => HRead None | HAtResult _ => HResultDone Returned | HAtDone => HSetDone
                  | HAtFinish => HFinish GrpcStatusOk | _ => HReport Returned end).
  rewrite Hc, andb_true_r. unfold callback_due in *. cbn [sd_pc sd_result sd_error sd_calling] in *.
  assert (match p with HAtResult _ => r | HAtReport _ => e | _ => false end = true -> ca = true) as Hca
    by (intros E; rewrite E in Ed; by destruct ca).
  destruct p as [|x| | |st|]; try done; [|destruct r; [rewrite Hca by done|]| | |destruct e; [rewrite Hca by done|]]; cbn -[reader_far];
    (eexists _, _; split; [reflexivity|]; split_and?; try done; unfold reader_far; cbn; repeat case_match; first [done|lia]).
Qed.

(** The reader can leave when no callback is in progress. *)
Lemma reader_can_leave k g p outs :
  handle_ok k g p outs -> sd_life (pl_shared p) = Alive -> forallb (fun t => negb (calling t)) (pl_threads p) = true ->
  exists ins p' outs' g', run (handle_step k) p ins = Some (p', outs') /\ handle_ok k g' p' (outs ++ outs') /\
    sd_pc (pl_shared p') = HAtExit /\ sd_mutex (pl_shared p') = sd_mutex (pl_shared p).
Proof.
  remember (reader_far (pl_shared p)) as n eqn:En. revert g p outs En. induction n as [n IH] using lt_wf_ind. intros g p outs En Hok Hl Hc.
  destruct (sd_pc (pl_shared p)) eqn:Ep.
  6: { exists [], p, [], g. rewrite app_nil_r. by split_and?. }
  all: destruct (reader_nears k (pl_shared p) (pl_threads p)) as (b & s & o & Hb & Hl' & Hm & _ & Hf); [done..|by rewrite Ep|];
    assert (handle_step k p (PEnv b) = Some (mkPool s (pl_threads p), OEnv <$> o)) as Hs
      by (unfold handle_step, pool_step; cbn [cp_env handle_component]; by rewrite Hb);
    destruct (pool_ok_step _ _ _ _ _ _ _ Hok Hs) as [g1 Hok1];
    destruct (IH (reader_far s)) with (g := g1) (p := mkPool s (pl_threads p)) (outs := (outs ++ (OEnv <$> o))%list)
      as (ins & p' & outs' & g' & Hr & Hok' & Hp & Hm'); try done; [by rewrite En|];
    exists (PEnv b :: ins), p', ((OEnv <$> o) ++ outs')%list, g'; split; [cbn [run]; by rewrite Hs, Hr|];
    rewrite app_assoc; split_and?; try done; by rewrite Hm'.
Qed.

(** Once the reader is gone a call may go on alone when the mutex and
    [join_once] are free, or its own. *)
Definition goes_alone (c : handle_call) (i : nat) (s : SharedHandle) : Prop :=
  sd_pc s = HAtExit /\ sd_calling s = false /\ free_for (sd_mutex s) i /\ free_for (sd_once s) i.

Lemma alone_goes_on g s cs evs i c {X} (e : hacc X) :
  handle_inv g s cs evs -> cs !! i = Some c -> pre (handle_contract c) e (hspot_of g s i) -> goes_alone c i s ->
  exists x s' o, hperform X i true s e = Some (x, s', o) /\ goes_alone c i s'.
Proof.
  intros Hi Hc Hp (Hpc & Hca & Hm & Ho). unfold goes_alone.
  destruct e as [| | | | |m| | |own|b|b|]; cbn [pre handle_contract] in Hp; cbn [hperform]; rewrite ?Hpc, ?Hca; try by eexists _, _, _.
  - destruct Hp as [[Hn _] _]. destruct (free_or_own _ _ Hm) as [-> | E]; [performs|].
    cbn in Hn. by rewrite decide_True in Hn by done.
  - destruct (sd_joined s); [by eexists _, _, _|]. destruct Hp as [[_ Hn] Hj]. cbn in Hn. apply bool_decide_eq_false in Hn.
    destruct (free_or_own _ _ Ho) as [-> | E]; [performs|done].
  - destruct own; performs.
Qed.

Lemma one_is_alone k g p outs :
  handle_ok k g p outs ->
  sd_pc (pl_shared p) = HAtExit /\ sd_calling (pl_shared p) = false /\
    (exists i, free_for (sd_mutex (pl_shared p)) i /\ free_for (sd_once (pl_shared p)) i) ->
  (exists i c q, pl_threads p !! i = Some (mkThread c (Some q))) ->
  exists i c q, pl_threads p !! i = Some (mkThread c (Some q)) /\ goes_alone c i (pl_shared p).
Proof.
  intros Hok (Hpc & Hca & i & Hm & Ho) (j & c & q & Hj). unfold goes_alone.
  destruct (free_or_own _ _ Hm) as [Em|Em].
  - destruct (free_or_own _ _ Ho) as [Eo|Eo].
    + exists j, c, q. rewrite Em, Eo. by split_and?.
    + destruct (busy _ _ _ _ i Hok) as (c1 & q1 & Hi); [by right|]. by exists i, c1, q1.
  - destruct (busy _ _ _ _ i Hok) as (c1 & q1 & Hi); [by left|]. by exists i, c1, q1.
Qed.

Lemma after_reader_all_return k g p outs :
  handle_ok k g p outs -> sd_pc (pl_shared p) = HAtExit -> sd_mutex (pl_shared p) = None ->
  exists ins p' outs', run (handle_step k) p ins = Some (p', outs') /\ sd_pc (pl_shared p') = HAtExit /\
    forall t, t ∈ pl_threads p' -> th_left t = None.
Proof.
  intros Hok Hp Hm.
  destruct (all_can_return (handle_discipline k) true goes_alone) with (g := g) (p := p) (outs := outs)
    (Q := fun s => sd_pc s = HAtExit /\ sd_calling s = false /\ exists i, free_for (sd_mutex s) i /\ free_for (sd_once s) i)
    as (ins & p' & outs' & Hr & _ & [Hp' _] & Hd); try done.
  - intros. by eapply alone_goes_on.
  - intros c i s (H1 & H2 & H3 & H4). split_and?; try done. by exists i.
  - intros. by eapply one_is_alone.
  - split; [done|]. split.
    + pose proof (hi_calling _ _ _ _ (po_inv _ _ _ _ Hok)) as Hc. destruct (sd_calling (pl_shared p)); [|done].
      specialize (Hc eq_refl). unfold callback_due in Hc. by rewrite Hp in Hc.
    + rewrite Hm. exists (default 0%nat (sd_once (pl_shared p))). split; [done|]. intros j E. by rewrite E.
  - by exists ins, p', outs'.
Qed.

(** *** What stays *)

(** An access of thread [m] while thread [n] is inside [join_once] and the
    reader is there. *)
Lemma inside_stays g s cs evs m d n a {X} (e : hacc X) x s' o :
  handle_inv g s cs evs -> cs !! m = Some d -> pre (handle_contract d) e (hspot_of g s m) -> hperform X m a s e = Some (x, s', o) ->
  sd_once s = Some n -> sd_pc s <> HAtExit -> (m = n -> hc_callback d = false) ->
  sd_once s' = Some n /\ sd_pc s' = sd_pc s.
Proof.
  intros Hi Hd Hp Hs Hn Hpc Hcb. destruct e as [| | | | |m1| | |own|b|b|]; cbn [hperform] in Hs; cbn [pre handle_contract] in Hp.
  8: { rewrite (hi_once_ _ _ _ _ Hi), Hn in Hs by eauto. done. }
  8: { destruct Hp as [[_ Ho] ->]. apply inside in Ho. assert (m = n) as Em by congruence. rewrite (Hcb Em) in Hs. by destruct (sd_pc s). }
  all: repeat case_match; by simplify_eq.
Qed.

(** An access once the reader is joined. *)
Lemma joined_stays g s cs evs m d a {X} (e : hacc X) x s' o :
  handle_inv g s cs evs -> cs !! m = Some d -> pre (handle_contract d) e (hspot_of g s m) -> hperform X m a s e = Some (x, s', o) ->
  sd_joined s = true -> sd_joined s' = true /\ ETerminate ∉ o.
Proof.
  intros Hi Hd Hp Hs Hj. destruct e as [| | | | |m1| | |own|b|b|]; cbn [hperform] in Hs; cbn [pre handle_contract] in Hp; rewrite ?Hj in Hs.
  9: { destruct Hp as [[_ Ho] _]. apply inside in Ho. rewrite (hi_once_ _ _ _ _ Hi) in Hj by eauto. done. }
  all: repeat case_match; simplify_eq; (split; [done|]); clear; set_solver.
Qed.

Lemma reader_env_stays (k : HandleKind (Resp := Resp) (Res := Res)) s ts b s' o :
  reader_env k s ts b = Some (s', o) -> sd_joined s' = sd_joined s /\ sd_once s' = sd_once s /\ ETerminate ∉ o.
Proof.
  unfold reader_env. intros Hs. destruct (sd_life s); [|done..]. destruct b as [|i].
  - case_match; [|done]. injection Hs as <- <-. split_and?; try done. clear. set_solver.
  - destruct (_ && _); [|done]. destruct (reader_step _ _ _) as [[r o1]|]; [|done]. injection Hs as <- <-. split_and?; try done.
    intros (? & ? & _)%list_elem_of_fmap. done.
Qed.

Lemma joined_run k g p outs ins p' outs' :
  handle_ok k g p outs -> sd_joined (pl_shared p) = true -> run (handle_step k) p ins = Some (p', outs') ->
  forall i, (i, ETerminate) ∉ acts outs'.
Proof.
  intros Hok Hj Hr. enough (sd_joined (pl_shared p') = true /\ forall i, (i, ETerminate) ∉ acts outs') by tauto. revert ins p' outs' Hr.
  apply (run_ind (handle_step k) p (fun p' ins outs' => sd_joined (pl_shared p') = true /\ forall i, (i, ETerminate) ∉ acts outs')).
  { split; [done|]. intros i Hin. by inversion Hin. }
  intros p1 ins outs1 i p2 o Hr [Hj1 Hn] Hs. destruct (pool_ok_run _ _ _ _ _ _ _ Hok Hr) as [g1 Hok1].
  assert (sd_joined (pl_shared p2) = true /\ forall i, (i, ETerminate) ∉ acts o) as [Hj2 Hn2].
  { apply pool_step_cases in Hs as [(c & _ & _ & -> & ->)|[(n & a & c & r & _ & _ & -> & ->)|[(n & a & c & X & e & cont & x & s & evs & _ & Hi & Hp & -> & ->)|
      (b & s & evs & _ & Hb & -> & ->)]]].
    - split; [done|]. intros j Hin. by inversion Hin.
    - split; [done|]. intros j Hin. by inversion Hin.
    - destruct (po_left _ _ _ _ Hok1 n c _ Hi) as [Hpre _].
      destruct (joined_stays g1 (pl_shared p1) (th_call <$> pl_threads p1) (acts (outs ++ outs1)) n c a e x s evs) as [H1 H2]; try done;
        [apply (po_inv _ _ _ _ Hok1)|by rewrite list_lookup_fmap, Hi|]. split; [done|].
      rewrite acts_of. intros j (? & [= _ <-] & Hin)%list_elem_of_fmap. done.
    - destruct (reader_env_stays _ _ _ _ _ _ Hb) as (H1 & _ & H2). split; [cbn; congruence|].
      rewrite acts_env. intros j (? & [= _ <-] & Hin)%list_elem_of_fmap. done. }
  split; [done|]. intros j. rewrite acts_app. intros [Hin|Hin]%elem_of_app; [by apply (Hn j)|by apply (Hn2 j)].
Qed.

(** ** The theorems *)

Definition is_ending_step (i : pool_input bool reader_input handle_call) : bool :=
  match i with PEnv (RReader i) => is_ending i | _ => false end.

Lemma handle_step_distance k p i p' o :
  handle_step k p i = Some (p', o) ->
  ((if is_ending_step i then 1 else 0) + h_distance (sd_pc (pl_shared p')) <= h_distance (sd_pc (pl_shared p)))%nat.
Proof.
  intros [(c & -> & _ & _ & ->)|[(n & a & c & r & -> & _ & -> & _)|[(n & a & c & X & e & cont & x & s & evs & -> & _ & Hp & -> & _)|
    (b & s & evs & -> & Hb & -> & _)]]]%pool_step_cases; cbn; try lia.
  - assert (sd_pc s = sd_pc (pl_shared p)) as ->; [|lia]. cbn in Hp. destruct e; cbn [hperform] in Hp; repeat case_match; by simplify_eq.
  - cbn in Hb. unfold reader_env in Hb. destruct (sd_life (pl_shared p)) eqn:El; [|done..]. destruct b as [|i].
    + case_match; [|done]. injection Hb as <- _. cbn. lia.
    + destruct (is_reader_input i) eqn:Ei; [|done]. destruct (_ && _); [|done].
      destruct (reader_step k (reader_view (pl_shared p)) i) as [[r o1]|] eqn:Er; [|done]. injection Hb as <- _.
      apply (h_step_distance k (reader_view (pl_shared p)) i r o1). unfold h_step. cbn. by rewrite El, Ei.
Qed.

(** The section in which a thread that has returned half-closed the stream. *)
Lemma section_of_writes_done g s cs evs i :
  handle_inv g s cs evs -> (Some i, EWritesDone) ∈ evs -> sd_mutex s <> Some i ->
  exists l, section_done i (hh_sections g) = Some l /\ EWritesDone ∈ l.
Proof.
  intros Hi Hin Hm. assert ((Some i, EWritesDone) ∈ stream_acts evs) as Hs.
  { apply list_elem_of_In, filter_In. split; [by apply list_elem_of_In|done]. }
  rewrite (hi_events _ _ _ _ Hi) in Hs. apply elem_of_app in Hs as [Hs|Hs].
  - apply list_elem_of_In, in_concat in Hs as (t & Ht & Hs). apply list_elem_of_In, list_elem_of_fmap in Ht as ([j l] & -> & Hl).
    apply list_elem_of_In, list_elem_of_fmap in Hs as (? & [= -> <-] & Hs). exists l. split; [|done].
    apply section_done_in; [apply (hi_once _ _ _ _ Hi)|done].
  - unfold handle_in_section in Hs. destruct (sd_mutex s) as [j|]; [|by inversion Hs].
    apply list_elem_of_fmap in Hs as (? & [= -> <-] & _). done.
Qed.

Lemma returned_without_mutex k g p outs i r :
  handle_ok k g p outs -> OReturned i r ∈ outs -> sd_mutex (pl_shared p) <> Some i.
Proof.
  intros Hok Hin Hm. destruct (po_returned _ _ _ _ Hok i r Hin) as (c & Hc & _).
  destruct (busy g k p outs i Hok) as (d & q & Hi); [by left|]. congruence.
Qed.

(** What holds from then on when a callback waits for [join_once], which
    another thread is inside: thread [n] waits for the reader, which runs the
    callback, which waits for thread [n]. *)
Record deadlocked (k : HandleKind (Resp := Resp) (Res := Res)) (n i : nat) (t : thread) (pc : h_pc (Resp := Resp))
    (p : pool hacc SharedHandle handle_call handle_result) : Prop := {
  dl_ok : exists g outs, handle_ok k g p outs;
  dl_once : sd_once (pl_shared p) = Some n;
  dl_pc : sd_pc (pl_shared p) = pc;
  dl_there : pc <> HAtExit;
  dl_joiner : exists d, (th_call <$> pl_threads p) !! n = Some d /\ hc_callback d = false;
  dl_callback : pl_threads p !! i = Some t;
  dl_calling : hc_callback (th_call t) = true;
  dl_waits : exists cont, th_left t = Some (Act HEnterOnce cont)
}.

Lemma deadlocked_step k n i t pc p x p' o :
  deadlocked k n i t pc p -> handle_step k p x = Some (p', o) ->
  deadlocked k n i t pc p' /\ (forall r, OReturned i r ∉ o /\ OReturned n r ∉ o).
Proof.
  intros [(g & outs & Hok) Ho Hpc Hne (d & Hd & Hdc) Hi Hic (cont & Hw)] Hs. destruct t as [c l]. cbn in Hic, Hw. subst l.
  destruct (pool_ok_step _ _ _ _ _ _ _ Hok Hs) as [g' Hok'].
  pose proof (po_inv _ _ _ _ Hok) as Hinv.
  assert (forall a, handle_step k p (PStep i a) = None) as Hblock.
  { intros a. unfold handle_step, pool_step. rewrite Hi. cbn. rewrite (hi_once_ _ _ _ _ Hinv), Ho by (rewrite Ho; eauto). done. }
  assert (forall m a c1 (left' left1 : option (program handle_result)) s,
    x = PStep m a -> pl_threads p !! m = Some (mkThread c1 left1) -> p' = with_thread m (mkThread c1 left') s p ->
    sd_once s = Some n -> sd_pc s = pc -> deadlocked k n i (mkThread c (Some (Act HEnterOnce cont))) pc p' /\ m <> i) as Hthread.
  { intros m a c1 left' left1 s -> Hm -> Ho' Hpc'. assert (m <> i) as Hmi by (intros ->; by rewrite Hblock in Hs).
    split; [|done]. constructor; try done; [by eauto|..|by eauto]; cbn.
    - exists d. split; [|done]. rewrite list_fmap_insert, list_insert_id; [done|]. by rewrite list_lookup_fmap, Hm.
    - by rewrite list_lookup_insert_ne. }
  pose proof Hs as [(c1 & _ & _ & -> & Ep)|[(m & a & c1 & r & Ex & Hm & Ep & ->)|[(m & a & c1 & X & e & kx & y & s & evs & Ex & Hm & Hp & Ep & ->)|
    (b & s & evs & _ & Hb & Ep & ->)]]]%pool_step_cases.
  - split; [|intros r; split; intros Hin; by inversion Hin]. subst p'. constructor; try done; [by eauto|..|by eauto]; cbn.
    + exists d. split; [|done]. rewrite fmap_app. by apply lookup_app_l_Some.
    + by apply lookup_app_l_Some.
  - destruct (Hthread m a c1 None _ _ Ex Hm Ep Ho Hpc) as [Hd' Hmi]. split; [done|].
    assert (m <> n) as Hmn.
    { intros ->. destruct (po_left _ _ _ _ Hok n c1 _ Hm) as [[_ Hx] _]. cbn in Hx. by rewrite bool_decide_eq_true_2 in Hx. }
    intros r1. split; intros [= <- _]%list_elem_of_singleton; done.
  - destruct (po_left _ _ _ _ Hok m c1 _ Hm) as [Hpre _].
    assert ((th_call <$> pl_threads p) !! m = Some c1) as Hc1 by by rewrite list_lookup_fmap, Hm.
    destruct (inside_stays g (pl_shared p) (th_call <$> pl_threads p) (acts outs) m c1 n a e y s evs) as [Ho' Hpc']; try done;
      [congruence|intros ->; congruence|].
    rewrite Hpc in Hpc'. destruct (Hthread m a c1 _ _ _ Ex Hm Ep Ho' Hpc') as [Hd' _]. split; [done|].
    intros r1. split; intros (? & ? & _)%list_elem_of_fmap; done.
  - split; [|intros r; split; intros (? & ? & _)%list_elem_of_fmap; done]. subst p'. cbn in Hb.
    destruct (reader_env_stays _ _ _ _ _ _ Hb) as (_ & Ho' & _). constructor; try done; try (by eauto); cbn; [congruence|].
    unfold reader_env in Hb. destruct (sd_life (pl_shared p)); [|done..]. destruct b as [|ri].
    + case_match; [|done]. by injection Hb as <- _.
    + exfalso. replace (forallb (fun t => negb (calling t)) (pl_threads p)) with false in Hb; [by rewrite andb_false_r in Hb|].
      symmetry. apply not_true_iff_false. rewrite forallb_forall. intros Hall.
      specialize (Hall _ ltac:(by apply list_elem_of_In, list_elem_of_lookup; eauto)). unfold calling in Hall. cbn in Hall. by rewrite Hic in Hall.
Qed.

(** A callback that closes its handle, or waits for it, while another thread
    is in [Wait] or [Close] never returns, and neither does that thread: in a
    run of a handle in which a thread is inside [join_once] while the reader is
    there, and a callback on the reader has come to [join_once], no continuation
    ever moves the reader, the callback's call or the other thread's past it. *)
Lemma callback_deadlock (k : HandleKind (Resp := Resp) (Res := Res)) (on_result on_error : bool)
    (ins : list (pool_input bool reader_input handle_call))
    (p : pool hacc SharedHandle handle_call handle_result) (outs : list (pool_output handle_result handle_event))
    (n i : nat) (c d : handle_call) (cont : bool -> program handle_result) :
  handle_run k on_result on_error ins = Some (p, outs) ->
  sd_once (pl_shared p) = Some n -> (th_call <$> pl_threads p) !! n = Some d -> hc_callback d = false ->
  sd_pc (pl_shared p) <> HAtExit ->
  pl_threads p !! i = Some (mkThread c (Some (Act HEnterOnce cont))) -> hc_callback c = true ->
  forall ins' p' outs', run (handle_step k) p ins' = Some (p', outs') ->
    pl_threads p' !! i = Some (mkThread c (Some (Act HEnterOnce cont))) /\ sd_once (pl_shared p') = Some n /\
    sd_pc (pl_shared p') = sd_pc (pl_shared p) /\ (forall r, OReturned i r ∉ outs' /\ OReturned n r ∉ outs').
Proof.
  intros Hr Ho Hn Hd Hpc Hi Hc. destruct (handle_run_ok _ _ _ _ _ _ Hr) as [g Hok].
  set (t := mkThread c (Some (Act HEnterOnce cont))).
  enough (forall ins' p' outs', run (handle_step k) p ins' = Some (p', outs') ->
    deadlocked k n i t (sd_pc (pl_shared p)) p' /\ (forall r, OReturned i r ∉ outs' /\ OReturned n r ∉ outs')) as He
    by (intros ins' p' outs' Hr'; destruct (He _ _ _ Hr') as [[] ?]; by split_and?).
  apply (run_ind (handle_step k) p (fun p' ins outs' => deadlocked k n i t (sd_pc (pl_shared p)) p' /\
    (forall r, OReturned i r ∉ outs' /\ OReturned n r ∉ outs'))).
  - split; [constructor; eauto|]. intros r. split; intros Hin; by inversion Hin.
  - intros p1 ins1 outs1 x p2 o _ [Hd1 Hn1] Hs. destruct (deadlocked_step _ _ _ _ _ _ _ _ _ Hd1 Hs) as [Hd2 Hn2]. split; [done|].
    intros r. destruct (Hn1 r), (Hn2 r). split; by intros [Hin|Hin]%elem_of_app.
Qed.

(** C33: a stream handle that many threads use shuts down. In every run its
    reader takes at most four steps besides reading and passing on results; a
    [Wait] and a [Close] that half-closed the stream return only when the reader
    has left, and once it is joined nothing ends the process; and as long as no
    callback of the handle waits for a thread that waits for the reader, some
    continuation, whatever calls are in progress, releases [write_mu], returns
    from the callback, lets the reader leave and returns from every call. A
    callback that has come to [join_once] while another thread is inside and the
    reader there is stuck for ever, and the other thread and the reader with it. *)
Theorem handle_shuts_down (k : HandleKind (Resp := Resp) (Res := Res)) (on_result on_error : bool)
    (ins : list (pool_input bool reader_input handle_call))
    (p : pool hacc SharedHandle handle_call handle_result) (outs : list (pool_output handle_result handle_event)) :
  handle_run k on_result on_error ins = Some (p, outs) ->
  (length (List.filter is_ending_step ins) <= 4)%nat /\
  (forall i c, OReturned i HVoid ∈ outs -> (th_call <$> pl_threads p) !! i = Some c ->
     hc_op c = OpWait \/ (hc_op c = OpClose /\ (Some i, EWritesDone) ∈ acts outs) -> sd_joined (pl_shared p) = true) /\
  (sd_joined (pl_shared p) = true -> sd_pc (pl_shared p) = HAtExit /\
     forall ins' p' outs', run (handle_step k) p ins' = Some (p', outs') -> forall i, (i, ETerminate) ∉ acts outs') /\
  (sd_life (pl_shared p) = Alive -> callbacks_can_return p ->
     exists ins' p' outs', run (handle_step k) p ins' = Some (p', outs') /\ sd_pc (pl_shared p') = HAtExit /\
       forall t, t ∈ pl_threads p' -> th_left t = None) /\
  (forall n d i c cont, sd_once (pl_shared p) = Some n -> (th_call <$> pl_threads p) !! n = Some d -> hc_callback d = false ->
     sd_pc (pl_shared p) <> HAtExit -> pl_threads p !! i = Some (mkThread c (Some (Act HEnterOnce cont))) -> hc_callback c = true ->
     forall ins' p' outs', run (handle_step k) p ins' = Some (p', outs') ->
       sd_pc (pl_shared p') = sd_pc (pl_shared p) /\ forall r, OReturned i r ∉ outs' /\ OReturned n r ∉ outs').
Proof.
  intros Hr. destruct (handle_run_ok _ _ _ _ _ _ Hr) as [g Hok]. pose proof (po_inv _ _ _ _ Hok) as Hi.
  cbn [ds_inv handle_discipline] in Hi. split; [|split; [|split; [|split]]].
  - enough (length (List.filter is_ending_step ins) + h_distance (sd_pc (pl_shared p)) <= 4)%nat by lia. clear Hok Hi.
    revert ins p outs Hr. apply (run_ind (handle_step k)); [done|]. intros p1 ins1 outs1 i p2 o _ IH Hs.
    pose proof (handle_step_distance k p1 i p2 o Hs). rewrite List.filter_app, length_app. cbn. destruct (is_ending_step i); cbn; lia.
  - intros i c Hin Hc Hop. destruct (po_returned _ _ _ _ Hok i _ Hin) as (c1 & Hc1 & _ & Hret).
    rewrite list_lookup_fmap, Hc1 in Hc. injection Hc as ->. cbn [ds_view handle_discipline] in Hret. unfold handle_returns in Hret.
    enough (hs_joined (hspot_of g (pl_shared p) i) = true) as Hj by (apply bool_decide_eq_true in Hj; by eapply (hi_joiners _ _ _ _ Hi)).
    destruct Hop as [Eo|[Eo Hw]]; rewrite Eo in Hret; [by destruct Hret as [[_ ?]|[? _]]|].
    apply (section_of_writes_done g _ _ _ i Hi) in Hw as (l & El & Hin'); [|apply (returned_without_mutex _ _ _ _ _ _ Hok Hin)].
    cbn [hspot_of hs_done] in Hret. rewrite El in Hret. destruct l as [|[| | |] [|]]; try done; [by inversion Hin'|]. by destruct Hret as [[_ ?]|[? _]].
  - intros Hj. split; [by apply (hi_left _ _ _ _ Hi)|]. intros. by eapply joined_run.
  - intros Hl Hw. destruct (release_mutex _ _ _ _ Hok) as (ins1 & p1 & outs1 & g1 & Hr1 & Hok1 & Hm1 & Ho1 & Hl1 & Hb1).
    destruct (callbacks_return _ _ _ _ Hok1 Hm1) as (ins2 & p2 & outs2 & g2 & Hr2 & Hok2 & Hm2 & Hl2 & Hc2); [congruence| |].
    { intros i [c [q|]] Hi1 Hc Hjo; [|by destruct c as [[] ?]]. destruct (Hb1 i c q Hi1) as [q0 Hi0]. rewrite Ho1. by apply (Hw i _ Hi0). }
    destruct (reader_can_leave _ _ _ _ Hok2 Hl2 Hc2) as (ins3 & p3 & outs3 & g3 & Hr3 & Hok3 & Hp3 & Hm3).
    destruct (after_reader_all_return _ _ _ _ Hok3 Hp3) as (ins4 & p4 & outs4 & Hr4 & Hp4 & Hd); [congruence|].
    exists (ins1 ++ ins2 ++ ins3 ++ ins4)%list, p4, (outs1 ++ outs2 ++ outs3 ++ outs4)%list.
    unfold handle_step in *. split; [|done]. by rewrite run_app, Hr1, run_app, Hr2, run_app, Hr3, Hr4.
  - intros n d i c cont Ho Hn Hd Hp Ht Hc ins' p' outs' Hr'.
    by destruct (callback_deadlock k on_result on_error ins p outs n i c d cont Hr Ho Hn Hd Hp Ht Hc ins' p' outs' Hr') as (_ & _ & ? & ?).
Qed.

(** ** Alone *)

(** A call that nobody interrupts. *)
Fixpoint call_alone (a : bool) (p : program handle_result) (s : SharedHandle) : option (handle_result * SharedHandle * list handle_event) :=
  match p with
  | Ret r => Some (r, s, [])
  | Act e k =>
      match hperform _ 0 a s e with
      | Some (x, s1, o1) => match call_alone a (k x) s1 with Some (r, s2, o2) => Some (r, s2, (o1 ++ o2)%list) | None => None end
      | None => None
      end
  end.

(** What it does and returns, as outputs of StreamHandle. *)
Definition shown (r : handle_result) (evs : list handle_event) : list (h_output (Req := Req) (Res := Res)) :=
  ((fun e => match e with EWrite m _ => OWrote m | EWritesDone => OWritesDone | EReader o => o | ETerminate => OTerminate end) <$> evs) ++
  match r with HSent st => [OSendReturns st] | _ => [] end.

Definition at_close (c : h_close) (h : HandleImpl (Req := Req) (Resp := Resp)) : HandleImpl := with_lock (h_done h) (h_lock_ h) c h.

(** A call that nobody interrupts is what the senders and the owner of
    StreamHandle do: whatever the state, when the call returns its steps there
    are possible, and they lead to the same state with the same outputs. *)
Theorem handle_programs_are_steps (k : HandleKind (Resp := Resp) (Res := Res)) (a : bool) (c : handle_call) (s s' : SharedHandle)
    (r : handle_result) (evs : list handle_event) :
  sd_mutex s = None -> sd_once s = None -> sd_life s = Alive -> hc_callback c = false ->
  call_alone a (handle_program k c) s = Some (r, s', evs) ->
  exists ins closing, run (h_step k) (reader_view s) ins = Some (at_close closing (reader_view s'), shown r evs) /\
    forallb (fun i => negb (is_reader_input i)) ins = true /\
    (forall b, r = HIs b -> b = IsDone (reader_view s)).
Proof.
  destruct s as [d p on j re er ca mu li], c as [cb op]. cbn [sd_mutex sd_once sd_life hc_callback]. intros -> -> -> -> Hr.
  destruct op as [m ch| | | |b|b|].
  - exists (if d then [HSend m ch] else [HSend m ch; HWrite a]), CIdle. destruct d; cbn in Hr; injection Hr as <- <- <-; by destruct a.
  - exists (if d then [HClose] else [HClose; HWritesDone; HCloseJoin]), CReturned.
    destruct d; cbn in Hr; [by injection Hr as <- <- <-|]. destruct j; [|destruct p]; cbn in Hr; simplify_eq; first [done|by destruct p].
  - exists [HWait], CIdle. destruct j; [|destruct p]; cbn in Hr; simplify_eq; first [done|by destruct p].
  - exists [], CIdle. cbn in Hr. injection Hr as <- <- <-. split; [done|]. split; [done|]. by intros b [= ->].
  - exists [HSetOnResult b], CIdle. cbn in Hr. destruct ca; [done|]. by injection Hr as <- <- <-.
  - exists [HSetOnError b], CIdle. cbn in Hr. destruct ca; [done|]. by injection Hr as <- <- <-.
  - exists (if d then [HClose; HDestroy] else [HClose; HWritesDone; HCloseJoin; HDestroy]), CReturned.
    destruct d; cbn in Hr; [by destruct j; injection Hr as <- <- <-|]. destruct j; [|destruct p]; cbn in Hr; simplify_eq; first [done|by destruct p].
Qed.

End shared.

(** ** An event store stream of three threads *)

Notation demo_input := (pool_input bool (reader_input (Req := pb_Event) (Resp := pb_Result)) (handle_call (Req := pb_Event))).

Notation demo_pool := (pool hacc (SharedHandle (Resp := pb_Result)) (handle_call (Req := pb_Event)) handle_result).
Notation demo_output := (pool_output handle_result (handle_event (Req := pb_Event) (Res := EventStoreResult))).

Notation demo_handle := (handle_run (Req := pb_Event) event_store_stream_kind true true).
Notation demo_handle_step := (handle_step (Req := pb_Event) event_store_stream_kind).
Definition demo_stored : pb_Result := mk_pb_Result "1" true "".
Definition by_thread (o : handle_op (Req := pb_Event)) : demo_input := PCall (mkHandleCall false o).
Definition by_callback (o : handle_op (Req := pb_Event)) : demo_input := PCall (mkHandleCall true o).
Definition thread_steps (i n : nat) : list demo_input := replicate n (PStep i true).
Definition reader_does (i : h_input (Req := pb_Event) (Resp := pb_Result)) : demo_input := PEnv (RReader i).

(** A [Wait] is inside [join_once] while a message is sent, its result makes the
    callback send another, and [Close] half-closes the stream. *)
Definition busy_stream : list demo_input :=
  ([by_thread (OpSend demo_event "ch"); by_thread OpWait] ++ thread_steps 1 1 ++ thread_steps 0 5 ++
   [reader_does (HRead (Some demo_stored)); PEnv RCallback; by_callback (OpSend demo_event "ch")] ++ thread_steps 2 5 ++
   [reader_does (HResultDone Returned); by_thread OpClose] ++ thread_steps 3 4)%list.

Lemma handle_observed {T} (f : demo_pool -> list demo_output -> T) ins v :
  (fun r => f (fst r) (snd r)) <$> demo_handle ins = Some v -> exists p outs, demo_handle ins = Some (p, outs) /\ f p outs = v.
Proof. destruct (demo_handle ins) as [[p outs]|]; [|done]. intros [= <-]. by exists p, outs. Qed.

Lemma handle_calls_serialized_witness :
  exists p outs, demo_handle busy_stream = Some (p, outs) /\ sd_once (pl_shared p) = Some 1%nat /\
    (exists sections now, stream_acts (acts outs) = (concat (tagged <$> sections) ++ handle_in_section (pl_shared p) now)%list) /\
    stream_acts (acts outs) = [(Some 0%nat, EWrite demo_event true); (Some 2%nat, EWrite demo_event true); (Some 3%nat, EWritesDone)].
Proof.
  destruct (handle_observed (fun p outs => (sd_once (pl_shared p), stream_acts (acts outs))) busy_stream (Some 1%nat,
    [(Some 0%nat, EWrite demo_event true); (Some 2%nat, EWrite demo_event true); (Some 3%nat, EWritesDone)])
    ltac:(vm_compute; reflexivity)) as (p & outs & E & H).
  injection H as H1 H2. exists p, outs. split; [exact E|]. split; [exact H1|]. split; [|exact H2].
  destruct (handle_calls_serialized event_store_stream_kind true true busy_stream p outs E) as (sections & now & He & _).
  by exists sections, now.
Defined.

Definition no_callback (p : demo_pool) : bool :=
  forallb (fun t => negb (calling t)) (pl_threads p).

Lemma no_callback_returns (p : demo_pool) :
  no_callback p = true -> callbacks_can_return p.
Proof.
  intros Hn i t Hi Hc. unfold no_callback in Hn. rewrite forallb_forall in Hn.
  specialize (Hn t ltac:(by apply list_elem_of_In, list_elem_of_lookup; eauto)). by rewrite Hc in Hn.
Qed.

Lemma handle_shuts_down_witness :
  exists p outs, demo_handle busy_stream = Some (p, outs) /\ running p = 2%nat /\
    exists ins' p' outs', run demo_handle_step p ins' = Some (p', outs') /\ sd_pc (pl_shared p') = HAtExit /\
      forall t, t ∈ pl_threads p' -> th_left t = None.
Proof.
  destruct (handle_observed (fun p outs => (running p, sd_life (pl_shared p), no_callback p)) busy_stream (2%nat, Alive, true)
    ltac:(vm_compute; reflexivity)) as (p & outs & E & H).
  injection H as H1 H2 H3. exists p, outs. split; [exact E|]. split; [exact H1|].
  exact (proj1 (proj2 (proj2 (proj2 (handle_shuts_down event_store_stream_kind true true busy_stream p outs E)))) H2 (no_callback_returns p H3)).
Defined.

(** A callback that closes its stream while another thread waits for it. *)
Definition callback_closes : list demo_input :=
  ([by_thread OpWait] ++ thread_steps 0 1 ++ [reader_does (HRead (Some demo_stored)); PEnv RCallback; by_callback OpClose] ++
   thread_steps 1 4)%list.

Definition at_once (t : option (thread (hacc (Req := pb_Event)) (handle_call (Req := pb_Event)) handle_result)) : option handle_call :=
  match t with Some (mkThread c (Some (Act HEnterOnce _))) => Some c | _ => None end.

Lemma at_once_waits t c : at_once t = Some c -> exists cont, t = Some (mkThread c (Some (Act HEnterOnce cont))).
Proof. destruct t as [[c' [[r|X [] cont]|]]|]; try done. intros [= ->]. by exists cont. Qed.

Definition who_waits (p : demo_pool) :=
  (sd_once (pl_shared p), (th_call <$> pl_threads p) !! 0%nat, sd_pc (pl_shared p), at_once (pl_threads p !! 1%nat)).

Lemma callback_deadlock_example :
  exists p outs, demo_handle callback_closes = Some (p, outs) /\
    forall ins' p' outs', run demo_handle_step p ins' = Some (p', outs') ->
      sd_pc (pl_shared p') = HAtResult demo_stored /\ (forall r, OReturned 1%nat r ∉ outs' /\ OReturned 0%nat r ∉ outs').
Proof.
  destruct (handle_observed (fun p _ => who_waits p) callback_closes
    (Some 0%nat, Some (mkHandleCall false OpWait), HAtResult demo_stored, Some (mkHandleCall true OpClose))
    ltac:(vm_compute; reflexivity)) as (p & outs & E & H).
  injection H as H1 H2 H3 H4. apply at_once_waits in H4 as [cont H4]. exists p, outs. split; [exact E|]. intros ins' p' outs' Hr.
  assert (sd_pc (pl_shared p) <> HAtExit) as H5 by (rewrite H3; discriminate).
  destruct (callback_deadlock event_store_stream_kind true true callback_closes p outs 0 1 _ _ cont E H1 H2 eq_refl H5 H4 eq_refl
    ins' p' outs' Hr) as (_ & _ & Hp & Ho). split; [rewrite Hp; exact H3|exact Ho].
Qed.

Definition closed_by_callback : list demo_input :=
  ([reader_does (HRead (Some demo_stored)); PEnv RCallback; by_callback OpClose] ++ thread_steps 0 7 ++
   [reader_does (HResultDone (Threw "Resource deadlock avoided")); reader_does (HRead None); reader_does HSetDone;
    reader_does (HFinish GrpcStatusOk); by_thread OpDestroy] ++ thread_steps 1 5)%list.

Definition returns_of (outs : list demo_output) :
    list (nat * handle_result) := omap (fun o => match o with OReturned i r => Some (i, r) | _ => None end) outs.

(** Where [Close] is not one owner's. A callback that closes its own stream gets
    an exception for the join, after which nobody has joined the reader and the
    destructor, which finds [done] set, ends the process; and of two threads
    that close a stream, the second returns while the reader still runs. *)
Theorem handle_close_races :
  (exists p outs, demo_handle closed_by_callback = Some (p, outs) /\
     (returns_of outs, List.last (acts outs) (None, EWritesDone)) = ([(0%nat, HThrew); (1%nat, HVoid)], (Some 1%nat, ETerminate))) /\
  (exists p outs, demo_handle ([by_thread OpClose; by_thread OpClose] ++ thread_steps 0 4 ++ thread_steps 1 4)%list = Some (p, outs) /\
     (returns_of outs, sd_pc (pl_shared p), sd_joined (pl_shared p)) = ([(1%nat, HVoid)], HAtRead, false)).
Proof. split; apply handle_observed; vm_compute; reflexivity. Qed.
