(* ===== verification/Wire.v ===== *)
(** * Machine integers on the wire

    Every integer the SDK hands to protobuf lies in the range of its field's
    type in src/proto/kubemq.proto, whatever [int64] or [int] the application
    gave. The narrowing conversions are where the sources write them. *)

From Stdlib Require Import ZArith Lia Ascii String Floats.
From S2P Require Import Prelude Status ErrorMapper Validation Random Uuid Double.
From S2P Require Import Backoff StateMachine Auth Tls ClientOptions Messages Proto.
From S2P Require Import Converter Transport Calls Client Subscription Downstream.

Local Open Scope string_scope.
Local Open Scope Z_scope.
Local Open Scope kubemq_scope.

(** ** The types of the fields *)

Definition pb_Request_typed (r : pb_Request) : Prop :=
  in_s 32 (pbRequest_timeout r) /\ in_s 32 (pbRequest_cachettl r).

Definition pb_QueueMessage_typed (m : pb_QueueMessage) : Prop :=
  match pbQueueMessage_policy m with
  | None => True
  | Some p => in_s 32 (pbQueueMessagePolicy_expirationseconds p) /\
              in_s 32 (pbQueueMessagePolicy_delayseconds p) /\
              in_s 32 (pbQueueMessagePolicy_maxreceivecount p)
  end.

Definition call_typed (call : StubCall) : Prop :=
  match call with
  | CallSendRequest r => pb_Request_typed r
  | CallSendResponse r => in_s 64 (pbResponse_timestamp r)
  | CallSendQueueMessage m => pb_QueueMessage_typed m
  | CallSendQueueMessagesBatch r => Forall pb_QueueMessage_typed (pbQueueMessagesBatchRequest_messages r)
  | CallReceiveQueueMessages r =>
      in_s 32 (pbReceiveQueueMessagesRequest_maxnumberofmessages r) /\
      in_s 32 (pbReceiveQueueMessagesRequest_waittimeseconds r)
  | CallAckAllQueueMessages r => in_s 32 (pbAckAllQueueMessagesRequest_waittimeseconds r)
  | CallSubscribeToEvents s | CallSubscribeToRequests s =>
      0 <= pbSubscribe_eventsstoretypedata s <= 6 /\ in_s 64 (pbSubscribe_eventsstoretypevalue s)
  | _ => True
  end.

Definition write_typed (x : DsEvent) : Prop :=
  match x with
  | DsWrite _ r _ =>
      in_s 32 (pbQueuesDownstreamRequest_maxitems r) /\
      in_s 32 (pbQueuesDownstreamRequest_waittimeout r) /\
      Forall (in_s 64) (pbQueuesDownstreamRequest_sequencerange r)
  | _ => True
  end.

(** The C++ types of the arguments that are passed on as they are. *)
Definition op_typed (o : ClientOp) : Prop :=
  match o with
  | COSendCommandResponse r => in_s 64 (crep_executed_at r)
  | COSendQueryResponse r => in_s 64 (qrep_executed_at r)
  | COReceiveQueueMessages r =>
      in_s 32 (rq_max_number_of_messages r) /\ in_s 32 (rq_wait_time_seconds r)
  | COAckAllQueueMessages r => in_s 32 (aq_wait_time_seconds r)
  | _ => True
  end.

(** A [SubscriptionOption] is made by its factories, from a [uint64_t], a time
    in an [int64_t] of nanoseconds or an [int64_t] of seconds. *)
Inductive factory_made : SubscriptionOption -> Prop :=
  | made_new : factory_made StartFromNewEvents
  | made_first : factory_made StartFromFirstEvent
  | made_last : factory_made StartFromLastEvent
  | made_sequence n : in_u 64 n -> factory_made (StartFromSequence n)
  | made_time t : in_s 64 t -> factory_made (StartFromTime t)
  | made_delta d : in_s 64 d -> factory_made (StartFromTimeDelta d).

Definition subscribe_typed (o : SubscribeOp) : Prop :=
  match o with SOEventsStore _ _ st => factory_made st | _ => True end.

(** ** Lemmas *)

Lemma to_int32_typed z : in_s 32 (to_int32 z).
Proof. by apply wrap_s_range. Qed.

Lemma to_int64_typed z : in_s 64 (to_int64 z).
Proof. by apply wrap_s_range. Qed.

Lemma zero_typed w : 0 < w -> in_s w 0.
Proof. intros Hw. unfold in_s. pose proof (Z.pow_pos_nonneg 2 (w - 1)). lia. Qed.

#[local] Hint Resolve to_int32_typed to_int64_typed : typed.
#[local] Hint Extern 1 (in_s 32 _) => unfold in_s; lia : typed.
#[local] Hint Extern 1 (in_s 64 _) => unfold in_s; lia : typed.

Lemma request_cache_ttl_typed t c : in_s 32 (request_cache_ttl t c).
Proof. unfold request_cache_ttl. cbn zeta. case_match; auto with typed. Qed.

Lemma queue_proto_typed c m : pb_QueueMessage_typed (queue_proto c m).
Proof. unfold pb_QueueMessage_typed. cbn. auto with typed. Qed.

Lemma factory_made_typed st : factory_made st -> 0 <= type_ st <= 6 /\ in_s 64 (value_ st).
Proof. intros []; cbn; split; auto with typed; lia. Qed.

Lemma op_sends_typed c o call : op_typed o -> op_sends c o call -> call_typed call.
Proof.
  pose proof request_cache_ttl_typed. pose proof queue_proto_typed.
  destruct o; cbn; unfold sent_event, sent_command, sent_query, sent_response, sent_management,
    pb_Request_typed; intros Ho Hc; try destruct Hc as (id & _ & Hc); subst; cbn;
    try done; try (split; cbn; auto with typed; fail); cbn; auto with typed.
  apply Forall_fmap, Forall_true. intros x. by apply queue_proto_typed.
Qed.

Lemma subscribe_call_typed c o : subscribe_typed o -> call_typed (subscribe_call c o).
Proof.
  destruct o; cbn; intros Ho; [| by apply factory_made_typed | |]; split; auto with typed; lia.
Qed.

(** The log grew by entries that satisfy [P]. *)
Definition grows {A} (P : A -> Prop) (log log' : list A) : Prop :=
  exists new, log' = (log ++ new)%list /\ Forall P new.

Lemma grows_refl {A} (P : A -> Prop) log : grows P log log.
Proof. exists []. by rewrite app_nil_r. Qed.

Lemma grows_one {A} (P : A -> Prop) log x : P x -> grows P log (log ++ [x])%list.
Proof. intros Hx. exists [x]. split; [done|]. by constructor. Qed.

(** What a gated operation adds to the log is at most the one call. *)
Lemma gated_adds {W} tr open V P (m : M (Logged W) Status) (Q : StubCall -> Prop) w log :
  gated tr open V P m -> (V \/ ~ V) -> (forall call, P call -> Q call) ->
  grows (fun e => Q (snd (fst e))) log (snd (snd (m (w, log)))).
Proof.
  intros Hg HV HP. specialize (Hg w log). destruct (m (w, log)) as [s [w' log']]. cbn.
  destruct HV as [V'|V']; [|destruct (proj2 Hg V') as [-> _]; apply grows_refl].
  destruct (proj1 Hg V') as [(-> & _)|(ctx & call & out & Hc & _ & _ & ->)]; [apply grows_refl|].
  apply grows_one. by apply HP.
Qed.

(** *** Decidability of what is allowed *)

Definition decides (P : Prop) : Prop := P \/ ~ P.

Lemma decides_bool (b : bool) P : (b = true <-> P) -> decides P.
Proof. intros Hb. destruct b; [left; by apply Hb|right; intros HP%Hb; done]. Qed.

Lemma decides_and P Q : decides P -> decides Q -> decides (P /\ Q).
Proof. unfold decides. tauto. Qed.

Lemma decides_channel ch : decides (valid_channel ch).
Proof. apply (decides_bool (status_ok (ValidateChannel ch ""))), ValidateChannel_spec. Qed.

Lemma decides_send_channel ch : decides (valid_send_channel ch).
Proof. apply (decides_bool (status_ok (ValidateChannelNoWildcard ch ""))), ValidateChannelNoWildcard_spec. Qed.

Lemma decides_content b md : decides (has_content b md).
Proof. apply (decides_bool (status_ok (ValidateBody b md ""))), ValidateBody_spec. Qed.

Lemma decides_positive t : decides (0 < t).
Proof. apply (decides_bool (status_ok (ValidateTimeout t ""))), ValidateTimeout_spec. Qed.

Lemma decides_type t : decides (channel_type_ok t).
Proof. apply (decides_bool (IsValidChannelType t)), IsValidChannelType_spec. Qed.

Lemma decides_named (n : string) : decides (n <> "").
Proof.
  apply (decides_bool (negb (str_empty n))). rewrite negb_true_iff. apply str_empty_false.
Qed.

Lemma decides_closed (b : bool) : decides (b = false).
Proof. apply (decides_bool (negb b)), negb_true_iff. Qed.

Lemma decides_message c ch b md : decides (message_ok c ch b md).
Proof. apply decides_and; [apply decides_send_channel|apply decides_content]. Qed.

#[local] Hint Resolve decides_and decides_channel decides_send_channel decides_content decides_positive
  decides_type decides_named decides_closed decides_message : decides.

Lemma decides_batch c ms :
  decides (ms <> [] /\ Forall (fun m => message_ok c (qm_channel m) (qm_body m) (qm_metadata m)) ms).
Proof.
  apply decides_and; [destruct ms; [right; intros Hn; by apply Hn|by left]|].
  pose proof (batch_messages_spec c ms) as Hb. destruct (batch_messages c ms); [left|right]; apply Hb.
Qed.

#[local] Hint Resolve decides_batch : decides.

Lemma op_valid_decides c o : decides (op_valid c o).
Proof.
  unfold op_valid. apply decides_and; [apply decides_closed|].
  destruct o; unfold simple_ok; auto 6 with decides; by left.
Qed.

(** ** Every call and every write is typed *)

Section wire.
Context {W : Type} `{Grpc W, Providers W, Random W, JsonLibrary, DownstreamStream W}.

(** Every integer put on the wire fits its field. Whatever a unary
    operation, a subscription or a settlement is given, the calls it makes
    and the requests it writes carry integers of the ranges that the fields
    of kubemq.proto have: timeouts and cache times narrowed from [int64] to
    [int32], sequences converted from [uint64] to [int64], a start position
    of one of the seven kinds with its value. Only the arguments the SDK
    passes on unchanged are taken to be of their C++ type. *)
Theorem wire_well_typed (c : Client) (w : W) :
  (forall o (log : call_log), op_typed o ->
     grows (fun e => call_typed (snd (fst e))) log (snd (snd (run_client_op c o (w, log))))) /\
  (forall o (log : call_log), subscribe_typed o ->
     grows (fun e => call_typed (snd (fst e))) log (snd (snd (run_subscribe_op c o (w, log))))) /\
  (forall o m p (log : ds_log), grows write_typed log (snd (snd (settle o m p (w, log))))).
Proof.
  split; [|split].
  - intros o log Ho. apply (gated_adds _ _ _ _ _ _ _ _ (run_client_op_gated c o) (op_valid_decides c o)).
    intros call Hc. by apply (op_sends_typed c o).
  - intros o log Ho.
    pose proof (gated_adds _ _ _ _ _ call_typed w log (run_subscribe_op_gated c o)) as Hg.
    unfold status_only, bind, ret in Hg. destruct (run_subscribe_op c o (w, log)) as [r [w' log']].
    apply Hg; [apply decides_and; auto with decides|]. intros call <-. by apply subscribe_call_typed.
  - intros o m p log. pose proof (settle_spec o m p w log) as Hs.
    destruct (settle o m p (w, log)) as [s [w' log']]. cbn.
    destruct Hs as [(-> & _)|(h & _ & _ & _ & id & b & _ & -> & _)]; [apply grows_refl|].
    apply grows_one. cbn. destruct (on_batch o); repeat split; auto with typed; lia.
Qed.

End wire.
