(* ===== verification/Crc.v ===== *)
(** * The CRC of the burn-in payloads

    Models [InitCrc32Table] and [Crc32] of burnin/engine/metrics.cc: the
    table, the lazy initialisation with its flag, and the loop over the bytes.
    A [uint32_t] is a [Z] in its range; the shifts and masks cannot leave it,
    as the lemmas show. The reference is the bitwise CRC over the polynomial. *)

From Stdlib Require Import ZArith Lia Ascii String.
From S2P Require Import Prelude.

Local Open Scope Z_scope.
Local Open Scope kubemq_scope.

(** ** The source *)

(** The body of the inner loop: one bit. *)
Definition crc_bit (crc : Z) : Z :=
  if Z.testbit crc 0 then Z.lxor (Z.shiftr crc 1) 0xEDB88320 else Z.shiftr crc 1.

(** [for (int j = 0; j < 8; ++j)]. *)
Definition crc_entry (i : Z) : Z := Nat.iter 8 crc_bit i.

(** The static table and its flag. *)
Record CrcTable := mkCrcTable { crc32_table : list Z; crc32_initialized : bool }.

Definition CrcTable_static : CrcTable := mkCrcTable (replicate 256 0) false.

Definition InitCrc32Table (t : CrcTable) : CrcTable :=
  if crc32_initialized t then t else mkCrcTable (crc_entry <$> seqZ 0 256) true.

Definition unsigned_char (c : ascii) : Z := Z.of_N (N_of_ascii c).

(** One iteration of the loop over the data. *)
Definition crc_byte (t : CrcTable) (crc : Z) (c : ascii) : Z :=
  Z.lxor (nth (Z.to_nat (Z.land (Z.lxor crc (unsigned_char c)) 0xFF)) (crc32_table t) 0)
         (Z.shiftr crc 8).

Fixpoint crc_loop (t : CrcTable) (data : string) (crc : Z) : Z :=
  match data with
  | EmptyString => crc
  | String c data' => crc_loop t data' (crc_byte t crc c)
  end.

Definition Crc32 (data : string) (t : CrcTable) : Z * CrcTable :=
  let t1 := InitCrc32Table t in
  (Z.lxor (crc_loop t1 data 0xFFFFFFFF) 0xFFFFFFFF, t1).

(** ** The reference *)

(** Shift the register over the bits of a byte, lowest first. *)
Fixpoint crc_bitwise (data : string) (crc : Z) : Z :=
  match data with
  | EmptyString => crc
  | String c data' => crc_bitwise data' (Nat.iter 8 crc_bit (Z.lxor crc (unsigned_char c)))
  end.

(** The states the static table can be in. *)
Definition crc_table_ok (t : CrcTable) : Prop :=
  t = CrcTable_static \/ t = InitCrc32Table CrcTable_static.

(** ** Linearity *)

Abbreviation crc_shift n := (Nat.iter n crc_bit).

Lemma crc_bit_lxor a b : crc_bit (Z.lxor a b) = Z.lxor (crc_bit a) (crc_bit b).
Proof.
  unfold crc_bit. rewrite Z.lxor_spec, Z.shiftr_lxor.
  destruct (Z.testbit a 0), (Z.testbit b 0); cbn [xorb]; apply Z.bits_inj'; intros n Hn;
    rewrite !Z.lxor_spec; by destruct (Z.testbit (Z.shiftr a 1) n), (Z.testbit (Z.shiftr b 1) n),
      (Z.testbit 0xEDB88320 n).
Qed.

Lemma crc_shift_lxor n a b : crc_shift n (Z.lxor a b) = Z.lxor (crc_shift n a) (crc_shift n b).
Proof. induction n as [|n IH]; [done|]. by rewrite !Nat.iter_succ, IH, crc_bit_lxor. Qed.

(** A register whose low bits are clear is only shifted. *)
Lemma crc_shift_clear n x : crc_shift n (Z.shiftl x (Z.of_nat n)) = x.
Proof.
  revert x. induction n as [|n IH]; intros x; [apply Z.shiftl_0_r|].
  rewrite Nat.iter_succ. replace (Z.of_nat (S n)) with (1 + Z.of_nat n) by lia.
  rewrite <- Z.shiftl_shiftl by lia. rewrite IH. unfold crc_bit.
  rewrite Z.shiftl_spec_low by lia. by rewrite Z.shiftr_shiftl_r, Z.shiftr_0_r by lia.
Qed.

Lemma crc_shift_add n m x : crc_shift (n + m) x = crc_shift n (crc_shift m x).
Proof. apply Nat.iter_add. Qed.

(** ** Range *)

Lemma shiftr_range w k x : 0 <= k <= w -> 0 <= x < 2 ^ w -> 0 <= Z.shiftr x k < 2 ^ (w - k).
Proof.
  intros Hk Hx. rewrite Z.shiftr_div_pow2 by lia. split; [apply Z.div_pos; lia|].
  apply Z.div_lt_upper_bound; [lia|]. rewrite <- Z.pow_add_r by lia.
  replace (k + (w - k)) with w by lia. lia.
Qed.

Lemma lxor_range w a b : 0 <= w -> in_u w a -> in_u w b -> in_u w (Z.lxor a b).
Proof.
  unfold in_u. intros Hw Ha Hb. split; [apply Z.lxor_nonneg; lia|].
  assert (Z.lxor a b = Z.lxor a b `mod` 2 ^ w) as ->; [|apply Z.mod_pos_bound; lia].
  apply Z.bits_inj'. intros n Hn. destruct (Z.lt_ge_cases n w).
  - by rewrite Z.mod_pow2_bits_low.
  - rewrite Z.mod_pow2_bits_high by lia. rewrite Z.lxor_spec.
    rewrite <- (Z.mod_small a (2 ^ w)), <- (Z.mod_small b (2 ^ w)) by lia.
    by rewrite !Z.mod_pow2_bits_high by lia.
Qed.

Lemma crc_bit_range x : in_u 32 x -> in_u 32 (crc_bit x).
Proof.
  unfold crc_bit. intros Hx. pose proof (shiftr_range 32 1 x ltac:(lia) Hx) as Hs.
  assert (in_u 32 (Z.shiftr x 1)) by (unfold in_u; cbn in *; lia).
  destruct (Z.testbit x 0); [|done]. apply lxor_range; [lia|done|unfold in_u; lia].
Qed.

Lemma crc_shift_range n x : in_u 32 x -> in_u 32 (crc_shift n x).
Proof. intros Hx. induction n as [|n IH]; [done|]. rewrite Nat.iter_succ. by apply crc_bit_range. Qed.

Lemma unsigned_char_range c : 0 <= unsigned_char c < 2 ^ 8.
Proof. unfold unsigned_char. pose proof (N_ascii_bounded c). lia. Qed.

Lemma unsigned_char_inj c d : unsigned_char c = unsigned_char d -> c = d.
Proof. unfold unsigned_char. intros H%N2Z.inj. by rewrite <- (ascii_N_embedding c), H, ascii_N_embedding. Qed.

(** ** The table is the byte shift *)

Lemma crc_byte_spec crc c :
  in_u 32 crc ->
  crc_byte (InitCrc32Table CrcTable_static) crc c = crc_shift 8 (Z.lxor crc (unsigned_char c)).
Proof.
  intros Hc. pose proof (unsigned_char_range c) as Hb. set (x := Z.lxor crc (unsigned_char c)).
  assert (0 <= Z.land x 255 < 256) as Hl.
  { change 255 with (Z.ones 8). rewrite Z.land_ones by lia. apply Z.mod_pos_bound. lia. }
  assert (nth (Z.to_nat (Z.land x 255)) (crc32_table (InitCrc32Table CrcTable_static)) 0
          = crc_shift 8 (Z.land x 255)) as Ht.
  { change (crc32_table (InitCrc32Table CrcTable_static)) with (crc_entry <$> seqZ 0 256).
    apply nth_lookup_Some. rewrite list_lookup_fmap, lookup_seqZ_lt by lia. cbn.
    by rewrite Z2Nat.id by lia. }
  assert (x = Z.lxor (Z.land x 255) (Z.shiftl (Z.shiftr crc 8) 8)) as Hx.
  { assert (Z.shiftr crc 8 = Z.shiftr x 8) as ->.
    { subst x. rewrite Z.shiftr_lxor, (Z.shiftr_div_pow2 (unsigned_char c)), (Z.div_small (unsigned_char c)) by lia.
      by rewrite Z.lxor_0_r. }
    apply Z.bits_inj'. intros n Hn. rewrite Z.lxor_spec, Z.land_spec, Z.shiftl_spec by lia.
    change 255 with (Z.ones 8). destruct (Z.lt_ge_cases n 8).
    - rewrite Z.ones_spec_low, (Z.testbit_neg_r _ (n - 8)) by lia. by rewrite andb_true_r, xorb_false_r.
    - rewrite Z.ones_spec_high by lia. rewrite andb_false_r, xorb_false_l, Z.shiftr_spec by lia.
      f_equal. lia. }
  unfold crc_byte. fold x. rewrite Ht. rewrite Hx at 2. rewrite crc_shift_lxor.
  pose proof (crc_shift_clear 8 (Z.shiftr crc 8)) as Hs. change (Z.of_nat 8) with 8 in Hs.
  by rewrite Hs.
Qed.

Lemma crc_loop_bitwise data crc :
  in_u 32 crc -> crc_loop (InitCrc32Table CrcTable_static) data crc = crc_bitwise data crc.
Proof.
  revert crc. induction data as [|c data IH]; intros crc Hc; cbn [crc_loop crc_bitwise]; [done|].
  rewrite crc_byte_spec by done. apply IH, crc_shift_range, lxor_range; [lia|done|].
  pose proof (unsigned_char_range c). unfold in_u. lia.
Qed.

Lemma crc_bitwise_range data crc : in_u 32 crc -> in_u 32 (crc_bitwise data crc).
Proof.
  revert crc. induction data as [|c data IH]; intros crc Hc; cbn [crc_bitwise]; [done|].
  apply IH, crc_shift_range, lxor_range; [lia|done|].
  pose proof (unsigned_char_range c). unfold in_u. lia.
Qed.

Lemma Crc32_bitwise data t :
  crc_table_ok t ->
  Crc32 data t = (Z.lxor (crc_bitwise data 0xFFFFFFFF) 0xFFFFFFFF, InitCrc32Table CrcTable_static).
Proof.
  intros Ht. unfold Crc32. assert (InitCrc32Table t = InitCrc32Table CrcTable_static) as ->.
  { by destruct Ht as [-> | ->]. }
  rewrite crc_loop_bitwise; [done|unfold in_u; lia].
Qed.

(** ** Detection *)

(** The bytes of a string as one number, the first lowest. *)
Fixpoint crc_word (data : string) : Z :=
  match data with
  | EmptyString => 0
  | String c data' => Z.lxor (unsigned_char c) (Z.shiftl (crc_word data') 8)
  end.

Lemma crc_bitwise_word data crc :
  crc_bitwise data crc = crc_shift (8 * String.length data) (Z.lxor crc (crc_word data)).
Proof.
  revert crc. induction data as [|c data IH]; intros crc.
  - cbn. by rewrite Z.lxor_0_r.
  - cbn [crc_bitwise crc_word String.length]. rewrite IH.
    replace (8 * S (String.length data))%nat with (8 * String.length data + 8)%nat by lia.
    rewrite crc_shift_add, <- Z.lxor_assoc, (crc_shift_lxor 8 _ (Z.shiftl _ _)).
    pose proof (crc_shift_clear 8 (crc_word data)) as Hw. change (Z.of_nat 8) with 8 in Hw.
    by rewrite Hw.
Qed.

Lemma crc_bitwise_app a b crc : crc_bitwise (a +:+ b) crc = crc_bitwise b (crc_bitwise a crc).
Proof. revert crc. induction a as [|c a IH]; intros crc; cbn; [done|]. apply IH. Qed.

Lemma crc_bit_zero x : in_u 32 x -> crc_bit x = 0 -> x = 0.
Proof.
  unfold crc_bit. intros Hx. pose proof (shiftr_range 32 1 x ltac:(lia) Hx) as Hs. cbn in Hs.
  destruct (Z.testbit x 0) eqn:E; [intros Hp%Z.lxor_eq; lia|]. intros H0.
  apply Z.bits_inj'. intros n Hn. rewrite Z.bits_0. destruct (decide (n = 0)) as [->|]; [done|].
  assert (Z.testbit x n = Z.testbit (Z.shiftr x 1) (n - 1)) as ->.
  { rewrite Z.shiftr_spec by lia. f_equal. lia. }
  by rewrite H0, Z.bits_0.
Qed.

Lemma crc_shift_zero n x : in_u 32 x -> crc_shift n x = 0 -> x = 0.
Proof.
  intros Hx. induction n as [|n IH]; [done|]. rewrite Nat.iter_succ.
  intros H0%crc_bit_zero; [by apply IH|by apply crc_shift_range].
Qed.

(** The register never forgets a difference. *)
Lemma crc_shift_inj n x y : in_u 32 x -> in_u 32 y -> crc_shift n x = crc_shift n y -> x = y.
Proof.
  intros Hx Hy He. apply Z.lxor_eq, (crc_shift_zero n); [by apply lxor_range|].
  by rewrite crc_shift_lxor, He, Z.lxor_nilpotent.
Qed.

Lemma crc_word_range data : in_u (8 * Z.of_nat (String.length data)) (crc_word data).
Proof.
  induction data as [|c data IH]; [done|]. cbn [crc_word String.length].
  apply lxor_range; [lia| |].
  - pose proof (unsigned_char_range c). unfold in_u in *. split; [lia|].
    eapply Z.lt_le_trans; [apply H|]. apply Z.pow_le_mono_r; lia.
  - unfold in_u in *. rewrite Z.shiftl_mul_pow2 by lia.
    replace (8 * Z.of_nat (S (String.length data))) with (8 * Z.of_nat (String.length data) + 8) by lia.
    rewrite Z.pow_add_r by lia. nia.
Qed.

Lemma crc_word_inj a b : String.length a = String.length b -> crc_word a = crc_word b -> a = b.
Proof.
  revert b. induction a as [|c a IH]; intros [|d b] Hl; try done. cbn [crc_word]. intros He.
  assert (forall c w, Z.land (Z.lxor (unsigned_char c) (Z.shiftl w 8)) (Z.ones 8) = unsigned_char c /\
            Z.shiftr (Z.lxor (unsigned_char c) (Z.shiftl w 8)) 8 = w) as Hsplit.
  { intros e w. pose proof (unsigned_char_range e) as Hr. split.
    - apply Z.bits_inj'. intros n Hn. rewrite Z.land_spec, Z.lxor_spec, Z.shiftl_spec by lia.
      destruct (Z.lt_ge_cases n 8).
      + rewrite Z.ones_spec_low, (Z.testbit_neg_r _ (n - 8)) by lia. by rewrite andb_true_r, xorb_false_r.
      + rewrite Z.ones_spec_high by lia. rewrite andb_false_r, <- (Z.mod_small _ _ Hr).
        by rewrite Z.mod_pow2_bits_high by lia.
    - rewrite Z.shiftr_lxor, (Z.shiftr_div_pow2 (unsigned_char e)), Z.div_small by lia.
      by rewrite Z.lxor_0_l, Z.shiftr_shiftl_l, Z.shiftl_0_r by lia. }
  destruct (Hsplit c (crc_word a)) as [Hc Ha], (Hsplit d (crc_word b)) as [Hd Hb].
  rewrite He in Hc, Ha. f_equal; [apply unsigned_char_inj; congruence|].
  apply IH; [by injection Hl|congruence].
Qed.

Lemma lxor_cancel_r a b m : Z.lxor a m = Z.lxor b m -> a = b.
Proof.
  intros Hm. by rewrite <- (Z.lxor_0_r a), <- (Z.lxor_nilpotent m), <- Z.lxor_assoc, Hm, Z.lxor_assoc,
    Z.lxor_nilpotent, Z.lxor_0_r.
Qed.

Lemma crc_bitwise_inj data a b :
  in_u 32 a -> in_u 32 b -> crc_bitwise data a = crc_bitwise data b -> a = b.
Proof.
  revert a b. induction data as [|c data IH]; intros a b Ha Hb; cbn [crc_bitwise]; [done|].
  assert (forall x, in_u 32 x -> in_u 32 (Z.lxor x (unsigned_char c))) as Hx.
  { intros x Hx. apply lxor_range; [lia|done|]. pose proof (unsigned_char_range c). unfold in_u. lia. }
  intros He%IH; [|by apply crc_shift_range, Hx..]. eapply lxor_cancel_r, crc_shift_inj, He; by apply Hx.
Qed.

(** A register run over different words of at most four bytes differs. *)
Lemma crc_bitwise_block s x y :
  in_u 32 s -> String.length x = String.length y -> (String.length x <= 4)%nat ->
  crc_bitwise x s = crc_bitwise y s -> x = y.
Proof.
  intros Hs Hl H4. rewrite !crc_bitwise_word, Hl. intros He.
  assert (forall z, (String.length z <= 4)%nat -> in_u 32 (Z.lxor s (crc_word z))) as Hw.
  { intros z Hz. apply lxor_range; [lia|done|]. pose proof (crc_word_range z) as [Hz1 Hz2].
    split; [done|]. eapply Z.lt_le_trans; [exact Hz2|]. apply Z.pow_le_mono_r; lia. }
  apply crc_shift_inj in He; [|apply Hw; lia..]. rewrite !(Z.lxor_comm s) in He.
  by apply lxor_cancel_r, crc_word_inj in He.
Qed.

(** The checksum is the CRC-32 and catches every local corruption. The
    table-driven loop computes the bitwise CRC, whether or not the table was
    initialised before, and the result is a 32-bit number; it is computed
    piece by piece over a concatenation; and two payloads that differ only
    within four consecutive bytes never have the same checksum. *)
Theorem Crc32_detects (t : CrcTable) :
  crc_table_ok t ->
  (forall data, Crc32 data t =
     (Z.lxor (crc_bitwise data 0xFFFFFFFF) 0xFFFFFFFF, InitCrc32Table CrcTable_static) /\
     in_u 32 (fst (Crc32 data t))) /\
  (forall a b, fst (Crc32 (a +:+ b) t) =
     Z.lxor (crc_bitwise b (Z.lxor (fst (Crc32 a t)) 0xFFFFFFFF)) 0xFFFFFFFF) /\
  (forall pre x y post, String.length x = String.length y -> (String.length x <= 4)%nat -> x <> y ->
     fst (Crc32 (pre +:+ x +:+ post) t) <> fst (Crc32 (pre +:+ y +:+ post) t)).
Proof.
  intros Ht. assert (in_u 32 0xFFFFFFFF) as Hf by (unfold in_u; lia). split; [|split].
  - intros data. rewrite Crc32_bitwise by done. split; [done|].
    apply lxor_range; [lia|by apply crc_bitwise_range|done].
  - intros a b. rewrite !Crc32_bitwise by done. cbn [fst].
    by rewrite Z.lxor_assoc, Z.lxor_nilpotent, Z.lxor_0_r, crc_bitwise_app.
  - intros pre x y post Hl H4 Hxy. rewrite !Crc32_bitwise by done. cbn [fst]. intros He.
    rewrite !crc_bitwise_app in He. apply lxor_cancel_r in He.
    apply crc_bitwise_inj in He; [|by do 2 apply crc_bitwise_range..].
    apply Hxy. by eapply crc_bitwise_block, He; [apply crc_bitwise_range|..].
Qed.

(** The standard check value. *)
Example Crc32_check : fst (Crc32 "123456789" CrcTable_static) = 0xCBF43926.
Proof. vm_compute. reflexivity. Qed.

Lemma Crc32_detects_witness :
  crc_table_ok CrcTable_static /\
  fst (Crc32 ("queue-" +:+ "1234" +:+ "") CrcTable_static)
    <> fst (Crc32 ("queue-" +:+ "1243" +:+ "") CrcTable_static).
Proof.
  split; [by left|].
  apply (proj2 (proj2 (Crc32_detects CrcTable_static (or_introl eq_refl)))
           "queue-"%string "1234"%string "1243"%string EmptyString); [reflexivity|cbn; lia|discriminate].
Defined.
