(* ===== verification/Engine.v ===== *)
(** * The burn-in engine

    Models the run control of burnin/engine/engine.cc: [StartRun], [StopRun],
    the thread that executes [RunLoop] and the destructor, called from the
    handler threads of an HTTP server. A step is one critical section, one
    atomic access or one stretch of unsynchronised code of a call in flight;
    the calls in flight are part of the state. Of the workers and the
    report, which are in Worker, RunPlan and Report, only that creating,
    starting, stopping and reporting can throw is modelled here. The members [StartRun] writes without
    the lock are written in one step, and the test and the join of the old
    thread are one step. *)

From Stdlib Require Import ZArith Lia Ascii String.
From S2P Require Import Prelude Automaton.

Local Open Scope string_scope.

Inductive EngineState :=
  | kStateIdle | kStateStarting | kStateRunning | kStateStopping | kStateStopped | kStateError.

#[export] Instance EngineState_eq_dec : EqDecision EngineState.
Proof. solve_decision. Defined.

Definition engine_state_name (s : EngineState) : string :=
  match s with
  | kStateIdle => "idle" | kStateStarting => "starting" | kStateRunning => "running"
  | kStateStopping => "stopping" | kStateStopped => "stopped" | kStateError => "error"
  end.

(** Where [RunLoop] is. *)
Inductive loop_pc :=
  | LCreate | LMark | LSetRunning | LStartWorkers | LTestStop | LTestDuration | LSleep
  | LStopWorkers | LReport | LSetStopped | LCatch | LReturned.

(** Where a call of [StartRun] that passed its test is. *)
Inductive start_pc := SSetStarting | SWrite | SJoin | SThread.

Inductive engine_life := EAlive | EDestroying | EDestroyed | ETerminated.

Record Engine := mkEngine {
  e_state : EngineState;
  e_run_id : string;
  e_stop_requested : bool;
  e_has_report : bool;
  e_run_error : bool;               (* run_error_ is not empty *)
  e_thread : option loop_pc;        (* None: run_thread_ is not joinable *)
  e_starts : list start_pc;         (* calls of StartRun in flight *)
  e_stops : nat;                    (* calls of StopRun before their store *)
  e_life : engine_life
}.

Definition Engine_new : Engine := mkEngine kStateIdle "" false false false None [] 0 EAlive.

(** ** The calls *)

Inductive engine_input :=
  | IStartCheck                       (* StartRun: the test under the lock *)
  | IStart (i : nat) (run_id : string) (* the next step of the i-th call in flight *)
  | IStartFails (i : nat)             (* its last step: the thread cannot be made, std::system_error *)
  | IStopCheck                        (* StopRun: the test and kStateStopping *)
  | IStopFlag                         (* StopRun: stop_requested_ *)
  | ICleanup                          (* CleanupChannels *)
  | ILoop (ok : bool)                 (* the next step of RunLoop; it may throw, or tell the time *)
  | IDestroy
  | IDestroyJoin.

Inductive engine_output :=
  | OStarted (run_id : string)
  | ORefused (error : string)
  | OStartFailed                      (* the exception, which the server answers *)
  | OStopping
  | OCleanup (done : bool)
  | OEngineTerminates.

Definition with_state (x : EngineState) (e : Engine) : Engine :=
  mkEngine x (e_run_id e) (e_stop_requested e) (e_has_report e) (e_run_error e) (e_thread e)
    (e_starts e) (e_stops e) (e_life e).
Definition with_loop (p : option loop_pc) (e : Engine) : Engine :=
  mkEngine (e_state e) (e_run_id e) (e_stop_requested e) (e_has_report e) (e_run_error e) p
    (e_starts e) (e_stops e) (e_life e).
Definition with_starts (l : list start_pc) (e : Engine) : Engine :=
  mkEngine (e_state e) (e_run_id e) (e_stop_requested e) (e_has_report e) (e_run_error e) (e_thread e)
    l (e_stops e) (e_life e).

(** The states a run can be started, or the channels cleaned up, in. *)
Definition may_start (x : EngineState) : bool :=
  match x with kStateIdle | kStateStopped | kStateError => true | _ => false end.

Definition StartRun_check (e : Engine) : Engine * list engine_output :=
  if may_start (e_state e) then (with_starts (e_starts e ++ [SSetStarting]) e, [])
  else (e, [ORefused ("cannot start: current state is " +:+ engine_state_name (e_state e))]).

(** The rest of [StartRun], step by step; the join waits for [RunLoop]. *)
Definition StartRun_step (i : nat) (run_id : string) (e : Engine)
    : option (Engine * list engine_output) :=
  match e_starts e !! i with
  | None => None
  | Some SSetStarting =>
      Some (with_starts (<[i := SWrite]> (e_starts e)) (with_state kStateStarting e), [])
  | Some SWrite =>
      Some (mkEngine (e_state e) run_id false false false (e_thread e) (<[i := SJoin]> (e_starts e))
              (e_stops e) (e_life e), [])
  | Some SJoin =>
      match e_thread e with
      | None | Some LReturned =>
          Some (with_starts (<[i := SThread]> (e_starts e)) (with_loop None e), [])
      | Some _ => None
      end
  | Some SThread =>
      match e_thread e with
      | None => Some (with_starts (delete i (e_starts e)) (with_loop (Some LCreate) e),
                      [OStarted (e_run_id e)])
      | Some _ =>
          Some (mkEngine (e_state e) (e_run_id e) (e_stop_requested e) (e_has_report e) (e_run_error e)
                  (e_thread e) (delete i (e_starts e)) (e_stops e) ETerminated, [OEngineTerminates])
      end
  end.

(** The exception leaves [StartRun], and the state as it is. *)
Definition StartRun_fails (i : nat) (e : Engine) : option (Engine * list engine_output) :=
  match e_starts e !! i with
  | Some SThread => Some (with_starts (delete i (e_starts e)) e, [OStartFailed])
  | _ => None
  end.

Definition StopRun_check (e : Engine) : Engine * list engine_output :=
  match e_state e with
  | kStateRunning | kStateStarting =>
      (mkEngine kStateStopping (e_run_id e) (e_stop_requested e) (e_has_report e) (e_run_error e)
         (e_thread e) (e_starts e) (S (e_stops e)) (e_life e), [])
  | x => (e, [ORefused ("cannot stop: current state is " +:+ engine_state_name x)])
  end.

Definition StopRun_flag (e : Engine) : option (Engine * list engine_output) :=
  match e_stops e with
  | O => None
  | S n => Some (mkEngine (e_state e) (e_run_id e) true (e_has_report e) (e_run_error e) (e_thread e)
                   (e_starts e) n (e_life e), [OStopping])
  end.

Definition CleanupChannels (e : Engine) : list engine_output := [OCleanup (may_start (e_state e))].

(** [RunLoop]. [ok] tells whether the step threw, or for the duration test
    whether the time is up. *)
Definition RunLoop_step (ok : bool) (e : Engine) : option Engine :=
  let next p := Some (with_loop (Some p) e) in
  match e_thread e with
  | Some LCreate => next (if ok then LMark else LCatch)
  | Some LMark => next LSetRunning
  | Some LSetRunning => Some (with_loop (Some LStartWorkers) (with_state kStateRunning e))
  | Some LStartWorkers => next (if ok then LTestStop else LCatch)
  | Some LTestStop => next (if e_stop_requested e then LStopWorkers else LTestDuration)
  | Some LTestDuration => next (if ok then LStopWorkers else LSleep)
  | Some LSleep => next LTestStop
  | Some LStopWorkers => next (if ok then LReport else LCatch)
  | Some LReport =>
      if ok then Some (mkEngine (e_state e) (e_run_id e) (e_stop_requested e) true (e_run_error e)
                         (Some LSetStopped) (e_starts e) (e_stops e) (e_life e))
      else next LCatch
  | Some LSetStopped => Some (with_loop (Some LReturned) (with_state kStateStopped e))
  | Some LCatch =>
      Some (mkEngine kStateError (e_run_id e) (e_stop_requested e) (e_has_report e) true (Some LReturned)
              (e_starts e) (e_stops e) (e_life e))
  | Some LReturned | None => None
  end.

Definition Engine_destroy (e : Engine) : option Engine :=
  match e_starts e, e_stops e with
  | [], O =>
      Some (match e_thread e with
            | None => mkEngine (e_state e) (e_run_id e) (e_stop_requested e) (e_has_report e)
                        (e_run_error e) None [] 0 EDestroyed
            | Some p => mkEngine (e_state e) (e_run_id e) true (e_has_report e) (e_run_error e)
                          (Some p) [] 0 EDestroying
            end)
  | _, _ => None
  end.

Definition engine_step (e : Engine) (i : engine_input) : option (Engine * list engine_output) :=
  let quiet := option_map (fun e' => (e', [])) in
  match e_life e, i with
  | EAlive, IStartCheck => Some (StartRun_check e)
  | EAlive, IStart n run_id => StartRun_step n run_id e
  | EAlive, IStartFails n => StartRun_fails n e
  | EAlive, IStopCheck => Some (StopRun_check e)
  | EAlive, IStopFlag => StopRun_flag e
  | EAlive, ICleanup => Some (e, CleanupChannels e)
  | EAlive, IDestroy => quiet (Engine_destroy e)
  | (EAlive | EDestroying), ILoop ok => quiet (RunLoop_step ok e)
  | EDestroying, IDestroyJoin =>
      match e_thread e with
      | Some LReturned =>
          Some (mkEngine (e_state e) (e_run_id e) (e_stop_requested e) (e_has_report e) (e_run_error e)
                  None [] 0 EDestroyed, [])
      | _ => None
      end
  | _, _ => None
  end.

Definition engine_run := run engine_step Engine_new.

(** A call of [StartRun] that begins while another is in flight, or that
    cannot make its thread. *)
Definition disorderly (e : Engine) (i : engine_input) : bool :=
  match i, e_starts e with
  | IStartCheck, _ :: _ | IStartFails _, _ => true
  | _, _ => false
  end.

(** The runs in which calls of [StartRun] do not overlap and make their thread. *)
Definition serial_step (e : Engine) (i : engine_input) : option (Engine * list engine_output) :=
  if disorderly e i then None else engine_step e i.

Definition serial_run := run serial_step Engine_new.

(** ** Invariant of the serial runs *)

Definition loop_live (e : Engine) : bool :=
  match e_thread e with None | Some LReturned => false | Some _ => true end.

(** What a call in flight, if any, knows of the rest. *)
Definition engine_inv (e : Engine) : Prop :=
  e_life e <> ETerminated /\
  match e_starts e with
  | [] => loop_live e = negb (may_start (e_state e))
  | [SSetStarting] => e_life e = EAlive /\ loop_live e = false /\ may_start (e_state e) = true
  | [SWrite] | [SJoin] => e_life e = EAlive /\ loop_live e = false /\ may_start (e_state e) = false
  | [SThread] => e_life e = EAlive /\ e_thread e = None /\ may_start (e_state e) = false
  | _ => False
  end.

(** A call in flight that does its step is the only one. *)
Lemma engine_start_only e i p :
  engine_inv e -> e_starts e !! i = Some p -> i = O /\ e_starts e = [p].
Proof.
  unfold engine_inv. intros [_ Hi] Hp. destruct (e_starts e) as [|q [|q' l]]; [done| |by destruct q].
  destruct i; [|done]. injection Hp as <-. done.
Qed.

Lemma engine_inv_start e i run_id e' o :
  engine_inv e -> StartRun_step i run_id e = Some (e', o) -> engine_inv e'.
Proof.
  intros Hi Hs. unfold StartRun_step in Hs. destruct (e_starts e !! i) as [p|] eqn:Hp; [|done].
  destruct (engine_start_only e i p Hi Hp) as [-> He]. unfold engine_inv, loop_live in *.
  rewrite He in Hi, Hs. destruct Hi as [Hl Hi], e as [x rid st hr er th ss sp li]; cbn in *. subst ss.
  destruct p; cbn in *; destruct Hi as (-> & Ht & Hx).
  - by injection Hs as <- <-.
  - by injection Hs as <- <-.
  - destruct th as [[]|]; simplify_eq/=; done.
  - subst th. injection Hs as <- <-. cbn. by rewrite Hx.
Qed.

(** [RunLoop] leaves the busy states exactly when it returns. *)
Lemma RunLoop_step_inv ok e e' :
  RunLoop_step ok e = Some e' ->
  loop_live e = true /\ e_starts e' = e_starts e /\ e_life e' = e_life e /\
  (may_start (e_state e) = false -> loop_live e' = negb (may_start (e_state e'))).
Proof.
  unfold RunLoop_step, loop_live. intros Hs. destruct e as [x rid st hr er th ss sp li]; cbn in *.
  destruct th as [[]|]; cbn in *; try done; repeat (case_match; simplify_eq/=);
    simplify_eq/=; (split; [done|split; [done|split; [done|intros ->; done]]]) || done.
Qed.

Lemma engine_inv_loop ok e e' : engine_inv e -> RunLoop_step ok e = Some e' -> engine_inv e'.
Proof.
  intros Hi (Hl & Hs & He & Hm)%RunLoop_step_inv. unfold engine_inv in *. rewrite Hs, He.
  destruct Hi as [Hn Hi]. split; [done|]. destruct (e_starts e) as [|p [|]]; [|destruct p|done].
  - apply Hm. rewrite Hl in Hi. by destruct (may_start (e_state e)).
  - destruct Hi as (_ & Hf & _). congruence.
  - destruct Hi as (_ & Hf & _). congruence.
  - destruct Hi as (_ & Hf & _). congruence.
  - unfold loop_live in Hl. destruct Hi as (_ & Hf & _). by rewrite Hf in Hl.
Qed.

Lemma engine_inv_stop e : engine_inv e -> engine_inv (fst (StopRun_check e)).
Proof.
  unfold engine_inv, StopRun_check, loop_live. intros [Hn Hi]. destruct (e_state e) eqn:Ex; try done; cbn;
    (split; [done|]); rewrite ?Ex; by destruct (e_starts e) as [|[] [|]]; cbn in *; intuition congruence.
Qed.

Lemma engine_inv_check e :
  engine_inv e -> e_life e = EAlive -> e_starts e = [] -> engine_inv (fst (StartRun_check e)).
Proof.
  unfold StartRun_check. intros Hi Hl Hs. destruct (may_start (e_state e)) eqn:Hm; [|done].
  unfold engine_inv, loop_live in *. rewrite Hs in Hi. cbn. rewrite Hs, Hm. cbn.
  destruct Hi as [Hn Hi]. by rewrite Hi, Hm.
Qed.

Lemma serial_step_step e i r : serial_step e i = Some r -> engine_step e i = Some r.
Proof. unfold serial_step. by destruct (disorderly e i). Qed.

Lemma engine_inv_serial e i e' o : engine_inv e -> serial_step e i = Some (e', o) -> engine_inv e'.
Proof.
  intros Hi Hs. pose proof (serial_step_step _ _ _ Hs) as Hs'.
  unfold engine_step in Hs'. destruct i as [|n r|n| | | |ok| |].
  - destruct (e_life e) eqn:El; try done. unfold serial_step, disorderly in Hs.
    destruct (e_starts e) eqn:Es; [|done]. injection Hs' as Hs'.
    pose proof (engine_inv_check e Hi El Es) as Hc. by rewrite Hs' in Hc.
  - destruct (e_life e); try done. by eapply engine_inv_start.
  - done.
  - destruct (e_life e); try done. injection Hs' as Hs'.
    pose proof (engine_inv_stop e Hi) as Hc. by rewrite Hs' in Hc.
  - destruct (e_life e) eqn:El; try done. unfold StopRun_flag in Hs'. destruct (e_stops e); [done|].
    injection Hs' as <- <-. exact Hi.
  - destruct (e_life e); try done. by injection Hs' as <- <-.
  - assert (RunLoop_step ok e = Some e') as Hl.
    { destruct (e_life e), (RunLoop_step ok e); simplify_eq/=; done. }
    by eapply engine_inv_loop.
  - destruct (e_life e) eqn:El; try done. unfold Engine_destroy in Hs'.
    destruct (e_starts e) eqn:Es; [|done]. destruct (e_stops e); [|done].
    unfold engine_inv, loop_live in *. rewrite Es in Hi. destruct Hi as [_ Hi].
    destruct (e_thread e) eqn:Et; cbn in Hs'; injection Hs' as <- <-; cbn; by rewrite Hi.
  - destruct (e_life e) eqn:El; try done. destruct (e_thread e) as [[]|] eqn:Et; try done.
    injection Hs' as <- <-. unfold engine_inv, loop_live in *. rewrite El, Et in Hi. cbn.
    split; [done|]. destruct Hi as [_ Hi]. by destruct (e_starts e) as [|[] [|]]; intuition.
Qed.

Lemma engine_inv_run ins e outs : serial_run ins = Some (e, outs) -> engine_inv e.
Proof.
  apply (run_invariant serial_step Engine_new engine_inv); [|intros; by eapply engine_inv_serial].
  by unfold engine_inv.
Qed.

(** ** Stopping *)

Definition is_loop_step (i : engine_input) : bool := match i with ILoop _ => true | _ => false end.
Definition loop_steps (ins : list engine_input) : nat := length (List.filter is_loop_step ins).

(** Steps [RunLoop] can still take once a stop is requested. *)
Definition loop_distance (e : Engine) : nat :=
  match e_thread e with
  | Some LCreate => 8 | Some LMark => 7 | Some LSetRunning => 6 | Some LStartWorkers => 5
  | Some LTestStop => 4 | Some LTestDuration => 6 | Some LSleep => 5
  | Some LStopWorkers => 3 | Some LReport => 2 | Some (LSetStopped | LCatch) => 1
  | Some LReturned | None => 0
  end.

Definition stop_pending (e : Engine) : Prop :=
  engine_inv e /\ e_stop_requested e = true /\ e_starts e = [].

Lemma RunLoop_step_distance ok e e' :
  RunLoop_step ok e = Some e' -> e_stop_requested e = true ->
  e_stop_requested e' = true /\ (S (loop_distance e') <= loop_distance e)%nat.
Proof.
  unfold RunLoop_step, loop_distance. intros Hs Hf. destruct e as [x rid st hr er th ss sp li]; cbn in *.
  subst st. destruct th as [[]|]; cbn in *; try done; destruct ok; simplify_eq/=; split; done || lia.
Qed.

Lemma stop_pending_step e i e' o :
  stop_pending e -> i <> IStartCheck -> engine_step e i = Some (e', o) ->
  stop_pending e' /\ (loop_distance e' + (if is_loop_step i then 1 else 0) <= loop_distance e)%nat.
Proof.
  intros (Hi & Hf & He) Hn Hs.
  assert (engine_inv e') as Hi'.
  { destruct (disorderly e i) eqn:Hd; [|apply (engine_inv_serial e i e' o Hi); unfold serial_step; by rewrite Hd].
    unfold disorderly in Hd. destruct i; try done.
    exfalso. unfold engine_step, StartRun_fails in Hs. rewrite He in Hs. by destruct (e_life e). }
  enough ((e_stop_requested e' = true /\ e_starts e' = []) /\
          (loop_distance e' + (if is_loop_step i then 1 else 0) <= loop_distance e)%nat)
    as [[? ?] ?] by (by split; [split; [|split]|]).
  unfold engine_step in Hs. destruct i as [|n r|n| | | |ok| |]; [done|..]; cbn [is_loop_step].
  - unfold StartRun_step in Hs. rewrite He in Hs. by destruct (e_life e).
  - unfold StartRun_fails in Hs. rewrite He in Hs. by destruct (e_life e).
  - destruct (e_life e); try done. unfold StopRun_check in Hs.
    destruct (e_state e); simplify_eq/=; unfold loop_distance; cbn; (split; [done|lia]).
  - destruct (e_life e); try done. unfold StopRun_flag in Hs.
    destruct (e_stops e); simplify_eq/=; unfold loop_distance; cbn; (split; [done|lia]).
  - destruct (e_life e); simplify_eq/=; (split; [done|lia]).
  - assert (RunLoop_step ok e = Some e') as Hl.
    { destruct (e_life e), (RunLoop_step ok e); simplify_eq/=; done. }
    destruct (RunLoop_step_distance ok e e' Hl Hf). destruct (RunLoop_step_inv ok e e' Hl) as (_ & Hs' & _).
    split; [split; congruence|lia].
  - destruct (e_life e); try done. unfold Engine_destroy in Hs. rewrite He in Hs.
    destruct (e_stops e); [|done]. unfold loop_distance.
    destruct (e_thread e); simplify_eq/=; (split; [done|lia]).
  - destruct (e_life e); try done. unfold loop_distance.
    destruct (e_thread e) as [[]|]; simplify_eq/=; (split; [done|lia]).
Qed.

Lemma stop_pending_run e ins e' outs :
  stop_pending e -> IStartCheck ∉ ins -> run engine_step e ins = Some (e', outs) ->
  stop_pending e' /\ (loop_distance e' + loop_steps ins <= loop_distance e)%nat.
Proof.
  revert e outs. induction ins as [|i ins IH]; intros e outs Hp Hn Hr; cbn in Hr.
  { injection Hr as <- <-. split; [done|]. unfold loop_steps. cbn. lia. }
  apply not_elem_of_cons in Hn as [Hi Hn].
  destruct (engine_step e i) as [[e1 o1]|] eqn:Es; [|done].
  destruct (run engine_step e1 ins) as [[e2 o2]|] eqn:Er; [|done]. injection Hr as <- <-.
  destruct (stop_pending_step e i e1 o1 Hp ltac:(done) Es) as [Hp1 Hd].
  destruct (IH e1 o2 Hp1 Hn Er) as [Hp2 Hd2]. split; [done|].
  unfold loop_steps in *. cbn. destruct (is_loop_step i); cbn; lia.
Qed.

Lemma loop_live_enabled e :
  engine_inv e -> loop_live e = true -> e_starts e = [] -> e_life e <> EDestroyed ->
  exists e', engine_step e (ILoop true) = Some (e', []).
Proof.
  intros [Hn _] Hl _ Hd. unfold engine_step, RunLoop_step, loop_live in *.
  destruct (e_life e), (e_thread e) as [[]|]; cbn; eauto; done.
Qed.

(** A destroyed engine has no thread. *)
Definition destroyed_inv (e : Engine) : Prop := e_life e = EDestroyed -> e_thread e = None.

Lemma destroyed_inv_step e i e' o :
  destroyed_inv e -> engine_step e i = Some (e', o) -> destroyed_inv e'.
Proof.
  unfold destroyed_inv. intros Hd Hs. destruct (e_life e) eqn:El.
  3,4: by unfold engine_step in Hs; rewrite El in Hs.
  - assert (RunLoop_step (match i with ILoop ok => ok | _ => true end) e = Some e' -> e_life e' <> EDestroyed)
      as Hlive.
    { intros (_ & _ & -> & _)%RunLoop_step_inv. congruence. }
    unfold engine_step, StartRun_check, StartRun_step, StartRun_fails, StopRun_check, StopRun_flag, Engine_destroy in Hs.
    rewrite El in Hs. destruct i; try done; repeat (case_match; simplify_eq/=);
      unfold with_starts, with_state, with_loop; cbn; try congruence.
    destruct (RunLoop_step ok e); simplify_eq/=. intros Hd'. by destruct (Hlive eq_refl).
  - unfold engine_step in Hs. rewrite El in Hs. destruct i as [| | | | | |ok| |]; try done.
    + destruct (RunLoop_step ok e) as [e1|] eqn:Hl; [|done]. injection Hs as <- <-.
      apply RunLoop_step_inv in Hl as (_ & _ & -> & _). congruence.
    + destruct (e_thread e) as [[]|]; simplify_eq/=. done.
Qed.

(** *** A thread that cannot be made *)

(** The state a failed [StartRun] leaves. *)
Definition stuck (e : Engine) : Prop :=
  e_starts e = [] /\ e_thread e = None /\ may_start (e_state e) = false.

Definition starts_run (o : engine_output) : bool := match o with OStarted _ => true | _ => false end.

Lemma stuck_step e i e' o :
  stuck e -> engine_step e i = Some (e', o) -> stuck e' /\ existsb starts_run o = false.
Proof.
  unfold stuck. intros (Hs & Ht & Hm) Hst.
  unfold engine_step, StartRun_check, StartRun_step, StartRun_fails, StopRun_check, StopRun_flag, RunLoop_step,
    Engine_destroy in Hst. destruct e as [x rid st hr er th ss sp li]; cbn in *. subst th ss.
  destruct li, i; try done; cbn in Hst; rewrite ?Hm in Hst; repeat (case_match; simplify_eq/=);
    first [done|by injection Hst as <- <-].
Qed.

Lemma stuck_run e ins e' outs :
  stuck e -> run engine_step e ins = Some (e', outs) -> stuck e' /\ existsb starts_run outs = false.
Proof.
  intros Hs. revert ins e' outs.
  apply (run_ind engine_step e (fun e _ outs => stuck e /\ existsb starts_run outs = false)); [done|].
  intros s ins outs i s' o _ [Hi Ho] Hst. destruct (stuck_step _ _ _ _ Hi Hst) as [Hi' Ho']. split; [done|].
  by rewrite existsb_app, Ho, Ho'.
Qed.

(** C12: the engine's run control. While calls of [StartRun] do not overlap
    and can make their thread, in every interleaving with [StopRun], the run thread and the destructor:
    the process is not terminated; when no call is in flight the state is
    starting, running or stopping exactly while a run goes on; and once a stop
    is requested, by [StopRun] or the destructor, the run takes at most eight
    more steps, can always take the next, and ends stopped or in error. But a
    [StopRun] that overlaps a [StartRun] can succeed and be lost, the run
    going on as if never stopped; two overlapping [StartRun] can both pass
    their test and end the process; and a [StartRun] whose thread cannot be made
    leaves an engine that never starts a run again. *)
Theorem engine_run_control :
  (forall ins e outs, serial_run ins = Some (e, outs) ->
     e_life e <> ETerminated /\
     (e_starts e = [] -> loop_live e = negb (may_start (e_state e))) /\
     (e_stop_requested e = true -> e_starts e = [] ->
      forall ins' e' outs', IStartCheck ∉ ins' -> run engine_step e ins' = Some (e', outs') ->
        (loop_steps ins' <= 8)%nat /\
        (loop_live e' = true -> exists e2, engine_step e' (ILoop true) = Some (e2, [])) /\
        (loop_live e' = false -> may_start (e_state e') = true))) /\
  (exists ins e, serial_run ins = Some (e, [OStopping; OStarted "r"]) /\
     e_state e = kStateRunning /\ e_stop_requested e = false /\ loop_live e = true) /\
  (exists ins e, engine_run ins = Some (e, [OStarted "b"; OEngineTerminates]) /\ e_life e = ETerminated) /\
  (exists ins e, engine_run ins = Some (e, [OStartFailed]) /\
     forall ins' e' outs', run engine_step e ins' = Some (e', outs') ->
       may_start (e_state e') = false /\ existsb starts_run outs' = false).
Proof.
  split; [|split; [|split]].
  - intros ins e outs Hr. pose proof (engine_inv_run ins e outs Hr) as Hi.
    split; [apply Hi|]. split; [intros Hs; destruct Hi as [_ Hi]; by rewrite Hs in Hi|].
    intros Hf Hs ins' e' outs' Hn Hr'.
    destruct (stop_pending_run e ins' e' outs' ltac:(done) Hn Hr') as [(Hi' & Hf' & Hs') Hd].
    assert (loop_distance e <= 8)%nat by (unfold loop_distance; destruct (e_thread e) as [[]|]; lia).
    assert (destroyed_inv e) as Hde.
    { eapply (run_invariant serial_step Engine_new destroyed_inv); [done| |exact Hr].
      intros. eapply destroyed_inv_step; [eassumption|]. by apply serial_step_step. }
    assert (destroyed_inv e') as Hde'.
    { eapply (run_invariant engine_step e destroyed_inv); [done| |exact Hr'].
      intros. by eapply destroyed_inv_step. }
    split; [lia|]. split.
    { intros Hl. apply loop_live_enabled; [done..|]. intros He%Hde'. unfold loop_live in Hl.
      by rewrite He in Hl. }
    intros Hl. destruct Hi' as [_ Hi']. rewrite Hs', Hl in Hi'. by destruct (may_start (e_state e')).
  - exists [IStartCheck; IStart 0 "r"; IStopCheck; IStopFlag; IStart 0 "r"; IStart 0 "r"; IStart 0 "r";
            ILoop true; ILoop true; ILoop true; ILoop true; ILoop true; ILoop false].
    eexists. split; [vm_compute; reflexivity|]. done.
  - exists [IStartCheck; IStartCheck; IStart 0 "a"; IStart 1 "b"; IStart 0 "a"; IStart 1 "b"; IStart 0 "a";
            IStart 1 "b"; IStart 0 "a"; IStart 0 "b"].
    eexists. split; [vm_compute; reflexivity|]. done.
  - exists [IStartCheck; IStart 0 "a"; IStart 0 "a"; IStart 0 "a"; IStartFails 0].
    eexists. split; [vm_compute; reflexivity|]. intros ins' e' outs' Hr.
    by apply stuck_run in Hr as [(_ & _ & Hm) Ho].
Qed.
