(* ===== verification/Json.v ===== *)
(** * JSON values

    What the burn-in application uses of nlohmann::json, as a class: the
    member access and the conversions that can throw, the constructors of its
    literals, and the documented laws that relate them. A tree of values is an
    instance. *)

From Stdlib Require Import ZArith Lia Ascii String Floats.
From S2P Require Import Prelude.

Local Open Scope string_scope.

(** [inr] carries the [what()] of the exception. *)
Class JsonValues := {
  jvalue : Type;
  jv_parse : string -> jvalue + string;
  jv_is_object : jvalue -> bool;
  jv_is_string : jvalue -> bool;
  jv_member : jvalue -> string -> option jvalue;   (* None: not an object, or no such key *)
  jv_members : jvalue -> list (string * jvalue) + string;
  jv_get_string : jvalue -> string + string;
  jv_as_double : jvalue -> option float;           (* the value of a number_float *)
  jv_get_int : jvalue -> Z + string;               (* of any other kind of value *)
  jv_get_bool : jvalue -> bool + string;
  jv_value_u64 : jvalue -> string -> Z -> Z + string;   (* value(key, default) *)
  jv_null : jvalue;
  jv_string : string -> jvalue;
  jv_number : Z -> jvalue;
  jv_double : float -> jvalue;
  jv_bool : bool -> jvalue;
  jv_array : list jvalue -> jvalue;
  jv_object : list (string * jvalue) -> jvalue;
  jv_set : jvalue -> string -> jvalue -> jvalue         (* j[key] = v, of an object or null *)
}.

(** The first binding of a key: the literals of the sources have each once. *)
Fixpoint assoc {A} (k : string) (l : list (string * A)) : option A :=
  match l with
  | [] => None
  | (k', a) :: l' => if String.eqb k k' then Some a else assoc k l'
  end.

Lemma assoc_list_to_map {A} (l : list (string * A)) k :
  (list_to_map l : gmap string A) !! k = assoc k l.
Proof.
  induction l as [|[k' a] l IH]; cbn; [apply lookup_empty|].
  destruct (String.eqb_spec k k') as [->|Hk]; [apply lookup_insert_eq|].
  by rewrite lookup_insert_ne.
Qed.

(** A list with distinct keys is known by its bindings. *)
Lemma assoc_ext_permutation {A} (l l' : list (string * A)) :
  NoDup l.*1 -> NoDup l'.*1 -> (forall k, assoc k l = assoc k l') -> l ≡ₚ l'.
Proof.
  intros Hl Hl' He. rewrite <- (map_to_list_to_map (M := gmap string) l Hl).
  rewrite <- (map_to_list_to_map (M := gmap string) l' Hl').
  replace (list_to_map l : gmap string A) with (list_to_map l' : gmap string A); [done|].
  apply map_eq. intros k. by rewrite !assoc_list_to_map.
Qed.

Class JsonLaws `{JsonValues} := {
  jv_is_object_object l : jv_is_object (jv_object l) = true;
  jv_member_object l k : NoDup l.*1 -> jv_member (jv_object l) k = assoc k l;
  jv_members_spec j : jv_is_object j = true ->
    exists l, jv_members j = inl l /\ NoDup l.*1 /\ forall k, assoc k l = jv_member j k;
  jv_member_null k : jv_member jv_null k = None;
  jv_member_set j k v k' : j = jv_null \/ jv_is_object j = true ->
    jv_member (jv_set j k v) k' = if String.eqb k' k then Some v else jv_member j k';
  jv_is_object_set j k v : j = jv_null \/ jv_is_object j = true -> jv_is_object (jv_set j k v) = true;
  jv_value_u64_spec j k d : jv_is_object j = true ->
    match jv_member j k with
    | None => jv_value_u64 j k d = inl d
    | Some v => forall z, v = jv_number z -> in_u 64 z -> jv_value_u64 j k d = inl z
    end;
  jv_get_string_string s : jv_get_string (jv_string s) = inl s;
  jv_as_double_number z : jv_as_double (jv_number z) = None;
  jv_as_double_double x : jv_as_double (jv_double x) = Some x;
  jv_get_int_number z : in_s 32 z -> jv_get_int (jv_number z) = inl z;
  jv_get_int_range j z : jv_get_int j = inl z -> in_s 32 z;
  jv_get_bool_bool b : jv_get_bool (jv_bool b) = inl b
}.

Lemma jv_members_object `{JsonLaws} l :
  NoDup l.*1 -> exists l', jv_members (jv_object l) = inl l' /\ l' ≡ₚ l.
Proof.
  intros Hl. destruct (jv_members_spec (jv_object l)) as (l' & Hm & Hn & Ha); [apply jv_is_object_object|].
  exists l'. split; [done|]. apply assoc_ext_permutation; [done..|].
  intros k. rewrite Ha. by apply jv_member_object.
Qed.

(** ** Trees *)

Inductive jtree :=
  | JNull | JBool (b : bool) | JNumber (z : Z) | JDouble (x : float) | JText (s : string)
  | JList (l : list jtree) | JObject (m : gmap string jtree).

(** Trees with any parser of texts; an object keeps its keys sorted. *)
Definition tree_members (j : jtree) : option (gmap string jtree) :=
  match j with JObject m => Some m | JNull => Some ∅ | _ => None end.

Definition tree_json (parse : string -> jtree + string) : JsonValues := {|
  jvalue := jtree;
  jv_parse := parse;
  jv_is_object j := match j with JObject _ => true | _ => false end;
  jv_is_string j := match j with JText _ => true | _ => false end;
  jv_member j k := match j with JObject m => m !! k | _ => None end;
  jv_members j := match j with JObject m => inl (map_to_list m) | _ => inr "type must be object" end;
  jv_get_string j := match j with JText s => inl s | _ => inr "type must be string" end;
  jv_as_double j := match j with JDouble x => Some x | _ => None end;
  jv_get_int j :=
    match j with
    | JNumber z => inl (wrap_s 32 z)
    | JBool b => inl (if b then 1%Z else 0%Z)
    | _ => inr "type must be number"
    end;
  jv_get_bool j := match j with JBool b => inl b | _ => inr "type must be boolean" end;
  jv_value_u64 j k d :=
    match j with
    | JObject m =>
        match m !! k with
        | Some (JNumber z) => inl (wrap_u 64 z)
        | Some _ => inr "type must be number"
        | None => inl d
        end
    | _ => inr "cannot use value() with this type"
    end;
  jv_null := JNull;
  jv_string := JText;
  jv_number := JNumber;
  jv_double := JDouble;
  jv_bool := JBool;
  jv_array := JList;
  jv_object l := JObject (list_to_map l);
  jv_set j k v := match tree_members j with Some m => JObject (<[k := v]> m) | None => j end
|}.

Lemma tree_json_laws parse : @JsonLaws (tree_json parse).
Proof.
  constructor; cbn; try done.
  - intros l k _. apply assoc_list_to_map.
  - intros j Hj. destruct j as [| | | | | |m]; try done. exists (map_to_list m).
    split; [done|]. split; [apply NoDup_fst_map_to_list|].
    intros k. by rewrite <- assoc_list_to_map, list_to_map_to_list.
  - intros j k v k' Hj. destruct j as [| | | | | |m]; try (by destruct Hj); cbn;
      (destruct (String.eqb_spec k' k) as [->|]; [by rewrite lookup_insert_eq|]);
      rewrite lookup_insert_ne by done; [apply lookup_empty|done].
  - intros j k v Hj. by destruct j; destruct Hj.
  - intros j k d Hj. destruct j as [| | | | | |m]; try done. destruct (m !! k); [|done].
    intros z -> Hz. by rewrite wrap_u_id.
  - intros z Hz. by rewrite wrap_s_id.
  - intros j z. destruct j; try done.
    + destruct b; intros [= <-]; unfold in_s; lia.
    + intros [= <-]. by apply wrap_s_range.
Qed.
