(* ===== verification/Config.v ===== *)
(** * The burn-in configuration

    Models burnin/config: the defaults, the duration syntax, the conversions
    to and from JSON and the two entry points [FromJson] and [ToJson]. The
    conversions from JSON can throw; the duration parser can overflow an
    [int], and a floating-point number can be outside the range of the [int]
    it is converted to, which are undefined: all are outcomes. The YAML reader is a
    library's and is an argument of what uses it (Main). *)

From Stdlib Require Import ZArith Lia Ascii String Floats.
From S2P Require Import Prelude Double Json.

Local Open Scope string_scope.
Local Open Scope Z_scope.

(** ** Outcomes *)

Inductive Parsed (A : Type) :=
  | POk (a : A)
  | PThrow (what : string)
  | PUndefined.
Arguments POk {A} _.
Arguments PThrow {A} _.
Arguments PUndefined {A}.

Definition parsed_bind {A B} (p : Parsed A) (k : A -> Parsed B) : Parsed B :=
  match p with POk a => k a | PThrow e => PThrow e | PUndefined => PUndefined end.

Definition parsed_of {A} (r : A + string) : Parsed A :=
  match r with inl a => POk a | inr e => PThrow e end.

Notation "'let*' x := p 'in' k" := (parsed_bind p (fun x => k))
  (at level 10, x pattern, p at level 100, k at level 200) : kubemq_scope.

Local Open Scope kubemq_scope.

(** ** Data *)

Record PatternConfig := mkPatternConfig {
  pc_enabled : bool;
  pc_channels : Z;
  pc_producers_per_channel : Z;
  pc_consumers_per_channel : Z;
  pc_consumer_group : bool;
  pc_senders_per_channel : Z;
  pc_responders_per_channel : Z;
  pc_rate : Z
}.

Record QueueConfig := mkQueueConfig {
  qc_poll_max_messages : Z;
  qc_poll_wait_timeout_seconds : Z;
  qc_auto_ack : bool
}.

Record Config := mkConfig {
  cf_broker_address : string;
  cf_client_id_prefix : string;
  cf_duration_seconds : Z;
  cf_warmup_seconds : Z;
  cf_run_id : string;
  cf_payload_size : Z;
  cf_patterns : gmap string PatternConfig;
  cf_queue : QueueConfig;
  cf_metrics_port : Z;
  cf_warnings : list string
}.

Definition kDefaultBrokerAddress : string := "localhost:50000".
Definition kDefaultClientIdPrefix : string := "cpp-burnin".
Definition kDefaultDurationSeconds : Z := 900.
Definition kDefaultWarmupSeconds : Z := 10.
Definition kDefaultHttpPort : Z := 8888.
Definition kDefaultPayloadSize : Z := 256.
Definition kChannelPrefix : string := "burnin.cpp.".

Definition PatternConfig_new : PatternConfig := mkPatternConfig true 1 1 1 false 1 1 50.
Definition QueueConfig_new : QueueConfig := mkQueueConfig 10 5 false.
Definition Config_new : Config :=
  mkConfig "localhost:50000" "cpp-burnin" 900 10 "" 256 ∅ QueueConfig_new 0 [].

(** The six patterns of the defaults, with their rates. *)
Definition default_pattern (rate : Z) : PatternConfig := mkPatternConfig true 1 1 1 false 1 1 rate.

Definition default_patterns : list (string * PatternConfig) :=
  [("events", default_pattern 100); ("events_store", default_pattern 50);
   ("queue_simple", default_pattern 50); ("queue_stream", default_pattern 50);
   ("commands", default_pattern 20); ("queries", default_pattern 20)].

(** [SetDefaults] overwrites the six patterns and keeps any other. *)
Definition SetDefaults (c : Config) : Config :=
  mkConfig kDefaultBrokerAddress kDefaultClientIdPrefix kDefaultDurationSeconds kDefaultWarmupSeconds
    (cf_run_id c) kDefaultPayloadSize
    (foldl (fun m kp => <[fst kp := snd kp]> m) (cf_patterns c) default_patterns)
    (mkQueueConfig 10 5 false) (cf_metrics_port c) (cf_warnings c).

(** ** Durations *)

Definition is_digit (c : ascii) : bool := (48 <=? nat_of_ascii c)%nat && (nat_of_ascii c <=? 57)%nat.
Definition digit_value (c : ascii) : Z := Z.of_nat (nat_of_ascii c) - 48.

(** An [int] result, undefined when it does not fit. *)
Definition int_result (z : Z) : option Z :=
  if bool_decide (in_s 32 z) then Some z else None.

(** The digits of the front, and what follows them. *)
Fixpoint duration_digits (value : Z) (s : string) : option (Z * string) :=
  match s with
  | String c s' =>
      if is_digit c then
        match int_result (value * 10 + digit_value c) with
        | Some value' => duration_digits value' s'
        | None => None
        end
      else Some (value, s)
  | EmptyString => Some (value, s)
  end.

Definition duration_unit (rest : string) : Z :=
  match rest with
  | String "s" _ => 1
  | String "m" _ => 60
  | String "h" _ => 3600
  | String "d" _ => 86400
  | _ => 1
  end.

Definition ParseDurationToSeconds (s : string) : option Z :=
  if str_empty s then Some 0
  else
    match duration_digits 0 s with
    | None => None
    | Some (value, rest) => int_result (value * duration_unit rest)
    end.

(** ** To JSON *)

Section json.
Context `{JsonValues}.

Definition to_json_PatternConfig (p : PatternConfig) : jvalue :=
  jv_object [("enabled", jv_bool (pc_enabled p)); ("channels", jv_number (pc_channels p));
             ("producers_per_channel", jv_number (pc_producers_per_channel p));
             ("consumers_per_channel", jv_number (pc_consumers_per_channel p));
             ("consumer_group", jv_bool (pc_consumer_group p));
             ("senders_per_channel", jv_number (pc_senders_per_channel p));
             ("responders_per_channel", jv_number (pc_responders_per_channel p));
             ("rate", jv_number (pc_rate p))].

Definition to_json_QueueConfig (q : QueueConfig) : jvalue :=
  jv_object [("poll_max_messages", jv_number (qc_poll_max_messages q));
             ("poll_wait_timeout_seconds", jv_number (qc_poll_wait_timeout_seconds q));
             ("auto_ack", jv_bool (qc_auto_ack q))].

(** The metrics port and the warnings are not written. *)
Definition to_json_Config (c : Config) : jvalue :=
  jv_object [("broker_address", jv_string (cf_broker_address c));
             ("client_id_prefix", jv_string (cf_client_id_prefix c));
             ("duration_seconds", jv_number (cf_duration_seconds c));
             ("warmup_seconds", jv_number (cf_warmup_seconds c));
             ("run_id", jv_string (cf_run_id c));
             ("payload_size", jv_number (cf_payload_size c));
             ("patterns", jv_object (map_to_list (to_json_PatternConfig <$> cf_patterns c)));
             ("queue", to_json_QueueConfig (cf_queue c))].

Definition ToJson (c : Config) : jvalue := to_json_Config c.

(** ** From JSON *)

(** [get<std::string>()] and [get<bool>()] *)
Definition get_string (j : jvalue) : Parsed string := parsed_of (jv_get_string j).
Definition get_bool (j : jvalue) : Parsed bool := parsed_of (jv_get_bool j).

(** [get<int>()]: a floating-point number is cast, which is undefined outside
    the range of [int]. *)
Definition get_int (j : jvalue) : Parsed Z :=
  match jv_as_double j with
  | Some x => match int32_of_double x with Some z => POk z | None => PUndefined end
  | None => parsed_of (jv_get_int j)
  end.

(** [if (j.contains(key)) j.at(key).get_to(field)]: the field keeps its value
    when the key is absent. *)
Definition get_to {A} (get : jvalue -> Parsed A) (j : jvalue) (key : string) (field : A) : Parsed A :=
  match jv_member j key with
  | Some v => get v
  | None => POk field
  end.

Definition from_json_PatternConfig (j : jvalue) (p : PatternConfig) : Parsed PatternConfig :=
  let* enabled := get_to get_bool j "enabled" (pc_enabled p) in
  let* channels := get_to get_int j "channels" (pc_channels p) in
  let* producers := get_to get_int j "producers_per_channel" (pc_producers_per_channel p) in
  let* consumers := get_to get_int j "consumers_per_channel" (pc_consumers_per_channel p) in
  let* consumer_group := get_to get_bool j "consumer_group" (pc_consumer_group p) in
  let* senders := get_to get_int j "senders_per_channel" (pc_senders_per_channel p) in
  let* responders := get_to get_int j "responders_per_channel" (pc_responders_per_channel p) in
  let* rate := get_to get_int j "rate" (pc_rate p) in
  POk (mkPatternConfig enabled channels producers consumers consumer_group senders responders rate).

Definition from_json_QueueConfig (j : jvalue) (q : QueueConfig) : Parsed QueueConfig :=
  let* max_messages := get_to get_int j "poll_max_messages" (qc_poll_max_messages q) in
  let* wait := get_to get_int j "poll_wait_timeout_seconds" (qc_poll_wait_timeout_seconds q) in
  let* auto_ack := get_to get_bool j "auto_ack" (qc_auto_ack q) in
  POk (mkQueueConfig max_messages wait auto_ack).

(** The map is built anew from the members, each on a fresh configuration. *)
Fixpoint from_json_members (l : list (string * jvalue)) : Parsed (list (string * PatternConfig)) :=
  match l with
  | [] => POk []
  | (k, j) :: l' =>
      let* p := from_json_PatternConfig j PatternConfig_new in
      let* ps := from_json_members l' in
      POk ((k, p) :: ps)
  end.

Definition from_json_patterns (j : jvalue) (ps : gmap string PatternConfig)
    : Parsed (gmap string PatternConfig) :=
  match jv_member j "patterns" with
  | None => POk ps
  | Some v =>
      let* members := parsed_of (jv_members v) in
      let* l := from_json_members members in
      POk (list_to_map l)
  end.

(** The member of a member, when the outer one is an object. *)
Definition nested (j : jvalue) (outer inner : string) : option jvalue :=
  match jv_member j outer with
  | Some v => if jv_is_object v then jv_member v inner else None
  | None => None
  end.

Definition parse_duration (j : jvalue) : Parsed Z :=
  let* s := get_string j in
  match ParseDurationToSeconds s with Some n => POk n | None => PUndefined end.

(** A nested setting, then the flat one, which wins. *)
Definition v2_broker (j : jvalue) (address : string) : Parsed string :=
  match nested j "broker" "address" with
  | Some v => get_string v
  | None => POk address
  end.

Definition v2_duration (j : jvalue) (seconds : Z) : Parsed Z :=
  match jv_member j "duration" with
  | Some v => if jv_is_string v then parse_duration v else POk seconds
  | None => POk seconds
  end.

Definition v2_warmup (j : jvalue) (seconds : Z) : Parsed Z :=
  match nested j "warmup" "warmup_duration" with
  | Some v => parse_duration v
  | None => POk seconds
  end.

Definition v2_size (j : jvalue) (size : Z) : Parsed Z :=
  match nested j "message" "size_bytes" with
  | Some v => get_int v
  | None => POk size
  end.

Definition from_json_Config (j : jvalue) (c0 : Config) : Parsed Config :=
  let c := SetDefaults c0 in
  let* broker := v2_broker j (cf_broker_address c) in
  let* broker := get_to get_string j "broker_address" broker in
  let* prefix := get_to get_string j "client_id_prefix" (cf_client_id_prefix c) in
  let* duration := v2_duration j (cf_duration_seconds c) in
  let* duration := get_to get_int j "duration_seconds" duration in
  let* warmup := v2_warmup j (cf_warmup_seconds c) in
  let* warmup := get_to get_int j "warmup_seconds" warmup in
  let* size := v2_size j (cf_payload_size c) in
  let* size := get_to get_int j "payload_size" size in
  let* run_id := get_to get_string j "run_id" (cf_run_id c) in
  let* patterns := from_json_patterns j (cf_patterns c) in
  let* queue :=
    match jv_member j "queue" with
    | Some v => from_json_QueueConfig v (cf_queue c)
    | None => POk (cf_queue c)
    end in
  POk (mkConfig broker prefix duration warmup run_id size patterns queue (cf_metrics_port c)
         (cf_warnings c)).

Definition with_warning (w : string) (c : Config) : Config :=
  mkConfig (cf_broker_address c) (cf_client_id_prefix c) (cf_duration_seconds c) (cf_warmup_seconds c)
    (cf_run_id c) (cf_payload_size c) (cf_patterns c) (cf_queue c) (cf_metrics_port c)
    (cf_warnings c ++ [w])%list.

(** Every exception of the library is caught and becomes a warning. *)
Definition FromJson (json_str : string) : Parsed Config :=
  let cfg := SetDefaults Config_new in
  if str_empty json_str then POk cfg
  else
    match let* j := parsed_of (jv_parse json_str) in from_json_Config j Config_new with
    | POk c => POk c
    | PThrow what => POk (with_warning ("JSON parse warning: " +:+ what) cfg)
    | PUndefined => PUndefined
    end.

End json.

(** ** Lemmas *)

(** The digits of the front as a number, with no bound. *)
Fixpoint front_number (value : Z) (s : string) : Z :=
  match s with
  | String c s' => if is_digit c then front_number (value * 10 + digit_value c) s' else value
  | EmptyString => value
  end.

Fixpoint after_digits (s : string) : string :=
  match s with
  | String c s' => if is_digit c then after_digits s' else s
  | EmptyString => s
  end.

Lemma digit_value_range c : is_digit c = true -> 0 <= digit_value c <= 9.
Proof.
  unfold is_digit, digit_value. intros [H1%Nat.leb_le H2%Nat.leb_le]%andb_true_iff. lia.
Qed.

Lemma front_number_ge s v : 0 <= v -> v <= front_number v s.
Proof.
  revert v. induction s as [|c s IH]; intros v Hv; cbn; [lia|].
  destruct (is_digit c) eqn:Hc; [|lia]. apply digit_value_range in Hc.
  specialize (IH (v * 10 + digit_value c)). lia.
Qed.

Lemma int_result_spec z : 0 <= z -> int_result z = if bool_decide (z < 2 ^ 31) then Some z else None.
Proof. intros Hz. unfold int_result, in_s. repeat case_bool_decide; try done; exfalso; lia. Qed.

(** The running value overflows exactly when the number does not fit. *)
Lemma duration_digits_spec s v :
  0 <= v < 2 ^ 31 ->
  duration_digits v s =
    if bool_decide (front_number v s < 2 ^ 31) then Some (front_number v s, after_digits s) else None.
Proof.
  revert v. induction s as [|c s IH]; intros v Hv; cbn; [by case_bool_decide; [|lia]|].
  destruct (is_digit c) eqn:Hc; [|by case_bool_decide; [|lia]]. apply digit_value_range in Hc.
  rewrite int_result_spec by lia.
  pose proof (front_number_ge s (v * 10 + digit_value c)).
  case_bool_decide; [by apply IH; lia|]. case_bool_decide; [lia|done].
Qed.

Lemma duration_unit_range rest : 1 <= duration_unit rest <= 86400.
Proof. unfold duration_unit. repeat case_match; lia. Qed.

Lemma ParseDurationToSeconds_spec s :
  ParseDurationToSeconds s =
    let n := front_number 0 s * duration_unit (after_digits s) in
    if bool_decide (n < 2 ^ 31) then Some n else None.
Proof.
  unfold ParseDurationToSeconds. destruct (str_empty s) eqn:E; [by apply str_empty_true in E as ->|].
  rewrite duration_digits_spec by lia. pose proof (front_number_ge s 0).
  pose proof (duration_unit_range (after_digits s)). cbv zeta.
  case_bool_decide; [by apply int_result_spec; nia|]. case_bool_decide; [nia|done].
Qed.

(** The fields are of their C++ types. *)
Definition pattern_typed (p : PatternConfig) : Prop :=
  in_s 32 (pc_channels p) /\ in_s 32 (pc_producers_per_channel p) /\
  in_s 32 (pc_consumers_per_channel p) /\ in_s 32 (pc_senders_per_channel p) /\
  in_s 32 (pc_responders_per_channel p) /\ in_s 32 (pc_rate p).

Definition queue_typed (q : QueueConfig) : Prop :=
  in_s 32 (qc_poll_max_messages q) /\ in_s 32 (qc_poll_wait_timeout_seconds q).

Definition config_typed (c : Config) : Prop :=
  in_s 32 (cf_duration_seconds c) /\ in_s 32 (cf_warmup_seconds c) /\ in_s 32 (cf_payload_size c) /\
  map_Forall (fun _ => pattern_typed) (cf_patterns c) /\ queue_typed (cf_queue c) /\
  in_s 32 (cf_metrics_port c).

Ltac solve_small := unfold in_s; lia.

Lemma default_patterns_typed : map_Forall (fun _ => pattern_typed) (cf_patterns (SetDefaults Config_new)).
Proof.
  cbn. repeat apply map_Forall_insert_2; [..|apply map_Forall_empty];
    unfold pattern_typed; cbn; split_and!; solve_small.
Qed.

Lemma SetDefaults_typed : config_typed (SetDefaults Config_new).
Proof.
  unfold config_typed, queue_typed.
  split_and!; first [apply default_patterns_typed | by vm_compute].
Qed.

Section json_lemmas.
Context `{JsonLaws}.

(** The two members that hold a duration as a text. *)
Definition duration_member (j v : jvalue) : Prop :=
  jv_member j "duration" = Some v \/ nested j "warmup" "warmup_duration" = Some v.

(** One of them does not fit an [int]. *)
Definition overlong_duration (j : jvalue) : Prop :=
  exists v d, duration_member j v /\ jv_get_string v = inl d /\
    2 ^ 31 <= front_number 0 d * duration_unit (after_digits d).

(** The members that are read as an [int]. *)
Definition pattern_int_keys : list string :=
  ["channels"; "producers_per_channel"; "consumers_per_channel"; "senders_per_channel";
   "responders_per_channel"; "rate"].
Definition queue_int_keys : list string := ["poll_max_messages"; "poll_wait_timeout_seconds"].

Definition member_in (keys : list string) (j v : jvalue) : Prop :=
  exists k, k ∈ keys /\ jv_member j k = Some v.

Definition int_member (j v : jvalue) : Prop :=
  member_in ["duration_seconds"; "warmup_seconds"; "payload_size"] j v \/
  nested j "message" "size_bytes" = Some v \/
  (exists q, jv_member j "queue" = Some q /\ member_in queue_int_keys q v) \/
  (exists ps l k p, jv_member j "patterns" = Some ps /\ jv_members ps = inl l /\ (k, p) ∈ l /\
     member_in pattern_int_keys p v).

(** A floating-point number that does not fit an [int]. *)
Definition wide_double (v : jvalue) : Prop :=
  exists x, jv_as_double v = Some x /\ int32_of_double x = None.

(** What makes reading a value undefined. *)
Definition unreadable (j : jvalue) : Prop :=
  overlong_duration j \/ exists v, int_member j v /\ wide_double v.

(** Conversions of parts of a value, undefined only when [U]. *)
Section under.
Variable U : Prop.

Definition yields {A} (P : A -> Prop) (p : Parsed A) : Prop :=
  match p with POk a => P a | PThrow _ => True | PUndefined => U end.

Lemma yields_bind {A B} (P : A -> Prop) (Q : B -> Prop) (p : Parsed A) k :
  yields P p -> (forall a, P a -> yields Q (k a)) -> yields Q (let* a := p in k a).
Proof. destruct p; cbn; auto. Qed.

Lemma yields_any {A} (r : A + string) : yields (fun _ => True) (parsed_of r).
Proof. by destruct r. Qed.

Lemma yields_int v : (wide_double v -> U) -> yields (in_s 32) (get_int v).
Proof.
  intros HU. unfold get_int. destruct (jv_as_double v) as [x|] eqn:Hx.
  - destruct (int32_of_double x) eqn:Hi; cbn; [by apply int32_of_double_range in Hi|].
    apply HU. by exists x.
  - destruct (jv_get_int v) eqn:Hi; cbn; [by apply jv_get_int_range in Hi|done].
Qed.

Lemma yields_get_int keys j k z :
  (forall v, member_in keys j v -> wide_double v -> U) -> k ∈ keys -> in_s 32 z ->
  yields (in_s 32) (get_to get_int j k z).
Proof.
  intros HU Hk Hz. unfold get_to. destruct (jv_member j k) as [v|] eqn:Hv; [|done].
  apply yields_int, HU. by exists k.
Qed.

Lemma yields_get_bool j k a : yields (fun _ => True) (get_to get_bool j k a).
Proof. unfold get_to. destruct (jv_member j k); [apply yields_any|done]. Qed.

Lemma yields_get_string j k a : yields (fun _ => True) (get_to get_string j k a).
Proof. unfold get_to. destruct (jv_member j k); [apply yields_any|done]. Qed.

End under.

(** One step of a conversion: a conversion of a field, then the rest. *)
Ltac yields_step :=
  eapply yields_bind;
    [first [eapply yields_get_int; [eassumption|by set_solver|done]
           | by apply yields_get_bool | by apply yields_get_string | eassumption]
    |intros ? ?].

Lemma yields_pattern U j p :
  (forall v, member_in pattern_int_keys j v -> wide_double v -> U) -> pattern_typed p ->
  yields U pattern_typed (from_json_PatternConfig j p).
Proof.
  intros HU (? & ? & ? & ? & ? & ?). unfold from_json_PatternConfig. repeat yields_step. done.
Qed.

Lemma yields_queue U j q :
  (forall v, member_in queue_int_keys j v -> wide_double v -> U) -> queue_typed q ->
  yields U queue_typed (from_json_QueueConfig j q).
Proof. intros HU (? & ?). unfold from_json_QueueConfig. repeat yields_step. done. Qed.

Lemma yields_members U l :
  (forall k p v, (k, p) ∈ l -> member_in pattern_int_keys p v -> wide_double v -> U) ->
  yields U (Forall (fun kp => pattern_typed (snd kp))) (from_json_members l).
Proof.
  induction l as [|[k j] l IH]; cbn; intros HU; [constructor|].
  eapply yields_bind; [apply yields_pattern|].
  { intros v. apply (HU k). by left. }
  { unfold pattern_typed; cbn; split_and!; solve_small. }
  intros p Hp. eapply yields_bind.
  { apply IH. intros k' p' v Hin. apply (HU k'). by right. }
  intros ps Hps. by constructor.
Qed.

Lemma map_Forall_list_to_map {A} (P : A -> Prop) (l : list (string * A)) :
  Forall (fun kp => P (snd kp)) l -> map_Forall (fun _ => P) (list_to_map l : gmap string A).
Proof.
  induction 1 as [|[k a] l Ha _ IH]; cbn; [apply map_Forall_empty|].
  by apply map_Forall_insert_2.
Qed.

Lemma yields_patterns j ps :
  map_Forall (fun _ => pattern_typed) ps ->
  yields (unreadable j) (map_Forall (fun _ => pattern_typed)) (from_json_patterns j ps).
Proof.
  intros Hps. unfold from_json_patterns. destruct (jv_member j "patterns") as [v|] eqn:Hv; [|done].
  destruct (jv_members v) as [l|] eqn:Hl; cbn; [|done].
  eapply yields_bind; [apply yields_members|].
  { intros k p w Hin Hw Hd. right. exists w. split; [|done]. do 3 right. by exists v, l, k, p. }
  intros kps Hk. by apply map_Forall_list_to_map.
Qed.

Lemma yields_duration j v :
  duration_member j v -> yields (unreadable j) (in_s 32) (parse_duration v).
Proof.
  intros Hm. unfold parse_duration, get_string.
  destruct (jv_get_string v) as [d|] eqn:Hv; cbn; [|done].
  rewrite ParseDurationToSeconds_spec. cbv zeta. pose proof (front_number_ge d 0).
  pose proof (duration_unit_range (after_digits d)).
  case_bool_decide; cbn; [unfold in_s; nia|]. left. exists v, d. split_and!; [done|done|lia].
Qed.

Lemma yields_config j :
  yields (unreadable j) (fun c => config_typed c /\ cf_metrics_port c = 0 /\ cf_warnings c = [])
    (from_json_Config j Config_new).
Proof.
  destruct SetDefaults_typed as (Hd & Hw & Hs & Hp & Hq & _). unfold from_json_Config.
  set (c := SetDefaults Config_new) in *. cbv zeta.
  set (U := unreadable j).
  assert (forall v, member_in ["duration_seconds"; "warmup_seconds"; "payload_size"] j v ->
            wide_double v -> U) as HU.
  { intros v Hv Hx. right. exists v. split; [by left|done]. }
  assert (forall a, yields U (fun _ => True) (v2_broker j a)) as Hb.
  { intros a. unfold v2_broker. destruct (nested _ _ _); [apply yields_any|done]. }
  assert (yields U (in_s 32) (v2_duration j (cf_duration_seconds c))) as Hd2.
  { unfold v2_duration. repeat case_match; try done. apply yields_duration. by left. }
  assert (yields U (in_s 32) (v2_warmup j (cf_warmup_seconds c))) as Hw2.
  { unfold v2_warmup. case_match; [apply yields_duration; by right|done]. }
  assert (yields U (in_s 32) (v2_size j (cf_payload_size c))) as Hs2.
  { unfold v2_size. case_match eqn:Hm; [|done]. apply yields_int. intros Hx.
    right. eexists. split; [by right; left|done]. }
  eapply yields_bind; [apply Hb|intros ? _]. repeat yields_step.
  eapply yields_bind; [by apply yields_patterns|intros ps Hps].
  eapply yields_bind with (P := queue_typed).
  { destruct (jv_member j "queue") as [q|] eqn:Hq'; [|done]. apply yields_queue; [|done].
    intros v Hv Hx. right. exists v. split; [|done]. do 2 right. left. by exists q. }
  intros q Hq'. cbn. done.
Qed.

(** *** Round trips *)

Lemma distinct_keys (l : list (string * jvalue)) :
  bool_decide (NoDup l.*1) = true -> NoDup l.*1.
Proof. apply bool_decide_eq_true_1. Qed.

Ltac known_member :=
  unfold get_to, nested; rewrite ?jv_member_object by (apply distinct_keys; reflexivity);
  cbn [assoc String.eqb Ascii.eqb Bool.eqb parsed_bind].

Ltac read_field :=
  cbn [parsed_of parsed_bind];
  unfold get_int, get_bool, get_string; rewrite ?jv_as_double_number, ?jv_get_bool_bool, ?jv_get_string_string;
  rewrite ?jv_get_int_number by done; cbn [parsed_of parsed_bind].

Lemma pattern_roundtrip p q :
  pattern_typed p -> from_json_PatternConfig (to_json_PatternConfig p) q = POk p.
Proof.
  intros (? & ? & ? & ? & ? & ?). unfold from_json_PatternConfig, to_json_PatternConfig.
  known_member. read_field. by destruct p.
Qed.

Lemma queue_roundtrip p q : queue_typed p -> from_json_QueueConfig (to_json_QueueConfig p) q = POk p.
Proof.
  intros (? & ?). unfold from_json_QueueConfig, to_json_QueueConfig.
  known_member. read_field. by destruct p.
Qed.

Lemma members_roundtrip (l : list (string * jvalue)) (ps : list (string * PatternConfig)) :
  Forall2 (fun kj kp => fst kj = fst kp /\ snd kj = to_json_PatternConfig (snd kp) /\
                        pattern_typed (snd kp)) l ps ->
  from_json_members l = POk ps.
Proof.
  induction 1 as [|[k j] [k' p] l ps (Hk & Hj & Hp) _ IH]; cbn in *; [done|]. subst.
  by rewrite pattern_roundtrip, IH.
Qed.

Lemma patterns_roundtrip j ps qs :
  jv_member j "patterns" = Some (jv_object (map_to_list (to_json_PatternConfig <$> ps))) ->
  map_Forall (fun _ => pattern_typed) ps -> from_json_patterns j qs = POk ps.
Proof.
  intros Hj Hps. unfold from_json_patterns. rewrite Hj.
  destruct (jv_members_object (map_to_list (to_json_PatternConfig <$> ps))) as (l & -> & Hl).
  { apply NoDup_fst_map_to_list. }
  cbn. rewrite map_to_list_fmap in Hl.
  apply Permutation_map_inv in Hl as (kps & -> & Hk).
  erewrite (members_roundtrip _ kps).
  - cbn. f_equal. rewrite <- (list_to_map_to_list ps). symmetry. apply list_to_map_proper; [|done].
    apply NoDup_fst_map_to_list.
  - apply Forall2_fmap_l, Forall_Forall2_diag. apply Forall_forall. intros [k p] Hkp. cbn.
    rewrite <- Hk in Hkp. apply elem_of_map_to_list in Hkp. split_and!; [done..|]. by apply (Hps k).
Qed.

(** What a configuration keeps through its JSON. *)
Definition portable (c : Config) : Config :=
  mkConfig (cf_broker_address c) (cf_client_id_prefix c) (cf_duration_seconds c) (cf_warmup_seconds c)
    (cf_run_id c) (cf_payload_size c) (cf_patterns c) (cf_queue c) 0 [].

Lemma config_roundtrip c : config_typed c -> from_json_Config (ToJson c) Config_new = POk (portable c).
Proof.
  intros (? & ? & ? & Hp & Hq & _). unfold from_json_Config, v2_broker, v2_duration, v2_warmup, v2_size.
  cbv zeta. unfold ToJson, to_json_Config. known_member. read_field.
  erewrite patterns_roundtrip; [|rewrite jv_member_object by (apply distinct_keys; reflexivity); reflexivity|done].
  cbn [parsed_bind]. by rewrite queue_roundtrip.
Qed.

(** C29: a configuration survives its JSON. A configuration whose integers are
    [int]s, written with [ToJson] and read back with [FromJson] from any text
    that parses to what was written, is the same configuration in every field
    the application serves: broker, client prefix, durations, run identifier,
    payload size, every pattern, whatever their names, and the queue settings.
    Only the metrics port and the warnings, which are not written, are reset;
    nothing throws and no warning is added. *)
Theorem config_json_roundtrip (c : Config) (text : string) :
  config_typed c -> text <> "" -> jv_parse text = inl (ToJson c) -> FromJson text = POk (portable c).
Proof.
  intros Hc Ht Hp. unfold FromJson. apply str_empty_false in Ht. rewrite Ht, Hp. cbn [parsed_of parsed_bind].
  by rewrite config_roundtrip.
Qed.

(** C30: reading a configuration is total up to numbers that fit no [int]. For
    any text [FromJson] never throws: it returns a configuration of in-range
    integers with no metrics port, which is read without warning or is the
    defaults with exactly one warning; a text whose value has no member at
    all, an object or not, reads as the defaults. It is undefined only if the
    duration or the warmup duration of the text has more seconds than an [int]
    holds, or one of the members read as an [int], of the configuration, of
    its queue settings or of one of its patterns, is a floating-point number
    whose truncation is no [int] ([1e300]); it is undefined for a value whose
    only member is such a [duration_seconds]. A duration is its leading digits,
    read as a number, times its unit exactly when that fits. *)
Theorem FromJson_total (text : string) :
  match FromJson text with
  | POk c =>
      config_typed c /\ cf_metrics_port c = 0 /\
      (cf_warnings c = [] \/ exists what, c = with_warning what (SetDefaults Config_new))
  | PThrow _ => False
  | PUndefined => exists j, jv_parse text = inl j /\ unreadable j
  end /\
  (forall j v, text <> "" -> jv_parse text = inl j -> (forall k, k <> "duration_seconds" -> jv_member j k = None) ->
     jv_member j "duration_seconds" = Some v -> wide_double v -> FromJson text = PUndefined) /\
  (forall j, jv_parse text = inl j -> (forall k, jv_member j k = None) ->
     FromJson text = POk (SetDefaults Config_new)) /\
  (forall d, ParseDurationToSeconds d =
     let n := front_number 0 d * duration_unit (after_digits d) in
     if bool_decide (n < 2 ^ 31) then Some n else None).
Proof.
  split; [|split; [|split; [|apply ParseDurationToSeconds_spec]]].
  - unfold FromJson. destruct (str_empty text); [by split; [apply SetDefaults_typed|auto]|].
    destruct (jv_parse text) as [j|what]; cbn [parsed_of parsed_bind].
    2: { split; [apply SetDefaults_typed|]. eauto. }
    pose proof (yields_config j) as Hy. destruct (from_json_Config j Config_new) as [c|what|]; cbn in Hy.
    + destruct Hy as (? & ? & ?). auto.
    + split; [apply SetDefaults_typed|]. eauto.
    + by exists j.
  - intros j v Ht Hj Hn Hd (x & Hx & Hi). unfold FromJson. rewrite (proj2 (str_empty_false text)) by done.
    rewrite Hj. cbn [parsed_of parsed_bind].
    unfold from_json_Config, v2_broker, v2_duration, v2_warmup, v2_size, nested, get_to.
    rewrite !Hn by done. rewrite Hd. unfold get_int. by rewrite Hx, Hi.
  - intros j Hj Hn. unfold FromJson. destruct (str_empty text); [done|]. rewrite Hj.
    cbn [parsed_of parsed_bind].
    unfold from_json_Config, v2_broker, v2_duration, v2_warmup, v2_size, from_json_patterns, nested, get_to.
    by rewrite !Hn.
Qed.

End json_lemmas.

(** ** On concrete trees *)

Definition demo_config : Config :=
  mkConfig "host:1" "p" 60 5 "run" 64 {["events" := default_pattern 7]} (mkQueueConfig 1 2 true) 9 ["w"].

(** A parser that knows one text. *)
Definition demo_json : JsonValues :=
  tree_json (fun s => if String.eqb s "text" then inl (@ToJson (tree_json (fun _ => inr "")) demo_config)
                      else inr "syntax error").

Lemma config_json_roundtrip_witness :
  @FromJson demo_json "text" = POk (portable demo_config).
Proof.
  apply (@config_json_roundtrip demo_json (tree_json_laws _) demo_config "text");
    [|discriminate|vm_compute; reflexivity].
  unfold config_typed, queue_typed, demo_config; cbn; split_and!; try solve_small.
  intros k p Hp. apply lookup_singleton_Some in Hp as [_ <-].
  unfold pattern_typed; cbn; split_and!; solve_small.
Defined.

Lemma FromJson_total_witness :
  exists c, @FromJson demo_json "no text" = POk c /\ config_typed c /\ length (cf_warnings c) = 1%nat.
Proof.
  pose proof (@FromJson_total demo_json (tree_json_laws _) "no text") as [H _].
  eexists. split; [reflexivity|]. split; [apply H|reflexivity].
Defined.

Example durations :
  ParseDurationToSeconds "5m" = Some 300 /\ ParseDurationToSeconds "2d" = Some 172800 /\
  ParseDurationToSeconds "" = Some 0 /\ ParseDurationToSeconds "90x" = Some 90 /\
  ParseDurationToSeconds "99999d" = None.
Proof. by vm_compute. Qed.

(** A floating-point number is cut to an [int]; one that does not fit is the
    other undefined outcome. *)
Example wide_numbers :
  let read x := @FromJson (tree_json (fun _ => inl (JObject {["duration_seconds" := JDouble x]}))) "text" in
  match read 2.75%float with POk c => cf_duration_seconds c = 2 | _ => False end /\
  read 1e300%float = PUndefined /\ read nan = PUndefined /\
  match read 2147483647.5%float with POk c => cf_duration_seconds c = 2147483647 | _ => False end.
Proof. by vm_compute. Qed.
