(* ===== verification/Metrics.v ===== *)
(** * The burn-in metrics

    Models the counters of burnin/engine/metrics.cc (the CRC of the same file
    is in Crc). The thirteen counters of a pattern are atomic [uint64_t]s; an
    update is one relaxed [fetch_add], so what matters is which updates were
    made, not their order: this is proved. The duration is a double number of
    seconds. *)

From Stdlib Require Import ZArith Lia Ascii String Floats.
From S2P Require Import Prelude Double Json.

Local Open Scope string_scope.
Local Open Scope Z_scope.

(** ** PatternMetrics *)

Inductive Counter :=
  | Csent | Creceived | Cerrors | Clost | Cduplicated | Ccorrupted | Cout_of_order
  | Cbytes_sent | Cbytes_received | Crpc_success | Crpc_timeout | Crpc_error | Creconnections.

#[export] Instance Counter_eq_dec : EqDecision Counter.
Proof. solve_decision. Defined.

Record PatternMetrics := mkPatternMetrics {
  pm_sent : Z; pm_received : Z; pm_errors : Z; pm_lost : Z; pm_duplicated : Z; pm_corrupted : Z;
  pm_out_of_order : Z; pm_bytes_sent : Z; pm_bytes_received : Z; pm_rpc_success : Z;
  pm_rpc_timeout : Z; pm_rpc_error : Z; pm_reconnections : Z
}.

Definition PatternMetrics_new : PatternMetrics := mkPatternMetrics 0 0 0 0 0 0 0 0 0 0 0 0 0.

Definition load (c : Counter) (m : PatternMetrics) : Z :=
  match c with
  | Csent => pm_sent m | Creceived => pm_received m | Cerrors => pm_errors m | Clost => pm_lost m
  | Cduplicated => pm_duplicated m | Ccorrupted => pm_corrupted m
  | Cout_of_order => pm_out_of_order m | Cbytes_sent => pm_bytes_sent m
  | Cbytes_received => pm_bytes_received m | Crpc_success => pm_rpc_success m
  | Crpc_timeout => pm_rpc_timeout m | Crpc_error => pm_rpc_error m
  | Creconnections => pm_reconnections m
  end.

(** All counters through a function of the counter. *)
Definition PatternMetrics_of (f : Counter -> Z) : PatternMetrics :=
  mkPatternMetrics (f Csent) (f Creceived) (f Cerrors) (f Clost) (f Cduplicated) (f Ccorrupted)
    (f Cout_of_order) (f Cbytes_sent) (f Cbytes_received) (f Crpc_success) (f Crpc_timeout)
    (f Crpc_error) (f Creconnections).

Definition store (c : Counter) (z : Z) (m : PatternMetrics) : PatternMetrics :=
  PatternMetrics_of (fun c' => if decide (c' = c) then z else load c' m).

(** [counter.fetch_add(n)]: wraps around. *)
Definition fetch_add (c : Counter) (n : Z) (m : PatternMetrics) : PatternMetrics :=
  store c (to_uint64 (load c m + n)) m.

(** [PatternMetrics::Reset]: every counter stored as zero, one by one. *)
Definition PatternMetrics_Reset (m : PatternMetrics) : PatternMetrics :=
  foldl (fun m c => store c 0 m) m
    [Csent; Creceived; Cerrors; Clost; Cduplicated; Ccorrupted; Cout_of_order; Cbytes_sent;
     Cbytes_received; Crpc_success; Crpc_timeout; Crpc_error; Creconnections].

Arguments PatternMetrics_Reset : simpl never.

Section snapshot.
Context `{JsonValues}.

Definition PatternMetrics_Snapshot (m : PatternMetrics) : jvalue :=
  jv_object [("sent", jv_number (load Csent m)); ("received", jv_number (load Creceived m));
             ("errors", jv_number (load Cerrors m)); ("lost", jv_number (load Clost m));
             ("duplicated", jv_number (load Cduplicated m));
             ("corrupted", jv_number (load Ccorrupted m));
             ("out_of_order", jv_number (load Cout_of_order m));
             ("bytes_sent", jv_number (load Cbytes_sent m));
             ("bytes_received", jv_number (load Cbytes_received m));
             ("rpc_success", jv_number (load Crpc_success m));
             ("rpc_timeout", jv_number (load Crpc_timeout m));
             ("rpc_error", jv_number (load Crpc_error m));
             ("reconnections", jv_number (load Creconnections m))].

End snapshot.

(** ** AggregateMetrics *)

(** Times are nanoseconds of the steady clock; a default-constructed time
    point is its epoch. *)
Record AggregateMetrics := mkAggregateMetrics {
  am_patterns : gmap string PatternMetrics;
  am_start_time : Z;
  am_stop_time : Z;
  am_running : bool
}.

Definition AggregateMetrics_new : AggregateMetrics := mkAggregateMetrics ∅ 0 0 false.

Definition with_patterns (ps : gmap string PatternMetrics) (a : AggregateMetrics) : AggregateMetrics :=
  mkAggregateMetrics ps (am_start_time a) (am_stop_time a) (am_running a).

(** [patterns_[name]] makes the entry if it is not there. The reference
    returned stays valid: it is the entry of that name. *)
Definition GetPattern (name : string) (a : AggregateMetrics) : AggregateMetrics :=
  match am_patterns a !! name with
  | Some _ => a
  | None => with_patterns (<[name := PatternMetrics_new]> (am_patterns a)) a
  end.

Definition AggregateMetrics_Reset (a : AggregateMetrics) : AggregateMetrics :=
  with_patterns (PatternMetrics_Reset <$> am_patterns a) a.

Definition MarkStart (now : Z) (a : AggregateMetrics) : AggregateMetrics :=
  mkAggregateMetrics (am_patterns a) now (am_stop_time a) true.

Definition MarkStop (now : Z) (a : AggregateMetrics) : AggregateMetrics :=
  mkAggregateMetrics (am_patterns a) (am_start_time a) now false.

(** Whole milliseconds, divided as a double. *)
Definition ElapsedSeconds (now : Z) (a : AggregateMetrics) : float :=
  let until := if am_running a then now else am_stop_time a in
  (double_of_int (div_trunc (until - am_start_time a) 1000000) / 1000)%float.

(** [total += load] over the patterns. *)
Definition total (c : Counter) (ps : gmap string PatternMetrics) : Z :=
  map_fold (fun _ m acc => to_uint64 (acc + load c m)) 0 ps.

Definition AggregateMetrics_Snapshot `{JsonValues} (now : Z) (a : AggregateMetrics) : jvalue :=
  let result := map_fold (fun name m acc => jv_set acc name (PatternMetrics_Snapshot m)) jv_null
                  (am_patterns a) in
  jv_set result "_totals"
    (jv_object [("sent", jv_number (total Csent (am_patterns a)));
                ("received", jv_number (total Creceived (am_patterns a)));
                ("errors", jv_number (total Cerrors (am_patterns a)));
                ("elapsed_seconds", jv_double (ElapsedSeconds now a))]).

(** ** Updates *)

(** A [fetch_add] a worker makes through the reference it was given. *)
Record Update := mkUpdate { up_pattern : string; up_counter : Counter; up_amount : Z }.

Definition apply_update (u : Update) (a : AggregateMetrics) : AggregateMetrics :=
  with_patterns (alter (fetch_add (up_counter u) (up_amount u)) (up_pattern u) (am_patterns a)) a.

Fixpoint apply_updates (us : list Update) (a : AggregateMetrics) : AggregateMetrics :=
  match us with [] => a | u :: us' => apply_updates us' (apply_update u a) end.

(** What a list of updates adds to one counter of one pattern. *)
Fixpoint amount (name : string) (c : Counter) (us : list Update) : Z :=
  match us with
  | [] => 0
  | u :: us' =>
      (if bool_decide (up_pattern u = name /\ up_counter u = c) then up_amount u else 0)
      + amount name c us'
  end.

(** ** Lemmas *)

Lemma load_of f c : load c (PatternMetrics_of f) = f c.
Proof. by destruct c. Qed.

Lemma load_store c c' z m : load c (store c' z m) = if decide (c = c') then z else load c m.
Proof. unfold store. by rewrite load_of. Qed.

Lemma load_fetch_add c c' n m :
  load c (fetch_add c' n m) = if decide (c = c') then to_uint64 (load c m + n) else load c m.
Proof. unfold fetch_add. rewrite load_store. by case_decide; subst. Qed.

Lemma load_Reset c m : load c (PatternMetrics_Reset m) = 0.
Proof. unfold PatternMetrics_Reset. cbn [foldl]. rewrite !load_store. by destruct c. Qed.

Lemma wrap_u_add_l w a b : wrap_u w (wrap_u w a + b) = wrap_u w (a + b).
Proof. apply Zplus_mod_idemp_l. Qed.

Lemma wrap_u_add_r w a b : wrap_u w (a + wrap_u w b) = wrap_u w (a + b).
Proof. apply Zplus_mod_idemp_r. Qed.

Lemma load_updates us a name c m :
  am_patterns a !! name = Some m -> in_u 64 (load c m) ->
  exists m', am_patterns (apply_updates us a) !! name = Some m' /\
    load c m' = to_uint64 (load c m + amount name c us).
Proof.
  revert a m. induction us as [|u us IH]; intros a m Ha Hm; cbn.
  { exists m. split; [done|]. by rewrite Z.add_0_r, wrap_u_id. }
  destruct (decide (up_pattern u = name)) as [<-|Hn].
  - destruct (IH (apply_update u a) (fetch_add (up_counter u) (up_amount u) m)) as (m' & Hm' & Hl).
    + cbn. by rewrite lookup_alter_eq, Ha.
    + rewrite load_fetch_add. case_decide; [by apply wrap_u_range|done].
    + exists m'. split; [done|]. rewrite Hl, load_fetch_add. case_decide; subst.
      * rewrite wrap_u_add_l, bool_decide_true by done. f_equal. lia.
      * rewrite bool_decide_false; [done|]. intros [_ ?]. congruence.
  - destruct (IH (apply_update u a) m) as (m' & Hm' & Hl); [|done|].
    + cbn. by rewrite lookup_alter_ne.
    + exists m'. split; [done|]. rewrite Hl. by rewrite bool_decide_false; [|intros [? _]].
Qed.

(** Counters determine the metrics; updates commute. *)
Lemma PatternMetrics_ext m m' : (forall c, load c m = load c m') -> m = m'.
Proof.
  intros He. destruct m, m'. pose proof (He Csent). pose proof (He Creceived). pose proof (He Cerrors).
  pose proof (He Clost). pose proof (He Cduplicated). pose proof (He Ccorrupted).
  pose proof (He Cout_of_order). pose proof (He Cbytes_sent). pose proof (He Cbytes_received).
  pose proof (He Crpc_success). pose proof (He Crpc_timeout). pose proof (He Crpc_error).
  pose proof (He Creconnections). by simplify_eq/=.
Qed.

Lemma fetch_add_comm c n c' n' m : fetch_add c n (fetch_add c' n' m) = fetch_add c' n' (fetch_add c n m).
Proof.
  apply PatternMetrics_ext. intros c0. rewrite !load_fetch_add.
  repeat case_decide; subst; try done. rewrite !wrap_u_add_l. f_equal. lia.
Qed.

Lemma apply_update_comm u v a : apply_update u (apply_update v a) = apply_update v (apply_update u a).
Proof.
  unfold apply_update, with_patterns. cbn. f_equal.
  apply map_eq. intros i.
  destruct (decide (i = up_pattern u)) as [Hu|Hu], (decide (i = up_pattern v)) as [Hv|Hv];
    repeat first [rewrite <- Hu | rewrite <- Hv | rewrite lookup_alter_eq
                 | rewrite lookup_alter_ne by congruence]; [|done..].
  destruct (am_patterns a !! i); cbn; [|done]. by rewrite fetch_add_comm.
Qed.

#[export] Instance apply_updates_proper : Proper ((≡ₚ) ==> eq ==> eq) apply_updates.
Proof.
  intros us us' Hp a a' <-. revert a. induction Hp as [|u us us' _ IH|u v us|us1 us2 us3 _ IH1 _ IH2]; intros a; cbn.
  - done.
  - apply IH.
  - by rewrite apply_update_comm.
  - by rewrite IH1, IH2.
Qed.

(** Which patterns there are does not change. *)
Lemma updates_dom us a : dom (am_patterns (apply_updates us a)) = dom (am_patterns a).
Proof.
  revert a. induction us as [|u us IH]; intros a; cbn; [done|]. rewrite IH. cbn. apply dom_alter_L.
Qed.

(** The total is the sum of the counters, wrapped once. *)
Definition counter_sum (c : Counter) (ps : gmap string PatternMetrics) : Z :=
  map_fold (fun _ m acc => acc + load c m) 0 ps.

Lemma total_sum c ps : total c ps = to_uint64 (counter_sum c ps).
Proof.
  unfold total, counter_sum. rewrite !map_fold_foldr.
  induction (map_to_list ps) as [|[k m] l IH]; cbn; [done|]. by rewrite IH, wrap_u_add_l.
Qed.

Lemma counter_sum_insert c k m ps :
  ps !! k = None -> counter_sum c (<[k := m]> ps) = counter_sum c ps + load c m.
Proof. intros Hk. unfold counter_sum. rewrite map_fold_insert_L; [done|intros; lia|done]. Qed.

Lemma counter_sum_alter c k f m ps :
  ps !! k = Some m -> counter_sum c (alter f k ps) = counter_sum c ps - load c m + load c (f m).
Proof.
  intros Hk. assert (counter_sum c ps = counter_sum c (delete k ps) + load c m) as ->.
  { rewrite <- (counter_sum_insert c k m (delete k ps)) by apply lookup_delete_eq. by rewrite insert_delete_id. }
  replace (alter f k ps) with (<[k := f m]> (delete k ps)).
  - rewrite counter_sum_insert by apply lookup_delete_eq. lia.
  - apply map_eq. intros i. destruct (decide (i = k)) as [->|Hi].
    + by rewrite lookup_insert_eq, lookup_alter_eq, Hk.
    + by rewrite lookup_insert_ne, lookup_delete_ne, lookup_alter_ne.
Qed.

Lemma updates_running us a :
  am_start_time (apply_updates us a) = am_start_time a /\
  am_stop_time (apply_updates us a) = am_stop_time a /\ am_running (apply_updates us a) = am_running a.
Proof. revert a. induction us as [|u us IH]; intros a; cbn; [done|]. destruct (IH (apply_update u a)) as (-> & -> & ->). done. Qed.

(** What a list of updates adds to a counter over all the patterns there. *)
Fixpoint amount_in (ps : gset string) (c : Counter) (us : list Update) : Z :=
  match us with
  | [] => 0
  | u :: us' =>
      (if bool_decide (up_pattern u ∈ ps /\ up_counter u = c) then up_amount u else 0)
      + amount_in ps c us'
  end.

Lemma total_update c u a :
  total c (am_patterns (apply_update u a)) =
    to_uint64 (total c (am_patterns a) +
      (if bool_decide (up_pattern u ∈ dom (am_patterns a) /\ up_counter u = c) then up_amount u else 0)).
Proof.
  rewrite !total_sum, wrap_u_add_l. cbn.
  destruct (am_patterns a !! up_pattern u) as [m|] eqn:Hm.
  - rewrite (counter_sum_alter c _ _ m _ Hm), load_fetch_add.
    destruct (decide (c = up_counter u)) as [->|Hc].
    + rewrite bool_decide_true by (split; [by apply elem_of_dom|done]).
      rewrite wrap_u_add_r. f_equal. lia.
    + rewrite bool_decide_false by (intros [_ ?]; congruence). f_equal. lia.
  - rewrite bool_decide_false by (intros [[m ?]%elem_of_dom _]; congruence).
    replace (alter _ _ (am_patterns a)) with (am_patterns a); [f_equal; lia|].
    symmetry. apply map_eq. intros i. destruct (decide (i = up_pattern u)) as [->|Hi].
    + by rewrite lookup_alter_eq, Hm.
    + by rewrite lookup_alter_ne.
Qed.

Lemma total_updates c us a :
  total c (am_patterns (apply_updates us a)) =
    to_uint64 (total c (am_patterns a) + amount_in (dom (am_patterns a)) c us).
Proof.
  revert a. induction us as [|u us IH]; intros a; cbn.
  { symmetry. rewrite Z.add_0_r. apply wrap_u_id. rewrite total_sum. by apply wrap_u_range. }
  rewrite IH, total_update, wrap_u_add_l. cbn. rewrite dom_alter_L. f_equal. lia.
Qed.

Lemma total_Reset c a : total c (am_patterns (AggregateMetrics_Reset a)) = 0.
Proof.
  rewrite total_sum. cbn. unfold counter_sum. rewrite map_fold_fmap, map_fold_foldr.
  induction (map_to_list (am_patterns a)) as [|[k m] l IH]; cbn; [done|].
  by rewrite load_Reset, Z.add_0_r.
Qed.

(** The counters are exact and free of order. After a reset, whatever
    updates the workers make on the patterns there, in whatever order their
    threads interleave, every counter of every pattern is the sum of what was
    added to it, and every total the sum over the patterns, each modulo 2^64;
    the patterns and the times are untouched; before any update everything is
    zero, and asking for a pattern changes no counter of another. *)
Theorem metrics_exact (a : AggregateMetrics) (us : list Update) :
  let a' := apply_updates us (AggregateMetrics_Reset a) in
  dom (am_patterns a') = dom (am_patterns a) /\
  (forall name c, name ∈ dom (am_patterns a) -> exists m, am_patterns a' !! name = Some m /\
     load c m = to_uint64 (amount name c us)) /\
  (forall c, total c (am_patterns a') = to_uint64 (amount_in (dom (am_patterns a)) c us)) /\
  (forall us', us ≡ₚ us' -> apply_updates us' (AggregateMetrics_Reset a) = a') /\
  (forall name, am_patterns (GetPattern name a) = am_patterns a \/
     (am_patterns a !! name = None /\
      am_patterns (GetPattern name a) = <[name := PatternMetrics_new]> (am_patterns a))).
Proof.
  assert (forall us name c, name ∈ dom (am_patterns a) ->
    exists m, am_patterns (apply_updates us (AggregateMetrics_Reset a)) !! name = Some m /\
      load c m = to_uint64 (amount name c us)) as Hl.
  { intros us0 name c [m Hm]%elem_of_dom.
    destruct (load_updates us0 (AggregateMetrics_Reset a) name c (PatternMetrics_Reset m)) as (m' & Hm' & E).
    - cbn. by rewrite lookup_fmap, Hm.
    - rewrite load_Reset. unfold in_u; lia.
    - exists m'. split; [done|]. by rewrite E, load_Reset. }
  cbv zeta. split; [|split; [|split; [|split]]].
  - rewrite updates_dom. cbn. apply dom_fmap_L.
  - intros name c. apply Hl.
  - intros c. rewrite total_updates, total_Reset. cbn. by rewrite dom_fmap_L.
  - intros us' Hp. by rewrite Hp.
  - intros name. unfold GetPattern. destruct (am_patterns a !! name) eqn:E; [by left|by right].
Qed.
