(* ===== verification/Worker.v ===== *)
(** * The burn-in workers

    Models burnin/worker: each of the six patterns has a worker with a thread
    that sends at a rate and one that receives, on clients of their own. The
    six files differ in what is sent, how an answer is counted and how
    messages arrive; the loops are the same. A worker is an automaton: its
    inputs are the steps of the two threads, of the callbacks and of the
    owner, each at a time of the steady clock, with what the SDK answered; its
    outputs are the SDK operations it calls and the counters it adds to. The
    clock does not go back and [sleep_until] returns no earlier than asked. *)

From Stdlib Require Import ZArith Lia Ascii String.
From S2P Require Import Prelude Automaton Status Messages Converter Client Subscription Downstream.
From S2P Require Import Config Metrics.

Local Open Scope string_scope.
Local Open Scope Z_scope.

(** ** What a worker is made of *)

Inductive WorkerKind :=
  | EventsWorker | EventsStoreWorker | QueueSimpleWorker | QueueStreamWorker | CommandsWorker
  | QueriesWorker.

#[export] Instance WorkerKind_eq_dec : EqDecision WorkerKind.
Proof. solve_decision. Defined.

Definition PatternName (k : WorkerKind) : string :=
  match k with
  | EventsWorker => "events" | EventsStoreWorker => "events_store"
  | QueueSimpleWorker => "queue_simple" | QueueStreamWorker => "queue_stream"
  | CommandsWorker => "commands" | QueriesWorker => "queries"
  end.

Record WorkerConfig := mkWorkerConfig {
  wk_kind : WorkerKind;
  wk_broker_address : string;
  wk_client_id_prefix : string;
  wk_channel : string;
  wk_rate : Z;
  wk_queue_config : QueueConfig      (* the queue workers only *)
}.

Definition producer_client_id (g : WorkerConfig) : string :=
  wk_client_id_prefix g +:+
  match wk_kind g with
  | EventsWorker => "-events-producer" | EventsStoreWorker => "-es-producer"
  | QueueSimpleWorker => "-qs-producer" | QueueStreamWorker => "-qstream-producer"
  | CommandsWorker => "-cmd-sender" | QueriesWorker => "-qry-sender"
  end.

Definition consumer_client_id (g : WorkerConfig) : string :=
  wk_client_id_prefix g +:+
  match wk_kind g with
  | EventsWorker => "-events-consumer" | EventsStoreWorker => "-es-consumer"
  | QueueSimpleWorker => "-qs-consumer" | QueueStreamWorker => "-qstream-consumer"
  | CommandsWorker => "-cmd-responder" | QueriesWorker => "-qry-responder"
  end.

(** Microseconds between sends, as nanoseconds. *)
Definition send_interval (rate : Z) : Z := div_trunc 1000000 (Z.max rate 1) * 1000.

Definition body_prefix (k : WorkerKind) : string :=
  match k with
  | EventsWorker => "events-" | EventsStoreWorker => "events_store-"
  | QueueSimpleWorker => "queue_simple-" | QueueStreamWorker => "queue_stream-"
  | CommandsWorker => "command-" | QueriesWorker => "query-"
  end.

Definition send_body (k : WorkerKind) (seq : Z) : string := body_prefix k +:+ pretty seq.

(** ** Sending *)

(** The unary operation of a send; the queue stream has none. *)
Definition send_op (g : WorkerConfig) (body : string) : option ClientOp :=
  match wk_kind g with
  | EventsWorker => Some (COPublishEvent (wk_channel g) body "" ∅)
  | EventsStoreWorker => Some (COPublishEventStore (wk_channel g) body "" ∅)
  | QueueSimpleWorker => Some (COSendQueueMessageSimple (wk_channel g) body 0 0)
  | QueueStreamWorker => None
  | CommandsWorker => Some (COSendCommandSimple (wk_channel g) body 5000)
  | QueriesWorker => Some (COSendQuerySimple (wk_channel g) body 5000)
  end.

(** The message and request identifier of a send on the queue stream. *)
Definition stream_builder (g : WorkerConfig) (body : string) : QueueMessageBuilder :=
  QueueMessage_SetBody body (QueueMessage_SetChannel (wk_channel g) QueueMessageBuilder_new).

Definition stream_request_id (seq : Z) : string := "burnin-" +:+ pretty seq.

(** What came of it, as the operation of each kind returns it. *)
Inductive SendResult :=
  | RStatus (s : Status)
  | REventStore (r : StatusOr EventStoreResult)
  | RQueueSend (r : StatusOr QueueSendResult)
  | RCommand (r : StatusOr CommandResponse)
  | RQuery (r : StatusOr QueryResponse).

Definition send_status (r : SendResult) : Status :=
  match r with
  | RStatus s => s | REventStore r => statusor_status r | RQueueSend r => statusor_status r
  | RCommand r => statusor_status r | RQuery r => statusor_status r
  end.

(** The result is one the kind's operation returns. *)
Definition result_of (k : WorkerKind) (r : SendResult) : bool :=
  match k, r with
  | (EventsWorker | QueueStreamWorker), RStatus _ | EventsStoreWorker, REventStore _
  | QueueSimpleWorker, RQueueSend _ | CommandsWorker, RCommand _ | QueriesWorker, RQuery _ => true
  | _, _ => false
  end.

(** The branch of the source: sent, or not. *)
Definition send_accepted (r : SendResult) : bool :=
  match r with
  | RStatus s => status_ok s
  | REventStore (SValue x) => esres_sent x
  | RQueueSend (SValue x) => negb (qsr_is_error x)
  | RCommand (SValue _) | RQuery (SValue _) => true
  | _ => false
  end.

Definition counts := list (Counter * Z).

Definition body_size (s : string) : Z := Z.of_nat (String.length s).

(** What is counted for a send that was accepted. *)
Definition count_accepted (k : WorkerKind) (body : string) (r : SendResult) : counts :=
  match k, r with
  | QueueStreamWorker, _ => []
  | CommandsWorker, RCommand (SValue x) =>
      ([(Csent, 1); (Cbytes_sent, body_size body); (Crpc_success, 1)] ++
       if cresp_executed x then [(Creceived, 1)] else [])%list
  | QueriesWorker, RQuery (SValue x) =>
      ([(Csent, 1); (Cbytes_sent, body_size body); (Crpc_success, 1)] ++
       if qresp_executed x then [(Creceived, 1); (Cbytes_received, body_size (qresp_body x))]
       else [])%list
  | _, _ => [(Csent, 1); (Cbytes_sent, body_size body)]
  end.

(** And for one that failed while the worker runs. *)
Definition count_failed (k : WorkerKind) (s : Status) : counts :=
  match k with
  | CommandsWorker | QueriesWorker =>
      [(Cerrors, 1); (if decide (code_ s = kTimeout) then Crpc_timeout else Crpc_error, 1)]
  | _ => [(Cerrors, 1)]
  end.

(** ** Receiving *)

Definition subscribe_op (g : WorkerConfig) : option SubscribeOp :=
  match wk_kind g with
  | EventsWorker => Some (SOEvents (wk_channel g) "")
  | EventsStoreWorker => Some (SOEventsStore (wk_channel g) "" StartFromNewEvents)
  | CommandsWorker => Some (SOCommands (wk_channel g) "")
  | QueriesWorker => Some (SOQueries (wk_channel g) "")
  | QueueSimpleWorker | QueueStreamWorker => None
  end.

(** The replies of the responders' callbacks. *)
Definition command_reply (g : WorkerConfig) (cmd : CommandReceive) : StatusOr CommandReply :=
  fst (CommandReply_Build (CommandReply_SetClientId (consumer_client_id g)
         (CommandReply_SetResponseTo (cmdr_response_to cmd)
            (CommandReply_SetRequestId (cmdr_id cmd) CommandReplyBuilder_new)))).

Definition query_reply (g : WorkerConfig) (query : QueryReceive) : StatusOr QueryReply :=
  fst (QueryReply_Build (QueryReply_SetBody ("response-to-" +:+ qryr_body query)
         (QueryReply_SetClientId (consumer_client_id g)
            (QueryReply_SetResponseTo (qryr_response_to query)
               (QueryReply_SetRequestId (qryr_id query) QueryReplyBuilder_new))))).

Definition receive_request (g : WorkerConfig) : ReceiveQueueMessagesRequest :=
  mkReceiveQueueMessagesRequest "" "" (wk_channel g) (qc_poll_max_messages (wk_queue_config g))
    (Z.min (qc_poll_wait_timeout_seconds (wk_queue_config g)) 2) false.

Definition poll_request_of (g : WorkerConfig) : PollRequest :=
  mkPollRequest (wk_channel g) (qc_poll_max_messages (wk_queue_config g))
    (Z.min (qc_poll_wait_timeout_seconds (wk_queue_config g)) 2) (qc_auto_ack (wk_queue_config g)).

(** What the simple consumer counts: every error, even once stopped. *)
Definition count_received (r : StatusOr ReceiveQueueMessagesResponse) : counts :=
  match r with
  | SValue x =>
      if rr_is_error x then []
      else (Creceived, to_uint64 (rr_messages_received x)) ::
           ((fun m => (Cbytes_received, body_size (qm_body m))) <$> rr_messages x)
  | SError _ => [(Cerrors, 1)]
  end.

Definition count_polled (p : PollResponse) : counts :=
  (Creceived, Z.of_nat (length (pr_messages p))) ::
  ((fun m => (Cbytes_received, body_size (qm_body (dm_message m)))) <$> pr_messages p).

(** The upstream callbacks of the queue stream. *)
Definition count_upstream (r : QueueUpstreamResultData) : counts :=
  if qu_is_error r then [(Cerrors, 1)]
  else (fun x => (if qsr_is_error x then Cerrors else Csent, 1)) <$> qu_results r.

(** ** The automaton *)

(** Where the sending thread is; [PSend] and what follows carry the body. *)
Inductive producer_pc :=
  | PCreate | PUpstream | PStart | PTest
  | PBuild (body : string) | PSend (body : string) (batch : list QueueMessage)
  | PFail (s : Status) | PPace | PSleep | PNow | PExit.

Inductive consumer_pc :=
  | CCreate | CSubscribe | CTest | CWait | CPoll | CAck | CFail | CCancel | CExit.

(** The owner: [Start], [Stop] and the waits in it, the destructor. At [WClose]
    it waits for a poll to return, to close the receiver. *)
Inductive owner_stage := WNew | WSecond (since : Z) | WStarted | WClose | WJoin1 | WJoin2 | WStopped | WDestroyed.

(** The upstream handle once [Stop] has released it: with the detached thread
    that deletes it, or leaked when that thread could not be made; or the
    process has ended with it. *)
Inductive handle_fate := FNone | FDetached | FLeaked | FEnded.

Inductive who := FromProducer | FromConsumer | FromCallback.

#[export] Instance who_eq_dec : EqDecision who.
Proof. solve_decision. Defined.

Record Worker := mkWorker {
  w_running : bool;
  w_owner : owner_stage;
  w_producer : option producer_pc;    (* None: the thread is not joinable *)
  w_consumer : option consumer_pc;
  w_seq : Z;
  w_next_send : Z;
  w_clock : Z;
  w_pclient : bool;
  w_upstream : bool;
  w_fate : handle_fate;               (* an upstream handle [Stop] has released *)
  w_cclient : bool;
  w_receiver : bool;
  w_subscribed : bool                 (* the callbacks can be called *)
}.

Definition Worker_new (clock : Z) : Worker :=
  mkWorker false WNew None None 0 0 clock false false FNone false false false.

Inductive worker_input :=
  | IStartWorker                       (* Start: running_ and the first thread *)
  | ISecondThread                      (* Start: the second *)
  | IThreadFails                       (* Start or Stop: a thread cannot be made, std::system_error *)
  | IThreadFatal                       (* the destructor's Stop: the same, and the exception ends the process *)
  | IStopWorker                        (* Stop: running_, closing the receiver if no poll has its mutex *)
  | IJoinFirst                         (* Stop: producer_thread_.join(), after closing the receiver *)
  | IJoinSecond                        (* Stop: consumer_thread_.join(), closing the clients *)
  | IDestroyWorker                     (* the destructor after its Stop, and the members *)
  | IDetachedDone (ended : bool)       (* the detached thread deletes the upstream handle, whose stream
                                          the broker has ended or not *)
  | IProduce                           (* a step of the sending thread that asks nothing *)
  | IProduceOk (ok : bool)             (* creating its client, opening the stream *)
  | IBuilt (r : StatusOr QueueMessage) (* building the message of the queue stream *)
  | ISent (r : SendResult)             (* the send returned *)
  | IConsume                           (* a step of the receiving thread *)
  | IConsumeOk (ok : bool)             (* creating, subscribing, acknowledging *)
  | IReceived (r : StatusOr ReceiveQueueMessagesResponse)
  | IPolled (r : StatusOr PollResponse)
  | IMessageCallback (size : Z)        (* on_event: the size of the body *)
  | ICommandCallback (cmd : CommandReceive) (reply : Status)
  | IQueryCallback (query : QueryReceive) (reply : Status)
  | IErrorCallback
  | IUpstreamResult (r : QueueUpstreamResultData)
  | IUpstreamError.

Inductive worker_output :=
  | OCreateClient (client_id : string)
  | OSend (at_ : Z) (body : string) (op : option ClientOp)
  | OUpstreamSend (at_ : Z) (request_id : string) (batch : list QueueMessage)
  | OSubscribe (op : SubscribeOp)
  | OReceive (request : ReceiveQueueMessagesRequest)
  | OPoll (request : PollRequest)
  | OReply (op : ClientOp)
  | OCancel
  | OCloseReceiver
  | OCloseClients (producer consumer : bool)
  | ODetachUpstream
  | OLeakUpstream
  | OProcessEnds                       (* std::terminate: a joinable reader thread is
                                          destroyed, or an exception leaves a destructor *)
  | OUseAfterFree                      (* a callback of a destroyed worker *)
  | OCount (by_ : who) (c : Counter) (n : Z).

Definition counted_by (x : who) (l : counts) : list worker_output :=
  (fun cn => OCount x (fst cn) (snd cn)) <$> l.

Definition set_producer (p : producer_pc) (w : Worker) : Worker :=
  mkWorker (w_running w) (w_owner w) (Some p) (w_consumer w) (w_seq w) (w_next_send w) (w_clock w)
    (w_pclient w) (w_upstream w) (w_fate w) (w_cclient w) (w_receiver w) (w_subscribed w).
Definition set_consumer (p : consumer_pc) (w : Worker) : Worker :=
  mkWorker (w_running w) (w_owner w) (w_producer w) (Some p) (w_seq w) (w_next_send w) (w_clock w)
    (w_pclient w) (w_upstream w) (w_fate w) (w_cclient w) (w_receiver w) (w_subscribed w).
Definition set_next (next : Z) (w : Worker) : Worker :=
  mkWorker (w_running w) (w_owner w) (w_producer w) (w_consumer w) (w_seq w) next (w_clock w)
    (w_pclient w) (w_upstream w) (w_fate w) (w_cclient w) (w_receiver w) (w_subscribed w).
Definition set_clock (t : Z) (w : Worker) : Worker :=
  mkWorker (w_running w) (w_owner w) (w_producer w) (w_consumer w) (w_seq w) (w_next_send w) t
    (w_pclient w) (w_upstream w) (w_fate w) (w_cclient w) (w_receiver w) (w_subscribed w).
Definition set_objects (pc up cc rc sub : bool) (w : Worker) : Worker :=
  mkWorker (w_running w) (w_owner w) (w_producer w) (w_consumer w) (w_seq w) (w_next_send w) (w_clock w)
    pc up (w_fate w) cc rc sub.

Definition stepped : Type := option (Worker * list worker_output).

(** [ProducerLoop] and [SenderLoop]. *)
Definition producer_step (g : WorkerConfig) (i : worker_input) (w : Worker) : stepped :=
  let stream := bool_decide (wk_kind g = QueueStreamWorker) in
  match w_producer w, i with
  | Some PCreate, IProduceOk ok =>
      if ok then
        Some (set_producer (if stream then PUpstream else PStart)
                (set_objects true (w_upstream w) (w_cclient w) (w_receiver w) (w_subscribed w) w),
              [OCreateClient (producer_client_id g)])
      else Some (set_producer PExit w,
                 [OCreateClient (producer_client_id g); OCount FromProducer Cerrors 1])
  | Some PUpstream, IProduceOk ok =>
      if ok then
        Some (set_producer PStart
                (set_objects (w_pclient w) true (w_cclient w) (w_receiver w) (w_subscribed w) w), [])
      else Some (set_producer PExit w, [OCount FromProducer Cerrors 1])
  | Some PStart, IProduce => Some (set_producer PTest (set_next (w_clock w) w), [])
  | Some PTest, IProduce =>
      if w_running w then
        let seq := to_uint64 (w_seq w + 1) in
        let body := send_body (wk_kind g) seq in
        Some (mkWorker (w_running w) (w_owner w) (Some (if stream then PBuild body else PSend body []))
                (w_consumer w) seq (w_next_send w) (w_clock w) (w_pclient w) (w_upstream w)
                (w_fate w) (w_cclient w) (w_receiver w) (w_subscribed w), [])
      else Some (set_producer PExit w, [])
  | Some (PBuild body), IBuilt (SValue m) =>
      Some (set_producer (PSend body [m]) w, [OCount FromProducer Cbytes_sent (body_size body)])
  | Some (PBuild body), IBuilt (SError _) => Some (set_producer PPace w, [])
  | Some (PSend body batch), ISent r =>
      if result_of (wk_kind g) r then
        let call := if stream then OUpstreamSend (w_clock w) (stream_request_id (w_seq w)) batch
                    else OSend (w_clock w) body (send_op g body) in
        if send_accepted r then
          Some (set_producer PPace w,
                call :: counted_by FromProducer (count_accepted (wk_kind g) body r))
        else Some (set_producer (PFail (send_status r)) w, [call])
      else None
  | Some (PFail s), IProduce =>
      Some (set_producer PPace w,
            if w_running w then counted_by FromProducer (count_failed (wk_kind g) s) else [])
  | Some PPace, IProduce =>
      let next := w_next_send w + send_interval (wk_rate g) in
      Some (set_producer (if w_clock w <? next then PSleep else PNow) (set_next next w), [])
  | Some PSleep, IProduce =>
      if w_next_send w <=? w_clock w then Some (set_producer PTest w, []) else None
  | Some PNow, IProduce => Some (set_producer PTest (set_next (w_clock w) w), [])
  | _, _ => None
  end.

(** [ConsumerLoop] and [ResponderLoop]. *)
Definition consumer_step (g : WorkerConfig) (i : worker_input) (w : Worker) : stepped :=
  let subscribed b := set_objects (w_pclient w) (w_upstream w) (w_cclient w) (w_receiver w) b w in
  match w_consumer w, i with
  | Some CCreate, IConsumeOk ok =>
      if ok then
        Some (set_consumer (match wk_kind g with QueueSimpleWorker => CTest | _ => CSubscribe end)
                (set_objects (w_pclient w) (w_upstream w) true (w_receiver w) (w_subscribed w) w),
              [OCreateClient (consumer_client_id g)])
      else Some (set_consumer CExit w,
                 [OCreateClient (consumer_client_id g); OCount FromConsumer Cerrors 1])
  | Some CSubscribe, IConsumeOk ok =>
      match subscribe_op g with
      | Some op =>
          if ok then Some (set_consumer CTest (subscribed true), [OSubscribe op])
          else Some (set_consumer CExit w, [OSubscribe op; OCount FromConsumer Cerrors 1])
      | None =>
          if ok then
            Some (set_consumer CTest
                    (set_objects (w_pclient w) (w_upstream w) (w_cclient w) true (w_subscribed w) w), [])
          else Some (set_consumer CExit w, [OCount FromConsumer Cerrors 1])
      end
  | Some CTest, IConsume =>
      Some (set_consumer
        (match subscribe_op g with
         | Some _ => if w_running w then CWait else CCancel
         | None => if w_running w then CPoll else CExit
         end) w, [])
  | Some CWait, IConsume => Some (set_consumer CTest w, [])
  | Some CCancel, IConsume => Some (set_consumer CExit (subscribed false), [OCancel])
  | Some CPoll, IReceived r =>
      match wk_kind g with
      | QueueSimpleWorker =>
          Some (set_consumer CTest w,
                OReceive (receive_request g) :: counted_by FromConsumer (count_received r))
      | _ => None
      end
  | Some CPoll, IPolled r =>
      match wk_kind g with
      | QueueStreamWorker =>
          match r with
          | SValue p =>
              if pr_is_error p then Some (set_consumer CTest w, [OPoll (poll_request_of g)])
              else
                Some (set_consumer
                        (if qc_auto_ack (wk_queue_config g) then CTest
                         else match pr_messages p with [] => CTest | _ => CAck end) w,
                      OPoll (poll_request_of g) :: counted_by FromConsumer (count_polled p))
          | SError _ => Some (set_consumer CFail w, [OPoll (poll_request_of g)])
          end
      | _ => None
      end
  | Some CAck, IConsumeOk ok =>
      Some (set_consumer CTest w, if ok then [] else [OCount FromConsumer Cerrors 1])
  | Some CFail, IConsume =>
      Some (set_consumer CTest w, if w_running w then [OCount FromConsumer Cerrors 1] else [])
  | _, _ => None
  end.

Definition alive_upstream (f : handle_fate) : bool :=
  match f with FDetached | FLeaked => true | _ => false end.

(** The callbacks given to the subscription and to the upstream handle. Those
    of the handle go through the worker, which may be gone. *)
Definition callback_step (g : WorkerConfig) (i : worker_input) (w : Worker) : stepped :=
  let count l := Some (w, counted_by FromCallback l) in
  let upstream l :=
    if w_upstream w || alive_upstream (w_fate w) then
      match w_owner w with WDestroyed => Some (w, [OUseAfterFree]) | _ => count l end
    else None in
  let replied {A} (r : StatusOr A) (op : A -> ClientOp) (s : Status) :=
    match r with
    | SValue x => Some (w, OReply (op x) ::
                          (if status_ok s then [] else [OCount FromCallback Cerrors 1]))
    | SError _ => Some (w, [])
    end in
  match wk_kind g, i with
  | (EventsWorker | EventsStoreWorker), IMessageCallback n =>
      if w_subscribed w then count [(Creceived, 1); (Cbytes_received, n)] else None
  | CommandsWorker, ICommandCallback cmd s =>
      if w_subscribed w then replied (command_reply g cmd) COSendCommandResponse s else None
  | QueriesWorker, IQueryCallback q s =>
      if w_subscribed w then replied (query_reply g q) COSendQueryResponse s else None
  | (EventsWorker | EventsStoreWorker | CommandsWorker | QueriesWorker), IErrorCallback =>
      if w_subscribed w then count [(Cerrors, 1)] else None
  | QueueStreamWorker, IUpstreamResult r => upstream (count_upstream r)
  | QueueStreamWorker, IUpstreamError => upstream [(Cerrors, 1)]
  | _, _ => None
  end.

(** Which thread [Start] makes first. *)
Definition sender_first (k : WorkerKind) : bool :=
  match k with QueueSimpleWorker | QueueStreamWorker => true | _ => false end.

(** The delay before the sender of a request-reply pattern, in nanoseconds. *)
Definition start_delay (k : WorkerKind) : Z :=
  match k with CommandsWorker | QueriesWorker => 500000000 | _ => 0 end.

Definition set_owner (running : bool) (o : owner_stage) (p : option producer_pc) (c : option consumer_pc)
    (w : Worker) : Worker :=
  mkWorker running o p c (w_seq w) (w_next_send w) (w_clock w) (w_pclient w) (w_upstream w)
    (w_fate w) (w_cclient w) (w_receiver w) (w_subscribed w).

Definition producer_done (w : Worker) : bool :=
  match w_producer w with None | Some PExit => true | _ => false end.

Definition consumer_done (w : Worker) : bool :=
  match w_consumer w with None | Some CExit => true | _ => false end.

(** A poll has the mutex that closing the receiver takes. *)
Definition polling (w : Worker) : bool := match w_consumer w with Some CPoll => true | _ => false end.

(** [Stop] clears the flag; closing the receiver may have to wait. *)
Definition stop_step (w : Worker) : Worker * list worker_output :=
  if w_receiver w then
    if polling w then (set_owner false WClose (w_producer w) (w_consumer w) w, [])
    else (set_owner false WJoin1 (w_producer w) (w_consumer w) w, [OCloseReceiver])
  else (set_owner false WJoin1 (w_producer w) (w_consumer w) w, []).

(** The end of [Stop]: the upstream handle is released to a thread of its own
    with the client, the rest is closed. *)
Definition release_step (w : Worker) : Worker * list worker_output :=
  (mkWorker false WStopped None None (w_seq w) (w_next_send w) (w_clock w) false false
     (if w_upstream w then FDetached else w_fate w) false false (w_subscribed w),
   ((if w_upstream w then [ODetachUpstream] else []) ++
    [OCloseClients (w_pclient w && negb (w_upstream w)) (w_cclient w)])%list).

(** That thread cannot be made: the handle leaks, its client is closed by
    going, and the exception leaves the rest; out of a destructor it may not. *)
Definition leak_step (fatal : bool) (w : Worker) : Worker * list worker_output :=
  (mkWorker false WStopped None None (w_seq w) (w_next_send w) (w_clock w) false false
     (if fatal then FEnded else FLeaked) (w_cclient w) (w_receiver w) (w_subscribed w),
   [OLeakUpstream; OCloseClients true false] ++ if fatal then [OProcessEnds] else [])%list.

(** [Start] and [Stop]; the destructor is [Stop] again, and that may find a
    worker an exception has left inside [Start]. *)
Definition owner_worker_step (g : WorkerConfig) (i : worker_input) (w : Worker) : stepped :=
  match w_owner w, i with
  | WNew, IStartWorker =>
      Some (if sender_first (wk_kind g)
            then set_owner true (WSecond (w_clock w)) (Some PCreate) None w
            else set_owner true (WSecond (w_clock w)) None (Some CCreate) w, [])
  | WNew, IThreadFails => Some (set_owner true WNew (w_producer w) (w_consumer w) w, [])
  | WSecond since, ISecondThread =>
      if since + start_delay (wk_kind g) <=? w_clock w then
        Some (if sender_first (wk_kind g)
              then set_owner true WStarted (w_producer w) (Some CCreate) w
              else set_owner true WStarted (Some PCreate) (w_consumer w) w, [])
      else None
  | WSecond since, IThreadFails =>
      if since + start_delay (wk_kind g) <=? w_clock w then Some (w, []) else None
  | (WNew | WSecond _ | WStarted | WStopped), IStopWorker => Some (stop_step w)
  | WClose, IJoinFirst =>
      if producer_done w && negb (polling w)
      then Some (set_owner false WJoin2 None (w_consumer w) w, [OCloseReceiver]) else None
  | WJoin1, IJoinFirst =>
      if producer_done w then Some (set_owner false WJoin2 None (w_consumer w) w, []) else None
  | WJoin2, IJoinSecond => if consumer_done w then Some (release_step w) else None
  | WJoin2, IThreadFails => if consumer_done w && w_upstream w then Some (leak_step false w) else None
  | WJoin2, IThreadFatal => if consumer_done w && w_upstream w then Some (leak_step true w) else None
  | WStopped, IDestroyWorker => Some (set_owner false WDestroyed None None w, [])
  | _, IDetachedDone ended =>
      match w_fate w with
      | FDetached =>
          Some (mkWorker (w_running w) (w_owner w) (w_producer w) (w_consumer w) (w_seq w) (w_next_send w)
                  (w_clock w) (w_pclient w) (w_upstream w) (if ended then FEnded else FNone) (w_cclient w)
                  (w_receiver w) (w_subscribed w), if ended then [OProcessEnds] else [])
      | _ => None
      end
  | _, _ => None
  end.

(** The process is over, and with it the worker: its steps are followed no
    further in Run and EngineLife. *)
Definition w_ended (w : Worker) : bool := match w_fate w with FEnded => true | _ => false end.

(** One step at a time not before the last. *)
Definition worker_step (g : WorkerConfig) (w : Worker) (ti : Z * worker_input) : stepped :=
  let '(t, i) := ti in
  if t <? w_clock w then None
  else
    let w := set_clock t w in
    match i with
    | IStartWorker | ISecondThread | IThreadFails | IThreadFatal | IStopWorker | IJoinFirst | IJoinSecond | IDestroyWorker
    | IDetachedDone _ => owner_worker_step g i w
    | IProduce | IProduceOk _ | IBuilt _ | ISent _ => producer_step g i w
    | IConsume | IConsumeOk _ | IReceived _ | IPolled _ => consumer_step g i w
    | _ => callback_step g i w
    end.

Definition worker_run (g : WorkerConfig) := run (worker_step g).

(** ** What the threads share *)

(** An output of the sending thread. *)
Definition from_producer (o : worker_output) : bool :=
  match o with
  | OSend _ _ _ | OUpstreamSend _ _ _ | OCount FromProducer _ _ => true
  | _ => false
  end.

Definition others_only (o : list worker_output) : Prop := Forall (fun x => from_producer x = false) o.

(** The part of the state the sending thread reads and writes. *)
Definition same_producer (w w' : Worker) : Prop :=
  w_producer w' = w_producer w /\ w_seq w' = w_seq w /\ w_next_send w' = w_next_send w /\
  w_clock w' = w_clock w.

Lemma counted_by_others x l : x <> FromProducer -> others_only (counted_by x l).
Proof. intros Hx. apply Forall_fmap, Forall_true. intros [c n]. by destruct x. Qed.

Ltac others := repeat first [apply Forall_nil_2 | apply Forall_cons_2; [done|]]; try by apply counted_by_others.

Lemma consumer_step_frame g i w w' o :
  consumer_step g i w = Some (w', o) ->
  same_producer w w' /\ w_running w' = w_running w /\ w_owner w' = w_owner w /\ others_only o.
Proof.
  unfold consumer_step. intros Hs. step_cases Hs; (split; [done|]; split; [done|]; split; [done|]); others.
Qed.

Lemma callback_step_frame g i w w' o :
  callback_step g i w = Some (w', o) -> w' = w /\ others_only o.
Proof. unfold callback_step. intros Hs. step_cases Hs; (split; [done|]); others. Qed.

Lemma producer_step_frame g i w w' o :
  producer_step g i w = Some (w', o) ->
  w_running w' = w_running w /\ w_owner w' = w_owner w /\ w_clock w' = w_clock w /\
  w_consumer w' = w_consumer w /\ w_fate w' = w_fate w.
Proof. unfold producer_step. intros Hs. step_cases Hs; done. Qed.

(** What the owner does to the sending thread. *)
Definition owner_effect (g : WorkerConfig) (w w' : Worker) : Prop :=
  (w_producer w' = w_producer w \/ w_producer w' = None \/
   (w_producer w' = Some PCreate /\
    (w_owner w = WNew \/ (exists since, w_owner w = WSecond since /\ sender_first (wk_kind g) = false)))) /\
  w_seq w' = w_seq w /\ w_next_send w' = w_next_send w /\ w_clock w' = w_clock w.

Lemma owner_step_frame g i w w' o :
  owner_worker_step g i w = Some (w', o) -> owner_effect g w w' /\ others_only o.
Proof.
  unfold owner_worker_step, stop_step, release_step, leak_step, owner_effect. intros Hs. step_cases Hs;
    (split; [split; [first [by left | by right; left | right; right; eauto]|done]|others]).
Qed.

(** A step is one of four, at a time not before the last. *)
Lemma worker_step_inv g w t i w' o :
  worker_step g w (t, i) = Some (w', o) ->
  w_clock w <= t /\
  (owner_worker_step g i (set_clock t w) = Some (w', o) \/
   producer_step g i (set_clock t w) = Some (w', o) \/
   consumer_step g i (set_clock t w) = Some (w', o) \/
   callback_step g i (set_clock t w) = Some (w', o)).
Proof.
  unfold worker_step. destruct (Z.ltb_spec t (w_clock w)); [done|]. intros Hs.
  split; [lia|]. destruct i; auto.
Qed.

(** Before the sending thread exists. *)
Definition before_producer (g : WorkerConfig) (w : Worker) : Prop :=
  match w_owner w with
  | WNew => w_producer w = None
  | WSecond _ => sender_first (wk_kind g) = false -> w_producer w = None
  | _ => True
  end.

Lemma before_producer_step g w ti w' o :
  before_producer g w -> worker_step g w ti = Some (w', o) -> before_producer g w'.
Proof.
  destruct ti as [t i]. unfold before_producer.
  intros Hb (_ & [Hs|[Hs|[Hs|Hs]]])%worker_step_inv.
  - unfold owner_worker_step, stop_step, release_step, leak_step in Hs. cbn in Hs. step_cases Hs; try done; congruence.
  - pose proof (producer_step_frame _ _ _ _ _ Hs) as (_ & -> & _). cbn.
    unfold producer_step in Hs. cbn in Hs. destruct (w_owner w); try done.
    + by rewrite Hb in Hs.
    + intros Hf. by rewrite (Hb Hf) in Hs.
  - apply consumer_step_frame in Hs as ((-> & _) & _ & -> & _). done.
  - by apply callback_step_frame in Hs as [-> _].
Qed.

(** ** The rate *)

Definition send_times (outs : list worker_output) : list Z :=
  omap (fun o => match o with OSend t _ _ | OUpstreamSend t _ _ => Some t | _ => None end) outs.

Lemma send_times_others o : others_only o -> send_times o = [].
Proof. induction 1 as [|x o Hx _ IH]; [done|]. destruct x; try discriminate Hx; exact IH. Qed.

Lemma send_times_counted x l : send_times (counted_by x l) = [].
Proof. induction l as [|[c n] l IH]; [done|]. exact IH. Qed.

Lemma send_interval_nonneg rate : 0 <= send_interval rate.
Proof.
  unfold send_interval, div_trunc. pose proof (Z.quot_pos 1000000 (Z.max rate 1)). lia.
Qed.

(** When the next send is due at the earliest: an interval after the last was
    due, and not before the last returned. *)
Definition next_due (c0 interval : Z) (ts : list Z) : Z :=
  foldl (fun due t => Z.max (due + interval) t) c0 ts.

Lemma next_due_snoc c0 I ts t : next_due c0 I (ts ++ [t]) = Z.max (next_due c0 I ts + I) t.
Proof. unfold next_due. by rewrite foldl_app. Qed.

Lemma next_due_start c0 I ts : 0 <= I -> c0 + Z.of_nat (length ts) * I <= next_due c0 I ts.
Proof.
  intros HI. induction ts as [|t ts IH] using rev_ind; [cbn; lia|].
  rewrite next_due_snoc, length_app. cbn [length]. lia.
Qed.

Lemma next_due_after c0 I ts j s :
  0 <= I -> ts !! j = Some s -> s + (Z.of_nat (length ts) - Z.of_nat j - 1) * I <= next_due c0 I ts.
Proof.
  intros HI. induction ts as [|t ts IH] using rev_ind; [done|]. rewrite next_due_snoc, length_app.
  cbn [length]. intros [Hj|[Hj Hs]]%lookup_app_Some.
  - specialize (IH Hj). lia.
  - apply list_lookup_singleton_Some in Hs as [Hk <-]. replace j with (length ts) by lia. lia.
Qed.

(** The next send is not made before [due]. *)
Definition paced (interval : Z) (w : Worker) (due : Z) : Prop :=
  match w_producer w with
  | None | Some PExit => True
  | Some (PCreate | PUpstream | PStart | PNow) => due <= w_clock w
  | Some (PTest | PBuild _ | PSend _ _) => due <= w_next_send w /\ w_next_send w <= w_clock w
  | Some (PFail _ | PPace) => due <= Z.max (w_next_send w + interval) (w_clock w)
  | Some PSleep => due <= w_next_send w
  end.

Lemma paced_frame I w w' due :
  paced I w due -> w_producer w' = w_producer w -> w_next_send w' = w_next_send w ->
  w_clock w <= w_clock w' -> paced I w' due.
Proof. unfold paced. intros Hp -> -> Hc. repeat case_match; try done; intuition lia. Qed.

(** A step of the sending thread adds at most one send, at its time. *)
Lemma producer_step_paced g w w' i o due :
  paced (send_interval (wk_rate g)) w due ->
  producer_step g i w = Some (w', o) ->
  (send_times o = [] /\ paced (send_interval (wk_rate g)) w' due) \/
  (send_times o = [w_clock w] /\ due <= w_clock w /\
     paced (send_interval (wk_rate g)) w' (Z.max (due + send_interval (wk_rate g)) (w_clock w))).
Proof.
  unfold paced. intros Hp Hs. unfold producer_step in Hs. destruct (w_producer w) as [p|] eqn:Ep; [|done].
  destruct p, i; step_cases Hs; cbn; rewrite ?send_times_counted;
    try (left; split; [done|]; cbn; repeat case_match; subst; intuition lia).
  all: right; split; [reflexivity|]; split; intuition lia.
Qed.

(** No send while the sending thread does not exist. *)
Definition unsent (g : WorkerConfig) (w : Worker) (ts : list Z) : Prop :=
  match w_owner w with
  | WNew => ts = []
  | WSecond _ => sender_first (wk_kind g) = false -> ts = []
  | _ => True
  end.

Definition rate_inv (g : WorkerConfig) (c0 : Z) (w : Worker) (ts : list Z) : Prop :=
  c0 <= w_clock w /\ before_producer g w /\ unsent g w ts /\
  paced (send_interval (wk_rate g)) w (next_due c0 (send_interval (wk_rate g)) ts) /\
  (forall k t, ts !! k = Some t ->
     next_due c0 (send_interval (wk_rate g)) (take k ts) <= t /\ t <= w_clock w).

Lemma set_clock_frame t w :
  w_owner (set_clock t w) = w_owner w /\ w_producer (set_clock t w) = w_producer w /\
  w_next_send (set_clock t w) = w_next_send w /\ w_clock (set_clock t w) = t.
Proof. done. Qed.

Lemma unsent_step g w ti w' o ts :
  before_producer g w -> unsent g w ts -> worker_step g w ti = Some (w', o) ->
  unsent g w' (ts ++ send_times o)%list.
Proof.
  destruct ti as [t i]. unfold before_producer, unsent.
  intros Hb Hu (_ & [Hs|[Hs|[Hs|Hs]]])%worker_step_inv.
  - pose proof (owner_step_frame _ _ _ _ _ Hs) as (_ & Ho). rewrite (send_times_others _ Ho), app_nil_r.
    unfold owner_worker_step, stop_step, release_step, leak_step in Hs. cbn in Hs. step_cases Hs; try done; congruence.
  - pose proof (producer_step_frame _ _ _ _ _ Hs) as (_ & -> & _). cbn.
    unfold producer_step in Hs. cbn in Hs. destruct (w_owner w); try done.
    + by rewrite Hb in Hs.
    + intros Hf. by rewrite (Hb Hf) in Hs.
  - apply consumer_step_frame in Hs as (_ & _ & -> & Ho). by rewrite (send_times_others _ Ho), app_nil_r.
  - apply callback_step_frame in Hs as [-> Ho]. by rewrite (send_times_others _ Ho), app_nil_r.
Qed.

Lemma paced_step g c0 w ti w' o ts :
  let I := send_interval (wk_rate g) in
  c0 <= w_clock w -> unsent g w ts -> paced I w (next_due c0 I ts) ->
  worker_step g w ti = Some (w', o) ->
  w_clock w' = fst ti /\ w_clock w <= fst ti /\
  ((send_times o = [] /\ paced I w' (next_due c0 I ts)) \/
   (send_times o = [fst ti] /\ next_due c0 I ts <= fst ti /\ paced I w' (next_due c0 I (ts ++ [fst ti])))).
Proof.
  destruct ti as [t i]. cbv zeta. intros Hc Hu Hp (Ht & Hs)%worker_step_inv. cbn [fst].
  assert (paced (send_interval (wk_rate g)) (set_clock t w)
            (next_due c0 (send_interval (wk_rate g)) ts)) as Hpt.
  { eapply paced_frame; [exact Hp|done..]. }
  destruct Hs as [Hs|[Hs|[Hs|Hs]]].
  - apply owner_step_frame in Hs as [(Hpr & _ & Hn & Hw) Ho]. split; [done|]. split; [done|]. left.
    split; [by apply send_times_others|]. cbn in *. destruct Hpr as [Hpr|[Hpr|[Hpr Hu']]].
    + eapply paced_frame; [exact Hpt|done|done|cbn; lia].
    + unfold paced. by rewrite Hpr.
    + unfold paced, unsent in *. rewrite Hpr. destruct Hu' as [Hw0|(s & Hw0 & Hf)]; rewrite Hw0 in Hu.
      * rewrite Hu. cbn. lia.
      * rewrite (Hu Hf). cbn. lia.
  - pose proof (producer_step_frame _ _ _ _ _ Hs) as (_ & _ & Hw & _). split; [done|]. split; [done|].
    rewrite next_due_snoc. exact (producer_step_paced g _ _ _ _ _ Hpt Hs).
  - apply consumer_step_frame in Hs as ((Hpr & _ & Hn & Hw) & _ & _ & Ho). split; [done|]. split; [done|].
    left. split; [by apply send_times_others|]. eapply paced_frame; [exact Hpt|done|done|rewrite Hw; cbn; lia].
  - apply callback_step_frame in Hs as [-> Ho]. split; [done|]. split; [done|].
    left. split; [by apply send_times_others|done].
Qed.

Lemma rate_inv_step g c0 w ts ti w' o :
  rate_inv g c0 w ts -> worker_step g w ti = Some (w', o) ->
  rate_inv g c0 w' (ts ++ send_times o)%list.
Proof.
  intros (Hc & Hb & Hu & Hp & Ht) Hs.
  destruct (paced_step g c0 w ti w' o ts Hc Hu Hp Hs) as (Hw & Hle & Hcases).
  split; [lia|]. split; [by eapply before_producer_step|]. split; [by eapply unsent_step|].
  destruct Hcases as [[-> Hp']|(-> & Hlow & Hp')].
  - rewrite app_nil_r. split; [done|]. intros k t Hk. specialize (Ht k t Hk). lia.
  - split; [done|]. intros k t Hk. apply lookup_app_Some in Hk as [Hk|[Hge Hk]].
    + rewrite take_app_le by (apply lookup_lt_Some in Hk; lia). specialize (Ht k t Hk). lia.
    + apply list_lookup_singleton_Some in Hk as [Hk <-]. replace k with (length ts) by lia.
      rewrite take_app_length. lia.
Qed.

Lemma worker_rate_inv g c0 ins w outs :
  worker_run g (Worker_new c0) ins = Some (w, outs) -> rate_inv g c0 w (send_times outs).
Proof.
  revert ins w outs. apply (run_ind (worker_step g) _ (fun w _ outs => rate_inv g c0 w (send_times outs))).
  - unfold rate_inv, before_producer, unsent, paced. cbn. split_and!; [lia|done..].
  - intros s ins outs i s' o _ Hi Hs. unfold send_times in *. rewrite omap_app.
    by eapply rate_inv_step.
Qed.

(** C25: no worker sends faster than its rate. In every run of a worker of any
    kind, with any answers of the SDK, any delays, and its owner, receiving
    thread and callbacks in between, a send having the time its call returns:
    the (k+1)-th send is no earlier than k intervals after the worker was made,
    so that in its first [d] nanoseconds it makes at most [d / interval + 1];
    and late sends are not made up for by a burst: from the (j+1)-th to the
    (k+1)-th send at least [k - j - 1] intervals pass, wherever in the run. An
    interval is a second divided by the rate, in whole microseconds, the rate
    taken as 1 when it is below. *)
Theorem worker_rate_bounded (g : WorkerConfig) (c0 : Z) (ins : list (Z * worker_input)) (w : Worker)
    (outs : list worker_output) :
  worker_run g (Worker_new c0) ins = Some (w, outs) ->
  (forall k t, send_times outs !! k = Some t ->
     c0 + Z.of_nat k * send_interval (wk_rate g) <= t <= w_clock w) /\
  (Z.of_nat (length (send_times outs)) - 1) * send_interval (wk_rate g) <= w_clock w - c0 /\
  (forall j k s t, (j < k)%nat -> send_times outs !! j = Some s -> send_times outs !! k = Some t ->
     (Z.of_nat k - Z.of_nat j - 1) * send_interval (wk_rate g) <= t - s).
Proof.
  intros Hr. destruct (worker_rate_inv _ _ _ _ _ Hr) as (Hc & _ & _ & _ & Ht).
  pose proof (send_interval_nonneg (wk_rate g)) as HI. set (ts := send_times outs) in *.
  assert (forall k t, ts !! k = Some t -> length (take k ts) = k) as Hl.
  { intros k t Hk. apply lookup_lt_Some in Hk. rewrite length_take. lia. }
  assert (forall k t, ts !! k = Some t -> c0 + Z.of_nat k * send_interval (wk_rate g) <= t <= w_clock w) as Hs.
  { intros k t Hk. pose proof (next_due_start c0 _ (take k ts) HI) as Hd. rewrite (Hl k t Hk) in Hd.
    specialize (Ht k t Hk). lia. }
  split; [exact Hs|]. split.
  - destruct ts as [|t0 ts'] eqn:E; [cbn; lia|].
    destruct (lookup_lt_is_Some_2 (t0 :: ts') (length ts')) as [t Hk]; [cbn; lia|].
    specialize (Hs _ _ Hk). cbn [length]. lia.
  - intros j k s t Hjk Hj Hk. pose proof (next_due_after c0 _ (take k ts) j s HI) as Hd.
    rewrite (Hl k t Hk), lookup_take_lt in Hd by done. specialize (Hd Hj). specialize (Ht k t Hk). lia.
Qed.

(** Events at ten a second: the third send is a fifth of a second late, and
    the fourth comes at once. *)
Definition demo_events_worker : WorkerConfig :=
  mkWorkerConfig EventsWorker "localhost:50000" "p" "burnin.cpp.r.events.0" 10 QueueConfig_new.

Definition demo_events_run : list (Z * worker_input) :=
  let ok := ISent (RStatus StatusOk) in
  [(0, IStartWorker); (0, ISecondThread); (0, IProduceOk true); (0, IProduce); (0, IProduce); (0, ok);
   (0, IProduce); (100000000, IProduce); (100000000, IProduce); (100000000, ok); (400000000, IProduce);
   (400000000, IProduce); (400000000, IProduce); (400000000, ok); (400000001, IProduce);
   (500000000, IProduce)].

Lemma worker_rate_bounded_witness :
  exists w outs, worker_run demo_events_worker (Worker_new 0) demo_events_run = Some (w, outs) /\
    send_times outs = [0; 100000000; 400000000] /\
    (Z.of_nat (length (send_times outs)) - 1) * 100000000 <= w_clock w - 0.
Proof.
  destruct (worker_run demo_events_worker (Worker_new 0) demo_events_run) as [[w outs]|] eqn:E.
  2: { vm_compute in E. discriminate E. }
  exists w, outs. split; [reflexivity|].
  destruct (worker_rate_bounded demo_events_worker 0 demo_events_run w outs E) as (_ & H & _).
  split; [|exact H]. vm_compute in E. injection E as _ <-. reflexivity.
Defined.
