(* ===== verification/WorkerCounts.v ===== *)
(** * What the burn-in workers send and count

    Every run of a worker sends the numbered bodies of its kind in order, as
    the SDK operation of its kind, and counts each outcome exactly once. *)

From Stdlib Require Import ZArith Lia Ascii String.
From S2P Require Import Prelude Automaton Status Messages Converter Client Subscription Downstream.
From S2P Require Import Config Metrics Worker.

Local Open Scope string_scope.
Local Open Scope Z_scope.

(** ** Observing a run *)

Definition sent_results (ins : list (Z * worker_input)) : list SendResult :=
  omap (fun ti => match snd ti with ISent r => Some r | _ => None end) ins.

(** The unary sends, each with the operation called. *)
Definition sends (outs : list worker_output) : list (string * option ClientOp) :=
  omap (fun o => match o with OSend _ b op => Some (b, op) | _ => None end) outs.

Fixpoint counted (x : who) (c : Counter) (outs : list worker_output) : Z :=
  match outs with
  | [] => 0
  | OCount y c' n :: outs' => (if decide (x = y /\ c = c') then n else 0) + counted x c outs'
  | _ :: outs' => counted x c outs'
  end.

Definition expected_send (g : WorkerConfig) (i : nat) : string * option ClientOp :=
  let body := send_body (wk_kind g) (to_uint64 (Z.of_nat i)) in (body, send_op g body).

Definition expected_sends (g : WorkerConfig) (n : nat) : list (string * option ClientOp) :=
  expected_send g <$> seq 1 n.

Definition accepted_sends (rs : list SendResult) : Z :=
  Z.of_nat (length (List.filter send_accepted rs)).

Definition refused (rs : list SendResult) : Z := Z.of_nat (length rs) - accepted_sends rs.

(** The sizes of the bodies of the accepted sends. *)
Fixpoint accepted_bytes (k : WorkerKind) (i : nat) (rs : list SendResult) : Z :=
  match rs with
  | [] => 0
  | r :: rs' =>
      (if send_accepted r then body_size (send_body k (to_uint64 (Z.of_nat i))) else 0)
      + accepted_bytes k (S i) rs'
  end.

(** ** Lemmas *)

Lemma counted_app x c l l' : counted x c (l ++ l') = counted x c l + counted x c l'.
Proof. induction l as [|[] l IH]; cbn; rewrite ?IH; try done. lia. Qed.

Lemma counted_others c o : others_only o -> counted FromProducer c o = 0.
Proof.
  induction 1 as [|x o Hx _ IH]; [done|]. cbn. destruct x; try discriminate Hx; try done.
  destruct by_; try discriminate Hx; by rewrite decide_False by naive_solver.
Qed.

Lemma sends_app l l' : sends (l ++ l') = (sends l ++ sends l')%list.
Proof. apply omap_app. Qed.

Lemma sends_others o : others_only o -> sends o = [].
Proof. induction 1 as [|x o Hx _ IH]; [done|]. destruct x; try discriminate Hx; exact IH. Qed.

Lemma sends_counted x l : sends (counted_by x l) = [].
Proof. induction l as [|[c n] l IH]; [done|]. exact IH. Qed.

Lemma accepted_sends_snoc rs r : accepted_sends (rs ++ [r]) = accepted_sends rs + (if send_accepted r then 1 else 0).
Proof.
  unfold accepted_sends. rewrite List.filter_app, length_app. cbn. destruct (send_accepted r); cbn; lia.
Qed.

Lemma refused_snoc rs r : refused (rs ++ [r]) = refused rs + (if send_accepted r then 0 else 1).
Proof. unfold refused. rewrite accepted_sends_snoc, length_app. cbn. destruct (send_accepted r); lia. Qed.

Lemma accepted_bytes_snoc k i rs r :
  accepted_bytes k i (rs ++ [r]) = accepted_bytes k i rs +
    (if send_accepted r then body_size (send_body k (to_uint64 (Z.of_nat (i + length rs)))) else 0).
Proof.
  revert i. induction rs as [|r' rs IH]; intros i; cbn.
  - rewrite Nat.add_0_r. lia.
  - rewrite IH. replace (S i + length rs)%nat with (i + S (length rs))%nat by lia. lia.
Qed.

Lemma expected_sends_snoc g n : expected_sends g (S n) = (expected_sends g n ++ [expected_send g (S n)])%list.
Proof. unfold expected_sends. by rewrite seq_S, fmap_app. Qed.

(** ** The invariant *)

Definition is_rpc (k : WorkerKind) : bool :=
  match k with CommandsWorker | QueriesWorker => true | _ => false end.

Definition in_send (w : Worker) : Z := match w_producer w with Some (PSend _ _) => 1 | _ => 0 end.

(** How the errors counted relate to the refused sends; the queue stream is
    apart. *)
Definition errors_inv (w : Worker) (n R E : Z) : Prop :=
  match w_producer w with
  | None | Some PExit => E <= R \/ (n = 0 /\ E = 1)
  | Some (PCreate | PUpstream | PStart) => n = 0 /\ R = 0 /\ E = 0
  | Some (PFail _) => E + 1 <= R /\ (w_running w = true -> E + 1 = R)
  | _ => E <= R /\ (w_running w = true -> E = R)
  end.

Definition rpc_inv (k : WorkerKind) (gone : bool) (n E S F A : Z) : Prop :=
  if is_rpc k then S = A /\ (F = E \/ (gone = true /\ n = 0 /\ F = 0)) else S = 0 /\ F = 0.

Definition counts_inv (g : WorkerConfig) (w : Worker) (rs : list SendResult)
    (bs : list (string * option ClientOp)) (cnt : Counter -> Z) : Prop :=
  let n := Z.of_nat (length rs) in
  bs = expected_sends g (length rs) /\
  w_seq w = to_uint64 (n + in_send w) /\
  (forall body batch, w_producer w = Some (PSend body batch) -> body = send_body (wk_kind g) (w_seq w)) /\
  (forall body, w_producer w <> Some (PBuild body)) /\
  cnt Csent = accepted_sends rs /\ cnt Cbytes_sent = accepted_bytes (wk_kind g) 1 rs /\
  errors_inv w n (refused rs) (cnt Cerrors) /\
  rpc_inv (wk_kind g) (producer_done w) n (cnt Cerrors) (cnt Crpc_success)
    (cnt Crpc_timeout + cnt Crpc_error) (accepted_sends rs).

(** Before the thread exists nothing is sent; [running_] is set between the
    two threads; after the first join the thread is gone. *)
Definition stage_inv (g : WorkerConfig) (w : Worker) (n R E : Z) : Prop :=
  match w_owner w with
  | WNew => n = 0 /\ R = 0 /\ E = 0
  | WSecond _ => w_running w = true /\ (sender_first (wk_kind g) = false -> n = 0 /\ R = 0 /\ E = 0)
  | WStarted | WClose | WJoin1 => True
  | WJoin2 | WStopped | WDestroyed => w_producer w = None
  end.

(** Steps of the others change at most the flag and whether the thread is. *)
Lemma counts_frame g w w' rs bs cnt :
  counts_inv g w rs bs cnt -> w_seq w' = w_seq w ->
  (w_producer w' = w_producer w /\ (w_running w' = true -> w_running w = true)) \/
  (w_producer w' = None /\ producer_done w = true) \/
  (w_producer w' = Some PCreate /\ w_producer w = None /\ Z.of_nat (length rs) = 0 /\ refused rs = 0 /\
   cnt Cerrors = 0) ->
  counts_inv g w' rs bs cnt.
Proof.
  unfold counts_inv, errors_inv, in_send, producer_done.
  intros (? & Hq & Hb & Hnb & ? & ? & He & Hrpc) Hs [[Hp Hr]|[[Hp Hd]|(Hp & Hp0 & Hn & HR & HE)]]; rewrite Hs, Hp.
  - split_and!; try done. repeat case_match; intuition.
  - split_and!; try done; destruct (w_producer w) as [[]|]; done.
  - rewrite Hp0 in Hq. split_and!; try done. unfold rpc_inv in *. rewrite Hp0 in Hrpc.
    destruct (is_rpc (wk_kind g)); intuition lia.
Qed.

Lemma owner_step_input g i w w' o :
  owner_worker_step g i w = Some (w', o) -> forall r, i <> ISent r.
Proof. unfold owner_worker_step. intros Hs r ->. by destruct (w_owner w). Qed.

Lemma consumer_step_input g i w w' o :
  consumer_step g i w = Some (w', o) -> forall r, i <> ISent r.
Proof. unfold consumer_step. intros Hs r ->. destruct (w_consumer w) as [[]|]; done. Qed.

Lemma callback_step_input g i w w' o :
  callback_step g i w = Some (w', o) -> forall r, i <> ISent r.
Proof. unfold callback_step. intros Hs r ->. by destruct (wk_kind g). Qed.

Lemma sent_results_none t i : (forall r, i <> ISent r) -> sent_results [(t, i)] = [].
Proof. intros Hi. destruct i; try done. by destruct (Hi r). Qed.

Lemma is_sent_or_not i : (exists r, i = ISent r) \/ (forall r, i <> ISent r).
Proof. destruct i; first [by left; eauto | by right]. Qed.

(** *** The owner *)

Lemma owner_counts g i w w' o rs bs cnt :
  before_producer g w -> stage_inv g w (Z.of_nat (length rs)) (refused rs) (cnt Cerrors) ->
  counts_inv g w rs bs cnt -> owner_worker_step g i w = Some (w', o) ->
  counts_inv g w' rs bs cnt /\ stage_inv g w' (Z.of_nat (length rs)) (refused rs) (cnt Cerrors).
Proof.
  unfold before_producer, stage_inv. intros Hb Hst Hc Hs.
  assert (w_seq w' = w_seq w) as Hq by (apply owner_step_frame in Hs as [(_ & ? & _) _]; done).
  unfold owner_worker_step, stop_step, release_step, leak_step in Hs.
  step_cases Hs; (split; [eapply counts_frame; [exact Hc|done|]|]); cbn in *.
  all: try (by left); try (by intuition); try (by right; left).
  all: right; left; split; [done|]; try by apply andb_true_iff in H0 as [? _].
  all: unfold producer_done; first [by rewrite Hb | by rewrite Hst].
Qed.

(** *** The sending thread *)

Lemma counted_by_self c x l : counted x c (counted_by x l) =
  foldr (fun cn acc => (if decide (c = fst cn) then snd cn else 0) + acc) 0 l.
Proof.
  induction l as [|[c' n] l IH]; cbn; [done|].
  destruct (decide (c = c')) as [->|]; [rewrite decide_True by done|rewrite decide_False by naive_solver];
    f_equal; exact IH.
Qed.

(** What one outcome adds to the counters of its kind. *)
Lemma count_accepted_spec k body r c :
  k <> QueueStreamWorker -> result_of k r = true -> send_accepted r = true ->
  let add := counted FromProducer c (counted_by FromProducer (count_accepted k body r)) in
  match c with
  | Csent => add = 1
  | Cbytes_sent => add = body_size body
  | Crpc_success => add = if is_rpc k then 1 else 0
  | Cerrors | Crpc_timeout | Crpc_error => add = 0
  | _ => True
  end.
Proof.
  intros Hk Hr Ha. cbn zeta. rewrite counted_by_self.
  destruct k, r as [|[]|[]|[]|[]]; try done; destruct c; cbn; repeat (case_match; cbn); try done; lia.
Qed.

Lemma count_failed_spec k s c :
  let add := counted FromProducer c (counted_by FromProducer (count_failed k s)) in
  match c with
  | Cerrors => add = 1
  | Csent | Cbytes_sent | Crpc_success => add = 0
  | _ => True
  end /\
  counted FromProducer Crpc_timeout (counted_by FromProducer (count_failed k s)) +
  counted FromProducer Crpc_error (counted_by FromProducer (count_failed k s)) = if is_rpc k then 1 else 0.
Proof.
  cbn zeta. rewrite !counted_by_self. unfold count_failed.
  destruct k; destruct (decide (code_ s = kTimeout)); destruct c; done.
Qed.

Lemma to_uint64_succ z : to_uint64 (to_uint64 z + 1) = to_uint64 (z + 1).
Proof. apply wrap_u_add_l. Qed.

Definition added (cnt : Counter -> Z) (o : list worker_output) (c : Counter) : Z :=
  cnt c + counted FromProducer c o.

Lemma sends_call t b op l : sends (OSend t b op :: l) = (b, op) :: sends l.
Proof. done. Qed.

Lemma counted_call x c t b op l : counted x c (OSend t b op :: l) = counted x c l.
Proof. done. Qed.

(** The send returned. *)
Lemma sent_counts g w w' o rs bs cnt r :
  wk_kind g <> QueueStreamWorker -> counts_inv g w rs bs cnt ->
  producer_step g (ISent r) w = Some (w', o) ->
  counts_inv g w' (rs ++ [r]) (bs ++ sends o) (added cnt o).
Proof.
  unfold counts_inv, added. intros Hk (-> & Hq & Hb & _ & Hs & Hby & He & Hr) Hst.
  unfold producer_step in Hst. destruct (w_producer w) as [[]|] eqn:Ep; try done.
  rewrite bool_decide_false in Hst by done.
  destruct (result_of (wk_kind g) r) eqn:Ek; [|done].
  rewrite (Hb _ _ eq_refl) in *. unfold in_send in Hq. rewrite Ep in Hq.
  unfold errors_inv in He. rewrite Ep in He. rewrite length_app, Nat2Z.inj_add. cbn [length].
  rewrite accepted_sends_snoc, refused_snoc, accepted_bytes_snoc, Nat.add_1_r, expected_sends_snoc.
  unfold expected_send. replace (Z.of_nat (S (length rs))) with (Z.of_nat (length rs) + 1) by lia.
  change (1 + length rs)%nat with (S (length rs)).
  replace (Z.of_nat (S (length rs))) with (Z.of_nat (length rs) + 1) by lia.
  destruct (send_accepted r) eqn:Ea; injection Hst as <- <-; cbn [set_producer w_producer w_seq];
    rewrite sends_call, ?sends_counted, ?counted_call, <- Hq.
  - pose proof (fun c => count_accepted_spec _ (send_body (wk_kind g) (w_seq w)) r c Hk Ek Ea) as Hc.
    cbn zeta in Hc. rewrite (Hc Csent), (Hc Cbytes_sent), (Hc Cerrors), (Hc Crpc_success),
      (Hc Crpc_timeout), (Hc Crpc_error).
    split_and!; try done.
    + by rewrite Hq, Z.add_0_r.
    + lia.
    + lia.
    + unfold errors_inv. cbn. intuition lia.
    + unfold rpc_inv, producer_done in *. rewrite Ep in Hr. cbn in *.
      destruct (is_rpc (wk_kind g)); intuition (lia || congruence).
  - cbn [counted]. split_and!; try done.
    + by rewrite Hq, Z.add_0_r.
    + lia.
    + lia.
    + unfold errors_inv. cbn. intuition lia.
    + unfold rpc_inv, producer_done in *. rewrite Ep in Hr. cbn in *.
      destruct (is_rpc (wk_kind g)); intuition (lia || congruence).
Qed.

(** Any other step of the thread. *)
Lemma producer_counts g w w' o i rs bs cnt :
  wk_kind g <> QueueStreamWorker -> counts_inv g w rs bs cnt -> (forall r, i <> ISent r) ->
  producer_step g i w = Some (w', o) -> counts_inv g w' rs (bs ++ sends o) (added cnt o).
Proof.
  unfold counts_inv, added. intros Hk (-> & Hq & Hb & Hnb & Hs & Hby & He & Hr) Hi Hst.
  unfold producer_step in Hst. rewrite bool_decide_false in Hst by done.
  unfold in_send, errors_inv, rpc_inv, producer_done in *.
  destruct (w_producer w) as [p|] eqn:Ep; [|done].
  destruct p; try (by destruct (Hnb body)); destruct i; try done; try (by destruct (Hi r)).
  all: step_cases Hst; rewrite ?sends_counted, ?app_nil_r; cbn [counted sends omap].
  all: try (change (sends [_]) with (@nil (string * option ClientOp)); rewrite ?app_nil_r).
  all: try (destruct (count_failed_spec (wk_kind g) s Csent) as [F1 F2];
            destruct (count_failed_spec (wk_kind g) s Cbytes_sent) as [F3 _];
            destruct (count_failed_spec (wk_kind g) s Cerrors) as [F4 _];
            destruct (count_failed_spec (wk_kind g) s Crpc_success) as [F5 _];
            cbn zeta in F1, F3, F4, F5; try rewrite H in F2).
  all: split_and!; try done.
  all: try (rewrite Hq, Z.add_0_r; apply to_uint64_succ).
  all: try (by intros ? ? [= <- <-]).
  all: intuition (lia || congruence).
Qed.

(** *** Runs *)

Lemma counts_ext g w rs bs cnt cnt' :
  (forall c, cnt c = cnt' c) -> counts_inv g w rs bs cnt -> counts_inv g w rs bs cnt'.
Proof. unfold counts_inv. intros He. by rewrite !He. Qed.

Lemma counts_quiet g w rs bs cnt o :
  others_only o -> counts_inv g w rs bs cnt -> counts_inv g w rs (bs ++ sends o) (added cnt o).
Proof.
  intros Ho Hc. rewrite (sends_others o Ho), app_nil_r. eapply counts_ext; [|exact Hc].
  intros c. unfold added. rewrite (counted_others c o Ho). lia.
Qed.

Definition run_inv (g : WorkerConfig) (w : Worker) (rs : list SendResult)
    (bs : list (string * option ClientOp)) (cnt : Counter -> Z) : Prop :=
  before_producer g w /\ stage_inv g w (Z.of_nat (length rs)) (refused rs) (cnt Cerrors) /\
  counts_inv g w rs bs cnt.

(** The other steps do not touch what the stage needs. *)
Lemma stage_frame g w w' n R E :
  stage_inv g w n R E -> w_owner w' = w_owner w -> w_running w' = w_running w ->
  w_producer w' = w_producer w -> stage_inv g w' n R E.
Proof. unfold stage_inv. intros Hs -> -> ->. done. Qed.

Lemma producer_stage g w w' o i n R E n' R' E' :
  before_producer g w -> stage_inv g w n R E -> producer_step g i w = Some (w', o) ->
  stage_inv g w' n' R' E'.
Proof.
  unfold stage_inv, before_producer. intros Hb Hs Hst.
  destruct (producer_step_frame _ _ _ _ _ Hst) as (-> & -> & _).
  unfold producer_step in Hst. destruct (w_owner w); try done.
  - by rewrite Hb in Hst.
  - destruct Hs as [Hr _]. split; [done|]. intros Hf. by rewrite (Hb Hf) in Hst.
  - by rewrite Hs in Hst.
  - by rewrite Hs in Hst.
  - by rewrite Hs in Hst.
Qed.

Lemma run_inv_step g w rs bs cnt t i w' o :
  wk_kind g <> QueueStreamWorker -> run_inv g w rs bs cnt -> worker_step g w (t, i) = Some (w', o) ->
  run_inv g w' (rs ++ sent_results [(t, i)]) (bs ++ sends o) (added cnt o).
Proof.
  intros Hk (Hb & Hst & Hc) Hs. pose proof (before_producer_step _ _ _ _ _ Hb Hs) as Hb'.
  split; [done|]. apply worker_step_inv in Hs as [_ Hs].
  assert (before_producer g (set_clock t w)) as Hbt by exact Hb.
  assert (stage_inv g (set_clock t w) (Z.of_nat (length rs)) (refused rs) (cnt Cerrors)) as Hstt by exact Hst.
  assert (counts_inv g (set_clock t w) rs bs cnt) as Hct by exact Hc. clear Hb Hst Hc Hb'.
  destruct Hs as [Hs|[Hs|[Hs|Hs]]].
  - rewrite (sent_results_none t i) by (by eapply owner_step_input). rewrite app_nil_r.
    destruct (owner_counts _ _ _ _ _ _ _ _ Hbt Hstt Hct Hs) as [Hc' Hs'].
    apply owner_step_frame in Hs as [_ Ho]. split; [|by apply counts_quiet].
    unfold added. by rewrite (counted_others _ _ Ho), Z.add_0_r.
  - split; [by eapply producer_stage|].
    destruct (is_sent_or_not i) as [[r ->]|Hi]; [by eapply sent_counts|].
    rewrite (sent_results_none t i Hi), app_nil_r. by eapply producer_counts.
  - rewrite (sent_results_none t i) by (by eapply consumer_step_input). rewrite app_nil_r.
    apply consumer_step_frame in Hs as ((Hp & Hq & _) & Hr & Hw & Ho). split.
    + unfold added. rewrite (counted_others _ _ Ho), Z.add_0_r. by eapply stage_frame.
    + apply counts_quiet; [done|]. eapply counts_frame; [exact Hct|done|]. left. by rewrite Hr.
  - rewrite (sent_results_none t i) by (by eapply callback_step_input). rewrite app_nil_r.
    apply callback_step_frame in Hs as [-> Ho]. split; [|by apply counts_quiet].
    unfold added. by rewrite (counted_others _ _ Ho), Z.add_0_r.
Qed.

Lemma worker_run_inv g c0 ins w outs :
  wk_kind g <> QueueStreamWorker -> worker_run g (Worker_new c0) ins = Some (w, outs) ->
  run_inv g w (sent_results ins) (sends outs) (fun c => counted FromProducer c outs).
Proof.
  intros Hk. revert ins w outs. apply (run_ind (worker_step g) _ (fun w ins outs =>
    run_inv g w (sent_results ins) (sends outs) (fun c => counted FromProducer c outs))).
  - unfold run_inv, before_producer, stage_inv, counts_inv, errors_inv, rpc_inv. cbn.
    destruct (is_rpc (wk_kind g)); split_and!; try done; by left.
  - intros s ins outs [t i] s' o _ Hi Hs. pose proof (run_inv_step _ _ _ _ _ _ _ _ _ Hk Hi Hs) as Hn.
    unfold sent_results in *. rewrite omap_app, sends_app. unfold run_inv in *.
    destruct Hn as (? & Hst & Hc). split; [done|]. rewrite counted_app. split; [done|].
    eapply counts_ext; [|exact Hc]. intros c. by rewrite counted_app.
Qed.

(** The refused send whose error is still to be counted. *)
Definition being_counted (w : Worker) : Z :=
  match w_producer w with Some (PFail _) => 1 | _ => 0 end.


(** ** On a concrete worker *)

Definition demo_worker : WorkerConfig :=
  mkWorkerConfig CommandsWorker "localhost:50000" "p" "burnin.cpp.r.commands.0" 2 QueueConfig_new.

Definition demo_reply : CommandResponse := mkCommandResponse "" "" "" true 0 "" ∅.

(** Two commands half a second apart: one answered, one timed out. *)
Definition demo_worker_run : list (Z * worker_input) :=
  [(0, IStartWorker); (0, IConsumeOk true); (1, IConsumeOk true); (500000000, ISecondThread);
   (500000001, IProduceOk true); (500000002, IProduce); (500000003, IProduce);
   (500000004, ISent (RCommand (SValue demo_reply))); (500000010, IProduce); (1000000002, IProduce);
   (1000000003, IProduce); (1000000005, ISent (RCommand (SError (StatusMsg kTimeout "late"))));
   (1000000006, IProduce); (1000000007, IProduce)].

