(* ===== verification/WorkerStop.v ===== *)
(** * How the burn-in workers stop

    [Stop] clears the flag and joins both threads, so it returns only if they
    end: they do, within a few steps each, whatever the SDK answers. What can
    outlive the worker is the upstream handle of the queue stream, which
    [Stop] gives to a detached thread. *)

From Stdlib Require Import ZArith Lia Ascii String.
From S2P Require Import Prelude Automaton Status Messages Converter Client Subscription Downstream.
From S2P Require Import Config Metrics Worker.

Local Open Scope string_scope.
Local Open Scope Z_scope.

(** [Stop] has been called and nothing restarts the worker. *)
Definition stopping (w : Worker) : bool :=
  match w_owner w with WClose | WJoin1 | WJoin2 | WStopped | WDestroyed => true | _ => false end.

Definition is_producer_input (i : worker_input) : bool :=
  match i with IProduce | IProduceOk _ | IBuilt _ | ISent _ => true | _ => false end.

Definition is_consumer_input (i : worker_input) : bool :=
  match i with IConsume | IConsumeOk _ | IReceived _ | IPolled _ => true | _ => false end.

Definition is_callback_input (i : worker_input) : bool :=
  match i with
  | IMessageCallback _ | ICommandCallback _ _ | IQueryCallback _ _ | IErrorCallback
  | IUpstreamResult _ | IUpstreamError => true
  | _ => false
  end.

Definition steps_of (f : worker_input -> bool) (ins : list (Z * worker_input)) : nat :=
  length (List.filter (fun ti => f (snd ti)) ins).

(** Steps each thread can still take once the flag is cleared. *)
Definition producer_distance (w : Worker) : nat :=
  match w_producer w with
  | None | Some PExit => 0 | Some PTest => 1 | Some (PSleep | PNow | PStart) => 2
  | Some (PPace | PUpstream) => 3 | Some (PFail _ | PCreate) => 4 | Some (PSend _ _) => 5
  | Some (PBuild _) => 6
  end.

Definition consumer_distance (w : Worker) : nat :=
  match w_consumer w with
  | None | Some CExit => 0 | Some CCancel => 1 | Some CTest => 2
  | Some (CWait | CAck | CFail | CSubscribe) => 3 | Some (CPoll | CCreate) => 4
  end.

(** Sends still to be made. *)
Definition send_left (w : Worker) : nat :=
  match w_producer w with Some (PBuild _ | PSend _ _) => 1 | _ => 0 end.

(** What holds in every run: the subscription lives inside [CTest] to
    [CCancel], the polling steps belong to the queue workers, and the threads
    are where the owner's stage says. *)
Definition life_inv (g : WorkerConfig) (w : Worker) : Prop :=
  (w_subscribed w = true -> subscribe_op g <> None /\
     match w_consumer w with Some (CTest | CWait | CCancel) => True | _ => False end) /\
  (match w_consumer w with Some (CPoll | CAck | CFail) => subscribe_op g = None | _ => True end) /\
  (stopping w = true -> w_running w = false) /\
  match w_owner w with
  | WNew => w_producer w = None /\ w_consumer w = None
  | WSecond _ => if sender_first (wk_kind g) then w_consumer w = None else w_producer w = None
  | WStarted | WClose | WJoin1 => True
  | WJoin2 => w_producer w = None
  | WStopped | WDestroyed => w_producer w = None /\ w_consumer w = None
  end.

Ltac settle_life :=
  split_and!; try done; try tauto; try congruence; repeat case_match;
  try tauto; try congruence; try (exfalso; intuition congruence).

Lemma life_inv_step g w ti w' o :
  life_inv g w -> worker_step g w ti = Some (w', o) -> life_inv g w'.
Proof.
  destruct ti as [t i]. unfold life_inv, stopping. intros (Hs & Hp & Hr & Ho) Hst.
  apply worker_step_inv in Hst as [_ [Hst|[Hst|[Hst|Hst]]]].
  - unfold owner_worker_step, stop_step, release_step, leak_step, producer_done, consumer_done in Hst. cbn in Hst.
    step_cases Hst; settle_life.
  - assert (w_subscribed w' = w_subscribed w) as Hsub
      by (unfold producer_step in Hst; step_cases Hst; done).
    assert (w_producer w <> None) as Hn by (unfold producer_step in Hst; intros E; cbn in Hst; by rewrite E in Hst).
    destruct (producer_step_frame _ _ _ _ _ Hst) as (-> & -> & _ & -> & _). rewrite Hsub. cbn.
    split_and!; try done. destruct (w_owner w); try done; [by destruct Ho|by case_match|by destruct Ho..].
  - assert (w_consumer w <> None) as Hn by (unfold consumer_step in Hst; intros E; cbn in Hst; by rewrite E in Hst).
    destruct (consumer_step_frame _ _ _ _ _ Hst) as ((-> & _) & -> & -> & _). cbn.
    apply and_assoc. split; [|split; [done|]].
    + clear Hr Ho Hn. unfold consumer_step in Hst. cbn in Hst. destruct (w_consumer w) as [c|] eqn:Ec; [|done].
      destruct c; step_cases Hst; (split; [|done]); intuition congruence.
    + destruct (w_owner w); try done; [by destruct Ho|by case_match|by destruct Ho..].
  - apply callback_step_frame in Hst as [-> _]. done.
Qed.

Definition one_if (b : bool) : nat := if b then 1 else 0.

Lemma producer_step_distance g i w w' o :
  w_running w = false -> producer_step g i w = Some (w', o) ->
  (producer_distance w' + 1 <= producer_distance w)%nat /\
  (send_left w' + length (send_times o) <= send_left w)%nat /\
  consumer_distance w' = consumer_distance w /\ is_producer_input i = true /\ is_consumer_input i = false.
Proof.
  intros Hr Hs. assert (consumer_distance w' = consumer_distance w) as Hc.
  { apply producer_step_frame in Hs as (_ & _ & _ & Hc & _). unfold consumer_distance. by rewrite Hc. }
  unfold producer_step in Hs. unfold producer_distance, send_left.
  destruct (w_producer w) as [p|]; [|done].
  destruct p, i; try done; rewrite ?Hr in Hs; step_cases Hs; rewrite ?send_times_counted; cbn;
    (split; [lia|]; split; [lia|]; done).
Qed.

Lemma consumer_step_distance g i w w' o :
  w_running w = false -> consumer_step g i w = Some (w', o) ->
  (consumer_distance w' + 1 <= consumer_distance w)%nat /\ send_times o = [] /\
  is_producer_input i = false /\ is_consumer_input i = true.
Proof.
  intros Hr Hs. assert (send_times o = []) as Ho.
  { apply consumer_step_frame in Hs as (_ & _ & _ & Ho). by apply send_times_others. }
  unfold consumer_step in Hs. unfold consumer_distance.
  destruct (w_consumer w) as [c|]; [|done].
  destruct c, i; try done; rewrite ?Hr in Hs; step_cases Hs; (split; [lia|]; done).
Qed.

Lemma owner_step_distance g i w w' o :
  stopping w = true -> owner_worker_step g i w = Some (w', o) ->
  stopping w' = true /\ (producer_distance w' <= producer_distance w)%nat /\
  (consumer_distance w' <= consumer_distance w)%nat /\ (send_left w' <= send_left w)%nat /\
  send_times o = [] /\ is_producer_input i = false /\ is_consumer_input i = false.
Proof.
  unfold stopping. intros Hw Hs. assert (send_times o = []) as Ho.
  { apply owner_step_frame in Hs as [_ Ho]. by apply send_times_others. }
  unfold owner_worker_step, stop_step, release_step, leak_step in Hs.
  unfold producer_distance, consumer_distance, send_left.
  destruct (w_owner w) eqn:E; try done; destruct i; try done; step_cases Hs; rewrite ?E;
    split_and!; first [done | lia | exact Ho].
Qed.

Lemma stopping_step g w t i w' o :
  life_inv g w -> stopping w = true -> worker_step g w (t, i) = Some (w', o) ->
  stopping w' = true /\
  (producer_distance w' + one_if (is_producer_input i) <= producer_distance w)%nat /\
  (consumer_distance w' + one_if (is_consumer_input i) <= consumer_distance w)%nat /\
  (send_left w' + length (send_times o) <= send_left w)%nat.
Proof.
  intros (_ & _ & Hr & _) Hw Hs. specialize (Hr Hw). apply worker_step_inv in Hs as [_ [Hs|[Hs|[Hs|Hs]]]].
  - destruct (owner_step_distance g i (set_clock t w) w' o Hw Hs) as (? & ? & ? & ? & -> & -> & ->). cbn in *.
    split; [done|]. unfold producer_distance, consumer_distance, send_left in *. cbn in *. lia.
  - destruct (producer_step_distance g i (set_clock t w) w' o Hr Hs) as (? & ? & Hc & -> & ->).
    apply producer_step_frame in Hs as (_ & Ho & _). unfold stopping in *. rewrite Ho. split; [done|].
    rewrite Hc. unfold producer_distance, consumer_distance, send_left in *. cbn in *. lia.
  - destruct (consumer_step_distance g i (set_clock t w) w' o Hr Hs) as (? & -> & -> & ->).
    apply consumer_step_frame in Hs as ((Hp & _) & _ & Ho & _). unfold stopping in *. rewrite Ho.
    split; [done|]. unfold producer_distance, consumer_distance, send_left in *. rewrite Hp. cbn in *. lia.
  - assert (is_producer_input i = false /\ is_consumer_input i = false) as [-> ->].
    { unfold callback_step in Hs. destruct i; try done; by destruct (wk_kind g). }
    apply callback_step_frame in Hs as [-> Ho]. rewrite (send_times_others _ Ho). cbn.
    split; [done|]. unfold producer_distance, consumer_distance, send_left. cbn. lia.
Qed.

Lemma stopping_run g ins : forall w w' outs,
  life_inv g w -> stopping w = true -> worker_run g w ins = Some (w', outs) ->
  life_inv g w' /\ stopping w' = true /\
  (producer_distance w' + steps_of is_producer_input ins <= producer_distance w)%nat /\
  (consumer_distance w' + steps_of is_consumer_input ins <= consumer_distance w)%nat /\
  (send_left w' + length (send_times outs) <= send_left w)%nat.
Proof.
  unfold steps_of. induction ins as [|[t i] ins IH]; intros w w' outs Hl Hw Hr; unfold worker_run in Hr; cbn [run] in Hr.
  { injection Hr as <- <-. cbn. split_and!; done || lia. }
  destruct (worker_step g w (t, i)) as [[w1 o1]|] eqn:Es; [|done].
  destruct (run (worker_step g) w1 ins) as [[w2 o2]|] eqn:Er; [|done]. injection Hr as <- <-.
  destruct (stopping_step g w t i w1 o1 Hl Hw Es) as (Hw1 & Hp & Hc & Hn).
  destruct (IH w1 w2 o2 (life_inv_step _ _ _ _ _ Hl Es) Hw1 Er) as (? & ? & Hp2 & Hc2 & Hn2).
  split; [done|]. split; [done|]. cbn. unfold send_times in *. rewrite omap_app, length_app.
  destruct (is_producer_input i), (is_consumer_input i); cbn in *; lia.
Qed.

(** *** Progress *)

(** A step is possible at every time from some time on. *)
Definition enabled_from (g : WorkerConfig) (w : Worker) (P : worker_input -> bool) : Prop :=
  exists t0 i, P i = true /\ forall t, t0 <= t -> is_Some (worker_step g w (t, i)).

Lemma enabled_producer g w t0 i :
  w_clock w <= t0 -> is_producer_input i = true ->
  (forall t, t0 <= t -> is_Some (producer_step g i (set_clock t w))) -> enabled_from g w is_producer_input.
Proof.
  intros Ht Hi Hs. exists t0, i. split; [done|]. intros t Hle. specialize (Hs t Hle). unfold worker_step.
  destruct (Z.ltb_spec t (w_clock w)); [lia|]. by destruct i.
Qed.

Lemma producer_enabled g w : producer_done w = false -> enabled_from g w is_producer_input.
Proof.
  unfold producer_done. destruct (w_producer w) as [p|] eqn:Ep; [|done]. intros Hd.
  pose proof (enabled_producer g w) as Hstep. unfold producer_step in Hstep. cbn in Hstep. rewrite Ep in Hstep.
  destruct p; try done.
  - by apply (Hstep (w_clock w) (IProduceOk true)).
  - by apply (Hstep (w_clock w) (IProduceOk true)).
  - by apply (Hstep (w_clock w) IProduce).
  - apply (Hstep (w_clock w) IProduce); [done..|]. intros t _. by destruct (w_running w).
  - by apply (Hstep (w_clock w) (IBuilt (SError StatusOk))).
  - assert (exists r, result_of (wk_kind g) r = true /\ send_accepted r = false) as (r & Hr1 & Hr2).
    { destruct (wk_kind g);
        [exists (RStatus (StatusMsg kFatal ""))|exists (REventStore (SError StatusOk))|
         exists (RQueueSend (SError StatusOk))|exists (RStatus (StatusMsg kFatal ""))|
         exists (RCommand (SError StatusOk))|exists (RQuery (SError StatusOk))]; done. }
    apply (Hstep (w_clock w) (ISent r)); [done..|]. intros t _. by rewrite Hr1, Hr2.
  - by apply (Hstep (w_clock w) IProduce).
  - by apply (Hstep (w_clock w) IProduce).
  - apply (Hstep (Z.max (w_clock w) (w_next_send w)) IProduce); [lia|done|]. intros t Ht.
    by destruct (Z.leb_spec (w_next_send w) t); [|lia].
  - by apply (Hstep (w_clock w) IProduce).
Qed.

Lemma enabled_consumer g w i :
  is_consumer_input i = true -> (forall t, is_Some (consumer_step g i (set_clock t w))) ->
  enabled_from g w is_consumer_input.
Proof.
  intros Hi Hs. exists (w_clock w), i. split; [done|]. intros t Hle. specialize (Hs t). unfold worker_step.
  destruct (Z.ltb_spec t (w_clock w)); [lia|]. by destruct i.
Qed.

Lemma consumer_enabled g w : life_inv g w -> consumer_done w = false -> enabled_from g w is_consumer_input.
Proof.
  unfold consumer_done. destruct (w_consumer w) as [p|] eqn:Ec; [|done]. intros (_ & Hk & _) Hd.
  rewrite Ec in Hk. pose proof (enabled_consumer g w) as Hstep.
  unfold consumer_step in Hstep. cbn in Hstep. rewrite Ec in Hstep. destruct p; try done.
  - by apply (Hstep (IConsumeOk true)).
  - apply (Hstep (IConsumeOk true)); [done|]. intros t. by destruct (subscribe_op g).
  - by apply (Hstep IConsume).
  - by apply (Hstep IConsume).
  - unfold subscribe_op in Hk. destruct (wk_kind g) eqn:E; try done.
    + by apply (Hstep (IReceived (SError StatusOk))).
    + by apply (Hstep (IPolled (SError StatusOk))).
  - by apply (Hstep (IConsumeOk true)).
  - by apply (Hstep IConsume).
  - by apply (Hstep IConsume).
Qed.

(** [Stop] goes on: the join, or a step of the thread it waits for. *)
Definition stop_input (w : Worker) : worker_input :=
  match w_owner w with WClose | WJoin1 => IJoinFirst | WJoin2 => IJoinSecond | _ => IStopWorker end.

Definition is_thread_input (i : worker_input) : bool := is_producer_input i || is_consumer_input i.

Lemma stop_enabled g w :
  life_inv g w -> (w_owner w = WClose \/ w_owner w = WJoin1 \/ w_owner w = WJoin2) ->
  (forall t, w_clock w <= t -> is_Some (worker_step g w (t, stop_input w))) \/
  enabled_from g w is_thread_input.
Proof.
  intros Hl Ho.
  assert (forall P, (forall i, P i = true -> is_thread_input i = true) -> enabled_from g w P ->
    enabled_from g w is_thread_input) as Hmono.
  { intros P HP (t0 & i & Hi & Hs). exists t0, i. auto. }
  assert (is_Some (owner_worker_step g (stop_input w) w) -> forall t, w_clock w <= t ->
    is_Some (worker_step g w (t, stop_input w))) as Hstep.
  { intros Hs t Ht. unfold worker_step. destruct (Z.ltb_spec t (w_clock w)); [lia|].
    unfold stop_input, owner_worker_step, producer_done, consumer_done, polling in *. cbn.
    destruct Ho as [Ho|[Ho|Ho]]; rewrite Ho in *; repeat case_match; try done; by destruct Hs. }
  unfold stop_input, owner_worker_step in Hstep.
  destruct Ho as [Ho|[Ho|Ho]]; rewrite Ho in Hstep.
  - destruct (producer_done w) eqn:Ed.
    + destruct (polling w) eqn:Epo; [right|left; unfold stop_input; rewrite Ho; by apply Hstep].
      apply (Hmono is_consumer_input).
      * unfold is_thread_input. intros i ->. apply orb_true_r.
      * apply consumer_enabled; [done|]. unfold polling, consumer_done in *. by repeat case_match.
    + right. apply (Hmono is_producer_input); [|by apply producer_enabled]. unfold is_thread_input. by intros i ->.
  - destruct (producer_done w) eqn:Ed; [left; unfold stop_input; rewrite Ho; by apply Hstep|right].
    apply (Hmono is_producer_input); [|by apply producer_enabled]. unfold is_thread_input. by intros i ->.
  - destruct (consumer_done w) eqn:Ed; [left; unfold stop_input; rewrite Ho; by apply Hstep|right].
    apply (Hmono is_consumer_input); [|by apply consumer_enabled]. unfold is_thread_input. intros i ->.
    apply orb_true_r.
Qed.

(** *** After [Stop] *)

Definition uses_after_free (o : worker_output) : bool :=
  match o with OUseAfterFree => true | _ => false end.

Lemma use_after_free_kind g w ti w' o :
  worker_step g w ti = Some (w', o) -> existsb uses_after_free o = true -> wk_kind g = QueueStreamWorker.
Proof.
  assert (forall x l, existsb uses_after_free (counted_by x l) = false) as Hc.
  { intros x l. by induction l as [|[c n] l IH]. }
  destruct ti as [t i]. intros [_ [Hs|[Hs|[Hs|Hs]]]]%worker_step_inv Hu.
  - unfold owner_worker_step, stop_step, release_step, leak_step in Hs. step_cases Hs; try done.
  - unfold producer_step in Hs. step_cases Hs; try done; by rewrite Hc in Hu.
  - unfold consumer_step in Hs. step_cases Hs; try done; by rewrite Hc in Hu.
  - unfold callback_step in Hs. step_cases Hs; try done; by rewrite Hc in Hu.
Qed.

Definition demo_stream_worker : WorkerConfig :=
  mkWorkerConfig QueueStreamWorker "localhost:50000" "p" "burnin.cpp.r.queue_stream.0" 50 QueueConfig_new.

(** Start, open the stream, send one message, stop, destroy; then the answer. *)
Definition stream_outlives : list (Z * worker_input) :=
  (map (pair 0)
     [IStartWorker; ISecondThread; IProduceOk true; IProduceOk true; IProduce; IProduce;
      IBuilt (SValue QueueMessage_default); ISent (RStatus StatusOk); IConsumeOk true; IStopWorker;
      IProduce] ++
   map (pair 20000000)
     [IProduce; IProduce; IConsumeOk true; IConsume; IJoinFirst; IJoinSecond; IDestroyWorker;
      IUpstreamResult (mkQueueUpstreamResultData "" [] false "")])%list.

(** The broker has ended the stream when the detached thread deletes the handle:
    it takes the process with it. *)
Definition stream_ended : list (Z * worker_input) :=
  (take 17 stream_outlives ++ [(20000000, IDetachedDone true)])%list.

Example queue_stream_ends_process :
  exists w outs, worker_run demo_stream_worker (Worker_new 0) stream_ended = Some (w, outs) /\
    w_ended w = true /\ last outs = Some OProcessEnds.
Proof. eexists _, _. split; [vm_compute; reflexivity|]. split; reflexivity. Qed.

(** C20: a worker stops. From the moment [Stop] clears the flag, whatever the
    SDK answers and the callbacks do: the sending thread takes at most six
    more steps and the receiving one four, at most one more message is sent,
    the joins are reached, since until [Stop] returns either its next join is
    possible at every time or a step of a thread is from some time on, and
    when it has returned both threads are gone and no subscription is left. Only the upstream handle of the queue
    stream outlives the worker: a result that arrives after the worker is
    destroyed runs a callback on freed memory, which no other kind can do. *)
Theorem worker_stops :
  (forall g c0 ins w outs, worker_run g (Worker_new c0) ins = Some (w, outs) ->
     stopping w = true ->
     ((w_owner w = WClose \/ w_owner w = WJoin1 \/ w_owner w = WJoin2) ->
        (forall t, w_clock w <= t -> is_Some (worker_step g w (t, stop_input w))) \/
        enabled_from g w is_thread_input) /\
     ((w_owner w = WStopped \/ w_owner w = WDestroyed) ->
        w_producer w = None /\ w_consumer w = None /\ w_subscribed w = false) /\
     (forall ins' w' outs', worker_run g w ins' = Some (w', outs') ->
        stopping w' = true /\ (steps_of is_producer_input ins' <= 6)%nat /\
        (steps_of is_consumer_input ins' <= 4)%nat /\ (length (send_times outs') <= 1)%nat)) /\
  (forall g c0 ins w outs, worker_run g (Worker_new c0) ins = Some (w, outs) ->
     existsb uses_after_free outs = true -> wk_kind g = QueueStreamWorker) /\
  (exists w outs, worker_run demo_stream_worker (Worker_new 0) stream_outlives = Some (w, outs) /\
     existsb uses_after_free outs = true).
Proof.
  assert (forall g c0 ins w outs, worker_run g (Worker_new c0) ins = Some (w, outs) -> life_inv g w) as Hinv.
  { intros g c0. apply (run_invariant (worker_step g)); [|intros; by eapply life_inv_step].
    unfold life_inv. cbn. done. }
  split; [|split].
  - intros g c0 ins w outs Hr Hw. pose proof (Hinv _ _ _ _ _ Hr) as Hl.
    split; [by apply stop_enabled|]. split.
    { intros Ho. destruct Hl as (Hs & _ & _ & Hg). destruct Ho as [Ho|Ho]; rewrite Ho in Hg;
        destruct Hg as [Hp Hc]; rewrite Hc in Hs; (split; [done|]; split; [done|]);
        destruct (w_subscribed w); try done; by destruct (Hs eq_refl). }
    intros ins' w' outs' Hr'. destruct (stopping_run g ins' w w' outs' Hl Hw Hr') as (_ & ? & ? & ? & ?).
    assert (producer_distance w <= 6)%nat by (unfold producer_distance; repeat case_match; lia).
    assert (consumer_distance w <= 4)%nat by (unfold consumer_distance; repeat case_match; lia).
    assert (send_left w <= 1)%nat by (unfold send_left; repeat case_match; lia).
    split; [done|]. lia.
  - intros g c0. apply (run_ind (worker_step g) _ (fun _ _ outs =>
      existsb uses_after_free outs = true -> wk_kind g = QueueStreamWorker)); [done|].
    intros s ins outs i s' o _ Hi Hs. rewrite existsb_app. intros [Hu|Hu]%orb_true_iff; [auto|].
    by eapply use_after_free_kind.
  - eexists _, _. split; [vm_compute; reflexivity|]. done.
Qed.
