(* ===== verification/RunPlan.v ===== *)
(** * The workers of a run

    Models [Engine::CreateWorkers] of burnin/engine/engine.cc: one worker for
    every channel of every enabled pattern, each on a channel of its own, each
    counting on the metrics of its pattern; and [GenerateRunId] of
    burnin/config/config.cc, which those channels carry. *)

From Stdlib Require Import ZArith Lia Ascii String.
From stdpp Require Import sorting.
From S2P Require Import Prelude Status Validation Random Uuid Client Subscription Config Metrics Worker.

Local Open Scope string_scope.

(** A [std::map] is visited in the order of its keys. *)
Definition key_le {A} (x y : string * A) : Prop := String.leb (fst x) (fst y) = true.

#[export] Instance key_le_dec {A} (x y : string * A) : Decision (key_le x y).
Proof. unfold key_le. apply _. Defined.

Definition sorted_items {A} (m : gmap string A) : list (string * A) := merge_sort key_le (map_to_list m).

Definition kind_of_name (name : string) : option WorkerKind :=
  if String.eqb name "events" then Some EventsWorker
  else if String.eqb name "events_store" then Some EventsStoreWorker
  else if String.eqb name "queue_simple" then Some QueueSimpleWorker
  else if String.eqb name "queue_stream" then Some QueueStreamWorker
  else if String.eqb name "commands" then Some CommandsWorker
  else if String.eqb name "queries" then Some QueriesWorker
  else None.

Definition worker_channel (run_id name : string) (ch : nat) : string :=
  kChannelPrefix +:+ run_id +:+ "." +:+ name +:+ "." +:+ pretty ch.

(** The channels the two loops visit. *)
Definition pattern_slots (np : string * PatternConfig) : list (string * PatternConfig * nat) :=
  let '(name, pc) := np in
  if pc_enabled pc then (fun ch => (name, pc, ch)) <$> seq 0 (Z.to_nat (pc_channels pc)) else [].

Definition worker_slots (c : Config) : list (string * PatternConfig * nat) :=
  concat (pattern_slots <$> sorted_items (cf_patterns c)).

Definition slot_worker (broker run_id : string) (c : Config) (slot : string * PatternConfig * nat)
    : option WorkerConfig :=
  let '(name, pc, ch) := slot in
  match kind_of_name name with
  | Some k => Some (mkWorkerConfig k broker (cf_client_id_prefix c) (worker_channel run_id name ch)
                      (pc_rate pc) (cf_queue c))
  | None => None
  end.

(** A pattern of another name gets no worker. *)
Definition CreateWorkers (broker run_id : string) (c : Config) (a : AggregateMetrics)
    : list WorkerConfig * AggregateMetrics :=
  foldl (fun wa slot =>
    match slot_worker broker run_id c slot with
    | Some g => ((wa.1 ++ [g])%list, GetPattern (PatternName (wk_kind g)) wa.2)
    | None => wa
    end) ([], a) (worker_slots c).

(** The patterns [StartRun] counts. *)
Definition enabled_count (c : Config) : Z :=
  Z.of_nat (length (List.filter (fun np => pc_enabled (snd np)) (sorted_items (cf_patterns c)))).

(** [std::uniform_int_distribution<uint32_t>] and [snprintf(buf, 9, "%08x", ...)]. *)
Definition GenerateRunId {W} `{Random W} : M W string :=
  (let! x := uniform_int 0 (2 ^ 32 - 1)%Z in ret (str_take 8 (fmt_x 8 x)))%kubemq.

(** ** Lemmas *)

Lemma kind_of_name_spec name k : kind_of_name name = Some k <-> name = PatternName k.
Proof.
  unfold kind_of_name. split.
  - repeat (case_match eqn:E; [apply String.eqb_eq in E; intros [= <-]; by subst|clear E]). done.
  - intros ->. by destruct k.
Qed.

(** *** Decimal digits *)

Definition no_char (p : ascii -> bool) (s : string) : Prop := str_any p s = false.

Lemma pretty_N_char_digit n : exists d, (d < 10)%nat /\ pretty_N_char n = ascii_of_nat (48 + d).
Proof.
  assert (forall d, (d < 10)%nat -> exists d', (d' < 10)%nat /\ ascii_of_nat (48 + d) = ascii_of_nat (48 + d'))
    as Hd by (intros d ?; by exists d).
  unfold pretty_N_char. repeat case_match;
    first [by apply (Hd 0); lia | by apply (Hd 1); lia | by apply (Hd 2); lia | by apply (Hd 3); lia
          | by apply (Hd 4); lia | by apply (Hd 5); lia | by apply (Hd 6); lia | by apply (Hd 7); lia
          | by apply (Hd 8); lia | by apply (Hd 9); lia].
Qed.

(** A property that no digit has is had by no character of a number. *)
Lemma pretty_nat_chars (p : ascii -> bool) (n : nat) :
  (forall d, (d < 10)%nat -> p (ascii_of_nat (48 + d)) = false) -> str_any p (pretty n) = false.
Proof.
  intros Hp. unfold pretty, pretty_nat, pretty, pretty_N. case_decide.
  { change (p (ascii_of_nat (48 + 0)) || false = false). by rewrite Hp by lia. }
  assert (forall x s, str_any p s = false -> str_any p (pretty_N_go x s) = false) as Hgo; [|by apply Hgo].
  intros x. induction (N.lt_wf_0 x) as [x _ IH]. intros s Hs.
  destruct (decide (x = 0)%N) as [->|Hx]; [by rewrite pretty_N_go_0|].
  rewrite pretty_N_go_step by lia. apply IH; [apply N.div_lt; lia|]. cbn.
  destruct (pretty_N_char_digit (x mod 10)) as (d & Hd & ->). by rewrite (Hp d Hd).
Qed.

Lemma pretty_nat_nonempty (n : nat) : str_empty (pretty n) = false.
Proof.
  apply str_empty_false. unfold pretty, pretty_nat, pretty, pretty_N. case_decide; [done|].
  assert (forall x s, s <> "" -> pretty_N_go x s <> "") as Hgo.
  { intros x. induction (N.lt_wf_0 x) as [x _ IH]. intros s Hs.
    destruct (decide (x = 0)%N) as [->|Hx]; [by rewrite pretty_N_go_0|].
    rewrite pretty_N_go_step by lia. apply IH; [apply N.div_lt; lia|done]. }
  rewrite pretty_N_go_step by lia. by apply Hgo.
Qed.

(** *** Channels *)

(** The last dot splits a text in one way. *)
Lemma last_dot_inj s t s' t' :
  str_contains "." t = false -> str_contains "." t' = false ->
  s +:+ String "." t = s' +:+ String "." t' -> s = s' /\ t = t'.
Proof.
  intros Ht Ht' He. pose proof (str_rfind_app_absent "." s t Ht) as H1.
  rewrite He, (str_rfind_app_absent "." s' t' Ht') in H1. injection H1 as Hl.
  assert (s = s') as <-.
  { rewrite <- (str_take_app s (String "." t)), <- (str_take_app s' (String "." t')), He. by rewrite Hl. }
  split; [done|]. apply (f_equal (str_drop (String.length s))) in He. rewrite !str_drop_app in He.
  by injection He.
Qed.

Lemma pretty_no_dot (n : nat) : str_contains "." (pretty n) = false.
Proof.
  apply pretty_nat_chars. intros d Hd. by do 10 (destruct d as [|d]; [done|]); lia.
Qed.

Lemma PatternName_no_dot k : str_contains "." (PatternName k) = false.
Proof. by destruct k. Qed.

Lemma worker_channel_inj run_id k k' ch ch' :
  worker_channel run_id (PatternName k) ch = worker_channel run_id (PatternName k') ch' -> k = k' /\ ch = ch'.
Proof.
  unfold worker_channel. intros He.
  apply (inj (String.append _)) in He. apply (inj (String.append _)) in He.
  apply (inj (String.append _)) in He.
  destruct (last_dot_inj (PatternName k) (pretty ch) (PatternName k') (pretty ch')) as [Hk Hc];
    [apply pretty_no_dot|apply pretty_no_dot|exact He|].
  split; [|by apply (inj pretty) in Hc]. by destruct k, k'.
Qed.

(** A run identifier the SDK takes in a channel. *)
Definition clean_run_id (run_id : string) : Prop :=
  str_any is_ascii_space run_id = false /\ str_contains "*" run_id = false /\
  str_contains ">" run_id = false.

Lemma str_back_app s t : str_empty t = false -> str_back (s +:+ t) = str_back t.
Proof.
  intros Ht. induction s as [|c s IH]; [done|]. rewrite str_app_cons. cbn [str_back]. rewrite IH.
  destruct (s +:+ t) eqn:E; [|done]. destruct s; cbn in E; [|done]. rewrite str_app_nil in E. by subst t.
Qed.

Lemma str_back_contains s c : str_back s = Some c -> str_contains c s = true.
Proof.
  unfold str_contains. induction s as [|d s IH]; [done|]. cbn [str_back str_any].
  destruct s as [|e s]; [intros [= ->]; by rewrite Ascii.eqb_refl|]. intros Hb. rewrite (IH Hb). apply orb_true_r.
Qed.

Ltac digits := apply pretty_nat_chars; intros d Hd; by do 10 (destruct d as [|d]; [done|]); lia.

Lemma worker_channel_any p run_id k ch :
  str_any p (worker_channel run_id (PatternName k) ch) =
    str_any p kChannelPrefix || str_any p run_id || p "."%char || str_any p (PatternName k) ||
    str_any p (pretty ch).
Proof.
  unfold worker_channel. rewrite !str_any_app. cbn [str_any].
  destruct (str_any p kChannelPrefix), (str_any p run_id), (p "."%char), (str_any p (PatternName k)),
    (str_any p (pretty ch)); done.
Qed.

Lemma worker_channel_valid run_id k ch :
  valid_send_channel (worker_channel run_id (PatternName k) ch) <-> clean_run_id run_id.
Proof.
  rewrite <- (ValidateChannelNoWildcard_spec _ ""). unfold ValidateChannelNoWildcard, ValidateChannel.
  assert (str_any is_ascii_space (pretty ch) = false) as H1 by digits.
  assert (str_any (Ascii.eqb "*") (pretty ch) = false) as H2 by digits.
  assert (str_any (Ascii.eqb ">") (pretty ch) = false) as H3 by digits.
  assert (back_is_dot (worker_channel run_id (PatternName k) ch) = false) as Hb.
  { apply not_true_is_false. intros Hd%back_is_dot_spec. unfold worker_channel in Hd.
    rewrite !str_app_assoc, str_back_app in Hd by apply pretty_nat_nonempty.
    apply str_back_contains in Hd. by rewrite pretty_no_dot in Hd. }
  unfold str_contains. rewrite Hb, !worker_channel_any, H1, H2, H3. unfold clean_run_id, str_contains.
  destruct (str_any is_ascii_space run_id), (str_any (Ascii.eqb "*") run_id),
    (str_any (Ascii.eqb ">") run_id), k; cbn; naive_solver.
Qed.

(** *** Generated identifiers *)

Lemma hex_fixed_chars (p : ascii -> bool) k z acc :
  forallb (fun d => negb (p (hex_char (Z.of_nat d)))) (seq 0 16) = true ->
  str_any p (hex_fixed k z acc) = str_any p acc.
Proof.
  intros Hp. revert z acc. induction k as [|k IH]; intros z acc; [done|]. cbn [hex_fixed]. rewrite IH.
  cbn [str_any]. rewrite forallb_forall in Hp. pose proof (Z.mod_pos_bound z 16 ltac:(lia)) as Hz.
  specialize (Hp (Z.to_nat (z `mod` 16)) ltac:(apply in_seq; lia)).
  rewrite Z2Nat.id in Hp by lia. by destruct (p _).
Qed.

Lemma generated_run_id {W} `{Random W} (w : W) :
  String.length (fst (GenerateRunId w)) = 8%nat /\ clean_run_id (fst (GenerateRunId w)).
Proof.
  pose proof (uniform_int_range 0 (2 ^ 32 - 1) w ltac:(lia)) as Hx.
  assert (fst (GenerateRunId w) = hex_fixed 8 (fst (uniform_int 0 (2 ^ 32 - 1) w)) "") as ->.
  { unfold GenerateRunId, bind, ret. destruct (uniform_int _ _ w) as [x w']. cbn [fst] in *.
    rewrite fmt_x_fixed; [|lia|change (16 ^ Z.of_nat 8)%Z with (2 ^ 32)%Z; lia].
    apply str_take_all. rewrite hex_fixed_length. cbn. lia. }
  split; [by rewrite hex_fixed_length|]. unfold clean_run_id, str_contains. by rewrite !hex_fixed_chars.
Qed.

(** *** The list of workers *)

Lemma CreateWorkers_fst broker run_id c a :
  fst (CreateWorkers broker run_id c a) = omap (slot_worker broker run_id c) (worker_slots c).
Proof.
  unfold CreateWorkers.
  assert (forall l wa, (foldl (fun wa slot => match slot_worker broker run_id c slot with
      | Some g => ((wa.1 ++ [g])%list, GetPattern (PatternName (wk_kind g)) wa.2)
      | None => wa end) wa l).1 = (wa.1 ++ omap (slot_worker broker run_id c) l)%list) as Hf; [|by rewrite Hf].
  induction l as [|s l IH]; intros wa; cbn; [by rewrite app_nil_r|]. rewrite IH.
  destruct (slot_worker broker run_id c s); [|done]. cbn. by rewrite <- app_assoc.
Qed.

Lemma GetPattern_dom name a : dom (am_patterns (GetPattern name a)) = {[name]} ∪ dom (am_patterns a).
Proof.
  unfold GetPattern. destruct (am_patterns a !! name) eqn:E; cbn; [|by rewrite dom_insert_L].
  apply elem_of_dom_2 in E. set_solver.
Qed.

Lemma CreateWorkers_dom broker run_id c a g :
  g ∈ fst (CreateWorkers broker run_id c a) ->
  PatternName (wk_kind g) ∈ dom (am_patterns (snd (CreateWorkers broker run_id c a))).
Proof.
  unfold CreateWorkers. set (f := fun wa slot => _).
  assert (forall l wa, (forall g, g ∈ wa.1 -> PatternName (wk_kind g) ∈ dom (am_patterns wa.2)) ->
    forall g, g ∈ (foldl f wa l).1 -> PatternName (wk_kind g) ∈ dom (am_patterns (foldl f wa l).2)) as Hf.
  { induction l as [|s l IH]; intros wa Hwa; [done|]. cbn. apply IH. intros g' Hg'. unfold f in *.
    destruct (slot_worker broker run_id c s) as [g0|]; [|auto]. cbn in *. rewrite GetPattern_dom.
    apply elem_of_app in Hg' as [Hg'|Hg'%list_elem_of_singleton]; [specialize (Hwa _ Hg'); set_solver|].
    subst. set_solver. }
  apply Hf. cbn. intros g'. by intros ?%not_elem_of_nil.
Qed.

Lemma worker_slots_spec c name pc ch :
  (name, pc, ch) ∈ worker_slots c <->
  cf_patterns c !! name = Some pc /\ pc_enabled pc = true /\ (Z.of_nat ch < pc_channels pc)%Z.
Proof.
  unfold worker_slots. rewrite list_elem_of_In, in_concat. split.
  - intros (l & Hl & Hs). apply list_elem_of_In, list_elem_of_fmap in Hl as ([name' pc'] & -> & Hi).
    unfold sorted_items in Hi. rewrite merge_sort_Permutation in Hi. apply elem_of_map_to_list in Hi.
    unfold pattern_slots in Hs. destruct (pc_enabled pc') eqn:E; [|done].
    apply list_elem_of_In, list_elem_of_fmap in Hs as (ch' & [= -> -> ->] & Hc).
    apply elem_of_seq in Hc. split; [done|]. split; [done|lia].
  - intros (Hi & He & Hc). exists (pattern_slots (name, pc)). rewrite <- !list_elem_of_In. split.
    + apply list_elem_of_fmap. exists (name, pc). split; [done|]. unfold sorted_items.
      rewrite merge_sort_Permutation. by apply elem_of_map_to_list.
    + unfold pattern_slots. rewrite He. apply list_elem_of_fmap. exists ch. split; [done|].
      apply elem_of_seq. lia.
Qed.

Lemma pattern_slots_name np s : s ∈ pattern_slots np -> s.1.1 = np.1.
Proof.
  destruct np as [name pc]. unfold pattern_slots. destruct (pc_enabled pc); [|by intros ?%not_elem_of_nil].
  by intros (ch & -> & _)%list_elem_of_fmap.
Qed.

Lemma worker_slots_NoDup c : NoDup (worker_slots c).
Proof.
  unfold worker_slots. assert (NoDup (sorted_items (cf_patterns c)).*1) as Hn.
  { unfold sorted_items. rewrite merge_sort_Permutation. apply NoDup_fst_map_to_list. }
  induction (sorted_items (cf_patterns c)) as [|np l IH]; cbn; [constructor|].
  inversion_clear Hn as [|? ? Hx Hl]. apply NoDup_app. split_and!; [| |by apply IH].
  - destruct np as [name pc]. unfold pattern_slots. destruct (pc_enabled pc); [|constructor].
    apply NoDup_fmap_2; [by intros ? ? [=]|apply NoDup_seq].
  - intros s Hs Hs'. apply Hx. apply list_elem_of_In, in_concat in Hs' as (l' & Hl' & Hin).
    apply list_elem_of_In, list_elem_of_fmap in Hl' as (np' & -> & Hnp). apply list_elem_of_In in Hin.
    rewrite <- (pattern_slots_name _ _ Hs), (pattern_slots_name _ _ Hin). by apply list_elem_of_fmap_2.
Qed.

Lemma NoDup_fmap_omap {A B C} (f : A -> option B) (h : B -> C) (l : list A) :
  NoDup l ->
  (forall x y b b', x ∈ l -> y ∈ l -> f x = Some b -> f y = Some b' -> h b = h b' -> x = y) ->
  NoDup (h <$> omap f l).
Proof.
  induction 1 as [|x l Hx Hl IH]; intros Hi; cbn; [constructor|].
  assert (NoDup (h <$> omap f l)) as Hn.
  { apply IH. intros y z b b' Hy Hz. apply Hi; by right. }
  destruct (f x) as [b|] eqn:E; [|done]. cbn. constructor; [|done].
  intros (b' & Hb & (y & Hy & Hf)%list_elem_of_omap)%list_elem_of_fmap.
  apply Hx. rewrite (Hi x y b b'); [done|by left|by right|done..].
Qed.

Lemma slot_worker_spec broker run_id c name pc ch g :
  slot_worker broker run_id c (name, pc, ch) = Some g <->
  PatternName (wk_kind g) = name /\
  g = mkWorkerConfig (wk_kind g) broker (cf_client_id_prefix c) (worker_channel run_id name ch)
        (pc_rate pc) (cf_queue c).
Proof.
  unfold slot_worker. split.
  - destruct (kind_of_name name) as [k|] eqn:E; [|done]. apply kind_of_name_spec in E as ->.
    by intros [= <-].
  - intros [Hk Hg]. symmetry in Hk. apply kind_of_name_spec in Hk as ->. by rewrite Hg.
Qed.

(** What a worker calls passes the SDK's tests on a valid channel. *)
Lemma send_body_nonempty k seq : send_body k seq <> "".
Proof. by destruct k. Qed.

Lemma send_op_valid g seq op cl :
  valid_send_channel (wk_channel g) -> closed cl = false ->
  send_op g (send_body (wk_kind g) seq) = Some op -> op_valid cl op.
Proof.
  intros Hv Hcl Hop. pose proof (send_body_nonempty (wk_kind g) seq) as Hb.
  split; [done|]. unfold send_op in Hop.
  destruct (wk_kind g); simplify_eq/=; unfold simple_ok, has_content; auto with lia.
Qed.

Lemma subscribe_op_valid g op cl :
  valid_send_channel (wk_channel g) -> subscribe_op g = Some op ->
  valid_channel (effective_channel (subscribe_channel op) cl).
Proof.
  intros [Hv _] Hop. assert (subscribe_channel op = wk_channel g) as ->.
  { unfold subscribe_op in Hop. destruct (wk_kind g); by simplify_eq/=. }
  rewrite effective_channel_own; [done|]. by destruct Hv.
Qed.

(** C26: the workers of a run. [CreateWorkers] makes exactly one worker for every
    channel number of every enabled pattern of the six known names, with that
    pattern's rate, the run's broker, client prefix and queue settings; their
    channels are pairwise distinct; each counts on metrics that exist. The
    SDK accepts every channel exactly when the run identifier has no
    whitespace and no wildcard; then, on an open client, every send of every
    worker, whatever its number, and every subscription pass the SDK's tests.
    An identifier the application generates is such a one, of 8 characters. *)
Theorem create_workers_contract (broker run_id : string) (c : Config) (a : AggregateMetrics) :
  let '(ws, a') := CreateWorkers broker run_id c a in
  (forall g, g ∈ ws <-> exists pc ch, cf_patterns c !! PatternName (wk_kind g) = Some pc /\
     pc_enabled pc = true /\ (Z.of_nat ch < pc_channels pc)%Z /\
     g = mkWorkerConfig (wk_kind g) broker (cf_client_id_prefix c)
           (worker_channel run_id (PatternName (wk_kind g)) ch) (pc_rate pc) (cf_queue c)) /\
  NoDup (wk_channel <$> ws) /\
  (forall g, g ∈ ws -> is_Some (am_patterns a' !! PatternName (wk_kind g))) /\
  (forall g, g ∈ ws ->
     (valid_send_channel (wk_channel g) <-> clean_run_id run_id) /\
     (clean_run_id run_id -> forall cl, closed cl = false ->
        (forall seq op, send_op g (send_body (wk_kind g) seq) = Some op -> op_valid cl op) /\
        (forall op, subscribe_op g = Some op ->
           valid_channel (effective_channel (subscribe_channel op) cl)))) /\
  (forall W (R : Random W) (w : W),
     String.length (fst (GenerateRunId w)) = 8%nat /\ clean_run_id (fst (GenerateRunId w))).
Proof.
  pose proof (CreateWorkers_fst broker run_id c a) as Hf. pose proof (CreateWorkers_dom broker run_id c a) as Hd.
  destruct (CreateWorkers broker run_id c a) as [ws a']. cbn in Hf, Hd.
  assert (forall g, g ∈ ws <-> exists pc ch, cf_patterns c !! PatternName (wk_kind g) = Some pc /\
     pc_enabled pc = true /\ (Z.of_nat ch < pc_channels pc)%Z /\
     g = mkWorkerConfig (wk_kind g) broker (cf_client_id_prefix c)
           (worker_channel run_id (PatternName (wk_kind g)) ch) (pc_rate pc) (cf_queue c)) as Hws.
  { intros g. subst ws. rewrite list_elem_of_omap. split.
    - intros ([[name pc] ch] & (? & ? & ?)%worker_slots_spec & [<- Hg]%slot_worker_spec).
      exists pc, ch. by split_and!.
    - intros (pc & ch & Hp & He & Hc & Hg). exists (PatternName (wk_kind g), pc, ch).
      split; [by apply worker_slots_spec|]. by apply slot_worker_spec. }
  split; [done|]. split; [|split; [|split; [|by intros; apply generated_run_id]]].
  - subst ws. apply NoDup_fmap_omap; [apply worker_slots_NoDup|].
    intros [[n pc] ch] [[n' pc'] ch'] g g' Hs%worker_slots_spec Hs'%worker_slots_spec
      [<- Hg]%slot_worker_spec [<- Hg']%slot_worker_spec He. rewrite Hg, Hg' in He. cbn in He.
    apply worker_channel_inj in He as [Hk ->]. destruct Hs as [Hs _], Hs' as [Hs' _].
    rewrite Hk in *. rewrite Hs in Hs'. by injection Hs' as ->.
  - intros g Hg%Hd. by apply elem_of_dom.
  - intros g (pc & ch & _ & _ & _ & Hg)%Hws. rewrite Hg. cbn [wk_channel].
    pose proof (worker_channel_valid run_id (wk_kind g) ch) as Hv. split; [exact Hv|].
    intros Hr%Hv cl Hcl. split; intros *; [by apply send_op_valid|by apply subscribe_op_valid].
Qed.
