(* ===== verification/Report.v ===== *)
(** * What the burn-in engine reports

    Models the JSON the engine serves: its information, the status and the
    full view of a run, its configuration and its final report
    (burnin/engine/engine.cc), from a snapshot of the metrics. A conversion
    from JSON can throw and a duration can be out of range: both are outcomes. *)

From Stdlib Require Import ZArith Lia Ascii String Floats.
From S2P Require Import Prelude Random Double Status StateMachine Auth Tls ClientOptions Messages.
From S2P Require Import Transport Client.
From S2P Require Import Engine Json Config Metrics RunPlan.

Local Open Scope string_scope.
Local Open Scope Z_scope.
Local Open Scope kubemq_scope.

Section report.
Context `{JsonValues}.

(** The members of the engine that the endpoints read. *)
Record RunData := mkRunData {
  rd_state : EngineState;
  rd_broker_address : string;
  rd_config : Config;
  rd_run_id : string;
  rd_run_started_at : string;
  rd_workers : Z;                      (* workers_.size() *)
  rd_metrics : AggregateMetrics;
  rd_last_report : option jvalue       (* has_report_ *)
}.

Definition standard_patterns : list string :=
  ["events"; "events_store"; "queue_stream"; "queue_simple"; "commands"; "queries"].

Definition is_rpc_pattern (name : string) : bool :=
  String.eqb name "commands" || String.eqb name "queries".

Definition jv_text (s : string) : jvalue := jv_string s.
Definition jv_disabled : jvalue := jv_object [("enabled", jv_bool false)].
Definition jv_latency : jvalue :=
  jv_object [("p50_ms", jv_number 0); ("p95_ms", jv_number 0); ("p99_ms", jv_number 0);
             ("p999_ms", jv_number 0)].

(** [snapshot.contains(name) ? snapshot[name].value(key, 0) : 0] *)
Definition snapshot_value (snapshot : jvalue) (name key : string) : Parsed jvalue :=
  match jv_member snapshot name with
  | Some data => let* z := parsed_of (jv_value_u64 data key 0) in POk (jv_number z)
  | None => POk (jv_number 0)
  end.

(** [pdata[key] = ...], for a list of keys read from the snapshot. *)
Fixpoint set_values (snapshot : jvalue) (name : string) (keys : list (string * string)) (pdata : jvalue)
    : Parsed jvalue :=
  match keys with
  | [] => POk pdata
  | (key, from) :: keys' =>
      let* v := snapshot_value snapshot name from in
      set_values snapshot name keys' (jv_set pdata key v)
  end.

Fixpoint set_all (fields : list (string * jvalue)) (pdata : jvalue) : jvalue :=
  match fields with
  | [] => pdata
  | (key, v) :: fields' => set_all fields' (jv_set pdata key v)
  end.

Definition rpc_keys : list (string * string) :=
  [("responses_success", "rpc_success"); ("responses_timeout", "rpc_timeout");
   ("responses_error", "rpc_error")].

Definition message_keys : list (string * string) :=
  [("received", "received"); ("lost", "lost"); ("duplicated", "duplicated");
   ("corrupted", "corrupted"); ("out_of_order", "out_of_order")].

(** The counts of a pattern after the common fields. *)
Definition pattern_counts (snapshot : jvalue) (name : string) (pdata : jvalue) : Parsed jvalue :=
  if is_rpc_pattern name then
    let* p := set_values snapshot name rpc_keys pdata in
    POk (set_all [("senders", jv_array []); ("responders", jv_array [])] p)
  else
    let* p := set_values snapshot name message_keys pdata in
    POk (set_all [("loss_pct", jv_number 0); ("producers", jv_array []); ("consumers", jv_array [])] p).

(** ** The final report of [RunLoop] *)

Definition report_pattern (snapshot : jvalue) (name : string) (pc : PatternConfig) : Parsed jvalue :=
  let* sent := snapshot_value snapshot name "sent" in
  let* errors := snapshot_value snapshot name "errors" in
  let* bytes_sent := snapshot_value snapshot name "bytes_sent" in
  let* bytes_received := snapshot_value snapshot name "bytes_received" in
  let pdata := jv_object
    [("enabled", jv_bool true); ("channels", jv_number (pc_channels pc)); ("sent", sent);
     ("errors", errors); ("reconnections", jv_number 0); ("target_rate", jv_number (pc_rate pc));
     ("avg_rate", jv_number 0); ("peak_rate", jv_number 0); ("bytes_sent", bytes_sent);
     ("bytes_received", bytes_received); ("latency", jv_latency)] in
  pattern_counts snapshot name
    (if is_rpc_pattern name then
       set_all [("senders_per_channel", jv_number (pc_senders_per_channel pc));
                ("responders_per_channel", jv_number (pc_responders_per_channel pc))] pdata
     else
       set_all [("producers_per_channel", jv_number (pc_producers_per_channel pc));
                ("consumers_per_channel", jv_number (pc_consumers_per_channel pc));
                ("consumer_group", jv_bool (pc_consumer_group pc))] pdata).

Fixpoint report_patterns (snapshot : jvalue) (c : Config) (names : list string) (acc : jvalue)
    : Parsed jvalue :=
  match names with
  | [] => POk acc
  | name :: names' =>
      let* p := match cf_patterns c !! name with
                | Some pc => if pc_enabled pc then report_pattern snapshot name pc else POk jv_disabled
                | None => POk jv_disabled
                end in
      report_patterns snapshot c names' (jv_set acc name p)
  end.

(** The loops over [snapshot.items()]: all objects but the totals. *)
Fixpoint items_sum (items : list (string * jvalue)) (key : string) (acc : Z) : Parsed Z :=
  match items with
  | [] => POk acc
  | (name, data) :: items' =>
      if String.eqb name "_totals" || negb (jv_is_object data) then items_sum items' key acc
      else
        let* z := parsed_of (jv_value_u64 data key 0) in
        items_sum items' key (to_uint64 (acc + z))
  end.

Definition snapshot_sum (snapshot : jvalue) (key : string) : Parsed Z :=
  let* items := parsed_of (jv_members snapshot) in items_sum items key 0.

(** [static_cast<int64_t>] of a number of seconds. *)
Definition seconds_int (x : float) : Parsed Z :=
  match int64_of_double x with Some z => POk z | None => PUndefined end.

Definition verdict_result (total_errors : Z) : string :=
  if total_errors =? 0 then "PASSED" else "PASSED_WITH_WARNINGS".

(** [now] is the clock when the snapshot and the duration are taken: the
    metrics have been stopped. *)
Definition build_report (d : RunData) (worker_count now : Z) (ended_at : string) : Parsed jvalue :=
  let snapshot := AggregateMetrics_Snapshot now (rd_metrics d) in
  let* patterns := report_patterns snapshot (rd_config d) standard_patterns jv_null in
  let* total_errors := snapshot_sum snapshot "errors" in
  let* duration := seconds_int (ElapsedSeconds now (rd_metrics d)) in
  POk (jv_object
    [("run_id", jv_text (rd_run_id d)); ("sdk", jv_text "cpp"); ("sdk_version", jv_text "1.0.0");
     ("mode", jv_text "soak"); ("broker_address", jv_text (rd_broker_address d));
     ("started_at", jv_text (rd_run_started_at d)); ("ended_at", jv_text ended_at);
     ("duration_seconds", jv_number duration); ("all_patterns_enabled", jv_bool (worker_count =? 6));
     ("warmup_active", jv_bool false); ("patterns", patterns);
     ("resources", jv_object [("peak_rss_mb", jv_number 0); ("baseline_rss_mb", jv_number 0);
                              ("memory_growth_factor", jv_double 1%float);
                              ("peak_workers", jv_number worker_count)]);
     ("verdict", jv_object [("result", jv_text (verdict_result total_errors));
                            ("warnings", jv_array []); ("checks", jv_object [])])]).

(** ** The endpoints *)

Definition GetInfo (d : RunData) : jvalue :=
  jv_object [("sdk", jv_text "kubemq-cpp"); ("version", jv_text "1.0.0");
             ("broker_address", jv_text (rd_broker_address d));
             ("state", jv_text (engine_state_name (rd_state d))); ("run_id", jv_text (rd_run_id d))].

Definition idle_json : jvalue := jv_object [("run_id", jv_null); ("state", jv_text "idle")].

(** [std::max(0.0, duration - elapsed)], or 0 without a duration. *)
Definition remaining_seconds (duration : Z) (elapsed : float) : float :=
  if 0 <? duration then
    let x := (double_of_int duration - elapsed)%float in if PrimFloat.ltb 0 x then x else 0%float
  else 0%float.

Definition full_pattern (snapshot : jvalue) (state name : string) (pc : PatternConfig) : Parsed jvalue :=
  let* sent := snapshot_value snapshot name "sent" in
  let* errors := snapshot_value snapshot name "errors" in
  let* bytes_sent := snapshot_value snapshot name "bytes_sent" in
  let* bytes_received := snapshot_value snapshot name "bytes_received" in
  pattern_counts snapshot name (jv_object
    [("enabled", jv_bool true); ("state", jv_text state); ("channels", jv_number (pc_channels pc));
     ("sent", sent); ("errors", errors); ("reconnections", jv_number 0); ("target_rate", jv_number 0);
     ("actual_rate", jv_number 0); ("peak_rate", jv_number 0); ("bytes_sent", bytes_sent);
     ("bytes_received", bytes_received); ("latency", jv_latency)]).

Fixpoint full_patterns (snapshot : jvalue) (state : string) (ps : list (string * PatternConfig))
    (acc : jvalue) : Parsed jvalue :=
  match ps with
  | [] => POk acc
  | (name, pc) :: ps' =>
      let* p := if pc_enabled pc then full_pattern snapshot state name pc else POk jv_disabled in
      full_patterns snapshot state ps' (jv_set acc name p)
  end.

(** Disabled entries for the standard patterns the configuration lacks. *)
Fixpoint missing_patterns (names : list string) (acc : jvalue) : jvalue :=
  match names with
  | [] => acc
  | name :: names' =>
      missing_patterns names'
        (match jv_member acc name with Some _ => acc | None => jv_set acc name jv_disabled end)
  end.

Definition GetRunFull (d : RunData) (now : Z) : Parsed jvalue :=
  if decide (rd_state d = kStateIdle) then POk idle_json
  else
    let state := engine_state_name (rd_state d) in
    let elapsed := ElapsedSeconds now (rd_metrics d) in
    let remaining := remaining_seconds (cf_duration_seconds (rd_config d)) elapsed in
    let snapshot := AggregateMetrics_Snapshot now (rd_metrics d) in
    let* ps := full_patterns snapshot state (sorted_items (cf_patterns (rd_config d))) jv_null in
    let patterns := missing_patterns standard_patterns ps in
    let* elapsed_s := seconds_int elapsed in
    let* remaining_s := seconds_int remaining in
    POk (jv_object
      [("state", jv_text state); ("run_id", jv_text (rd_run_id d)); ("mode", jv_text "soak");
       ("started_at", jv_text (rd_run_started_at d)); ("elapsed_seconds", jv_number elapsed_s);
       ("remaining_seconds", jv_number remaining_s);
       ("duration", jv_text (pretty (cf_duration_seconds (rd_config d)) +:+ "s"));
       ("warmup_active", jv_bool false); ("broker_address", jv_text (rd_broker_address d));
       ("patterns", patterns);
       ("resources", jv_object [("rss_mb", jv_number 0); ("baseline_rss_mb", jv_number 0);
                                ("memory_growth_factor", jv_double 1%float);
                                ("active_workers", jv_number (to_int32 (rd_workers d)))])]).

(** The entry of each pattern the metrics know, with the configured channels. *)
Fixpoint pattern_states (c : Config) (state : string) (items : list (string * jvalue)) (acc : jvalue)
    : jvalue :=
  match items with
  | [] => acc
  | (name, data) :: items' =>
      pattern_states c state items'
        (if String.eqb name "_totals" || negb (jv_is_object data) then acc
         else jv_set acc name (jv_object
           [("state", jv_text state);
            ("channels", jv_number (match cf_patterns c !! name with
                                    | Some pc => pc_channels pc | None => 1 end))]))
  end.

Definition GetRunStatus (d : RunData) (now : Z) : Parsed jvalue :=
  if decide (rd_state d = kStateIdle) then POk idle_json
  else
    let state := engine_state_name (rd_state d) in
    let snapshot := AggregateMetrics_Snapshot now (rd_metrics d) in
    let elapsed := ElapsedSeconds now (rd_metrics d) in
    let remaining := remaining_seconds (cf_duration_seconds (rd_config d)) elapsed in
    let* sent := snapshot_sum snapshot "sent" in
    let* received := snapshot_sum snapshot "received" in
    let* errors := snapshot_sum snapshot "errors" in
    let* lost := snapshot_sum snapshot "lost" in
    let* duplicated := snapshot_sum snapshot "duplicated" in
    let* corrupted := snapshot_sum snapshot "corrupted" in
    let* out_of_order := snapshot_sum snapshot "out_of_order" in
    let* reconnections := snapshot_sum snapshot "reconnections" in
    let* items := parsed_of (jv_members snapshot) in
    let* elapsed_s := seconds_int elapsed in
    let* remaining_s := seconds_int remaining in
    POk (jv_object
      [("state", jv_text state); ("run_id", jv_text (rd_run_id d));
       ("started_at", jv_text (rd_run_started_at d)); ("elapsed_seconds", jv_number elapsed_s);
       ("remaining_seconds", jv_number remaining_s); ("warmup_active", jv_bool false);
       ("totals", jv_object
          [("sent", jv_number sent); ("received", jv_number received); ("errors", jv_number errors);
           ("lost", jv_number lost); ("duplicated", jv_number duplicated);
           ("corrupted", jv_number corrupted); ("out_of_order", jv_number out_of_order);
           ("reconnections", jv_number reconnections)]);
       ("pattern_states", pattern_states (rd_config d) state items jv_null)]).

Definition GetRunConfig (d : RunData) : jvalue * bool :=
  if str_empty (rd_run_id d) then (jv_null, false) else (ToJson (rd_config d), true).

Definition GetRunReport (d : RunData) : jvalue * bool :=
  match rd_last_report d with None => (jv_null, false) | Some r => (r, true) end.

(** A client is made and closed again for each request. *)
Definition GetBrokerStatus {W} `{Grpc W, Callbacks W, Providers W, FileSystem W, Random W, Contexts W}
    (broker_address : string) : M W jvalue :=
  let failed (s : Status) := jv_object [("connected", jv_bool false); ("error", jv_text (Status_ToString s))] in
  let options := set_check_connection false
                   (set_client_id "burnin-ping" (set_address broker_address ClientOptions_default)) in
  let! client_or := Client_Create options in
  match client_or with
  | SError s => ret (failed s)
  | SValue client =>
      let! ping := Client_Ping client in
      let! _ := Client_Close client in
      ret (match ping with
           | SError s => failed s
           | SValue info =>
               jv_object [("connected", jv_bool true); ("host", jv_text (si_host info));
                          ("version", jv_text (si_version info));
                          ("uptime_seconds", jv_number (si_server_up_time_seconds info))]
           end)
  end.

End report.

(** ** Lemmas *)

Definition counter_name (c : Counter) : string :=
  match c with
  | Csent => "sent" | Creceived => "received" | Cerrors => "errors" | Clost => "lost"
  | Cduplicated => "duplicated" | Ccorrupted => "corrupted" | Cout_of_order => "out_of_order"
  | Cbytes_sent => "bytes_sent" | Cbytes_received => "bytes_received"
  | Crpc_success => "rpc_success" | Crpc_timeout => "rpc_timeout" | Crpc_error => "rpc_error"
  | Creconnections => "reconnections"
  end.

(** The counters are [uint64_t]s and no pattern is called like the totals. *)
Definition metrics_typed (a : AggregateMetrics) : Prop :=
  map_Forall (fun _ m => forall c, in_u 64 (load c m)) (am_patterns a) /\
  am_patterns a !! "_totals" = None.

(** The value of a counter in the snapshot: 0 for a pattern it does not have. *)
Definition pattern_count (a : AggregateMetrics) (name : string) (c : Counter) : Z :=
  match am_patterns a !! name with Some m => load c m | None => 0 end.

Section report_lemmas.
Context `{JsonLaws}.

(** A value that [jv_set] can be applied to. *)
Definition jv_open (j : jvalue) : Prop := j = jv_null \/ jv_is_object j = true.

Lemma jv_open_set j k v : jv_open j -> jv_open (jv_set j k v).
Proof. intros Hj. right. by apply jv_is_object_set. Qed.

Lemma jv_open_object l : jv_open (jv_object l).
Proof. right. apply jv_is_object_object. Qed.

Ltac literal := rewrite jv_member_object by (apply distinct_keys; reflexivity).

Lemma pattern_snapshot_member m c :
  jv_member (PatternMetrics_Snapshot m) (counter_name c) = Some (jv_number (load c m)).
Proof. unfold PatternMetrics_Snapshot. literal. by destruct c. Qed.

Lemma pattern_snapshot_value m c :
  in_u 64 (load c m) -> jv_value_u64 (PatternMetrics_Snapshot m) (counter_name c) 0 = inl (load c m).
Proof.
  intros Hc. pose proof (jv_value_u64_spec (PatternMetrics_Snapshot m) (counter_name c) 0
    (jv_is_object_object _)) as Hv. rewrite pattern_snapshot_member in Hv. by apply Hv.
Qed.

(** The patterns of a snapshot, before its totals. *)
Lemma snapshot_patterns_spec (ps : gmap string PatternMetrics) :
  let j := map_fold (fun name m acc => jv_set acc name (PatternMetrics_Snapshot m)) jv_null ps in
  jv_open j /\ forall k, jv_member j k = PatternMetrics_Snapshot <$> ps !! k.
Proof.
  cbn zeta. apply (map_fold_weak_ind (fun j ps => jv_open j /\
    forall k, jv_member j k = PatternMetrics_Snapshot <$> ps !! k)).
  - split; [by left|]. intros k. by rewrite lookup_empty, jv_member_null.
  - intros name m ps' j Hn [Ho Hm]. split; [by apply jv_open_set|]. intros k.
    rewrite jv_member_set by done. destruct (String.eqb_spec k name) as [->|Hk].
    + by rewrite lookup_insert_eq.
    + by rewrite lookup_insert_ne.
Qed.

Definition totals_json (now : Z) (a : AggregateMetrics) : jvalue :=
  jv_object [("sent", jv_number (total Csent (am_patterns a)));
             ("received", jv_number (total Creceived (am_patterns a)));
             ("errors", jv_number (total Cerrors (am_patterns a)));
             ("elapsed_seconds", jv_double (ElapsedSeconds now a))].

Lemma snapshot_member now a k :
  jv_member (AggregateMetrics_Snapshot now a) k =
    if String.eqb k "_totals" then Some (totals_json now a)
    else PatternMetrics_Snapshot <$> am_patterns a !! k.
Proof.
  destruct (snapshot_patterns_spec (am_patterns a)) as [Ho Hm].
  unfold AggregateMetrics_Snapshot. cbv zeta. by rewrite jv_member_set, Hm.
Qed.

Lemma snapshot_object now a : jv_is_object (AggregateMetrics_Snapshot now a) = true.
Proof. apply jv_is_object_set, snapshot_patterns_spec. Qed.

Lemma snapshot_value_spec now a name c :
  metrics_typed a -> name <> "_totals" ->
  snapshot_value (AggregateMetrics_Snapshot now a) name (counter_name c) =
    POk (jv_number (pattern_count a name c)).
Proof.
  intros [Ht _] Hn. unfold snapshot_value, pattern_count. rewrite snapshot_member.
  destruct (String.eqb_spec name "_totals"); [done|].
  destruct (am_patterns a !! name) as [m|] eqn:E; [|done]. cbn.
  rewrite pattern_snapshot_value; [done|]. by apply (Ht name).
Qed.

Lemma snapshot_value_key now a name key c :
  key = counter_name c -> metrics_typed a -> name <> "_totals" ->
  snapshot_value (AggregateMetrics_Snapshot now a) name key = POk (jv_number (pattern_count a name c)).
Proof. intros ->. apply snapshot_value_spec. Qed.

(** *** Sums over the items *)

(** What the loop adds for one item. *)
Definition item_count (key : string) (kj : string * jvalue) : option Z :=
  if String.eqb (fst kj) "_totals" || negb (jv_is_object (snd kj)) then Some 0
  else match jv_value_u64 (snd kj) key 0 with inl z => Some z | inr _ => None end.

Fixpoint count_all (key : string) (l : list (string * jvalue)) : option Z :=
  match l with
  | [] => Some 0
  | kj :: l' =>
      match item_count key kj, count_all key l' with Some z, Some s => Some (z + s) | _, _ => None end
  end.

Lemma items_sum_count items key acc s :
  in_u 64 acc -> count_all key items = Some s -> items_sum items key acc = POk (to_uint64 (acc + s)).
Proof.
  revert acc s. induction items as [|[name data] items IH]; intros acc s Ha; cbn.
  { intros [= <-]. by rewrite Z.add_0_r, wrap_u_id. }
  unfold item_count. cbn.
  destruct (String.eqb name "_totals" || negb (jv_is_object data)).
  - destruct (count_all key items) as [s'|]; [|done]. intros [= <-]. by apply IH.
  - destruct (jv_value_u64 data key 0) as [z|]; [|done]. cbn.
    destruct (count_all key items) as [s'|] eqn:Ec; [|done]. intros [= <-].
    rewrite (IH _ s') by (try done; by apply wrap_u_range). rewrite wrap_u_add_l. do 2 f_equal. lia.
Qed.

Lemma count_all_permutation key l l' : l ≡ₚ l' -> count_all key l = count_all key l'.
Proof.
  induction 1 as [|kj l l' _ IH|kj kj' l|l1 l2 l3 _ IH1 _ IH2]; cbn; [done|by rewrite IH| |congruence].
  destruct (item_count key kj), (item_count key kj'), (count_all key l); try done. f_equal. lia.
Qed.

Lemma count_all_patterns now a c :
  metrics_typed a ->
  count_all (counter_name c)
    (("_totals", totals_json now a) :: map_to_list (PatternMetrics_Snapshot <$> am_patterns a)) =
  Some (counter_sum c (am_patterns a)).
Proof.
  intros [Ht Hn]. cbn [count_all]. unfold item_count at 1. cbn [fst]. rewrite String.eqb_refl. cbn [orb].
  rewrite map_to_list_fmap. unfold counter_sum. rewrite map_fold_foldr.
  assert (Forall (fun km => fst km <> "_totals" /\ in_u 64 (load c (snd km))) (map_to_list (am_patterns a)))
    as Hf.
  { apply Forall_forall. intros [k m] Hk%elem_of_map_to_list. split; [|by apply (Ht k)].
    cbn. intros ->. congruence. }
  assert (count_all (counter_name c) (prod_map id PatternMetrics_Snapshot <$> map_to_list (am_patterns a)) =
    Some (foldr (uncurry (fun (_ : string) m acc => acc + load c m)) 0 (map_to_list (am_patterns a)))) as ->.
  { induction Hf as [|[k m] l [Hk Hm] _ IH]; [done|]. cbn. rewrite IH. unfold item_count. cbn.
    destruct (String.eqb_spec k "_totals"); [done|]. cbn.
    rewrite (jv_is_object_object _ : jv_is_object (PatternMetrics_Snapshot m) = true). cbn.
    rewrite pattern_snapshot_value by done. f_equal. lia. }
  done.
Qed.

Lemma snapshot_sum_spec now a c :
  metrics_typed a ->
  snapshot_sum (AggregateMetrics_Snapshot now a) (counter_name c) = POk (total c (am_patterns a)).
Proof.
  intros Ht. unfold snapshot_sum.
  destruct (jv_members_spec (AggregateMetrics_Snapshot now a) (snapshot_object now a)) as (l & -> & Hn & Ha).
  cbn [parsed_of parsed_bind].
  assert (l ≡ₚ ("_totals", totals_json now a) :: map_to_list (PatternMetrics_Snapshot <$> am_patterns a)) as Hl.
  { apply assoc_ext_permutation; [done| |].
    - cbn. constructor; [|apply NoDup_fst_map_to_list].
      intros ([k j] & Hk & Hj%elem_of_map_to_list)%list_elem_of_fmap. cbn in Hk. subst k.
      destruct Ht as [_ Ht]. by rewrite lookup_fmap, Ht in Hj.
    - intros k. rewrite Ha, snapshot_member. cbn [assoc]. destruct (String.eqb k "_totals"); [done|].
      by rewrite <- assoc_list_to_map, list_to_map_to_list, lookup_fmap. }
  rewrite (items_sum_count l _ 0 (counter_sum c (am_patterns a))).
  - by rewrite total_sum.
  - unfold in_u. lia.
  - by rewrite (count_all_permutation _ _ _ Hl), count_all_patterns.
Qed.

Lemma snapshot_sum_key now a key c :
  key = counter_name c -> metrics_typed a ->
  snapshot_sum (AggregateMetrics_Snapshot now a) key = POk (total c (am_patterns a)).
Proof. intros ->. apply snapshot_sum_spec. Qed.

(** *** The entries of the patterns *)

(** A key the later assignments do not touch keeps its value. *)
Lemma set_all_member fields j k :
  jv_open j -> k ∉ fields.*1 ->
  jv_open (set_all fields j) /\ jv_member (set_all fields j) k = jv_member j k.
Proof.
  revert j. induction fields as [|[key v] fields IH]; intros j Hj Hk; cbn in *; [done|].
  apply not_elem_of_cons in Hk as [Hne Hk]. destruct (IH (jv_set j key v) (jv_open_set _ _ _ Hj) Hk) as [Ho ->].
  split; [done|]. rewrite jv_member_set by done. by destruct (String.eqb_spec k key).
Qed.

(** The values read from the snapshot, each under its key. *)
Lemma set_values_spec now a name keys j :
  metrics_typed a -> name <> "_totals" -> jv_open j -> NoDup keys.*1 ->
  Forall (fun kf => exists c, snd kf = counter_name c) keys ->
  exists p, set_values (AggregateMetrics_Snapshot now a) name keys j = POk p /\ jv_open p /\
    (forall k, k ∉ keys.*1 -> jv_member p k = jv_member j k) /\
    (forall key c, (key, counter_name c) ∈ keys ->
       jv_member p key = Some (jv_number (pattern_count a name c))).
Proof.
  intros Ht Hn Hj Hd Hf. revert j Hj Hd.
  induction Hf as [|[key from] keys [c Hc] Hf IH]; intros j Hj Hd; cbn in *.
  { exists j. split; [done|]. split; [done|]. split; [done|]. by intros ? ? ?%not_elem_of_nil. }
  subst from. rewrite snapshot_value_spec by done. cbn [parsed_bind].
  apply NoDup_cons in Hd as [Hk Hd].
  destruct (IH (jv_set j key (jv_number (pattern_count a name c))) (jv_open_set _ _ _ Hj) Hd)
    as (p & Hp & Ho & Hother & Hkeys).
  exists p. split; [done|]. split; [done|]. split.
  - intros k [Hne Hk']%not_elem_of_cons. rewrite Hother by done. rewrite jv_member_set by done.
    by destruct (String.eqb_spec k key).
  - intros key' c' [[= -> Hc']|Hin]%elem_of_cons; [|by apply Hkeys].
    rewrite Hother by done. rewrite jv_member_set, String.eqb_refl by done. do 3 f_equal.
    by destruct c, c'.
Qed.

Definition count_keys (name : string) : list (string * string) :=
  if is_rpc_pattern name then rpc_keys else message_keys.

Lemma pattern_counts_spec now a name j :
  metrics_typed a -> name <> "_totals" -> jv_open j ->
  exists p, pattern_counts (AggregateMetrics_Snapshot now a) name j = POk p /\
    (forall k, k ∈ ["enabled"; "channels"; "sent"; "errors"; "bytes_sent"; "bytes_received"] ->
       jv_member p k = jv_member j k) /\
    (forall key c, (key, counter_name c) ∈ count_keys name ->
       jv_member p key = Some (jv_number (pattern_count a name c))).
Proof.
  intros Ht Hn Hj. unfold pattern_counts, count_keys.
  destruct (is_rpc_pattern name).
  - destruct (set_values_spec now a name rpc_keys j Ht Hn Hj) as (p & -> & Ho & Hother & Hkeys).
    { apply (bool_decide_eq_true_1 _). reflexivity. }
    { repeat constructor; [by exists Crpc_success|by exists Crpc_timeout|by exists Crpc_error]. }
    eexists. split; [reflexivity|]. split.
    + intros k Hk. destruct (set_all_member [("senders", jv_array []); ("responders", jv_array [])] p k Ho)
        as [_ ->]; [set_solver|]. apply Hother. set_solver.
    + intros key c Hin. destruct (set_all_member [("senders", jv_array []); ("responders", jv_array [])] p key Ho)
        as [_ ->]; [|by apply Hkeys]. set_solver.
  - destruct (set_values_spec now a name message_keys j Ht Hn Hj) as (p & -> & Ho & Hother & Hkeys).
    { apply (bool_decide_eq_true_1 _). reflexivity. }
    { repeat constructor; [by exists Creceived|by exists Clost|by exists Cduplicated|by exists Ccorrupted|
                           by exists Cout_of_order]. }
    eexists. split; [reflexivity|]. split.
    + intros k Hk. destruct (set_all_member [("loss_pct", jv_number 0); ("producers", jv_array []);
        ("consumers", jv_array [])] p k Ho) as [_ ->]; [set_solver|]. apply Hother. set_solver.
    + intros key c Hin. destruct (set_all_member [("loss_pct", jv_number 0); ("producers", jv_array []);
        ("consumers", jv_array [])] p key Ho) as [_ ->]; [|by apply Hkeys]. set_solver.
Qed.

(** What the entry of a pattern says. *)
Definition enabled_entry (a : AggregateMetrics) (name : string) (pc : PatternConfig) (p : jvalue) : Prop :=
  jv_member p "enabled" = Some (jv_bool true) /\
  jv_member p "channels" = Some (jv_number (pc_channels pc)) /\
  (forall c, c ∈ [Csent; Cerrors; Cbytes_sent; Cbytes_received] ->
     jv_member p (counter_name c) = Some (jv_number (pattern_count a name c))) /\
  (forall key c, (key, counter_name c) ∈ count_keys name ->
     jv_member p key = Some (jv_number (pattern_count a name c))).

Definition pattern_entry (a : AggregateMetrics) (c : Config) (name : string) (p : jvalue) : Prop :=
  match cf_patterns c !! name with
  | Some pc => if pc_enabled pc then enabled_entry a name pc p else p = jv_disabled
  | None => p = jv_disabled
  end.

Lemma report_pattern_spec now a name pc :
  metrics_typed a -> name <> "_totals" ->
  exists p, report_pattern (AggregateMetrics_Snapshot now a) name pc = POk p /\ enabled_entry a name pc p.
Proof.
  intros Ht Hn. unfold report_pattern, enabled_entry.
  rewrite (snapshot_value_key now a name "sent" Csent), (snapshot_value_key now a name "errors" Cerrors),
    (snapshot_value_key now a name "bytes_sent" Cbytes_sent),
    (snapshot_value_key now a name "bytes_received" Cbytes_received) by done.
  cbn [parsed_bind]. set (base := jv_object _).
  assert (exists fields, (if is_rpc_pattern name then
       set_all [("senders_per_channel", jv_number (pc_senders_per_channel pc));
                ("responders_per_channel", jv_number (pc_responders_per_channel pc))] base
     else
       set_all [("producers_per_channel", jv_number (pc_producers_per_channel pc));
                ("consumers_per_channel", jv_number (pc_consumers_per_channel pc));
                ("consumer_group", jv_bool (pc_consumer_group pc))] base) = set_all fields base /\
     forall k, k ∈ ["enabled"; "channels"; "sent"; "errors"; "bytes_sent"; "bytes_received"] ->
       k ∉ fields.*1) as (fields & -> & Hf).
  { destruct (is_rpc_pattern name); (eexists; split; [reflexivity|]); set_solver. }
  destruct (pattern_counts_spec now a name (set_all fields base) Ht Hn) as (p & -> & Hb & Hk).
  { apply (set_all_member fields base "enabled"); [apply jv_open_object|]. apply Hf. set_solver. }
  assert (forall k, k ∈ ["enabled"; "channels"; "sent"; "errors"; "bytes_sent"; "bytes_received"] ->
    jv_member p k = jv_member base k) as Hp.
  { intros k Hin. rewrite Hb by done. apply set_all_member; [apply jv_open_object|by apply Hf]. }
  exists p. split; [done|]. split_and!; [| | |done].
  - rewrite Hp by set_solver. unfold base. by literal.
  - rewrite Hp by set_solver. unfold base. by literal.
  - intros c Hc. rewrite Hp by (destruct c; set_solver). unfold base. literal.
    destruct c; try done; set_solver.
Qed.

Lemma report_patterns_spec now a c names acc :
  metrics_typed a -> jv_open acc -> "_totals" ∉ names -> NoDup names ->
  exists j, report_patterns (AggregateMetrics_Snapshot now a) c names acc = POk j /\ jv_open j /\
    (forall name, name ∈ names -> exists p, jv_member j name = Some p /\ pattern_entry a c name p) /\
    (forall k, k ∉ names -> jv_member j k = jv_member acc k).
Proof.
  intros Ht Ho Hn Hd. revert acc Ho. induction Hd as [|name names Hx Hd IH]; intros acc Ho; cbn.
  { exists acc. split; [done|]. split; [done|]. split; [|done]. by intros ? ?%not_elem_of_nil. }
  apply not_elem_of_cons in Hn as [Hne Hn].
  assert (exists p, (match cf_patterns c !! name with
                     | Some pc => if pc_enabled pc
                                  then report_pattern (AggregateMetrics_Snapshot now a) name pc
                                  else POk jv_disabled
                     | None => POk jv_disabled end) = POk p /\ pattern_entry a c name p) as (p & -> & Hp).
  { unfold pattern_entry. destruct (cf_patterns c !! name) as [pc|]; [|by eexists].
    destruct (pc_enabled pc); [|by eexists]. by apply report_pattern_spec. }
  cbn [parsed_bind]. destruct (IH Hn (jv_set acc name p) (jv_open_set _ _ _ Ho)) as (j & -> & Hj & Hin & Hout).
  exists j. split; [done|]. split; [done|]. split.
  - intros k [->|Hk]%elem_of_cons; [|by apply Hin]. exists p. split; [|done].
    rewrite Hout by done. by rewrite jv_member_set, String.eqb_refl.
  - intros k [Hk Hk']%not_elem_of_cons. rewrite Hout by done. rewrite jv_member_set by done.
    by destruct (String.eqb_spec k name).
Qed.

(** The status of a run, its totals and what it lacks. *)
Lemma GetRunStatus_spec d now e r :
  metrics_typed (rd_metrics d) ->
  int64_of_double (ElapsedSeconds now (rd_metrics d)) = Some e ->
  int64_of_double (remaining_seconds (cf_duration_seconds (rd_config d))
                     (ElapsedSeconds now (rd_metrics d))) = Some r ->
  exists j, GetRunStatus d now = POk j /\
    jv_member j "state" = Some (jv_string (engine_state_name (rd_state d))) /\
    jv_member j "metrics" = None /\
    (rd_state d <> kStateIdle -> exists t, jv_member j "totals" = Some t /\
       forall c, c ∈ [Csent; Creceived; Cerrors; Clost; Cduplicated; Ccorrupted; Cout_of_order; Creconnections] ->
         jv_member t (counter_name c) = Some (jv_number (total c (am_patterns (rd_metrics d))))).
Proof.
  intros Ht He Hr. unfold GetRunStatus. destruct (decide (rd_state d = kStateIdle)) as [Hi|Hi].
  { exists idle_json. split; [done|]. unfold idle_json. rewrite Hi. repeat literal. by split_and!. }
  rewrite (snapshot_sum_key now _ "sent" Csent), (snapshot_sum_key now _ "received" Creceived),
    (snapshot_sum_key now _ "errors" Cerrors), (snapshot_sum_key now _ "lost" Clost),
    (snapshot_sum_key now _ "duplicated" Cduplicated), (snapshot_sum_key now _ "corrupted" Ccorrupted),
    (snapshot_sum_key now _ "out_of_order" Cout_of_order), (snapshot_sum_key now _ "reconnections" Creconnections) by done.
  destruct (jv_members_spec _ (snapshot_object now (rd_metrics d))) as (l & -> & _).
  unfold seconds_int. rewrite He, Hr. cbn [parsed_of parsed_bind].
  eexists. split; [reflexivity|]. repeat literal. split_and!; [done|done|]. intros _.
  eexists. split; [reflexivity|]. intros c Hc. literal. destruct c; try done; set_solver.
Qed.

(** The final report: it is built, with the entry of every standard pattern. *)
Lemma build_report_spec (d : RunData) (now worker_count e : Z) (ended_at : string) :
  metrics_typed (rd_metrics d) ->
  int64_of_double (ElapsedSeconds now (rd_metrics d)) = Some e ->
  exists j ps v, build_report d worker_count now ended_at = POk j /\
     jv_member j "run_id" = Some (jv_string (rd_run_id d)) /\
     jv_member j "duration_seconds" = Some (jv_number e) /\
     jv_member j "patterns" = Some ps /\
     (forall name, name ∈ standard_patterns -> exists p, jv_member ps name = Some p /\
        pattern_entry (rd_metrics d) (rd_config d) name p) /\
     jv_member j "verdict" = Some v /\
     jv_member v "result" = Some (jv_string
       (if bool_decide (total Cerrors (am_patterns (rd_metrics d)) = 0) then "PASSED"
        else "PASSED_WITH_WARNINGS")).
Proof.
  intros Ht He. unfold build_report.
  destruct (report_patterns_spec now (rd_metrics d) (rd_config d) standard_patterns jv_null Ht)
    as (ps & -> & _ & Hps & _); [by left|by vm_compute; set_solver|by apply (bool_decide_eq_true_1 _)|].
  rewrite (snapshot_sum_key now _ "errors" Cerrors) by done. unfold seconds_int. rewrite He.
  cbn [parsed_bind]. eexists _, ps, _. split; [reflexivity|]. repeat literal.
  split_and!; [done..|]. repeat literal. cbn [assoc String.eqb Ascii.eqb Bool.eqb]. do 2 f_equal.
  unfold verdict_result. by destruct (Z.eqb_spec (total Cerrors (am_patterns (rd_metrics d))) 0); case_bool_decide.
Qed.

(** C22: what the engine reports is what was counted. For any metrics, of
    whatever workers, while the times are in range: the status of a run gives
    as totals exactly the sums of the counters over the patterns, modulo 2^64;
    the final report gives for each of the six patterns that is enabled its
    own counters, for commands and queries the three kinds of answers, and
    marks the others disabled; its verdict is PASSED exactly when the errors
    sum to 0. No conversion of JSON in it throws. And the status never has a
    member metrics, which the metrics endpoint looks its totals up in. *)
Theorem run_report_truthful (d : RunData) (now worker_count e r : Z) (ended_at : string) :
  metrics_typed (rd_metrics d) ->
  int64_of_double (ElapsedSeconds now (rd_metrics d)) = Some e ->
  int64_of_double (remaining_seconds (cf_duration_seconds (rd_config d))
                     (ElapsedSeconds now (rd_metrics d))) = Some r ->
  (exists j, GetRunStatus d now = POk j /\
     jv_member j "state" = Some (jv_string (engine_state_name (rd_state d))) /\
     jv_member j "metrics" = None /\
     (rd_state d <> kStateIdle -> exists t, jv_member j "totals" = Some t /\
        forall c, c ∈ [Csent; Creceived; Cerrors; Clost; Cduplicated; Ccorrupted; Cout_of_order; Creconnections] ->
          jv_member t (counter_name c) = Some (jv_number (total c (am_patterns (rd_metrics d)))))) /\
  (exists j ps v, build_report d worker_count now ended_at = POk j /\
     jv_member j "run_id" = Some (jv_string (rd_run_id d)) /\
     jv_member j "duration_seconds" = Some (jv_number e) /\
     jv_member j "patterns" = Some ps /\
     (forall name, name ∈ standard_patterns -> exists p, jv_member ps name = Some p /\
        pattern_entry (rd_metrics d) (rd_config d) name p) /\
     jv_member j "verdict" = Some v /\
     jv_member v "result" = Some (jv_string
       (if bool_decide (total Cerrors (am_patterns (rd_metrics d)) = 0) then "PASSED"
        else "PASSED_WITH_WARNINGS"))).
Proof.
  intros Ht He Hr. split.
  - by apply (GetRunStatus_spec d now e r).
  - by apply build_report_spec.
Qed.

End report_lemmas.

(** ** On concrete metrics *)

Definition demo_metrics : AggregateMetrics :=
  mkAggregateMetrics {["events" := fetch_add Csent 3 PatternMetrics_new]} 0 2500000000 false.

Definition demo_run : @RunData (tree_json (fun _ => inr "")) :=
  @mkRunData (tree_json (fun _ => inr "")) kStateStopped "localhost:50000" demo_config "run" "t0" 0 demo_metrics
    None.

(** Two and a half seconds of a run of a minute, three events sent. *)
Lemma run_report_truthful_witness :
  exists j t, @GetRunStatus (tree_json (fun _ => inr "")) demo_run 7 = POk j /\
    @jv_member (tree_json (fun _ => inr "")) j "totals" = Some t /\
    @jv_member (tree_json (fun _ => inr "")) t "sent" = Some (JNumber 3).
Proof.
  destruct (@run_report_truthful (tree_json (fun _ => inr "")) (tree_json_laws _) demo_run 7 1 2 57 "t1")
    as [(j & Hj & _ & _ & Ht) _].
  - split; [|reflexivity]. intros k m Hm. unfold demo_run, demo_metrics in Hm. cbn in Hm.
    apply lookup_singleton_Some in Hm as [_ <-].
    intros c. destruct c; (split; [by vm_compute|reflexivity]).
  - vm_compute. reflexivity.
  - vm_compute. reflexivity.
  - destruct Ht as (t & Ht & Hc); [discriminate|]. exists j, t. split; [exact Hj|]. split; [exact Ht|].
    apply (Hc Csent). left.
Defined.
