(* ===== verification/Run.v ===== *)
(** * A run of the engine with its workers

    Composes burnin/engine/engine.cc's [RunLoop] with the workers it makes: the
    run thread creates them, resets and marks the metrics, starts each, waits
    for the duration or a stop request, stops and destroys each and builds the
    report, while the threads and callbacks of every worker take their own
    steps and count on the metrics of their pattern. [RunLoop] without its
    exceptions; those and the calls that race with it are in Engine. A thread
    that deletes the upstream handle of an ended stream ends the process, and
    with it the run. *)

From Stdlib Require Import ZArith Lia Ascii String Floats.
From S2P Require Import Prelude Automaton Double Status Messages Downstream Client Engine Json Config Metrics.
From S2P Require Import Worker WorkerCounts WorkerStop RunPlan Report.

Local Open Scope string_scope.
Local Open Scope Z_scope.

(** Where [RunLoop] is; the workers are taken in order. *)
Inductive run_stage :=
  | RCreate | RReset | RMarkStart | RStarting (i : nat)
  | RTest | RDuration | RSleep (since : Z)
  | RStopping (i : nat) | RDestroying (i : nat) (stopped : bool)
  | RMarkStop | RReport | RDone.

Record RunState := mkRunState {
  rs_stage : run_stage;
  rs_stop_requested : bool;
  rs_workers : list (WorkerConfig * Worker);   (* workers_, and those it destroyed *)
  rs_metrics : AggregateMetrics;
  rs_start : Z;                                (* start *)
  rs_count : Z;                                (* worker_count *)
  rs_clock : Z
}.

Definition RunState_new (a : AggregateMetrics) (clock : Z) : RunState :=
  mkRunState RCreate false [] a 0 0 clock.

Inductive run_input :=
  | ILoopStep (stamp : string)             (* the next step of RunLoop; NowIso8601 for the report *)
  | IStopRequest                           (* StopRun's store *)
  | IWorkerStep (i : nat) (x : worker_input).

Inductive run_output {J : Type} :=
  | OWorker (i : nat) (o : worker_output)
  | OReport (report : Parsed J).
Arguments run_output : clear implicits.

(** A call of [Start], [Stop] or the destructor, which only [RunLoop] makes. *)
Definition owner_input (x : worker_input) : bool :=
  match x with
  | IStartWorker | ISecondThread | IThreadFails | IThreadFatal | IStopWorker | IJoinFirst | IJoinSecond | IDestroyWorker => true
  | _ => false
  end.

(** [Start] and [Stop] one step at a time. *)
Definition start_input (w : Worker) : worker_input :=
  match w_owner w with WNew => IStartWorker | _ => ISecondThread end.

Definition is_started (w : Worker) : bool := match w_owner w with WStarted => true | _ => false end.
Definition is_stopped (w : Worker) : bool := match w_owner w with WStopped => true | _ => false end.

(** What a step of a worker adds to the metrics of its pattern. *)
Definition worker_updates (g : WorkerConfig) (o : list worker_output) : list Update :=
  omap (fun x => match x with OCount _ c n => Some (mkUpdate (PatternName (wk_kind g)) c n) | _ => None end) o.

Section run.
Context `{JsonValues}.
(** The engine's members that do not change in a run. *)
Context (broker run_id started_at : string) (c : Config).

Definition run_stepped : Type := option (RunState * list (run_output jvalue)).

Definition at_stage (x : run_stage) (s : RunState) : RunState :=
  mkRunState x (rs_stop_requested s) (rs_workers s) (rs_metrics s) (rs_start s) (rs_count s) (rs_clock s).
Definition at_time (t : Z) (s : RunState) : RunState :=
  mkRunState (rs_stage s) (rs_stop_requested s) (rs_workers s) (rs_metrics s) (rs_start s) (rs_count s) t.
Definition with_metrics (a : AggregateMetrics) (s : RunState) : RunState :=
  mkRunState (rs_stage s) (rs_stop_requested s) (rs_workers s) a (rs_start s) (rs_count s) (rs_clock s).

(** A step of the i-th worker; [next] is the stage after it. *)
Definition step_worker (i : nat) (x : worker_input) (next : Worker -> run_stage) (s : RunState) : run_stepped :=
  match rs_workers s !! i with
  | None => None
  | Some (g, w) =>
      match worker_step g w (rs_clock s, x) with
      | None => None
      | Some (w', o) =>
          Some (mkRunState (next w') (rs_stop_requested s) (<[i := (g, w')]> (rs_workers s))
                  (apply_updates (worker_updates g o) (rs_metrics s)) (rs_start s) (rs_count s) (rs_clock s),
                OWorker i <$> o)
      end
  end.

(** The loop is left: [worker_count] is taken, then the workers are stopped. *)
Definition stop_workers (s : RunState) : RunState :=
  mkRunState (RStopping 0) (rs_stop_requested s) (rs_workers s) (rs_metrics s) (rs_start s)
    (Z.of_nat (length (rs_workers s))) (rs_clock s).

(** What the report reads, once [workers_] is cleared. *)
Definition engine_data (s : RunState) : RunData :=
  mkRunData kStateStopping broker c run_id started_at 0 (rs_metrics s) None.

(** The process is over. *)
Definition run_ended (s : RunState) : bool := existsb (fun gw => w_ended (snd gw)) (rs_workers s).

Definition loop_step (stamp : string) (s : RunState) : run_stepped :=
  let quiet s' := Some (s', []) in
  let nth_worker i (k : Worker -> run_stepped) (finished : run_stepped) :=
    match rs_workers s !! i with Some (_, w) => k w | None => finished end in
  match rs_stage s with
  | RCreate =>
      let '(gs, a) := CreateWorkers broker run_id c (rs_metrics s) in
      quiet (mkRunState RReset (rs_stop_requested s) ((fun g => (g, Worker_new (rs_clock s))) <$> gs) a
               (rs_start s) (rs_count s) (rs_clock s))
  | RReset => quiet (at_stage RMarkStart (with_metrics (AggregateMetrics_Reset (rs_metrics s)) s))
  | RMarkStart => quiet (at_stage (RStarting 0) (with_metrics (MarkStart (rs_clock s) (rs_metrics s)) s))
  | RStarting i =>
      nth_worker i
        (fun w => step_worker i (start_input w)
                    (fun w' => if is_started w' then RStarting (S i) else RStarting i) s)
        (quiet (mkRunState RTest (rs_stop_requested s) (rs_workers s) (rs_metrics s) (rs_clock s)
                  (rs_count s) (rs_clock s)))
  | RTest => quiet (if rs_stop_requested s then stop_workers s else at_stage RDuration s)
  | RDuration =>
      quiet (if cf_duration_seconds c * 1000000000 <=? rs_clock s - rs_start s then stop_workers s
             else at_stage (RSleep (rs_clock s)) s)
  | RSleep since => if since + 500000000 <=? rs_clock s then quiet (at_stage RTest s) else None
  | RStopping i =>
      nth_worker i
        (fun w => step_worker i (stop_input w)
                    (fun w' => if is_stopped w' then RStopping (S i) else RStopping i) s)
        (quiet (at_stage (RDestroying 0 false) s))
  | RDestroying i stopped =>
      nth_worker i
        (fun w =>
           if stopped then step_worker i IDestroyWorker (fun _ => RDestroying (S i) false) s
           else step_worker i (stop_input w) (fun w' => RDestroying i (is_stopped w')) s)
        (quiet (at_stage RMarkStop s))
  | RMarkStop => quiet (at_stage RReport (with_metrics (MarkStop (rs_clock s) (rs_metrics s)) s))
  | RReport =>
      Some (at_stage RDone s, [OReport (build_report (engine_data s) (rs_count s) (rs_clock s) stamp)])
  | RDone => None
  end.

(** One step, not before the last. *)
Definition run_step (s : RunState) (ti : Z * run_input) : run_stepped :=
  let '(t, i) := ti in
  if run_ended s || (t <? rs_clock s) then None
  else
    let s := at_time t s in
    match i with
    | ILoopStep stamp => loop_step stamp s
    | IStopRequest =>
        Some (mkRunState (rs_stage s) true (rs_workers s) (rs_metrics s) (rs_start s) (rs_count s)
                (rs_clock s), [])
    | IWorkerStep n x =>
        if owner_input x then None else step_worker n x (fun _ => rs_stage s) s
    end.

(** ** Observing a run *)

(** The outputs of one worker, and the steps of its threads and callbacks. *)
Definition of_worker (j : nat) (outs : list (run_output jvalue)) : list worker_output :=
  omap (fun o => match o with OWorker i x => if decide (i = j) then Some x else None | _ => None end) outs.

Definition worker_inputs (j : nat) (ins : list (Z * run_input)) : list (Z * worker_input) :=
  omap (fun ti => match snd ti with
                  | IWorkerStep i x => if decide (i = j) then Some (fst ti, x) else None
                  | _ => None
                  end) ins.

(** The inputs of a worker that are not its owner's. *)
Definition thread_inputs (ins : list (Z * worker_input)) : list (Z * worker_input) :=
  List.filter (fun ti => negb (owner_input (snd ti))) ins.

(** All that a worker counts, whichever its thread. *)
Fixpoint counted_all (k : Counter) (outs : list worker_output) : Z :=
  match outs with
  | [] => 0
  | OCount _ k' n :: outs' => (if decide (k = k') then n else 0) + counted_all k outs'
  | _ :: outs' => counted_all k outs'
  end.

(** The sum of a value of each worker of one pattern. *)
Definition over_pattern (name : string) (gs : list WorkerConfig) (f : nat -> WorkerConfig -> Z) : Z :=
  foldr Z.add 0 (imap (fun i g => if decide (PatternName (wk_kind g) = name) then f i g else 0) gs).

(** What the outputs of a run add to the metrics. *)
Definition run_updates (gs : list WorkerConfig) (outs : list (run_output jvalue)) : list Update :=
  omap (fun o => match o with
                 | OWorker i (OCount _ k n) => (fun g => mkUpdate (PatternName (wk_kind g)) k n) <$> gs !! i
                 | _ => None
                 end) outs.

Lemma of_worker_app j l l' : of_worker j (l ++ l') = (of_worker j l ++ of_worker j l')%list.
Proof. apply omap_app. Qed.

Lemma worker_inputs_app j l l' : worker_inputs j (l ++ l') = (worker_inputs j l ++ worker_inputs j l')%list.
Proof. apply omap_app. Qed.

Lemma thread_inputs_app l l' : thread_inputs (l ++ l') = (thread_inputs l ++ thread_inputs l')%list.
Proof. apply List.filter_app. Qed.

(** An observation that ignores the owner. *)
Lemma omap_thread_inputs {A} (f : Z * worker_input -> option A) l :
  (forall t x, owner_input x = true -> f (t, x) = None) -> omap f (thread_inputs l) = omap f l.
Proof.
  intros Hf. induction l as [|[t x] l IH]; [done|]. unfold thread_inputs in *. cbn.
  destruct (owner_input x) eqn:Hx; cbn; [by rewrite Hf|by rewrite IH].
Qed.

Lemma run_updates_app gs l l' : run_updates gs (l ++ l') = (run_updates gs l ++ run_updates gs l')%list.
Proof. apply omap_app. Qed.

Lemma of_worker_fmap i j o : of_worker j (OWorker i <$> o) = if decide (i = j) then o else [].
Proof.
  unfold of_worker. induction o as [|x o IH]; cbn; [by case_decide|]. rewrite IH. by case_decide.
Qed.

Lemma run_updates_fmap gs i g o : gs !! i = Some g -> run_updates gs (OWorker i <$> o) = worker_updates g o.
Proof.
  intros Hg. unfold run_updates, worker_updates. induction o as [|x o IH]; [done|]. cbn. rewrite IH.
  destruct x; try done. cbn in Hg |- *. by rewrite Hg.
Qed.

Lemma counted_all_app k l l' : counted_all k (l ++ l') = counted_all k l + counted_all k l'.
Proof. induction l as [|[] l IH]; cbn; rewrite ?IH; try done. lia. Qed.

(** *** Sums over the workers *)

Lemma over_pattern_ext name gs f f' :
  (forall i g, gs !! i = Some g -> PatternName (wk_kind g) = name -> f i g = f' i g) ->
  over_pattern name gs f = over_pattern name gs f'.
Proof.
  intros He. unfold over_pattern. f_equal. apply imap_ext. intros i g Hg. case_decide; [by apply He|done].
Qed.

Lemma over_pattern_zero name gs : over_pattern name gs (fun _ _ => 0) = 0.
Proof.
  unfold over_pattern. assert (forall l : list Z, Forall (eq 0) l -> foldr Z.add 0 l = 0) as Hz.
  { induction 1 as [|x l <- _ IH]; cbn; lia. }
  apply Hz, Forall_lookup_2. intros i x (g & _ & ->)%list_lookup_imap_Some. by case_decide.
Qed.

(** One worker counts something more. *)
Lemma over_pattern_add name gs f i g n :
  gs !! i = Some g ->
  over_pattern name gs (fun j g => f j g + if decide (i = j) then n else 0) =
    over_pattern name gs f + if decide (PatternName (wk_kind g) = name) then n else 0.
Proof.
  unfold over_pattern. revert f i. induction gs as [|g' gs IH]; intros f i Hg; [done|]. cbn.
  destruct i as [|i].
  - injection Hg as ->. destruct (decide (0%nat = 0%nat)); [|done].
    erewrite imap_ext with (g := fun j g => if decide (PatternName (wk_kind g) = name) then f (S j) g else 0).
    2: { intros j g' _. unfold compose. repeat case_decide; (done || lia). }
    unfold compose. case_decide; lia.
  - cbn in Hg. destruct (decide (S i = 0%nat)); [done|].
    erewrite imap_ext with (g := fun j g => if decide (PatternName (wk_kind g) = name)
      then (fun j g => f (S j) g) j g + (if decide (i = j) then n else 0) else 0).
    2: { intros j g'' _. unfold compose. repeat case_decide; (done || lia). }
    rewrite (IH (fun j g => f (S j) g) i Hg). unfold compose. cbv beta. repeat case_decide; lia.
Qed.

(** A counter of a pattern in the metrics is what its workers count. *)
Lemma amount_app name k us us' : amount name k (us ++ us') = amount name k us + amount name k us'.
Proof. induction us as [|u us IH]; cbn; [done|]. rewrite IH. lia. Qed.

Lemma amount_worker name k g x :
  amount name k (worker_updates g [x]) = if decide (PatternName (wk_kind g) = name) then counted_all k [x] else 0.
Proof.
  destruct x; cbn; try by case_decide. case_bool_decide as Hb; repeat case_decide; intuition (lia || congruence).
Qed.

Lemma amount_updates name k gs outs :
  amount name k (run_updates gs outs) =
    over_pattern name gs (fun i _ => counted_all k (of_worker i outs)).
Proof.
  induction outs as [|o outs IH] using rev_ind; [by rewrite over_pattern_zero|].
  rewrite run_updates_app, amount_app, IH.
  destruct o as [i x|p].
  2: { cbn. rewrite Z.add_0_r. apply over_pattern_ext. intros i g _ _. by rewrite of_worker_app, app_nil_r. }
  assert (forall j, counted_all k (of_worker j (outs ++ [OWorker i x])) =
    counted_all k (of_worker j outs) + if decide (i = j) then counted_all k [x] else 0) as Hj.
  { intros j. rewrite of_worker_app, counted_all_app. f_equal.
    change [OWorker i x] with (OWorker (J := jvalue) i <$> [x]). rewrite of_worker_fmap. by case_decide. }
  destruct (gs !! i) as [g|] eqn:Hg.
  - change [OWorker i x] with (OWorker (J := jvalue) i <$> [x]).
    rewrite (run_updates_fmap gs i g [x] Hg), amount_worker.
    rewrite <- (over_pattern_add name gs (fun i _ => counted_all k (of_worker i outs)) i g _ Hg).
    apply over_pattern_ext. intros j g' _ _. by rewrite <- Hj.
  - replace (run_updates gs [OWorker i x]) with (@nil Update).
    2: { unfold run_updates. cbn in Hg |- *. destruct x; try done. by rewrite Hg. }
    cbn. rewrite Z.add_0_r. apply over_pattern_ext. intros j g Hg' _. rewrite Hj.
    rewrite decide_False by congruence. lia.
Qed.

(** ** What a worker counts, by any of its threads *)

Lemma counted_all_by k x l :
  counted_all k (counted_by x l) = foldr (fun cn acc => (if decide (k = fst cn) then snd cn else 0) + acc) 0 l.
Proof. induction l as [|[k' n] l IH]; cbn; [done|]. f_equal. exact IH. Qed.

Lemma counted_all_none k x l : Forall (fun cn => fst cn <> k) l -> counted_all k (counted_by x l) = 0.
Proof.
  rewrite counted_all_by. induction 1 as [|[k' n] l Hk _ IH]; [done|]. cbn in *. rewrite IH.
  by rewrite decide_False.
Qed.

(** The sent counters of a unary worker are its sending thread's. *)
Lemma sent_by_producer g w ti w' o k :
  wk_kind g <> QueueStreamWorker -> k = Csent \/ k = Cbytes_sent -> worker_step g w ti = Some (w', o) ->
  counted_all k o = counted FromProducer k o.
Proof.
  destruct ti as [t i]. intros Hg Hk (_ & [Hs|[Hs|[Hs|Hs]]])%worker_step_inv.
  - unfold owner_worker_step, stop_step, release_step, leak_step in Hs. step_cases Hs; done.
  - unfold producer_step in Hs. step_cases Hs; cbn [counted_all counted];
      rewrite ?counted_all_by, ?counted_by_self; try done; destruct Hk as [->| ->]; done.
  - pose proof (consumer_step_frame _ _ _ _ _ Hs) as (_ & _ & _ & Ho). rewrite (counted_others _ _ Ho).
    unfold consumer_step in Hs. destruct Hk as [->| ->]; step_cases Hs; try done; cbn [counted_all];
      apply counted_all_none; unfold count_received, count_polled; repeat case_match; repeat constructor; try done;
      by apply Forall_fmap, Forall_true.
  - pose proof (callback_step_frame _ _ _ _ _ Hs) as (_ & Ho). rewrite (counted_others _ _ Ho).
    unfold callback_step in Hs. destruct Hk as [->| ->]; step_cases Hs; done.
Qed.

(** What counts as received, and its bytes: what a callback is passed, what a
    receive or a poll returned without an error, the answers that say the
    request was executed. *)
Definition bodies_size (l : list string) : Z := foldr Z.add 0 (body_size <$> l).

Definition message_size (k : Counter) (x : worker_input) : Z :=
  match k, x with
  | Creceived, IMessageCallback _ => 1
  | Creceived, IReceived (SValue r) => if rr_is_error r then 0 else to_uint64 (rr_messages_received r)
  | Creceived, IPolled (SValue p) => if pr_is_error p then 0 else Z.of_nat (length (pr_messages p))
  | Creceived, ISent (RCommand (SValue x)) => if cresp_executed x then 1 else 0
  | Creceived, ISent (RQuery (SValue x)) => if qresp_executed x then 1 else 0
  | Cbytes_received, IMessageCallback n => n
  | Cbytes_received, IReceived (SValue r) => if rr_is_error r then 0 else bodies_size (qm_body <$> rr_messages r)
  | Cbytes_received, IPolled (SValue p) =>
      if pr_is_error p then 0 else bodies_size ((fun m => qm_body (dm_message m)) <$> pr_messages p)
  | Cbytes_received, ISent (RQuery (SValue x)) => if qresp_executed x then body_size (qresp_body x) else 0
  | _, _ => 0
  end.

Definition received_amount (k : Counter) (ins : list (Z * worker_input)) : Z :=
  foldr Z.add 0 ((fun ti => message_size k (snd ti)) <$> ins).

Lemma counted_bodies {A} x (f : A -> string) l :
  counted_all Creceived (counted_by x ((fun m => (Cbytes_received, body_size (f m))) <$> l)) = 0 /\
  counted_all Cbytes_received (counted_by x ((fun m => (Cbytes_received, body_size (f m))) <$> l)) =
    bodies_size (f <$> l).
Proof.
  unfold bodies_size. rewrite !counted_all_by. induction l as [|m l [IH1 IH2]]; [done|]. cbn.
  split; [exact IH1|]. by f_equal.
Qed.

Lemma upstream_received x k r :
  k = Creceived \/ k = Cbytes_received -> counted_all k (counted_by x (count_upstream r)) = 0.
Proof.
  intros Hk. apply counted_all_none. unfold count_upstream. case_match.
  - constructor; [by destruct Hk as [-> | ->]|done].
  - apply Forall_fmap, Forall_true. intros m. cbn. by destruct Hk as [-> | ->], (qsr_is_error m).
Qed.

Lemma received_by_worker g w t i w' o k :
  k = Creceived \/ k = Cbytes_received ->
  worker_step g w (t, i) = Some (w', o) -> counted_all k o = message_size k i.
Proof.
  intros Hk (_ & [Hs|[Hs|[Hs|Hs]]])%worker_step_inv.
  - unfold owner_worker_step, stop_step, release_step, leak_step in Hs. destruct Hk as [->| ->]; step_cases Hs; done.
  - unfold producer_step, result_of in Hs. destruct Hk as [->| ->]; step_cases Hs; try done;
      unfold count_accepted, count_failed; repeat case_match; simplify_eq/=; try done; lia.
  - unfold consumer_step in Hs. destruct Hk as [->| ->]; step_cases Hs; try done; cbn [counted_all];
      unfold count_received, count_polled; repeat case_match; subst; cbn [message_size]; try done; try congruence.
    all: first [ rewrite (proj1 (counted_bodies FromConsumer qm_body _)); lia
               | rewrite (proj1 (counted_bodies FromConsumer (fun m => qm_body (dm_message m)) _)); lia
               | rewrite (proj2 (counted_bodies FromConsumer qm_body _)); lia
               | rewrite (proj2 (counted_bodies FromConsumer (fun m => qm_body (dm_message m)) _)); lia ].
  - unfold callback_step in Hs. destruct Hk as [->| ->]; step_cases Hs; cbn; try lia; by apply upstream_received; auto.
Qed.

(** ** The invariant *)

(** Every worker is where a run of its own is, on its outputs and answers. *)
Definition workers_agree (s : RunState) (ins : list (Z * run_input)) (outs : list (run_output jvalue)) : Prop :=
  forall i, match rs_workers s !! i with
            | Some (g, w) => exists c0 wins, worker_run g (Worker_new c0) wins = Some (w, of_worker i outs) /\
                thread_inputs wins = worker_inputs i ins
            | None => of_worker i outs = [] /\ worker_inputs i ins = []
            end.

Lemma agree_same s s' ins outs ti o :
  workers_agree s ins outs -> rs_workers s' = rs_workers s ->
  (forall j, of_worker j o = [] /\ worker_inputs j [ti] = []) ->
  workers_agree s' (ins ++ [ti]) (outs ++ o).
Proof.
  intros Ha Hw Ho i. specialize (Ha i). destruct (Ho i) as [Hi Hj].
  by rewrite Hw, of_worker_app, worker_inputs_app, Hi, Hj, !app_nil_r.
Qed.

Lemma agree_step s ins outs ti i x next s' o :
  workers_agree s ins outs -> step_worker i x next s = Some (s', o) ->
  (forall j, worker_inputs j [ti] = if decide (i = j) then thread_inputs [(rs_clock s, x)] else []) ->
  workers_agree s' (ins ++ [ti]) (outs ++ o).
Proof.
  intros Ha Hs Hx j. unfold step_worker in Hs. specialize (Ha j).
  destruct (rs_workers s !! i) as [[g w]|] eqn:Hg; [|done].
  destruct (worker_step g w (rs_clock s, x)) as [[w' o']|] eqn:Hstep; [|done]. injection Hs as <- <-.
  cbn [rs_workers]. rewrite of_worker_app, of_worker_fmap, worker_inputs_app, Hx.
  destruct (decide (i = j)) as [->|Hne].
  - rewrite list_lookup_insert_eq by (eapply lookup_lt_Some; exact Hg). rewrite Hg in Ha.
    destruct Ha as (c0 & wins & Hr & Hans). exists c0, (wins ++ [(rs_clock s, x)])%list. split.
    + unfold worker_run in *. rewrite run_app, Hr. cbn [run]. by rewrite Hstep, app_nil_r.
    + by rewrite thread_inputs_app, Hans.
  - rewrite list_lookup_insert_ne, !app_nil_r by done. exact Ha.
Qed.

(** Only [RunLoop] moves a worker nobody has started. *)
Lemma new_worker_idle g c0 t x : owner_input x = false -> worker_step g (Worker_new c0) (t, x) = None.
Proof.
  intros Hx. unfold worker_step. case_match; [done|].
  destruct x; try done; unfold callback_step; by destruct (wk_kind g).
Qed.

Section invariant.
Context (a0 : AggregateMetrics).

Definition plan : list WorkerConfig := fst (CreateWorkers broker run_id c a0).
Definition planned_metrics : AggregateMetrics := snd (CreateWorkers broker run_id c a0).

(** Where the metrics are in the life of the run. *)
Definition run_metrics (s : RunState) (outs : list (run_output jvalue)) : Prop :=
  match rs_stage s with
  | RCreate => rs_workers s = [] /\ rs_metrics s = a0 /\ run_updates plan outs = []
  | RReset => (exists c0, rs_workers s = (fun g => (g, Worker_new c0)) <$> plan) /\
      rs_metrics s = planned_metrics /\ run_updates plan outs = []
  | _ => (rs_workers s).*1 = plan /\
      am_patterns (rs_metrics s) =
        am_patterns (apply_updates (run_updates plan outs) (AggregateMetrics_Reset planned_metrics))
  end.

Definition running_stage (x : run_stage) : bool := match x with RCreate | RReset => false | _ => true end.

Lemma run_metrics_running s outs :
  running_stage (rs_stage s) = true ->
  run_metrics s outs <->
  (rs_workers s).*1 = plan /\ am_patterns (rs_metrics s) =
    am_patterns (apply_updates (run_updates plan outs) (AggregateMetrics_Reset planned_metrics)).
Proof. unfold run_metrics. by destruct (rs_stage s). Qed.

Lemma apply_updates_patterns us a b :
  am_patterns a = am_patterns b -> am_patterns (apply_updates us a) = am_patterns (apply_updates us b).
Proof. revert a b. induction us as [|u us IH]; intros a b He; [done|]. cbn. apply IH. cbn. by rewrite He. Qed.

Lemma apply_updates_app us us' a : apply_updates (us ++ us') a = apply_updates us' (apply_updates us a).
Proof. revert a. induction us as [|u us IH]; intros a; [done|]. apply IH. Qed.

Lemma metrics_step s outs i x next s' o :
  running_stage (rs_stage s) = true -> (forall w, running_stage (next w) = true) ->
  run_metrics s outs -> step_worker i x next s = Some (s', o) -> run_metrics s' (outs ++ o).
Proof.
  intros Hst Hn Hm Hs. apply run_metrics_running in Hm as [Hp Hm]; [|done]. unfold step_worker in Hs.
  destruct (rs_workers s !! i) as [[g w]|] eqn:Hg; [|done].
  destruct (worker_step g w (rs_clock s, x)) as [[w' o']|]; [|done]. injection Hs as <- <-.
  apply run_metrics_running; [apply Hn|]. cbn [rs_workers rs_metrics]. split.
  - rewrite list_fmap_insert. cbn. rewrite list_insert_id; [done|]. by rewrite list_lookup_fmap, Hg.
  - rewrite run_updates_app, apply_updates_app, (run_updates_fmap plan i g).
    + by apply apply_updates_patterns.
    + rewrite <- Hp. by rewrite list_lookup_fmap, Hg.
Qed.

Lemma metrics_same s s' outs :
  running_stage (rs_stage s) = true -> running_stage (rs_stage s') = true ->
  rs_workers s' = rs_workers s -> am_patterns (rs_metrics s') = am_patterns (rs_metrics s) ->
  run_metrics s outs -> run_metrics s' outs.
Proof. intros Hs Hs' Hw Hm. rewrite !run_metrics_running by done. by rewrite Hw, Hm. Qed.


(** A step [RunLoop] makes of a worker is its owner's. *)
Lemma loop_worker_step s ins outs t stamp i x next s' o :
  workers_agree s ins outs -> owner_input x = true -> step_worker i x next s = Some (s', o) ->
  workers_agree s' (ins ++ [(t, ILoopStep stamp)]) (outs ++ o).
Proof.
  intros Ha Hx Hs. eapply agree_step; [exact Ha|exact Hs|]. intros j.
  unfold thread_inputs. cbn. rewrite Hx. by case_decide.
Qed.

Definition run_agrees (s : RunState) (ins : list (Z * run_input)) (outs : list (run_output jvalue)) : Prop :=
  workers_agree s ins outs /\ run_metrics s outs.

(** A step that leaves the workers and the counters. *)
Lemma quiet_agrees s s' ins outs ti o :
  run_agrees s ins outs -> (forall j, of_worker j o = [] /\ worker_inputs j [ti] = []) -> run_updates plan o = [] ->
  running_stage (rs_stage s) = true -> running_stage (rs_stage s') = true ->
  rs_workers s' = rs_workers s -> am_patterns (rs_metrics s') = am_patterns (rs_metrics s) ->
  run_agrees s' (ins ++ [ti]) (outs ++ o).
Proof.
  intros [Ha Hm] Hi Ho Hs Hs' Hw Hp. split; [by eapply agree_same|].
  apply (metrics_same s); try done. apply run_metrics_running in Hm as [Hp1 Hm]; [|done].
  apply run_metrics_running; [done|]. by rewrite run_updates_app, Ho, app_nil_r.
Qed.

(** A step of a worker that [RunLoop] makes. *)
Lemma worker_agrees s ins outs t stamp i x next s' o :
  run_agrees s ins outs -> running_stage (rs_stage s) = true -> (forall w, running_stage (next w) = true) ->
  owner_input x = true -> step_worker i x next s = Some (s', o) ->
  run_agrees s' (ins ++ [(t, ILoopStep stamp)]) (outs ++ o).
Proof.
  intros [Ha Hm] Hs Hn Hx Hst. split; [by eapply loop_worker_step|by eapply metrics_step].
Qed.

Lemma start_input_owner w : owner_input (start_input w) = true.
Proof. unfold start_input. by destruct (w_owner w). Qed.

Lemma stop_input_owner w : owner_input (stop_input w) = true.
Proof. unfold stop_input. by destruct (w_owner w). Qed.

Lemma create_agrees s ins outs t stamp s' o :
  run_agrees s ins outs -> rs_stage s = RCreate -> loop_step stamp s = Some (s', o) ->
  run_agrees s' (ins ++ [(t, ILoopStep stamp)]) (outs ++ o).
Proof.
  unfold run_agrees, run_metrics, loop_step. intros [Ha Hm] Est Hs. rewrite Est in *.
  destruct Hm as (Hw & Hm & Hu). rewrite Hm in Hs.
  destruct (CreateWorkers broker run_id c a0) as [gs a] eqn:Ec. injection Hs as <- <-.
  rewrite app_nil_r. cbn [rs_stage rs_workers rs_metrics]. split.
  - intros i. specialize (Ha i). rewrite Hw in Ha. destruct Ha as [Ha Hb].
    rewrite worker_inputs_app, Ha, Hb. cbn [rs_workers]. rewrite list_lookup_fmap.
    destruct (gs !! i) as [g|]; [|done]. by exists (rs_clock s), [].
  - unfold plan, planned_metrics in *. rewrite Ec in *. by split; [eexists|].
Qed.

Lemma loop_agrees s ins outs t stamp s' o :
  run_agrees s ins outs -> loop_step stamp s = Some (s', o) ->
  run_agrees s' (ins ++ [(t, ILoopStep stamp)]) (outs ++ o).
Proof.
  intros Hr Hs. destruct (rs_stage s) eqn:Est; [by eapply create_agrees|..]; unfold loop_step in Hs; rewrite Est in Hs.
  1: { injection Hs as <- <-. destruct Hr as [Ha Hm]. split; [by eapply agree_same|].
    unfold run_metrics in *. rewrite Est in Hm. destruct Hm as ((c0 & Hw) & Hm & Hu).
    cbn [at_stage with_metrics rs_stage rs_workers rs_metrics]. rewrite app_nil_r, Hu, Hm, Hw. split; [|done].
    rewrite <- list_fmap_compose. apply list_fmap_id. }
  all: repeat (case_match; try discriminate Hs);
    first [ discriminate Hs | injection Hs as <- <-; eapply quiet_agrees; [exact Hr|done|done|by rewrite Est|done|done|done]
          | apply (worker_agrees s ins outs t stamp _ _ _ s' o) in Hs;
              [exact Hs|exact Hr|by rewrite Est|intros ?; first [done|by case_match]
              |first [apply start_input_owner|apply stop_input_owner|done]] ].
Qed.

Lemma run_agrees_step s ins outs ti s' o :
  run_agrees s ins outs -> run_step s ti = Some (s', o) -> run_agrees s' (ins ++ [ti]) (outs ++ o).
Proof.
  destruct ti as [t i]. unfold run_step. intros Hr Hs. destruct (run_ended s || (t <? rs_clock s)); [done|].
  assert (run_agrees (at_time t s) ins outs) as Hrt by exact Hr.
  destruct i as [stamp| |n x].
  - by eapply loop_agrees.
  - injection Hs as <- <-. destruct Hrt as [Ha Hm]. split; [by eapply (agree_same _ _ _ _ _ _ Ha)|]. by rewrite app_nil_r.
  - destruct (owner_input x) eqn:Hx; [done|]. destruct (running_stage (rs_stage s)) eqn:Est.
    + destruct Hrt as [Ha Hm]. split; [|exact (metrics_step (at_time t s) _ _ _ _ _ _ Est (fun _ => Est) Hm Hs)].
      eapply agree_step; [exact Ha|exact Hs|]. intros j. unfold thread_inputs. cbn. rewrite Hx. by case_decide.
    + exfalso. destruct Hrt as [_ Hm]. unfold run_metrics, step_worker in *. cbn [at_time rs_stage rs_workers] in *.
      destruct (rs_stage s); try done.
      * destruct Hm as [Hw _]. by rewrite Hw in Hs.
      * destruct Hm as [[c0 Hw] _]. rewrite Hw, list_lookup_fmap in Hs.
        destruct (plan !! n); [|done]. cbn [fmap option_fmap option_map] in Hs.
        by rewrite new_worker_idle in Hs.
Qed.

Lemma run_agrees_run clock ins s outs :
  run run_step (RunState_new a0 clock) ins = Some (s, outs) -> run_agrees s ins outs.
Proof.
  revert ins s outs. apply (run_ind run_step _ run_agrees).
  - split; [done|]. by split_and!.
  - intros s ins outs ti s' o _ Hr Hs. by eapply run_agrees_step.
Qed.

(** *** The metrics of a running stage *)

Lemma planned_name g : g ∈ plan -> PatternName (wk_kind g) ∈ dom (am_patterns planned_metrics).
Proof. apply CreateWorkers_dom. Qed.

Lemma planned_totals : am_patterns a0 !! "_totals" = None -> am_patterns planned_metrics !! "_totals" = None.
Proof.
  unfold planned_metrics, CreateWorkers. intros Ha. set (f := fun wa slot => _).
  assert (forall l wa, am_patterns wa.2 !! "_totals" = None -> am_patterns (foldl f wa l).2 !! "_totals" = None) as Hf.
  { induction l as [|s l IH]; intros wa Hwa; [done|]. cbn. apply IH. unfold f.
    destruct (slot_worker broker run_id c s) as [g|]; [|done]. cbn. unfold GetPattern.
    destruct (am_patterns wa.2 !! PatternName (wk_kind g)); [done|]. cbn.
    rewrite lookup_insert_ne; [done|by destruct (wk_kind g)]. }
  by apply Hf.
Qed.

Lemma run_counter s outs name k m :
  running_stage (rs_stage s) = true -> run_metrics s outs -> am_patterns (rs_metrics s) !! name = Some m ->
  load k m = to_uint64 (over_pattern name plan (fun i _ => counted_all k (of_worker i outs))).
Proof.
  intros Hs [_ Hm]%run_metrics_running Hk; [|done]. rewrite Hm in Hk. rewrite <- amount_updates.
  assert (name ∈ dom (am_patterns planned_metrics)) as [m0 Hm0]%elem_of_dom.
  { apply elem_of_dom_2 in Hk. rewrite updates_dom in Hk. cbn in Hk. by rewrite dom_fmap_L in Hk. }
  destruct (load_updates (run_updates plan outs) (AggregateMetrics_Reset planned_metrics) name k
    (PatternMetrics_Reset m0)) as (m' & Hm' & He).
  - cbn. by rewrite lookup_fmap, Hm0.
  - rewrite load_Reset. unfold in_u; lia.
  - rewrite Hk in Hm'. injection Hm' as <-. by rewrite He, load_Reset.
Qed.

Lemma run_pattern_count s outs name k :
  running_stage (rs_stage s) = true -> run_metrics s outs ->
  pattern_count (rs_metrics s) name k =
    to_uint64 (over_pattern name plan (fun i _ => counted_all k (of_worker i outs))).
Proof.
  intros Hs Hm. unfold pattern_count. destruct (am_patterns (rs_metrics s) !! name) as [m|] eqn:E.
  - by eapply run_counter.
  - apply run_metrics_running in Hm as [_ Hm]; [|done].
    rewrite (over_pattern_ext _ _ _ (fun _ _ => 0)); [by rewrite over_pattern_zero|].
    intros i g Hg <-. exfalso. apply not_elem_of_dom in E. apply E. rewrite Hm, updates_dom. cbn.
    rewrite dom_fmap_L. apply planned_name. by eapply list_elem_of_lookup_2.
Qed.

Lemma run_metrics_typed s outs :
  am_patterns a0 !! "_totals" = None ->
  running_stage (rs_stage s) = true -> run_metrics s outs -> metrics_typed (rs_metrics s).
Proof.
  intros Ha Hs Hm. split.
  - intros name m Hk k. rewrite (run_counter s outs name k m) by done. by apply wrap_u_range.
  - apply run_metrics_running in Hm as [_ Hm]; [|done]. apply not_elem_of_dom. rewrite Hm, updates_dom. cbn.
    rewrite dom_fmap_L. by apply not_elem_of_dom, planned_totals.
Qed.

(** *** What a worker of the run did *)

Lemma run_worker_sent clock ins s outs i g k :
  run run_step (RunState_new a0 clock) ins = Some (s, outs) -> running_stage (rs_stage s) = true ->
  plan !! i = Some g -> wk_kind g <> QueueStreamWorker -> k = Csent \/ k = Cbytes_sent ->
  counted_all k (of_worker i outs) =
    let rs := sent_results (worker_inputs i ins) in
    if decide (k = Csent) then accepted_sends rs else accepted_bytes (wk_kind g) 1 rs.
Proof.
  intros Hr Hs Hg Hq Hk. destruct (run_agrees_run _ _ _ _ Hr) as [Ha [Hp _]%run_metrics_running]; [|done].
  specialize (Ha i). destruct (rs_workers s !! i) as [[g' w]|] eqn:Hw.
  2: { exfalso. rewrite <- Hp, list_lookup_fmap, Hw in Hg. done. }
  assert (g' = g) as ->.
  { rewrite <- Hp, list_lookup_fmap, Hw in Hg. by injection Hg. }
  destruct Ha as (c0 & wins & Hrun & Hin).
  assert (counted_all k (of_worker i outs) = counted FromProducer k (of_worker i outs)) as ->.
  { clear Hin Hw. revert wins w Hrun. generalize (of_worker i outs). intros l wins w Hrun.
    revert wins w l Hrun. apply (run_ind (worker_step g) _ (fun _ _ l => counted_all k l = counted FromProducer k l));
      [done|].
    intros w1 wi l ti w2 o _ He Hst. rewrite counted_all_app, counted_app, He.
    by rewrite (sent_by_producer g w1 ti w2 o k). }
  destruct (worker_run_inv _ _ _ _ _ Hq Hrun) as (_ & _ & _ & _ & _ & _ & Hsent & Hbytes & _).
  cbv zeta in Hsent, Hbytes. rewrite <- Hin.
  replace (sent_results (thread_inputs wins)) with (sent_results wins).
  2: { symmetry. apply omap_thread_inputs. by intros ? []. }
  destruct Hk as [->| ->]; cbv zeta; by case_decide.
Qed.

Lemma received_thread_inputs k ins : received_amount k (thread_inputs ins) = received_amount k ins.
Proof.
  unfold received_amount, thread_inputs. induction ins as [|[t x] ins IH]; [done|]. cbn.
  destruct (owner_input x) eqn:Hx; cbn; rewrite IH; [|done]. by destruct x, k.
Qed.

Lemma run_worker_received clock ins s outs i g k :
  run run_step (RunState_new a0 clock) ins = Some (s, outs) -> running_stage (rs_stage s) = true ->
  plan !! i = Some g -> k = Creceived \/ k = Cbytes_received ->
  counted_all k (of_worker i outs) = received_amount k (worker_inputs i ins).
Proof.
  intros Hr Hs Hg Hk. destruct (run_agrees_run _ _ _ _ Hr) as [Ha [Hp _]%run_metrics_running]; [|done].
  specialize (Ha i). destruct (rs_workers s !! i) as [[g' w]|] eqn:Hw.
  2: { exfalso. rewrite <- Hp, list_lookup_fmap, Hw in Hg. done. }
  destruct Ha as (c0 & wins & Hrun & Hin). rewrite <- Hin, received_thread_inputs.
  clear Hin Hw. revert Hrun. generalize (of_worker i outs). intros l Hrun.
  revert wins w l Hrun. apply (run_ind (worker_step g') _ (fun _ wi l => counted_all k l = received_amount k wi)); [done|].
  intros w1 wi l [t i'] w2 o _ He Hst. rewrite counted_all_app, He.
  rewrite (received_by_worker g' w1 t i' w2 o k) by done. unfold received_amount.
  rewrite fmap_app, foldr_app. cbn. clear. induction wi as [|[t x] wi IH]; cbn in *; lia.
Qed.

(** The sums over the workers of one pattern. *)
Lemma run_pattern_sent clock ins s outs k :
  run run_step (RunState_new a0 clock) ins = Some (s, outs) -> running_stage (rs_stage s) = true ->
  k <> QueueStreamWorker ->
  over_pattern (PatternName k) plan (fun i _ => counted_all Csent (of_worker i outs)) =
    over_pattern (PatternName k) plan (fun i _ => accepted_sends (sent_results (worker_inputs i ins))) /\
  over_pattern (PatternName k) plan (fun i _ => counted_all Cbytes_sent (of_worker i outs)) =
    over_pattern (PatternName k) plan (fun i g => accepted_bytes (wk_kind g) 1 (sent_results (worker_inputs i ins))).
Proof.
  intros Hr Hs Hk. split; apply over_pattern_ext; intros i g Hg Hn;
    (rewrite (run_worker_sent clock ins s outs i g); [done|done|done|done| |by auto];
     intros Hk'; rewrite Hk' in Hn; by destruct k).
Qed.

Lemma run_pattern_received clock ins s outs name k :
  run run_step (RunState_new a0 clock) ins = Some (s, outs) -> running_stage (rs_stage s) = true ->
  k = Creceived \/ k = Cbytes_received ->
  over_pattern name plan (fun i _ => counted_all k (of_worker i outs)) =
    over_pattern name plan (fun i _ => received_amount k (worker_inputs i ins)).
Proof.
  intros Hr Hs Hk. apply over_pattern_ext; intros i g Hg _. by eapply run_worker_received.
Qed.

End invariant.

(** ** What the report of a run says *)

Section report_contract.
Context `{!JsonLaws}.

(** C15: the report of a run is what its workers did. For every run of the
    engine with its workers, from whatever metrics earlier runs left, in any
    interleaving of the run thread, a stop request, the threads and the
    callbacks: when [RunLoop] comes to its report, in a process that the
    deletion of an ended stream has not ended, the report is built, and
    in the entry of every enabled pattern each counter is the sum over exactly
    the workers of that pattern of all they counted, modulo 2^64. In the five
    unary patterns the messages and bytes sent are those of exactly the sends
    the SDK accepted. In every pattern the bytes received, and in the four
    message patterns the messages, are exactly those passed to the callbacks
    of events and stored events or returned without an error by a receive or a
    poll, or the bodies of the answers to executed queries. The messages sent
    of the queue stream are only what its upstream callbacks counted. *)
Theorem run_reports_what_was_done (a0 : AggregateMetrics) (clock t e : Z) (stamp : string)
    (ins : list (Z * run_input)) (s : RunState) (outs : list (run_output jvalue)) :
  am_patterns a0 !! "_totals" = None ->
  run run_step (RunState_new a0 clock) ins = Some (s, outs) ->
  run_ended s = false -> rs_stage s = RReport -> rs_clock s <= t ->
  int64_of_double (ElapsedSeconds t (rs_metrics s)) = Some e ->
  exists j ps s', run_step s (t, ILoopStep stamp) = Some (s', [OReport (POk j)]) /\
    jv_member j "patterns" = Some ps /\
    forall k pc, cf_patterns c !! PatternName k = Some pc -> pc_enabled pc = true ->
      let name := PatternName k in
      let sum f := jv_number (to_uint64 (over_pattern name (plan a0) f)) in
      exists p, jv_member ps name = Some p /\
        (forall key cn, (key, counter_name cn) ∈ (("sent", "sent") :: ("errors", "errors") ::
             ("bytes_sent", "bytes_sent") :: ("bytes_received", "bytes_received") :: count_keys name) ->
           jv_member p key = Some (sum (fun i _ => counted_all cn (of_worker i outs)))) /\
        (k <> QueueStreamWorker ->
           jv_member p "sent" = Some (sum (fun i _ => accepted_sends (sent_results (worker_inputs i ins)))) /\
           jv_member p "bytes_sent" =
             Some (sum (fun i g => accepted_bytes (wk_kind g) 1 (sent_results (worker_inputs i ins))))) /\
        jv_member p "bytes_received" = Some (sum (fun i _ => received_amount Cbytes_received (worker_inputs i ins))) /\
        (is_rpc k = false ->
           jv_member p "received" = Some (sum (fun i _ => received_amount Creceived (worker_inputs i ins)))).
Proof.
  intros Ha Hr Hne Hst Ht He. destruct (run_agrees_run a0 _ _ _ _ Hr) as [_ Hm].
  assert (running_stage (rs_stage s) = true) as Hs by by rewrite Hst.
  destruct (build_report_spec (engine_data (at_time t s)) t (rs_count s) e stamp) as
    (j & ps & _ & Hj & _ & _ & Hps & Hp & _); [by eapply run_metrics_typed|done|].
  exists j, ps, (at_stage RDone (at_time t s)). split; [|split; [done|]].
  { unfold run_step. rewrite Hne. destruct (Z.ltb_spec t (rs_clock s)); [lia|]. cbn [orb]. unfold loop_step.
    change (rs_stage (at_time t s)) with (rs_stage s). rewrite Hst.
    change (rs_count (at_time t s)) with (rs_count s). change (rs_clock (at_time t s)) with t. by rewrite Hj. }
  intros k pc Hpc Hen name sum. destruct (Hp name) as (p & Hin & Hentry).
  { subst name. destruct k; vm_compute; set_solver. }
  exists p. split; [done|]. unfold pattern_entry in Hentry. cbn [engine_data rd_config rd_metrics] in Hentry.
  subst name. rewrite Hpc, Hen in Hentry. destruct Hentry as (_ & _ & Hbase & Hkeys).
  cbn [at_time rs_metrics] in Hbase, Hkeys.
  assert (forall key cn, (key, counter_name cn) ∈ (("sent", "sent") :: ("errors", "errors") ::
     ("bytes_sent", "bytes_sent") :: ("bytes_received", "bytes_received") :: count_keys (PatternName k)) ->
     jv_member p key = Some (sum (fun i _ => counted_all cn (of_worker i outs)))) as Hall.
  { intros key cn Hin'. subst sum. cbv beta. rewrite <- (run_pattern_count a0 s outs) by done.
    rewrite !elem_of_cons in Hin'. destruct Hin' as [E|[E|[E|[E|Hk]]]]; [..|by apply Hkeys];
      destruct cn; try discriminate E; injection E as ->;
      [apply (Hbase Csent)|apply (Hbase Cerrors)|apply (Hbase Cbytes_sent)|apply (Hbase Cbytes_received)]; set_solver. }
  split; [exact Hall|].
  pose proof (fun cn => run_pattern_received a0 clock ins s outs (PatternName k) cn Hr Hs) as Hrec.
  subst sum. cbv beta. split; [intros Hk|split; [|intros Hk]].
  - destruct (run_pattern_sent a0 clock ins s outs k Hr Hs Hk) as [H1 H2].
    split; [rewrite <- H1|rewrite <- H2]; by apply Hall; set_solver.
  - rewrite <- (Hrec Cbytes_received) by auto. apply Hall. set_solver.
  - rewrite <- (Hrec Creceived) by auto. apply Hall. destruct k; try done; vm_compute; set_solver.
Qed.

End report_contract.

End run.

(** ** A concrete run *)

(** One worker of events for a minute; a stop is requested after one message. *)
Definition events_config : Config :=
  mkConfig "host:1" "p" 60 5 "run" 64 {["events" := mkPatternConfig true 1 1 1 false 1 1 50]}
    (mkQueueConfig 1 2 true) 9 [].

Definition events_started : list (Z * run_input) :=
  (map (pair 0)
    [ILoopStep ""; ILoopStep ""; ILoopStep ""; ILoopStep ""; ILoopStep "";
     IWorkerStep 0 (IConsumeOk true); IWorkerStep 0 (IConsumeOk true); IWorkerStep 0 (IProduceOk true);
     IWorkerStep 0 IProduce; ILoopStep ""; IWorkerStep 0 IProduce; IWorkerStep 0 (ISent (RStatus StatusOk));
     IWorkerStep 0 (IMessageCallback 70); ILoopStep ""; ILoopStep ""; IStopRequest])%list.

Definition events_stopped : list (Z * run_input) :=
  (events_started ++ map (pair 600000000)
    [ILoopStep ""; ILoopStep ""; ILoopStep ""; IWorkerStep 0 IConsume; IWorkerStep 0 IConsume;
     IWorkerStep 0 IProduce; IWorkerStep 0 IProduce; IWorkerStep 0 IProduce; ILoopStep ""; ILoopStep ""; ILoopStep "";
     ILoopStep ""; ILoopStep ""; ILoopStep ""; ILoopStep ""; ILoopStep ""; ILoopStep ""])%list.

Definition run_json : JsonValues := tree_json (fun _ => inr "").

Lemma run_reports_what_was_done_witness :
  exists s outs s' j ps p,
    @run _ _ _ (@run_step run_json "host:1" "r" "t0" events_config) (RunState_new AggregateMetrics_new 0) events_stopped
      = Some (s, outs) /\
    @run_step run_json "host:1" "r" "t0" events_config s (600000000, ILoopStep "t1") = Some (s', [OReport (POk j)]) /\
    @jv_member run_json j "patterns" = Some ps /\ @jv_member run_json ps "events" = Some p /\
    @jv_member run_json p "sent" = Some (JNumber 1) /\ @jv_member run_json p "bytes_received" = Some (JNumber 70).
Proof.
  destruct (@run _ _ _ (@run_step run_json "host:1" "r" "t0" events_config) (RunState_new AggregateMetrics_new 0)
    events_stopped) as [[s outs]|] eqn:E.
  2: { vm_compute in E. discriminate E. }
  destruct (@run_reports_what_was_done run_json "host:1" "r" "t0" events_config (tree_json_laws _)
    AggregateMetrics_new 0 600000000 0 "t1" events_stopped s outs) as (j & ps & s' & Hs & Hps & Hp).
  - reflexivity.
  - exact E.
  - vm_compute in E. injection E as <- _. reflexivity.
  - vm_compute in E. injection E as <- _. reflexivity.
  - vm_compute in E. injection E as <- _. discriminate.
  - vm_compute in E. injection E as <- _. vm_compute. reflexivity.
  - destruct (Hp EventsWorker (mkPatternConfig true 1 1 1 false 1 1 50) eq_refl eq_refl) as (p & Hin & _ & Hsent & Hrec & _).
    exists s, outs, s', j, ps, p. split; [reflexivity|]. split; [exact Hs|]. split; [exact Hps|]. split; [exact Hin|].
    destruct (Hsent ltac:(discriminate)) as [H1 _]. split; [exact H1|exact Hrec].
Defined.
