(* ===== verification/RunStop.v ===== *)
(** * How a run of the engine ends

    The run thread takes its workers through [Start], [Stop] and their
    destruction in order; from any point of a run something can always go on,
    and once a stop is requested the run thread has a bounded number of steps
    left and leaves no thread behind. *)

From Stdlib Require Import ZArith Lia Ascii String.
From S2P Require Import Prelude Automaton Status Client Engine Json Config Metrics.
From S2P Require Import Worker WorkerCounts WorkerStop RunPlan Report Run.

Local Open Scope string_scope.
Local Open Scope Z_scope.

(** ** Where the workers are *)

(** The stage of the i-th worker's owner at a stage of [RunLoop]. *)
Definition owner_expected (x : run_stage) (i : nat) (o : owner_stage) : bool :=
  match x with
  | RCreate | RReset | RMarkStart => match o with WNew => true | _ => false end
  | RStarting n =>
      if (i <? n)%nat then match o with WStarted => true | _ => false end
      else if (i =? n)%nat then match o with WNew | WSecond _ => true | _ => false end
      else match o with WNew => true | _ => false end
  | RTest | RDuration | RSleep _ => match o with WStarted => true | _ => false end
  | RStopping n =>
      if (i <? n)%nat then match o with WStopped => true | _ => false end
      else if (i =? n)%nat then match o with WStarted | WClose | WJoin1 | WJoin2 => true | _ => false end
      else match o with WStarted => true | _ => false end
  | RDestroying n stopped =>
      if (i <? n)%nat then match o with WDestroyed => true | _ => false end
      else if (i =? n)%nat && negb stopped then match o with WStopped | WClose | WJoin1 | WJoin2 => true | _ => false end
      else match o with WStopped => true | _ => false end
  | RMarkStop | RReport | RDone => match o with WDestroyed => true | _ => false end
  end.

Definition worker_placed (s : RunState) (i : nat) (g : WorkerConfig) (w : Worker) : Prop :=
  owner_expected (rs_stage s) i (w_owner w) = true /\ life_inv g w /\ w_clock w <= rs_clock s.

Definition workers_placed (s : RunState) : Prop :=
  forall i g w, rs_workers s !! i = Some (g, w) -> worker_placed s i g w.

Lemma worker_step_clock g w t x w' o : worker_step g w (t, x) = Some (w', o) -> w_clock w' = t.
Proof.
  intros (_ & [Hs|[Hs|[Hs|Hs]]])%worker_step_inv.
  - by apply owner_step_frame in Hs as [(_ & _ & _ & ->) _].
  - by apply producer_step_frame in Hs as (_ & _ & -> & _).
  - by apply consumer_step_frame in Hs as ((_ & _ & _ & ->) & _).
  - by apply callback_step_frame in Hs as [-> _].
Qed.

(** The threads and callbacks do not move the owner. *)
Lemma thread_step_owner g w t x w' o :
  owner_input x = false -> worker_step g w (t, x) = Some (w', o) -> w_owner w' = w_owner w.
Proof.
  intros Hx (_ & [Hs|[Hs|[Hs|Hs]]])%worker_step_inv.
  - unfold owner_worker_step in Hs. destruct x; try done; cbn in Hs; step_cases Hs; done.
  - by apply producer_step_frame in Hs as (_ & -> & _).
  - by apply consumer_step_frame in Hs as (_ & _ & -> & _).
  - by apply callback_step_frame in Hs as [-> _].
Qed.

(** What the owner's steps do to its stage. *)
Lemma start_step_owner g w t w' o :
  worker_step g w (t, start_input w) = Some (w', o) ->
  match w_owner w with
  | WNew => exists since, w_owner w' = WSecond since
  | WSecond _ => w_owner w' = WStarted
  | _ => True
  end.
Proof.
  unfold worker_step, start_input. destruct (t <? w_clock w); [done|]. intros Hs.
  destruct (w_owner w) eqn:E; try done; unfold owner_worker_step in Hs; cbn in Hs; rewrite E in Hs;
    step_cases Hs; eauto.
Qed.

Lemma stop_step_owner g w t w' o :
  worker_step g w (t, stop_input w) = Some (w', o) ->
  match w_owner w with
  | WStarted | WStopped => w_owner w' = WClose \/ w_owner w' = WJoin1
  | WClose | WJoin1 => w_owner w' = WJoin2
  | WJoin2 => w_owner w' = WStopped
  | _ => True
  end.
Proof.
  unfold worker_step, stop_input. destruct (t <? w_clock w); [done|]. intros Hs.
  destruct (w_owner w) eqn:E; try done; unfold owner_worker_step in Hs; cbn in Hs; rewrite E in Hs;
    unfold stop_step, release_step in Hs; step_cases Hs; auto.
Qed.

Lemma destroy_step_owner g w t w' o : worker_step g w (t, IDestroyWorker) = Some (w', o) -> w_owner w' = WDestroyed.
Proof.
  unfold worker_step. destruct (t <? w_clock w); [done|]. intros Hs. unfold owner_worker_step in Hs.
  cbn in Hs. step_cases Hs; done.
Qed.

(** Only the deletion of an upstream handle ends the process, or an exception
    that may not leave. *)
Lemma worker_goes_on g w t x w' o :
  (forall b, x <> IDetachedDone b) -> x <> IThreadFatal -> worker_step g w (t, x) = Some (w', o) -> w_ended w = false ->
  w_ended w' = false.
Proof.
  unfold w_ended. intros Hx Hx' (_ & [Hs|[Hs|[Hs|Hs]]])%worker_step_inv.
  - unfold owner_worker_step, stop_step, release_step, leak_step in Hs.
    destruct x; try (by destruct (Hx ended)); try done; cbn in Hs; intros Hw; step_cases Hs; first [done|congruence|by repeat case_match].
  - by apply producer_step_frame in Hs as (_ & _ & _ & _ & ->).
  - unfold consumer_step in Hs. step_cases Hs; done.
  - by apply callback_step_frame in Hs as [-> _].
Qed.

Lemma run_ended_false s :
  run_ended s = false <-> forall i g w, rs_workers s !! i = Some (g, w) -> w_ended w = false.
Proof.
  unfold run_ended. rewrite <- not_true_iff_false, existsb_exists. split.
  - intros Hn i g w Hi. apply not_true_is_false. intros Hw. apply Hn. exists (g, w). split; [|done].
    apply list_elem_of_In. by eapply list_elem_of_lookup_2.
  - intros Hn ([g w] & Hin & Hw). apply list_elem_of_In, list_elem_of_lookup in Hin as [i Hi].
    specialize (Hn i g w Hi). cbn in Hw. congruence.
Qed.

(** A comparison of indices in an expectation. *)
Ltac compare_index :=
  repeat match goal with
         | |- context [(?i <? ?j)%nat] => destruct (Nat.ltb_spec i j); try lia
         | H : context [(?i <? ?j)%nat] |- _ => destruct (Nat.ltb_spec i j); try lia
         | |- context [(?i =? ?j)%nat] => destruct (Nat.eqb_spec i j); try lia
         | H : context [(?i =? ?j)%nat] |- _ => destruct (Nat.eqb_spec i j); try lia
         end.

Section run_stop.
Context `{JsonValues} (broker run_id started_at : string) (c : Config).

Notation run_step := (run_step broker run_id started_at c).
Notation loop_step := (loop_step broker run_id started_at c).

(** A step of the i-th worker that takes it where the next stage has it, the
    others being there already. *)
Lemma step_worker_placed i x next s s' o :
  workers_placed s -> step_worker i x next s = Some (s', o) ->
  (forall g w w' o', rs_workers s !! i = Some (g, w) -> worker_step g w (rs_clock s, x) = Some (w', o') ->
     owner_expected (next w') i (w_owner w') = true) ->
  (forall g w w' o' j owner, rs_workers s !! i = Some (g, w) -> worker_step g w (rs_clock s, x) = Some (w', o') ->
     j <> i -> owner_expected (rs_stage s) j owner = true -> owner_expected (next w') j owner = true) ->
  workers_placed s'.
Proof.
  unfold step_worker. intros Hp Hs Hi Hj. destruct (rs_workers s !! i) as [[g w]|] eqn:Hg; [|done].
  destruct (worker_step g w (rs_clock s, x)) as [[w' o']|] eqn:Hw; [|done]. injection Hs as <- <-.
  intros j g' v. cbn [rs_workers]. unfold worker_placed. cbn [rs_stage rs_clock].
  destruct (decide (j = i)) as [->|Hne].
  - rewrite list_lookup_insert_eq by (by eapply lookup_lt_Some). intros [= <- <-].
    destruct (Hp i g w Hg) as (_ & Hl & _). split; [by eapply Hi|]. split; [by eapply life_inv_step|].
    rewrite (worker_step_clock _ _ _ _ _ _ Hw). lia.
  - rewrite list_lookup_insert_ne by done. intros Hv. destruct (Hp j g' v Hv) as (He & Hl & Hc).
    split; [by eapply Hj|]. done.
Qed.

(** A step of [RunLoop] that leaves the workers; only the expectation moves. *)
Lemma placed_same s s' :
  workers_placed s -> rs_workers s' = rs_workers s -> rs_clock s' = rs_clock s ->
  (forall i o, is_Some (rs_workers s !! i) -> owner_expected (rs_stage s) i o = true ->
     owner_expected (rs_stage s') i o = true) ->
  workers_placed s'.
Proof.
  intros Hp Hw Hc He i g w. rewrite Hw. intros Hi. destruct (Hp i g w Hi) as (Ho & Hl & Ht).
  unfold worker_placed. rewrite Hc. split; [|done]. apply He; [by rewrite Hi|done].
Qed.

Lemma loop_step_placed s stamp s' o :
  workers_placed s -> (rs_stage s = RCreate -> rs_workers s = []) -> loop_step stamp s = Some (s', o) ->
  workers_placed s'.
Proof.
  intros Hp Hn Hs. unfold Run.loop_step in Hs. destruct (rs_stage s) as [| | |n| | |since|n|n st| | |] eqn:Est.
  - destruct (CreateWorkers broker run_id c (rs_metrics s)) as [gs a]. injection Hs as <- <-.
    intros i g w. cbn [rs_workers]. rewrite list_lookup_fmap. destruct (gs !! i); [|done]. intros [= <- <-].
    unfold worker_placed. cbn. split; [done|]. split; [|lia]. unfold life_inv. cbn. done.
  - injection Hs as <- <-. eapply placed_same; [exact Hp|done..|]. by rewrite Est.
  - injection Hs as <- <-. eapply placed_same; [exact Hp|done..|]. rewrite Est. intros [|i] [] _; done.
  - destruct (rs_workers s !! n) as [[g w]|] eqn:Hg.
    + eapply step_worker_placed; [exact Hp|exact Hs|rewrite Hg..].
      * intros ? ? w' o' [= <- <-] Hw%start_step_owner. destruct (Hp n g w Hg) as (Ho & _). rewrite Est in Ho.
        unfold is_started. cbn [owner_expected] in Ho. compare_index. destruct (w_owner w); try done.
        -- destruct Hw as [since ->]. cbn [owner_expected]. by compare_index.
        -- rewrite Hw. cbn [owner_expected]. by compare_index.
      * intros ? ? w' o' j owner [= <- <-] Hw Hj. rewrite Est. destruct (is_started w'); cbn [owner_expected]; intros; compare_index; by destruct owner.
    + injection Hs as <- <-. eapply placed_same; [exact Hp|done..|]. rewrite Est. intros i ow [? Hi] He. cbn [owner_expected at_stage stop_workers rs_stage] in *.
      apply lookup_lt_Some in Hi. apply lookup_ge_None in Hg. by compare_index.
  - injection Hs as <- <-. eapply placed_same; [exact Hp|by case_match..|]. rewrite Est.
    destruct (rs_stop_requested s); [|done]. intros [|i] [] _; done.
  - injection Hs as <- <-. eapply placed_same; [exact Hp|by case_match..|]. rewrite Est.
    case_match; [|done]. intros [|i] [] _; done.
  - case_match; [|done]. injection Hs as <- <-. eapply placed_same; [exact Hp|done..|]. by rewrite Est.
  - destruct (rs_workers s !! n) as [[g w]|] eqn:Hg.
    + eapply step_worker_placed; [exact Hp|exact Hs|rewrite Hg..].
      * intros ? ? w' o' [= <- <-] Hw%stop_step_owner. destruct (Hp n g w Hg) as (Ho & _). rewrite Est in Ho.
        unfold is_stopped. cbn [owner_expected] in Ho. compare_index. destruct (w_owner w); try done; try destruct Hw as [Hw|Hw]; rewrite Hw; cbn [owner_expected]; by compare_index.
      * intros ? ? w' o' j owner [= <- <-] Hw Hj. rewrite Est. destruct (is_stopped w'); cbn [owner_expected]; intros; compare_index; by destruct owner.
    + injection Hs as <- <-. eapply placed_same; [exact Hp|done..|]. rewrite Est. intros i ow [? Hi] He. cbn [owner_expected at_stage stop_workers rs_stage] in *.
      apply lookup_lt_Some in Hi. apply lookup_ge_None in Hg. compare_index; by destruct ow.
  - destruct (rs_workers s !! n) as [[g w]|] eqn:Hg.
    + destruct (Hp n g w Hg) as (Ho & _). rewrite Est in Ho. cbn [owner_expected] in Ho.
      destruct st; (eapply step_worker_placed; [exact Hp|exact Hs|rewrite Hg..]).
      * intros ? ? w' o' [= <- <-] ->%destroy_step_owner. cbn [owner_expected]. by compare_index.
      * intros ? ? w' o' j owner [= <- <-] Hw Hj. rewrite Est. cbn [owner_expected]. intros; compare_index; by destruct owner.
      * intros ? ? w' o' [= <- <-] Hw%stop_step_owner. unfold is_stopped. compare_index.
        destruct (w_owner w); try done; try destruct Hw as [Hw|Hw]; rewrite Hw; cbn [owner_expected]; by compare_index.
      * intros ? ? w' o' j owner [= <- <-] Hw Hj. rewrite Est. cbn [owner_expected]. intros; compare_index; by destruct owner.
    + injection Hs as <- <-. eapply placed_same; [exact Hp|done..|]. rewrite Est. intros i ow [? Hi] He. cbn [owner_expected at_stage stop_workers rs_stage] in *.
      apply lookup_lt_Some in Hi. apply lookup_ge_None in Hg. by compare_index.
  - injection Hs as <- <-. eapply placed_same; [exact Hp|done..|]. by rewrite Est.
  - injection Hs as <- <-. eapply placed_same; [exact Hp|done..|]. by rewrite Est.
  - done.
Qed.

(** ** The invariant of a run *)

Notation plan := (plan broker run_id c).

(** The workers are those planned, and where [RunLoop] has them. *)
Definition run_placed (a0 : AggregateMetrics) (s : RunState) : Prop :=
  workers_placed s /\
  match rs_stage s with
  | RCreate => rs_workers s = [] /\ rs_metrics s = a0
  | _ => (rs_workers s).*1 = plan a0
  end.

Lemma step_worker_kept i x next s s' o :
  step_worker i x next s = Some (s', o) ->
  (rs_workers s').*1 = (rs_workers s).*1 /\ rs_stop_requested s' = rs_stop_requested s /\
  exists g w w' o', rs_workers s !! i = Some (g, w) /\ worker_step g w (rs_clock s, x) = Some (w', o') /\
    rs_workers s' = <[i := (g, w')]> (rs_workers s) /\ rs_stage s' = next w'.
Proof.
  unfold step_worker. intros Hs. destruct (rs_workers s !! i) as [[g w]|] eqn:Hg; [|done].
  destruct (worker_step g w (rs_clock s, x)) as [[w' o']|] eqn:Hw; [|done]. injection Hs as <- <-. cbn. split.
  - rewrite list_fmap_insert, list_insert_id; [done|]. by rewrite list_lookup_fmap, Hg.
  - split; [done|]. by exists g, w, w', o'.
Qed.

(** What a step of [RunLoop] does to the list of workers. *)
Lemma loop_step_workers s stamp s' o :
  loop_step stamp s = Some (s', o) ->
  rs_stop_requested s' = rs_stop_requested s /\ rs_stage s' <> RCreate /\
  (rs_stage s = RCreate \/ (rs_workers s').*1 = (rs_workers s).*1).
Proof.
  intros Hs. unfold Run.loop_step in Hs. destruct (rs_stage s) eqn:Est; try done.
  1: { destruct (CreateWorkers broker run_id c (rs_metrics s)). injection Hs as <- <-. auto. }
  all: repeat (case_match; try discriminate Hs); try (injection Hs as <- <-; by auto);
    apply step_worker_kept in Hs as (Hw & Hr & ? & ? & w' & ? & _ & _ & _ & ->);
    (split; [done|]; split; [by repeat case_match|by auto]).
Qed.

Lemma run_placed_step a0 s ti s' o : run_placed a0 s -> run_step s ti = Some (s', o) -> run_placed a0 s'.
Proof.
  destruct ti as [t i]. unfold Run.run_step. intros [Hp Hw] Hs. destruct (run_ended s); [done|].
  destruct (Z.ltb_spec t (rs_clock s)); [done|]. cbn [orb] in Hs.
  assert (workers_placed (at_time t s)) as Hpt.
  { intros j g w Hj. destruct (Hp j g w Hj) as (Ho & Hl & Hc). split; [done|]. split; [done|]. cbn. lia. }
  destruct i as [stamp| |n x].
  - split; [eapply loop_step_placed; [exact Hpt| |exact Hs]; cbn; intros Est; rewrite Est in Hw; by destruct Hw|].
    destruct (rs_stage s) eqn:Est.
    1: { unfold Run.loop_step in Hs. cbn [at_time rs_stage] in Hs. rewrite Est in Hs. destruct Hw as [_ Hm].
      cbn [at_time rs_metrics rs_clock] in Hs. rewrite Hm in Hs. unfold Run.plan.
      destruct (CreateWorkers broker run_id c a0). injection Hs as <- <-. cbn [rs_stage rs_workers].
      rewrite <- list_fmap_compose. apply list_fmap_id. }
    all: apply loop_step_workers in Hs as (_ & Hne & [Hc|Hk]); [cbn in Hc; congruence|];
      cbn [at_time rs_workers] in Hk; rewrite Hw in Hk; by destruct (rs_stage s').
  - injection Hs as <- <-. by split.
  - destruct (owner_input x) eqn:Hx; [done|]. pose proof Hs as (Hk & _ & g & w & w' & o' & Hg & Hst & _ & Hn)%step_worker_kept.
    split.
    + eapply step_worker_placed; [exact Hpt|exact Hs|..].
      * intros g1 w1 w2 o2 Hg1 Hw1. rewrite (thread_step_owner _ _ _ _ _ _ Hx Hw1). by destruct (Hpt n g1 w1 Hg1).
      * done.
    + rewrite Hn. cbn [at_time rs_workers rs_stage] in *. destruct (rs_stage s); [|rewrite Hk; exact Hw..].
      destruct Hw as [Hw _]. by rewrite Hw in Hg.
Qed.

Lemma run_placed_new a0 clock : run_placed a0 (RunState_new a0 clock).
Proof. by split. Qed.

Lemma run_placed_run a0 ins : forall s s' outs, run_placed a0 s -> run run_step s ins = Some (s', outs) -> run_placed a0 s'.
Proof.
  induction ins as [|ti ins IH]; intros s s' outs Hi Hr; cbn [run] in Hr; [by injection Hr as <- _|].
  destruct (run_step s ti) as [[s1 o]|] eqn:Hs; [|done]. destruct (run run_step s1 ins) as [[s2 os]|] eqn:Hr1; [|done].
  injection Hr as <- _. by eapply IH; [eapply run_placed_step|].
Qed.

(** ** A bounded number of steps *)

(** What [Start] and [Stop] of the i-th worker still take. *)
Definition start_left (s : RunState) (i : nat) : nat :=
  match rs_workers s !! i with
  | Some (_, w) => match w_owner w with WNew => 2 | WSecond _ => 1 | _ => 0 end
  | None => 0
  end.

Definition stop_left (s : RunState) (i : nat) : nat :=
  match rs_workers s !! i with
  | Some (_, w) => match w_owner w with WStarted | WStopped => 3 | WClose | WJoin1 => 2 | WJoin2 => 1 | _ => 0 end
  | None => 0
  end.

(** The steps [RunLoop] has left once a stop is requested; [n] workers. *)
Definition loop_distance (n : nat) (s : RunState) : nat :=
  match rs_stage s with
  | RCreate => 9 * n + 9 | RReset => 9 * n + 8 | RMarkStart => 9 * n + 7
  | RStarting i => 7 * n + 6 + 2 * (n - S i) + start_left s i
  | RDuration => 7 * n + 7 | RSleep _ => 7 * n + 6 | RTest => 7 * n + 5
  | RStopping i => 4 * n + 4 + 3 * (n - S i) + stop_left s i
  | RDestroying i false => 3 + 4 * (n - S i) +
      match rs_workers s !! i with Some _ => 1 + stop_left s i | None => 0 end
  | RDestroying i true => 4 + 4 * (n - S i)
  | RMarkStop => 2 | RReport => 1 | RDone => 0
  end.

Lemma left_bound s i :
  (start_left s i <= 2)%nat /\ (stop_left s i <= 3)%nat /\
  ((length (rs_workers s) <= i)%nat -> rs_workers s !! i = None /\ start_left s i = 0%nat /\ stop_left s i = 0%nat).
Proof.
  unfold start_left, stop_left. split; [repeat case_match; lia|]. split; [repeat case_match; lia|].
  by intros ->%lookup_ge_None_2.
Qed.

(** Only the owners' stages count. *)
Lemma loop_distance_same n s s' :
  rs_stage s' = rs_stage s ->
  (forall i, (fun gw => w_owner (snd gw)) <$> rs_workers s' !! i = (fun gw => w_owner (snd gw)) <$> rs_workers s !! i) ->
  loop_distance n s' = loop_distance n s.
Proof.
  intros Hs Hw. assert (forall i, start_left s' i = start_left s i /\ stop_left s' i = stop_left s i) as Hl.
  { intros i. specialize (Hw i). unfold start_left, stop_left.
    destruct (rs_workers s' !! i) as [[]|], (rs_workers s !! i) as [[]|]; try done. by injection Hw as ->. }
  unfold loop_distance. rewrite Hs. destruct (rs_stage s) as [| | |i| | | |i|i []| | |]; try done;
    destruct (Hl i) as [H1 H2]; rewrite ?H1, ?H2; try done.
  specialize (Hw i). by destruct (rs_workers s' !! i), (rs_workers s !! i).
Qed.

(** Where the owner of a worker is after the step [RunLoop] makes of it. *)
Lemma step_worker_left i x next s s' o g w w' o' :
  step_worker i x next s = Some (s', o) -> rs_workers s !! i = Some (g, w) ->
  worker_step g w (rs_clock s, x) = Some (w', o') ->
  rs_stage s' = next w' /\ rs_workers s' !! i = Some (g, w') /\
  forall j, j <> i -> rs_workers s' !! j = rs_workers s !! j.
Proof.
  intros (_ & _ & g1 & w1 & w2 & o2 & Hg1 & Hw1 & Hi & Hn)%step_worker_kept Hg Hw.
  rewrite Hg in Hg1. injection Hg1 as <- <-. rewrite Hw in Hw1. injection Hw1 as <- <-. rewrite Hn, Hi.
  split; [done|]. split; [|intros j Hj; by rewrite list_lookup_insert_ne].
  rewrite list_lookup_insert_eq; [done|]. by eapply lookup_lt_Some.
Qed.

(** The steps [RunLoop] makes of the i-th worker. *)
Lemma starting_distance n i s s' o g w :
  workers_placed s -> length (rs_workers s) = n -> rs_stage s = RStarting i -> rs_workers s !! i = Some (g, w) ->
  step_worker i (start_input w) (fun w' => if is_started w' then RStarting (S i) else RStarting i) s = Some (s', o) ->
  (loop_distance n s' < loop_distance n s)%nat.
Proof.
  intros Hp Hn Est Hg Hs. destruct (Hp i g w Hg) as (Ho & _).
  pose proof Hs as (Hk & _ & g1 & w1 & w' & o' & Hg1 & Hw & _)%step_worker_kept.
  rewrite Hg in Hg1. injection Hg1 as <- <-. destruct (step_worker_left _ _ _ _ _ _ _ _ _ _ Hs Hg Hw) as (Hst & Hi & _).
  apply start_step_owner in Hw. pose proof (lookup_lt_Some _ _ _ Hg) as Hlt.
  destruct (left_bound s' (S i)) as (Hb & _ & Hz). rewrite <- (length_fmap fst), Hk, length_fmap in Hz.
  unfold loop_distance, is_started in *. rewrite Est, Hst in *. cbv beta iota. unfold start_left at 2. rewrite Hg.
  cbn [owner_expected] in Ho. compare_index. destruct (w_owner w); try done.
  - destruct Hw as [since Hw]. rewrite Hw. cbv beta iota. unfold start_left. rewrite Hi, Hw. lia.
  - rewrite Hw. lia.
Qed.

Lemma stopping_distance n i s s' o g w :
  workers_placed s -> length (rs_workers s) = n -> rs_stage s = RStopping i -> rs_workers s !! i = Some (g, w) ->
  step_worker i (stop_input w) (fun w' => if is_stopped w' then RStopping (S i) else RStopping i) s = Some (s', o) ->
  (loop_distance n s' < loop_distance n s)%nat.
Proof.
  intros Hp Hn Est Hg Hs. destruct (Hp i g w Hg) as (Ho & _).
  pose proof Hs as (Hk & _ & g1 & w1 & w' & o' & Hg1 & Hw & _)%step_worker_kept.
  rewrite Hg in Hg1. injection Hg1 as <- <-. destruct (step_worker_left _ _ _ _ _ _ _ _ _ _ Hs Hg Hw) as (Hst & Hi & _).
  apply stop_step_owner in Hw. pose proof (lookup_lt_Some _ _ _ Hg) as Hlt.
  destruct (left_bound s' (S i)) as (_ & Hb & Hz). rewrite <- (length_fmap fst), Hk, length_fmap in Hz.
  unfold loop_distance, is_stopped in *. rewrite Est, Hst in *. cbv beta iota. unfold stop_left at 3. rewrite Hg.
  cbn [owner_expected] in Ho. compare_index.
  destruct (w_owner w); try done; try destruct Hw as [Hw|Hw]; rewrite Hw; cbv beta iota; first [lia|unfold stop_left; rewrite Hi, Hw; lia].
Qed.

Lemma destroying_distance n i s s' o g w :
  workers_placed s -> length (rs_workers s) = n -> rs_stage s = RDestroying i false -> rs_workers s !! i = Some (g, w) ->
  step_worker i (stop_input w) (fun w' => RDestroying i (is_stopped w')) s = Some (s', o) ->
  (loop_distance n s' < loop_distance n s)%nat.
Proof.
  intros Hp Hn Est Hg Hs. destruct (Hp i g w Hg) as (Ho & _).
  pose proof Hs as (Hk & _ & g1 & w1 & w' & o' & Hg1 & Hw & _)%step_worker_kept.
  rewrite Hg in Hg1. injection Hg1 as <- <-. destruct (step_worker_left _ _ _ _ _ _ _ _ _ _ Hs Hg Hw) as (Hst & Hi & _).
  apply stop_step_owner in Hw. unfold loop_distance, is_stopped in *. rewrite Est, Hst in *. cbv beta iota.
  unfold stop_left at 2. rewrite Hg. cbn [owner_expected] in Ho. compare_index. cbn in Ho.
  destruct (w_owner w); try done; try destruct Hw as [Hw|Hw]; rewrite Hw; cbv beta iota; first [lia|unfold stop_left; rewrite Hi, Hw; lia].
Qed.

Lemma destroyed_distance n i s s' o :
  length (rs_workers s) = n -> rs_stage s = RDestroying i true ->
  step_worker i IDestroyWorker (fun _ => RDestroying (S i) false) s = Some (s', o) ->
  (loop_distance n s' < loop_distance n s)%nat.
Proof.
  intros Hn Est (Hk & _ & g & w & w' & o' & Hg & _ & _ & Hst)%step_worker_kept.
  destruct (left_bound s' (S i)) as (_ & Hb & Hz). rewrite <- (length_fmap fst), Hk, length_fmap in Hz.
  pose proof (lookup_lt_Some _ _ _ Hg) as Hlt. unfold loop_distance. rewrite Est, Hst. cbv beta iota.
  destruct (decide (S i = n)) as [He|He]; [destruct Hz as [-> _]; lia|]. case_match; lia.
Qed.

(** The loop is left for the first worker. *)
Lemma stop_workers_distance n s : length (rs_workers s) = n -> (loop_distance n (stop_workers s) < 7 * n + 5)%nat.
Proof.
  intros Hn. destruct (left_bound (stop_workers s) 0) as (_ & Hb & Hz). cbn [stop_workers rs_workers] in Hz.
  unfold loop_distance. cbn [stop_workers rs_stage]. destruct n; [|lia]. destruct Hz as (_ & _ & ->); lia.
Qed.

(** A step of [RunLoop] after a stop request leaves fewer. *)
Lemma loop_step_distance n s stamp s' o :
  workers_placed s -> rs_stop_requested s = true ->
  match rs_stage s with
  | RCreate => length (fst (CreateWorkers broker run_id c (rs_metrics s))) = n
  | _ => length (rs_workers s) = n
  end ->
  loop_step stamp s = Some (s', o) -> (loop_distance n s' < loop_distance n s)%nat.
Proof.
  intros Hp Hr Hn Hs. unfold Run.loop_step in Hs.
  destruct (rs_stage s) as [| | |i| | |since|i|i st| | |] eqn:Est; try done;
    try (destruct (rs_workers s !! i) as [[g w]|] eqn:Hg;
      [first [by eapply starting_distance|by eapply stopping_distance
             |destruct st; [by eapply destroyed_distance|by eapply destroying_distance]]|]).
  all: try (unfold loop_distance at 2; rewrite Est).
  - destruct (CreateWorkers broker run_id c (rs_metrics s)). injection Hs as <- <-. cbn. lia.
  - injection Hs as <- <-. cbn. lia.
  - injection Hs as <- <-.
    set (s' := at_stage _ _). destruct (left_bound s' 0) as (Hb & _ & Hz). change (rs_workers s') with (rs_workers s) in Hz.
    unfold loop_distance. change (rs_stage s') with (RStarting 0). destruct n; [|lia]. destruct Hz as (_ & -> & _); lia.
  - injection Hs as <- <-. cbn. lia.
  - rewrite Hr in Hs. injection Hs as <- <-. by apply stop_workers_distance.
  - injection Hs as <- <-. pose proof (stop_workers_distance n s Hn). case_match; [lia|]. cbn. lia.
  - case_match; [|done]. injection Hs as <- <-. cbn. lia.
  - injection Hs as <- <-. unfold loop_distance. cbn [at_stage rs_stage rs_workers].
    set (s' := at_stage _ _). destruct (left_bound s' 0) as (_ & Hb & Hz). change (rs_workers s') with (rs_workers s) in Hz.
    destruct n; [|case_match; lia]. destruct Hz as (-> & _); lia.
  - injection Hs as <- <-. cbn. destruct st; lia.
  - injection Hs as <- <-. cbn. lia.
  - injection Hs as <- <-. cbn. lia.
Qed.

(** Any other step leaves as many. *)
Definition is_loop_input (i : run_input) : bool := match i with ILoopStep _ => true | _ => false end.

Definition loop_steps (ins : list (Z * run_input)) : nat := length (List.filter (fun ti => is_loop_input (snd ti)) ins).

Lemma run_step_distance a0 s ti s' o :
  run_placed a0 s -> rs_stop_requested s = true -> run_step s ti = Some (s', o) ->
  rs_stop_requested s' = true /\
  (loop_distance (length (plan a0)) s' + one_if (is_loop_input (snd ti)) <= loop_distance (length (plan a0)) s)%nat.
Proof.
  destruct ti as [t i]. unfold Run.run_step. intros [Hp Hw] Hr Hs. destruct (run_ended s); [done|].
  destruct (Z.ltb_spec t (rs_clock s)); [done|]. cbn [orb] in Hs.
  destruct i as [stamp| |n x].
  - pose proof Hs as (Hq & _)%loop_step_workers. cbn [at_time rs_stop_requested] in Hq. split; [congruence|]. cbn.
    change (loop_distance (length (plan a0)) s) with (loop_distance (length (plan a0)) (at_time t s)).
    cut (loop_distance (length (plan a0)) s' < loop_distance (length (plan a0)) (at_time t s))%nat; [lia|].
    eapply loop_step_distance; [|exact Hr| |exact Hs].
    + intros j g w Hj. destruct (Hp j g w Hj) as (Ho & Hl & Hc). split; [done|]. split; [done|]. cbn. lia.
    + cbn [at_time rs_stage rs_workers rs_metrics]. destruct (rs_stage s); [by destruct Hw as [_ ->]|..];
        by rewrite <- Hw, length_fmap.
  - injection Hs as <- <-. split; [done|]. rewrite (loop_distance_same _ s) by done. cbn. lia.
  - destruct (owner_input x) eqn:Hx; [done|].
    pose proof Hs as (_ & Hq & g & w & w' & o' & Hg & Hst & Hi & Hn)%step_worker_kept. split; [by rewrite Hq|].
    rewrite (loop_distance_same _ s); [cbn; lia|exact Hn|]. intros j. rewrite Hi. cbn [at_time rs_workers] in *.
    destruct (decide (j = n)) as [->|Hne]; [|by rewrite list_lookup_insert_ne].
    rewrite list_lookup_insert_eq, Hg by (by eapply lookup_lt_Some). cbn. by rewrite (thread_step_owner _ _ _ _ _ _ Hx Hst).
Qed.

Lemma loop_steps_bound a0 ins : forall s s' outs,
  run_placed a0 s -> rs_stop_requested s = true -> run run_step s ins = Some (s', outs) ->
  (loop_distance (length (plan a0)) s' + loop_steps ins <= loop_distance (length (plan a0)) s)%nat.
Proof.
  unfold loop_steps. induction ins as [|ti ins IH]; intros s s' outs Hi Hr Hs; cbn [run] in Hs.
  - injection Hs as <- _. cbn. lia.
  - destruct (run_step s ti) as [[s1 o]|] eqn:Hst; [|done]. destruct (run run_step s1 ins) as [[s2 os]|] eqn:Hrun; [|done].
    injection Hs as <- _. pose proof (run_step_distance _ _ _ _ _ Hi Hr Hst) as [Hr1 Hd].
    pose proof (IH _ _ _ (run_placed_step _ _ _ _ _ Hi Hst) Hr1 Hrun). cbn [List.filter]. unfold one_if in Hd.
    destruct (is_loop_input (snd ti)); cbn; lia.
Qed.

Lemma loop_distance_bound n s : (loop_distance n s <= 9 * n + 9)%nat.
Proof.
  unfold loop_distance. destruct (rs_stage s) as [| | |i| | |since|i|i st| | |]; try lia;
    destruct (left_bound s i) as (Hb1 & Hb2 & _); try case_match; try case_match; lia.
Qed.

(** ** Something can always go on *)

(** From some time on, an input allowed by [P] makes a step. *)
Definition run_enabled (P : run_input -> bool) (s : RunState) : Prop :=
  exists t0 i, P i = true /\ forall t, t0 <= t -> is_Some (run_step s (t, i)).

Lemma loop_enabled (P : run_input -> bool) s t0 :
  run_ended s = false -> P (ILoopStep "") = true -> (forall t, t0 <= t -> rs_clock s <= t -> is_Some (loop_step "" (at_time t s))) ->
  run_enabled P s.
Proof.
  intros Hne Hi He. exists (Z.max t0 (rs_clock s)), (ILoopStep ""). split; [done|]. intros t Ht. unfold Run.run_step.
  rewrite Hne. destruct (Z.ltb_spec t (rs_clock s)); [lia|]. apply He; lia.
Qed.

Lemma step_worker_enabled i x next s t g w :
  rs_workers s !! i = Some (g, w) -> is_Some (worker_step g w (t, x)) ->
  is_Some (step_worker i x next (at_time t s)).
Proof.
  unfold step_worker. cbn [at_time rs_workers rs_clock]. intros -> [[w' o] ->]. by eexists.
Qed.

(** A step of [RunLoop], or of a thread it is joining. *)
Definition goes_on (s : RunState) (i : run_input) : bool :=
  match i with
  | ILoopStep _ => true
  | IStopRequest => false
  | IWorkerStep n x =>
      is_thread_input x && match rs_workers s !! n with Some (_, w) => stopping w | None => false end
  end.

(** A step of the i-th worker's owner that [RunLoop] can make now or later. *)
Lemma owner_enabled s i g w x next t0 :
  run_ended s = false -> rs_workers s !! i = Some (g, w) -> (forall t, t0 <= t -> w_clock w <= t -> is_Some (worker_step g w (t, x))) ->
  w_clock w <= rs_clock s ->
  (forall t, loop_step "" (at_time t s) = step_worker i x next (at_time t s)) -> run_enabled (goes_on s) s.
Proof.
  intros Hne Hg He Hc Hl. apply (loop_enabled _ s t0); [done..|]. intros t Ht Htc. rewrite Hl.
  eapply step_worker_enabled; [exact Hg|]. apply He; lia.
Qed.

Lemma owner_step_enabled g w x t0 :
  (forall t, t0 <= t -> w_clock w <= t -> is_Some (owner_worker_step g x (set_clock t w))) ->
  owner_input x = true -> forall t, t0 <= t -> w_clock w <= t -> is_Some (worker_step g w (t, x)).
Proof.
  intros Hs Hx t H0 Ht. unfold worker_step. destruct (Z.ltb_spec t (w_clock w)); [lia|]. destruct x; try done; by apply Hs.
Qed.

(** [Stop], its joins waiting for their thread. *)
Lemma joining_enabled s i g w next :
  run_ended s = false -> rs_workers s !! i = Some (g, w) -> worker_placed s i g w ->
  match w_owner w with WStarted | WStopped | WClose | WJoin1 | WJoin2 => True | _ => False end ->
  (forall t, loop_step "" (at_time t s) = step_worker i (stop_input w) next (at_time t s)) ->
  run_enabled (goes_on s) s.
Proof.
  intros Hne Hg (_ & Hl & Hc) Ho Hn. assert (w_owner w = WClose \/ w_owner w = WJoin1 \/ w_owner w = WJoin2 \/
    forall t, is_Some (owner_worker_step g (stop_input w) (set_clock t w))) as [Hj|[Hj|[Hj|He]]].
  { unfold stop_input, owner_worker_step. destruct (w_owner w) eqn:E; try done; auto; do 3 right; intros t;
      cbn; rewrite E; by eexists. }
  4: { eapply (owner_enabled s i g w _ next 0); try done. apply owner_step_enabled; [auto|]. apply stop_input_owner. }
  all: assert (stopping w = true) as Hst by (unfold stopping; by rewrite Hj).
  all: assert (w_owner w = WClose \/ w_owner w = WJoin1 \/ w_owner w = WJoin2) as Hj' by auto.
  all: destruct (stop_enabled g w Hl Hj') as [He|(t0 & x & Hx & He)];
    [eapply (owner_enabled s i g w _ next 0); auto|].
  all: exists (Z.max t0 (rs_clock s)), (IWorkerStep i x); split; [cbn; by rewrite Hx, Hg, Hst|]; intros t Ht;
    unfold Run.run_step; rewrite Hne; destruct (Z.ltb_spec t (rs_clock s)); [lia|]; cbn [orb];
    (replace (owner_input x) with false by by destruct x); eapply step_worker_enabled; [exact Hg|]; apply He; lia.
Qed.

Lemma run_goes_on a0 s :
  run_placed a0 s -> run_ended s = false -> rs_stage s <> RDone -> run_enabled (goes_on s) s.
Proof.
  intros [Hp _] Hne Hd. pose proof (fun t0 => loop_enabled (goes_on s) s t0 Hne) as Hl. unfold Run.loop_step in Hl.
  cbn [at_time rs_stage rs_workers rs_clock rs_metrics] in Hl.
  destruct (rs_stage s) as [| | |i| | |since|i|i st| | |] eqn:Est; try done;
    try (destruct (rs_workers s !! i) as [[g w]|] eqn:Hg; [pose proof (Hp i g w Hg) as Hw; clear Hl|]).
  1: { apply (Hl 0); [done|]. intros t _ _. destruct (CreateWorkers broker run_id c (rs_metrics s)). by eexists. }
  all: try (by apply (Hl 0); [done|]; intros t _ _; by eexists).
  - pose proof Hw as (Ho & _ & Hc). rewrite Est in Ho. cbn [owner_expected] in Ho. compare_index.
    assert (exists t0, forall t, t0 <= t -> is_Some (owner_worker_step g (start_input w) (set_clock t w))) as [t0 He].
    { unfold start_input, owner_worker_step. destruct (w_owner w) as [|since| | | | | |] eqn:E; try done.
      - exists 0. intros t _. cbn. rewrite E. by eexists.
      - exists (since + start_delay (wk_kind g)). intros t Ht. cbn. rewrite E.
        destruct (Z.leb_spec (since + start_delay (wk_kind g)) t); [by eexists|lia]. }
    eapply (owner_enabled s i g w _ _ t0); [exact Hne|exact Hg| |exact Hc|].
    + apply owner_step_enabled; [auto|apply start_input_owner].
    + intros t. unfold Run.loop_step. cbn [at_time rs_stage rs_workers]. by rewrite Est, Hg.
  - apply (Hl (since + 500000000)); [done|]. intros t Ht _. destruct (Z.leb_spec (since + 500000000) t); [by eexists|lia].
  - eapply (joining_enabled s i g w); [exact Hne|exact Hg|exact Hw| |].
    + destruct Hw as (Ho & _). rewrite Est in Ho. cbn [owner_expected] in Ho. compare_index. by destruct (w_owner w).
    + intros t. unfold Run.loop_step. cbn [at_time rs_stage rs_workers]. by rewrite Est, Hg.
  - pose proof Hw as (Ho & _ & Hc). rewrite Est in Ho. cbn [owner_expected] in Ho. compare_index. destruct st; cbn in Ho.
    + eapply (owner_enabled s i g w IDestroyWorker _ 0); [exact Hne|exact Hg| |exact Hc|].
      * apply owner_step_enabled; [|done]. intros t _ _. unfold owner_worker_step. cbn.
        by destruct (w_owner w).
      * intros t. unfold Run.loop_step. cbn [at_time rs_stage rs_workers]. by rewrite Est, Hg.
    + eapply (joining_enabled s i g w); [exact Hne|exact Hg|exact Hw| |]; [by destruct (w_owner w)|].
      intros t. unfold Run.loop_step. cbn [at_time rs_stage rs_workers]. by rewrite Est, Hg.
Qed.

(** The thread steps left in the workers being joined. *)
Definition join_distance (s : RunState) : nat :=
  sum_list_with (fun gw => if stopping (snd gw) then producer_distance (snd gw) + consumer_distance (snd gw) else 0)%nat
    (rs_workers s).

Lemma goes_on_distance a0 s t i s' o :
  run_placed a0 s -> goes_on s i = true -> run_step s (t, i) = Some (s', o) ->
  is_loop_input i = true \/ (join_distance s' < join_distance s)%nat.
Proof.
  intros [Hp _] Hi Hs. destruct i as [stamp| |n x]; [by left|done|right]. unfold Run.run_step in Hs.
  destruct (run_ended s || (t <? rs_clock s)); [done|]. destruct (owner_input x); [done|].
  apply step_worker_kept in Hs as (_ & _ & g & w & w' & o' & Hg & Hw & He & _). cbn [at_time rs_workers rs_clock] in *.
  unfold goes_on in Hi. rewrite Hg in Hi. apply andb_true_iff in Hi as [Hx Hst].
  destruct (Hp n g w Hg) as (_ & Hl & _). destruct (stopping_step _ _ _ _ _ _ Hl Hst Hw) as (Hst' & Hpd & Hcd & _).
  unfold join_distance. rewrite He. match goal with |- context [sum_list_with ?f (<[_ := ?y]> _)] =>
    pose proof (sum_list_with_insert f (rs_workers s) n (g, w) y Hg) as Hsum end.
  cbn [snd] in Hsum. rewrite Hst, Hst' in Hsum. unfold is_thread_input in Hx. unfold one_if in *.
  destruct (is_producer_input x), (is_consumer_input x); try done; lia.
Qed.

Lemma step_worker_goes_on i x next s s' o :
  (forall b, x <> IDetachedDone b) -> x <> IThreadFatal -> step_worker i x next s = Some (s', o) -> run_ended s = false ->
  run_ended s' = false.
Proof.
  intros Hx Hx' (_ & _ & g & w & w' & o' & Hg & Hw & Hi & _)%step_worker_kept. rewrite !run_ended_false, Hi.
  intros He j g' v. destruct (decide (j = i)) as [->|Hne].
  - rewrite list_lookup_insert_eq by (by eapply lookup_lt_Some). intros [= <- <-]. by eapply worker_goes_on; eauto.
  - rewrite list_lookup_insert_ne by done. apply He.
Qed.

Lemma loop_step_goes_on s stamp s' o :
  loop_step stamp s = Some (s', o) -> run_ended s = false -> run_ended s' = false.
Proof.
  assert (forall x b, owner_input x = true -> x <> IDetachedDone b) as Hx by by intros [] b.
  intros Hs He. unfold Run.loop_step in Hs. destruct (rs_stage s) eqn:Est; try done.
  1: { destruct (CreateWorkers broker run_id c (rs_metrics s)) as [gs a]. injection Hs as <- <-.
    apply run_ended_false. cbn [rs_workers]. intros i g w. rewrite list_lookup_fmap.
    destruct (gs !! i); [|done]. by intros [= <- <-]. }
  all: repeat (case_match; try discriminate Hs); try (injection Hs as <- <-; exact He).
  all: eapply step_worker_goes_on; [| |exact Hs|exact He];
    [intros b; apply Hx; first [apply start_input_owner|apply stop_input_owner|done]
    |unfold start_input, stop_input; by repeat case_match].
Qed.

Lemma goes_on_goes_on s t i s' o :
  goes_on s i = true -> run_step s (t, i) = Some (s', o) -> run_ended s' = false.
Proof.
  unfold Run.run_step. intros Hg. destruct (run_ended s) eqn:He; [done|]. destruct (t <? rs_clock s); [done|].
  cbn [orb]. destruct i as [stamp| |n x]; [|done|].
  - intros Hs. by eapply loop_step_goes_on.
  - destruct (owner_input x); [done|]. intros Hs. eapply step_worker_goes_on; [| |exact Hs|exact He];
      [intros b ->|intros ->]; done.
Qed.

(** Going on ends. *)
Lemma run_finishes a0 : forall d e s,
  (loop_distance (length (plan a0)) s <= d)%nat -> (join_distance s <= e)%nat ->
  run_placed a0 s -> run_ended s = false -> rs_stop_requested s = true ->
  exists ins s' outs, run run_step s ins = Some (s', outs) /\ rs_stage s' = RDone.
Proof.
  induction d as [d IHd] using lt_wf_ind. induction e as [e IHe] using lt_wf_ind. intros s Hd He Hi Hne Hr.
  assert (rs_stage s = RDone \/ rs_stage s <> RDone) as [Hx|Hx] by (destruct (rs_stage s); auto; by right).
  { by exists [], s, []. }
  destruct (run_goes_on a0 s Hi Hne Hx) as (t & i & Hg & Ht). destruct (Ht t) as [[s1 o] Hs]; [lia|].
  pose proof (run_step_distance _ _ _ _ _ Hi Hr Hs) as [Hr1 Hd1]. unfold one_if in Hd1. cbn [snd] in Hd1.
  pose proof (run_placed_step _ _ _ _ _ Hi Hs) as Hi1. pose proof (goes_on_goes_on _ _ _ _ _ Hg Hs) as Hne1.
  assert (exists ins s' outs, run run_step s1 ins = Some (s', outs) /\ rs_stage s' = RDone) as (ins & s' & outs & Hrun & Hdone).
  { destruct (goes_on_distance _ _ _ _ _ _ Hi Hg Hs) as [Hl|Hj].
    - rewrite Hl in Hd1. apply (IHd (loop_distance (length (plan a0)) s1)) with (e := join_distance s1); auto; lia.
    - apply (IHe (join_distance s1)); auto; destruct (is_loop_input i); lia. }
  exists ((t, i) :: ins), s', (o ++ outs)%list. split; [|done]. cbn [run]. by rewrite Hs, Hrun.
Qed.

(** C16: a run of the engine ends when it is told to, and leaves nothing behind.
    In every interleaving of the run thread, a stop request and the threads
    and callbacks of the workers, as long as the deletion of a released
    upstream handle has not ended the process: until the run thread is done,
    it or a thread it is joining can take a step, now or once a wait is over; when it marks
    the end of the run and builds the report, every worker it planned is
    destroyed with its threads joined and its subscription cancelled; once a
    stop is requested the run thread takes at most nine steps for each worker
    and nine more, whatever the workers do, and the run can be brought to its
    end. *)
Theorem run_shuts_down (a0 : AggregateMetrics) (clock : Z) (ins : list (Z * run_input)) (s : RunState)
    (outs : list (run_output jvalue)) :
  run run_step (RunState_new a0 clock) ins = Some (s, outs) ->
  (run_ended s = false -> rs_stage s <> RDone -> run_enabled (goes_on s) s) /\
  (rs_stage s = RMarkStop \/ rs_stage s = RReport \/ rs_stage s = RDone ->
     (rs_workers s).*1 = plan a0 /\
     Forall (fun gw => w_owner (snd gw) = WDestroyed /\ w_producer (snd gw) = None /\
       w_consumer (snd gw) = None /\ w_subscribed (snd gw) = false) (rs_workers s)) /\
  (rs_stop_requested s = true ->
     (forall ins' s' outs', run run_step s ins' = Some (s', outs') ->
        loop_steps ins' <= 9 * length (plan a0) + 9)%nat /\
     (run_ended s = false -> exists ins' s' outs', run run_step s ins' = Some (s', outs') /\ rs_stage s' = RDone)).
Proof.
  intros Hr. assert (run_placed a0 s) as Hi by (eapply run_placed_run; [apply run_placed_new|exact Hr]). split_and!.
  - by apply (run_goes_on a0).
  - destruct Hi as [Hp Hw]. intros Hst. split; [by destruct Hst as [E|[E|E]]; rewrite E in Hw|].
    apply Forall_lookup_2. intros i [g w] Hg. destruct (Hp i g w Hg) as (Ho & Hl & _).
    assert (w_owner w = WDestroyed) as Hd
      by (destruct Hst as [E|[E|E]]; rewrite E in Ho; cbn in Ho; by destruct (w_owner w)).
    cbn [snd]. unfold life_inv in Hl. rewrite Hd in Hl. destruct Hl as (Hs & _ & _ & Hpn & Hcn).
    split_and!; try done. destruct (w_subscribed w); [|done]. destruct Hs as [_ Hs]; [done|]. by rewrite Hcn in Hs.
  - intros Hstop. split; [|intros Hne; by eapply run_finishes]. intros ins' s' outs' Hr'.
    pose proof (loop_steps_bound a0 _ _ _ _ Hi Hstop Hr'). pose proof (loop_distance_bound (length (plan a0)) s). lia.
Qed.

End run_stop.

(** ** A concrete run *)

(** A stop is requested while the run thread sleeps. *)
Lemma run_shuts_down_witness :
  exists s outs,
    @run _ _ _ (@run_step run_json "host:1" "r" "t0" events_config) (RunState_new AggregateMetrics_new 0) events_started
      = Some (s, outs) /\
    rs_stage s = RSleep 0 /\
    exists ins s' outs', @run _ _ _ (@run_step run_json "host:1" "r" "t0" events_config) s ins = Some (s', outs') /\
      rs_stage s' = RDone /\ (loop_steps ins <= 18)%nat.
Proof.
  destruct (@run _ _ _ (@run_step run_json "host:1" "r" "t0" events_config) (RunState_new AggregateMetrics_new 0)
    events_started) as [[s outs]|] eqn:E.
  2: { vm_compute in E. discriminate E. }
  destruct (@run_shuts_down run_json "host:1" "r" "t0" events_config AggregateMetrics_new 0 events_started s outs E)
    as (_ & _ & H3).
  assert (rs_stop_requested s = true /\ rs_stage s = RSleep 0) as [Hr Hst]
    by (vm_compute in E; injection E as <- _; by split).
  assert (run_ended s = false) as Hne by (vm_compute in E; injection E as <- _; reflexivity).
  destruct (H3 Hr) as [Hb He]. destruct (He Hne) as (ins & s' & outs' & Hrun & Hd).
  exists s, outs. split; [reflexivity|]. split; [exact Hst|]. exists ins, s', outs'. split; [exact Hrun|].
  split; [exact Hd|exact (Hb _ _ _ Hrun)].
Defined.
