(* ===== verification/Server.v ===== *)
(** * The burn-in HTTP interface

    Models burnin/server: the routes and their handlers, on the engine. The
    server library parses requests, matches paths and writes responses; a
    handler here is what the source gives it. An engine call of a handler runs
    the steps of Engine from start to end, so requests do not overlap; what
    overlapping calls of [StartRun] and [StopRun] do is in Engine. *)

From Stdlib Require Import ZArith Lia Ascii String.
From S2P Require Import Prelude Automaton Double Status StateMachine Auth Tls Random Transport Client.
From S2P Require Import Engine Json Config Metrics RunPlan Report.

Local Open Scope string_scope.
Local Open Scope Z_scope.
Local Open Scope kubemq_scope.

Section server.
Context `{JsonValues}.

(** ** Responses *)

Inductive Content := NoContent | JsonContent (body : jvalue) | TextContent (text : string).

Record Response := mkResponse { rs_status : Z; rs_cors : bool; rs_content : Content }.

(** [SetCorsHeaders], then the status and the body. *)
Definition JsonResponse (status_code : Z) (body : jvalue) : Response :=
  mkResponse status_code true (JsonContent body).

Definition error_json (error : string) : jvalue := jv_object [("error", jv_string error)].

(** ** The engine as the handlers see it *)

Record Server := mkServer {
  sv_engine : Engine;
  sv_broker_address : string;
  sv_config : Config;
  sv_run_started_at : string;
  sv_workers : Z;
  sv_metrics : AggregateMetrics;
  sv_last_report : jvalue
}.

(** What the endpoints read; the report is there once [has_report_] is set. *)
Definition run_data (s : Server) : RunData :=
  mkRunData (e_state (sv_engine s)) (sv_broker_address s) (sv_config s) (e_run_id (sv_engine s))
    (sv_run_started_at s) (sv_workers s) (sv_metrics s)
    (if e_has_report (sv_engine s) then Some (sv_last_report s) else None).

Record StartResult := mkStartResult {
  sr_run_id : string;
  sr_enabled_count : Z;
  sr_error : string
}.

Definition with_run_id (id : string) (c : Config) : Config :=
  mkConfig (cf_broker_address c) (cf_client_id_prefix c) (cf_duration_seconds c) (cf_warmup_seconds c) id
    (cf_payload_size c) (cf_patterns c) (cf_queue c) (cf_metrics_port c) (cf_warnings c).

(** [StartRun], every step of it; [fresh] is what [GenerateRunId] gives and
    [now] what [NowIso8601]. [None] when it cannot return: the join of a
    thread that has not ended. *)
Definition StartRun (config : Config) (fresh now : string) (s : Server) : option (StartResult * Server) :=
  let run_id := if str_empty (cf_run_id config) then fresh else cf_run_id config in
  let started e :=
    (mkStartResult run_id (enabled_count config) "",
     mkServer e (sv_broker_address s) (with_run_id run_id config) now (sv_workers s) (sv_metrics s)
       (sv_last_report s)) in
  match engine_step (sv_engine s) IStartCheck with
  | Some (_, [ORefused error]) => Some (mkStartResult "" 0 error, s)
  | Some (e, []) =>
      let i := length (e_starts (sv_engine s)) in
      match run engine_step e [IStart i run_id; IStart i run_id; IStart i run_id; IStart i run_id] with
      | Some (e', [OStarted _]) => Some (started e')
      | _ => None
      end
  | _ => None
  end.

(** [StopRun], both steps; the result is the error, empty when accepted. *)
Definition StopRun (s : Server) : option (string * Server) :=
  let moved e := mkServer e (sv_broker_address s) (sv_config s) (sv_run_started_at s) (sv_workers s)
                   (sv_metrics s) (sv_last_report s) in
  match engine_step (sv_engine s) IStopCheck with
  | Some (_, [ORefused error]) => Some (error, s)
  | Some (e, []) =>
      match engine_step e IStopFlag with
      | Some (e', _) => Some ("", moved e')
      | None => None
      end
  | _ => None
  end.

(** ** The handlers *)

Definition HandleHealth : Response := JsonResponse 200 (jv_object [("status", jv_string "alive")]).

Definition HandleReady (s : Server) : Response :=
  let state := engine_state_name (e_state (sv_engine s)) in
  let ready := String.eqb state "idle" || String.eqb state "running" || String.eqb state "stopped" in
  JsonResponse 200 (jv_object [("status", jv_string (if ready then "ready" else "not_ready"));
                               ("state", jv_string state)]).

Definition newline : string := String (ascii_of_nat 10) "".
Definition quote_mark : string := String (ascii_of_nat 34) "".

Definition counter_lines (name help : string) (value : Z) : string :=
  "# HELP " +:+ name +:+ " " +:+ help +:+ newline +:+
  "# TYPE " +:+ name +:+ " counter" +:+ newline +:+ name +:+ " " +:+ pretty value +:+ newline.

Definition state_lines (state : string) : string :=
  "# HELP kubemq_burnin_state Current state of the burn-in engine" +:+ newline +:+
  "# TYPE kubemq_burnin_state gauge" +:+ newline +:+
  "kubemq_burnin_state{state=" +:+ quote_mark +:+ state +:+ quote_mark +:+ "} 1" +:+ newline.

(** [totals.value(key, 0)] is an [int]. *)
Definition totals_value (totals : jvalue) (key : string) : Parsed Z :=
  match jv_member totals key with
  | Some v => get_int v
  | None => if jv_is_object totals then POk 0 else PThrow "cannot use value() with this type"
  end.

Definition HandleMetrics (s : Server) (now : Z) : Parsed Response :=
  let* snapshot := GetRunStatus (run_data s) now in
  let head := state_lines (engine_state_name (e_state (sv_engine s))) in
  let text t := mkResponse 200 true (TextContent t) in
  match jv_member snapshot "metrics" with
  | Some metrics =>
      match jv_member metrics "_totals" with
      | Some totals =>
          let* sent := totals_value totals "sent" in
          let* received := totals_value totals "received" in
          let* errors := totals_value totals "errors" in
          POk (text (head +:+ counter_lines "kubemq_burnin_sent_total" "Total messages sent" sent +:+
                     counter_lines "kubemq_burnin_received_total" "Total messages received" received +:+
                     counter_lines "kubemq_burnin_errors_total" "Total errors" errors))
      | None => POk (text head)
      end
  | None => POk (text head)
  end.

Definition HandleInfo (s : Server) : Response := JsonResponse 200 (GetInfo (run_data s)).

Definition HandleBrokerStatus {W} `{Grpc W, Callbacks W, Providers W, FileSystem W, Random W, Contexts W}
    (s : Server) : M W Response :=
  let! status := GetBrokerStatus (sv_broker_address s) in ret (JsonResponse 200 status).

(** A handler that cannot return is [None]. *)
Definition HandleRunStart (body fresh now : string) (s : Server) : option (Parsed Response * Server) :=
  let config :=
    if str_empty body then POk (SetDefaults Config_new)
    else match FromJson body with
         | PThrow what => PThrow ("invalid config: " +:+ what)
         | p => p
         end in
  match config with
  | PUndefined => Some (PUndefined, s)
  | PThrow what => Some (POk (JsonResponse 400 (error_json what)), s)
  | POk c =>
      match StartRun c fresh now s with
      | None => None
      | Some (result, s') =>
          Some (POk (if negb (str_empty (sr_error result)) then JsonResponse 409 (error_json (sr_error result))
                     else JsonResponse 202 (jv_object
                       [("run_id", jv_string (sr_run_id result));
                        ("enabled_patterns", jv_number (sr_enabled_count result));
                        ("status", jv_string "starting")])), s')
      end
  end.

Definition HandleRunStop (s : Server) : option (Response * Server) :=
  match StopRun s with
  | None => None
  | Some (error, s') =>
      Some (if negb (str_empty error) then JsonResponse 409 (error_json error)
            else JsonResponse 202 (jv_object [("status", jv_string "stopping")]), s')
  end.

Definition HandleRun (s : Server) (now : Z) : Parsed Response :=
  let* body := GetRunFull (run_data s) now in POk (JsonResponse 200 body).

Definition HandleRunStatus (s : Server) (now : Z) : Parsed Response :=
  let* body := GetRunStatus (run_data s) now in POk (JsonResponse 200 body).

Definition HandleRunConfig (s : Server) : Response :=
  let '(config, found) := GetRunConfig (run_data s) in
  if found then JsonResponse 200 config else JsonResponse 404 (error_json "no run configuration available").

Definition HandleRunReport (s : Server) : Response :=
  let '(report, found) := GetRunReport (run_data s) in
  if found then JsonResponse 200 report else JsonResponse 404 (error_json "no run report available").

Definition cleanup_json (s : Server) : jvalue :=
  if may_start (e_state (sv_engine s)) then jv_object [("status", jv_string "cleanup completed")]
  else error_json "can only cleanup in idle/stopped/error state".

Definition HandleCleanup (s : Server) : Response :=
  let result := cleanup_json s in
  match jv_member result "error" with
  | Some _ => JsonResponse 409 result
  | None => JsonResponse 200 result
  end.

Definition HandleLegacyStatus := HandleRunStatus.
Definition HandleLegacySummary := HandleRunReport.

(** ** The routes *)

Inductive Route :=
  | RPreflight | RHealth | RReady | RMetrics | RInfo | RBrokerStatus | RRunStart | RRunStop | RRun
  | RRunStatus | RRunConfig | RRunReport | RCleanup | RLegacyStatus | RLegacySummary.

(** [SetupRoutes]; [None] is left to the server library. *)
Definition route (method path : string) : option Route :=
  if String.eqb method "OPTIONS" then Some RPreflight
  else if String.eqb method "GET" then
    assoc path [("/health", RHealth); ("/ready", RReady); ("/metrics", RMetrics); ("/info", RInfo);
                ("/broker/status", RBrokerStatus); ("/run", RRun); ("/run/status", RRunStatus);
                ("/run/config", RRunConfig); ("/run/report", RRunReport); ("/status", RLegacyStatus);
                ("/summary", RLegacySummary)]
  else if String.eqb method "POST" then
    assoc path [("/run/start", RRunStart); ("/run/stop", RRunStop); ("/cleanup", RCleanup)]
  else None.

Definition preflight_response : Response := mkResponse 204 true NoContent.

(** A request to any route but the broker's, which needs a client. *)
Definition handle (r : Route) (body fresh started_at : string) (now : Z) (s : Server)
    : option (Parsed Response * Server) :=
  let pure p := Some (p, s) in
  match r with
  | RPreflight => pure (POk preflight_response)
  | RHealth => pure (POk HandleHealth)
  | RReady => pure (POk (HandleReady s))
  | RMetrics => pure (HandleMetrics s now)
  | RInfo => pure (POk (HandleInfo s))
  | RBrokerStatus => None
  | RRunStart => HandleRunStart body fresh started_at s
  | RRunStop => match HandleRunStop s with Some (res, s') => Some (POk res, s') | None => None end
  | RRun => pure (HandleRun s now)
  | RRunStatus => pure (HandleRunStatus s now)
  | RRunConfig => pure (POk (HandleRunConfig s))
  | RRunReport => pure (POk (HandleRunReport s))
  | RCleanup => pure (POk (HandleCleanup s))
  | RLegacyStatus => pure (HandleLegacyStatus s now)
  | RLegacySummary => pure (POk (HandleLegacySummary s))
  end.

End server.

(** ** What the endpoints answer *)

Section server_contract.
Context `{JsonLaws}.

(** No engine call is in flight. *)
Definition quiescent (s : Server) : Prop :=
  engine_inv (sv_engine s) /\ e_life (sv_engine s) = EAlive /\ e_starts (sv_engine s) = [] /\
  e_stops (sv_engine s) = O.

(** The configuration a start request asks for. *)
Definition requested_config (body : string) : Parsed Config :=
  if str_empty body then POk (SetDefaults Config_new) else FromJson body.

Definition started_id (c : Config) (fresh : string) : string :=
  if str_empty (cf_run_id c) then fresh else cf_run_id c.

Lemma FromJson_never_throws text what : FromJson text <> PThrow what.
Proof. unfold FromJson. repeat case_match; done. Qed.

Lemma StartRun_spec c fresh now s :
  quiescent s ->
  if may_start (e_state (sv_engine s)) then
    exists s', StartRun c fresh now s = Some (mkStartResult (started_id c fresh) (enabled_count c) "", s') /\
      quiescent s' /\ e_state (sv_engine s') = kStateStarting /\ e_thread (sv_engine s') = Some LCreate /\
      e_stop_requested (sv_engine s') = false /\ e_has_report (sv_engine s') = false /\
      e_run_id (sv_engine s') = started_id c fresh /\ sv_config s' = with_run_id (started_id c fresh) c
  else exists error, error <> "" /\ StartRun c fresh now s = Some (mkStartResult "" 0 error, s).
Proof.
  intros ([Hn Hi] & Hl & Hs & Hp). unfold StartRun, engine_step, StartRun_check.
  destruct s as [e br cf st wk me re]. destruct e as [x rid sr hr er th ss sp li]. cbn in *. subst ss li sp.
  destruct (may_start x) eqn:Hm; cbn.
  - unfold loop_live in Hi. cbn in Hi. destruct th as [[]|]; try done; cbn; (eexists; split; [reflexivity|]);
      unfold quiescent, engine_inv, loop_live; cbn; done.
  - eexists. split; [|reflexivity]. done.
Qed.

Lemma StopRun_spec s :
  quiescent s ->
  match e_state (sv_engine s) with
  | kStateRunning | kStateStarting =>
      exists s', StopRun s = Some ("", s') /\ quiescent s' /\ e_state (sv_engine s') = kStateStopping /\
        e_stop_requested (sv_engine s') = true /\ e_thread (sv_engine s') = e_thread (sv_engine s)
  | _ => exists error, error <> "" /\ StopRun s = Some (error, s)
  end.
Proof.
  intros ([Hn Hi] & Hl & Hs & Hp). unfold StopRun, engine_step, StopRun_check.
  destruct s as [e br cf st wk me re]. destruct e as [x rid sr hr er th ss sp li]. cbn in *. subst ss li sp.
  destruct x; cbn in *; first [ eexists; split; [|reflexivity]; done
    | eexists; split; [reflexivity|]; unfold quiescent, engine_inv, loop_live in *; cbn in *; done ].
Qed.

(** C23: the HTTP interface drives the engine. With no other request in flight
    and a run thread that can be made:
    a start request with a body that can be read is answered 202 exactly when
    the engine may start, and then a run thread exists, nothing is requested to
    stop, the run has the requested or a fresh identifier, its configuration is
    served with 200 and its report with 404; otherwise it is answered 409 and
    changes nothing. It is never answered 400. A stop request is answered 202
    exactly while a run is starting or running, with the stop then requested of
    it, else 409 with nothing changed. A cleanup is answered 200 exactly when
    the engine may start, idle, stopped or in error, and changes nothing. And the metrics page, whatever was counted, is the
    one line with the state: its totals are never printed. *)
Theorem http_run_control (s : Server) (body fresh started_at : string) (c : Config) (now : Z) :
  quiescent s -> requested_config body = POk c -> fresh <> "" ->
  (if may_start (e_state (sv_engine s)) then
     exists j s', handle RRunStart body fresh started_at now s = Some (POk (JsonResponse 202 j), s') /\
       quiescent s' /\ e_state (sv_engine s') = kStateStarting /\ e_thread (sv_engine s') = Some LCreate /\
       e_stop_requested (sv_engine s') = false /\
       jv_member j "run_id" = Some (jv_string (started_id c fresh)) /\
       e_run_id (sv_engine s') = started_id c fresh /\
       HandleRunConfig s' = JsonResponse 200 (ToJson (with_run_id (started_id c fresh) c)) /\
       rs_status (HandleRunReport s') = 404
   else exists j, handle RRunStart body fresh started_at now s = Some (POk (JsonResponse 409 j), s)) /\
  (match e_state (sv_engine s) with
   | kStateRunning | kStateStarting =>
       exists j s', handle RRunStop body fresh started_at now s = Some (POk (JsonResponse 202 j), s') /\
         quiescent s' /\ e_state (sv_engine s') = kStateStopping /\ e_stop_requested (sv_engine s') = true /\
         e_thread (sv_engine s') = e_thread (sv_engine s)
   | _ => exists j, handle RRunStop body fresh started_at now s = Some (POk (JsonResponse 409 j), s)
   end) /\
  rs_status (HandleCleanup s) = (if may_start (e_state (sv_engine s)) then 200 else 409) /\
  (metrics_typed (sv_metrics s) ->
   is_Some (int64_of_double (ElapsedSeconds now (sv_metrics s))) ->
   is_Some (int64_of_double (remaining_seconds (cf_duration_seconds (sv_config s))
              (ElapsedSeconds now (sv_metrics s)))) ->
   HandleMetrics s now =
     POk (mkResponse 200 true (TextContent (state_lines (engine_state_name (e_state (sv_engine s))))))).
Proof.
  intros Hq Hc Hf. split; [|split; [|split]].
  - assert (handle RRunStart body fresh started_at now s = HandleRunStart body fresh started_at s) as -> by done.
    unfold HandleRunStart.
    assert ((if str_empty body then POk (SetDefaults Config_new)
             else match FromJson body with PThrow what => PThrow ("invalid config: " +:+ what) | p => p end)
            = POk c) as ->.
    { unfold requested_config in Hc. destruct (str_empty body); [done|]. by rewrite Hc. }
    pose proof (StartRun_spec c fresh started_at s Hq) as Hs.
    destruct (may_start (e_state (sv_engine s))).
    + destruct Hs as (s' & -> & Hq' & ? & ? & ? & Hr & Hid & Hcf). cbn.
      eexists _, s'. split; [reflexivity|].
      rewrite jv_member_object by (apply distinct_keys; reflexivity).
      unfold HandleRunConfig, HandleRunReport, GetRunConfig, GetRunReport. cbn. rewrite Hid, Hr, Hcf.
      assert (str_empty (started_id c fresh) = false) as ->.
      { unfold started_id. destruct (str_empty (cf_run_id c)) eqn:E; [by apply str_empty_false|done]. }
      by split_and!.
    + destruct Hs as (error & He%str_empty_false & ->). cbn. rewrite He. cbn. by eexists.
  - pose proof (StopRun_spec s Hq) as Hs. cbn [handle]. unfold HandleRunStop.
    destruct (e_state (sv_engine s));
      first [ destruct Hs as (s' & -> & ? & ? & ? & ?); cbn; by eexists _, s'
            | destruct Hs as (error & He%str_empty_false & ->); cbn; rewrite He; cbn; by eexists ].
  - unfold HandleCleanup, cleanup_json, error_json. destruct (may_start (e_state (sv_engine s)));
      by rewrite jv_member_object by (apply distinct_keys; reflexivity).
  - intros Ht [e He] [r Hr].
    destruct (GetRunStatus_spec (run_data s) now e r Ht He Hr) as (j & Hj & _ & Hm & _).
    unfold HandleMetrics. rewrite Hj. cbn [parsed_bind]. by rewrite Hm.
Qed.

End server_contract.

(** ** On concrete requests *)

Definition demo_server : @Server demo_json :=
  @mkServer demo_json Engine_new "localhost:50000" Config_new "" 0 AggregateMetrics_new JNull.

(** Starting with the defaults on a new engine. *)
Lemma http_run_control_witness :
  exists j s', @handle demo_json RRunStart "" "0badcafe" "t0" 0 demo_server
      = Some (POk (@JsonResponse demo_json 202 j), s') /\
    e_run_id (@sv_engine demo_json s') = "0badcafe".
Proof.
  destruct (@http_run_control demo_json (tree_json_laws _) demo_server "" "0badcafe" "t0"
    (SetDefaults Config_new) 0) as [(j & s' & Hj & _ & _ & _ & _ & _ & Hid & _) _].
  - split; [|done]. split; [discriminate|reflexivity].
  - reflexivity.
  - discriminate.
  - exists j, s'. split; [exact Hj|exact Hid].
Defined.

Example routes :
  route "POST" "/run/start" = Some RRunStart /\ route "GET" "/run/start" = None /\
  route "OPTIONS" "/anything" = Some RPreflight /\ route "GET" "/summary" = Some RLegacySummary.
Proof. by vm_compute. Qed.
