(* ===== verification/Main.v ===== *)
(** * The burn-in entry point

    Models what burnin/main.cc decides before it serves: the command line, the
    environment, the startup file and their priorities; and what it does with
    the engine once a signal has asked it to end. The YAML library is a
    parameter. *)

From Stdlib Require Import ZArith Lia Ascii String.
From S2P Require Import Prelude Automaton ClientOptions Engine Json Config Server.

Local Open Scope string_scope.
Local Open Scope Z_scope.
Local Open Scope kubemq_scope.

(** What the source uses of yaml-cpp; [inr] carries the [what()] of a
    [YAML::Exception]. *)
Class YamlLibrary := {
  ynode : Type;
  yaml_load : string -> ynode + string;
  yaml_field : ynode -> string -> option ynode + string;   (* node[key], if it is there *)
  yaml_int : ynode -> Z + string;
  yaml_string : ynode -> string + string
}.

(** The environment: [None] for a variable that is not set. *)
Definition Environment := string -> option string.

Definition GetEnv (env : Environment) (name default_value : string) : string :=
  match env name with
  | Some v => if str_empty v then default_value else v
  | None => default_value
  end.

(** A value [std::stoi] does not take leaves the default, with a warning. *)
Definition GetEnvInt (env : Environment) (name : string) (default_value : Z) : Z :=
  match env name with
  | Some v => if str_empty v then default_value
              else match stoi v with Some n => n | None => default_value end
  | None => default_value
  end.

(** The loop over [argv] after the program's name: the last path wins. *)
Fixpoint parse_args (args : list string) (config_path : string) : string :=
  match args with
  | [] => config_path
  | arg :: rest =>
      match rest with
      | value :: rest' =>
          if String.eqb arg "--config" || String.eqb arg "-config" then parse_args rest' value
          else parse_args rest config_path
      | [] => config_path
      end
  end.

Section main.
Context `{YamlLibrary}.

(** [root[outer][inner]], when both are there. *)
Definition yaml_nested (root : ynode) (outer inner : string) : option ynode + string :=
  match yaml_field root outer with
  | inl (Some node) => yaml_field node inner
  | inl None => inl None
  | inr e => inr e
  end.

Definition with_port (port : Z) (c : Config) : Config :=
  mkConfig (cf_broker_address c) (cf_client_id_prefix c) (cf_duration_seconds c) (cf_warmup_seconds c)
    (cf_run_id c) (cf_payload_size c) (cf_patterns c) (cf_queue c) port (cf_warnings c).

Definition with_broker (address : string) (c : Config) : Config :=
  mkConfig address (cf_client_id_prefix c) (cf_duration_seconds c) (cf_warmup_seconds c)
    (cf_run_id c) (cf_payload_size c) (cf_patterns c) (cf_queue c) (cf_metrics_port c) (cf_warnings c).

(** One optional setting: what was set before a failure stays. *)
Definition yaml_setting {A} (found : option ynode + string) (get : ynode -> A + string)
    (set : A -> Config -> Config) (c : Config) : Config * option string :=
  match found with
  | inl None => (c, None)
  | inl (Some node) => match get node with inl a => (set a c, None) | inr e => (c, Some e) end
  | inr e => (c, Some e)
  end.

(** The configuration and the warnings. *)
Definition LoadFromYaml (path : string) : Config * list string :=
  let warning e := ("[config] YAML load failed for '" +:+ path +:+ "': " +:+ e +:+ " — falling back to defaults") in
  match yaml_load path with
  | inr e => (Config_new, [warning e])
  | inl root =>
      let '(c, failed) := yaml_setting (yaml_nested root "metrics" "port") yaml_int with_port Config_new in
      match failed with
      | Some e => (c, [warning e])
      | None =>
          let '(c', failed') := yaml_setting (yaml_nested root "broker" "address") yaml_string with_broker c in
          (c', match failed' with Some e => [warning e] | None => [] end)
      end
  end.

Record Startup := mkStartup { su_broker_address : string; su_http_port : Z }.

Definition resolve (env : Environment) (args : list string) : Startup :=
  let config_path := parse_args args "" in
  let broker := GetEnv env "KUBEMQ_BROKER_ADDRESS" "" in
  let '(broker, port) :=
    if str_empty config_path then (broker, 0)
    else
      let '(yaml_cfg, _) := LoadFromYaml config_path in
      (if str_empty broker && negb (str_empty (cf_broker_address yaml_cfg))
       then cf_broker_address yaml_cfg else broker,
       if 0 <? cf_metrics_port yaml_cfg then cf_metrics_port yaml_cfg else 0) in
  mkStartup (if str_empty broker then kDefaultBrokerAddress else broker)
    (if port <=? 0 then GetEnvInt env "PORT" kDefaultHttpPort else port).

(** ** What is resolved *)

(** The setting the file gives, if it is read and is the one asked for. *)
Definition yaml_port (path : string) : option Z :=
  match yaml_load path with
  | inl root =>
      match yaml_nested root "metrics" "port" with
      | inl (Some node) => match yaml_int node with inl p => if 0 <? p then Some p else None | inr _ => None end
      | _ => None
      end
  | inr _ => None
  end.

(** The address of the file counts only if the port before it could be read. *)
Definition yaml_broker (path : string) : option string :=
  match yaml_load path with
  | inl root =>
      match snd (yaml_setting (yaml_nested root "metrics" "port") yaml_int with_port Config_new) with
      | Some _ => None
      | None =>
          match yaml_nested root "broker" "address" with
          | inl (Some node) => match yaml_string node with inl a => Some a | inr _ => None end
          | _ => None
          end
      end
  | inr _ => None
  end.

Lemma GetEnv_spec env name : GetEnv env name "" = match env name with Some v => v | None => "" end.
Proof. unfold GetEnv. destruct (env name) as [v|]; [|done]. destruct (str_empty v) eqn:E; [|done]. by apply str_empty_true in E. Qed.

Lemma LoadFromYaml_settings path :
  let c := fst (LoadFromYaml path) in
  (if 0 <? cf_metrics_port c then Some (cf_metrics_port c) else None) = yaml_port path /\
  cf_broker_address c = match yaml_broker path with Some a => a | None => kDefaultBrokerAddress end.
Proof.
  unfold LoadFromYaml, yaml_port, yaml_broker, yaml_setting.
  destruct (yaml_load path) as [root|e]; [|done].
  destruct (yaml_nested root "metrics" "port") as [[node|]|e]; [destruct (yaml_int node)| |]; cbn;
    try done; (destruct (yaml_nested root "broker" "address") as [[node'|]|e']; [destruct (yaml_string node')| |]); done.
Qed.

(** The settings have the priorities the code states. The broker's address
    is the environment's when that is not empty, else the file's when a path
    is given and the file has a non-empty one, else the default; it is never
    empty. The port is the file's when that is positive, else the number
    PORT begins with, else the default; a file that cannot be read, or whose
    port is not a number, changes nothing. *)
Theorem startup_priorities (env : Environment) (args : list string) :
  let path := parse_args args "" in
  let from_file {A} (f : string -> option A) := if str_empty path then None else f path in
  let env_or (name : string) := match env name with Some v => v | None => "" end in
  su_broker_address (resolve env args) =
    (if str_empty (env_or "KUBEMQ_BROKER_ADDRESS") then
       match from_file yaml_broker with
       | Some a => if str_empty a then kDefaultBrokerAddress else a
       | None => kDefaultBrokerAddress
       end
     else env_or "KUBEMQ_BROKER_ADDRESS") /\
  su_broker_address (resolve env args) <> "" /\
  su_http_port (resolve env args) =
    match from_file yaml_port with
    | Some p => p
    | None => match stoi (env_or "PORT") with Some n => n | None => kDefaultHttpPort end
    end.
Proof.
  cbn zeta. unfold resolve. rewrite GetEnv_spec.
  assert (GetEnvInt env "PORT" kDefaultHttpPort =
    match stoi (match env "PORT" with Some v => v | None => "" end) with
    | Some n => n | None => kDefaultHttpPort end) as ->.
  { unfold GetEnvInt. destruct (env "PORT") as [v|]; [|done].
    destruct (str_empty v) eqn:E; [|done]. by apply str_empty_true in E as ->. }
  set (broker := match env "KUBEMQ_BROKER_ADDRESS" with Some v => v | None => "" end).
  destruct (str_empty (parse_args args "")); cbn [su_broker_address su_http_port].
  { destruct (str_empty broker) eqn:E; (split; [done|]; split; [|done]); [done|by apply str_empty_false]. }
  destruct (LoadFromYaml_settings (parse_args args "")) as [Hp Hb].
  destruct (LoadFromYaml (parse_args args "")) as [c ws]. cbn in Hp, Hb |- *.
  rewrite <- Hp, Hb. clear Hp Hb.
  assert (str_empty kDefaultBrokerAddress = false) as Hd by done.
  split; [|split].
  - destruct (str_empty broker) eqn:E; cbn; [|by rewrite E].
    destruct (yaml_broker _) as [a|]; [|done]. destruct (str_empty a) eqn:Ea; cbn; [by rewrite E|by rewrite Ea].
  - case_match eqn:Eb; [done|by apply str_empty_false].
  - destruct (Z.ltb_spec 0 (cf_metrics_port c)); [|done].
    by destruct (Z.leb_spec (cf_metrics_port c) 0); [lia|].
Qed.

End main.

(** ** The end *)

Section shutdown.
Context `{JsonValues}.

(** The engine part of the end of [main], before the server is stopped: a run
    that is starting or running is told to stop, with the answer dropped. *)
Definition shutdown_run (s : Server) : option Server :=
  let state := engine_state_name (e_state (sv_engine s)) in
  if String.eqb state "running" || String.eqb state "starting" then
    match StopRun s with Some (_, s') => Some s' | None => None end
  else Some s.

End shutdown.

(** It returns, and no run is left that nothing has told to stop; a run that
    had ended is left alone. *)
Lemma shutdown_run_spec `{JsonLaws} (s : Server) :
  quiescent s ->
  exists s', shutdown_run s = Some s' /\ quiescent s' /\
    (e_state (sv_engine s') = kStateRunning \/ e_state (sv_engine s') = kStateStarting -> False) /\
    (may_start (e_state (sv_engine s)) = true -> s' = s).
Proof.
  intros Hq. pose proof (StopRun_spec s Hq) as Hs. unfold shutdown_run.
  destruct (e_state (sv_engine s)) eqn:E; cbn;
    first [ destruct Hs as (s' & -> & Hq' & Hst & _); exists s'; rewrite Hst; naive_solver
          | exists s; rewrite E; naive_solver ].
Qed.
