(* ===== verification/EngineLife.v ===== *)
(** * The engine over its life, with its runs

    Composes the control of burnin/engine/engine.cc (Engine: calls of
    [StartRun] and [StopRun] that overlap, the run thread and its exceptions,
    the destructor) with the runs of its workers (Run): a step of the run thread
    is one of both, [stop_requested_] is one variable, the workers and the
    metrics go from one run to the next, and the report becomes
    [last_report_]. An exception leaves the workers where they are; the next
    [CreateWorkers] destroys them before it makes its own. The upstream handles
    that detached threads still hold are followed into the next runs. *)

From Stdlib Require Import ZArith Lia Ascii String.
From S2P Require Import Prelude Automaton Status Client Engine Json Config Metrics.
From S2P Require Import Worker WorkerStop RunPlan Report Run RunStop Server.

Local Open Scope string_scope.
Local Open Scope Z_scope.

(** ** State *)

Record EngineLife {J : Type} := mkEngineLife {
  el_engine : Engine;
  el_config : Config;               (* config_ *)
  el_started_at : string;           (* run_started_at_ *)
  el_run : RunState;                (* workers_, metrics_, and where RunLoop is with them *)
  el_past : list (WorkerConfig * Worker);   (* destroyed in the runs before *)
  el_report : option J              (* last_report_ *)
}.
Arguments EngineLife : clear implicits.

(** The data of a call of [StartRun] are its configuration, what
    [GenerateRunId] gives it and the time. *)
Inductive life_input :=
  | EStartCheck
  | EStart (i : nat) (config : Config) (fresh now : string)
  | EStartFails (i : nat)
  | EStopCheck | EStopFlag | ECleanup
  | ELoop (t : Z) (stamp : string) (throws : bool)   (* the next step of the run thread *)
  | EWorker (t : Z) (n : nat) (x : worker_input)     (* a thread or a callback of a worker *)
  | EPast (t : Z) (n : nat) (x : worker_input)       (* of one of a run before *)
  | EDestroy | EDestroyJoin.

Inductive life_output {J : Type} :=
  | EOut (o : engine_output)
  | ERun (o : run_output J)
  | EPastRun (n : nat) (o : worker_output)
  | EFreed (left : list nat).       (* metrics_ is destroyed, and then these workers *)
Arguments life_output : clear implicits.

(** ** The run thread *)

(** [stop_requested_] as a run sees it. *)
Definition set_stop (b : bool) (r : RunState) : RunState :=
  mkRunState (rs_stage r) b (rs_workers r) (rs_metrics r) (rs_start r) (rs_count r) (rs_clock r).

(** The program point of [RunLoop] in Engine for one in Run. *)
Definition loop_pc_of (x : run_stage) : loop_pc :=
  match x with
  | RCreate => LCreate
  | RReset | RMarkStart => LMark
  | RStarting _ => LStartWorkers
  | RTest => LTestStop | RDuration => LTestDuration | RSleep _ => LSleep
  | RStopping _ | RDestroying _ _ | RMarkStop => LStopWorkers
  | RReport => LReport
  | RDone => LSetStopped
  end.

(** [workers_.clear()] at the start of [CreateWorkers]: nothing to do after a
    run that came to its report, else the workers that are left. *)
Definition begin_run (r : RunState) : RunState :=
  match rs_stage r with
  | RReport | RDone => set_stop (rs_stop_requested r) (RunState_new (rs_metrics r) (rs_clock r))
  | _ => at_stage (RDestroying 0 false) r
  end.

Definition cleared (r : RunState) : RunState :=
  match rs_stage r with
  | RMarkStop => set_stop (rs_stop_requested r) (RunState_new (rs_metrics r) (rs_clock r))
  | _ => r
  end.

Definition clearing (p : loop_pc) (r : RunState) : bool :=
  match p, rs_stage r with LCreate, RCreate => false | LCreate, _ => true | _, _ => false end.

(** The workers that are not destroyed. *)
Definition not_destroyed (r : RunState) : list nat :=
  omap id (imap (fun i gw => match w_owner (snd gw) with WDestroyed => None | _ => Some i end) (rs_workers r)).

#[local] Instance loop_pc_eq_dec : EqDecision loop_pc.
Proof. solve_decision. Defined.

Section life.
Context `{JsonValues} (broker : string).

Notation EngineLife := (EngineLife jvalue).
Definition life_stepped : Type := option (EngineLife * list (life_output jvalue)).

Definition EngineLife_new (clock : Z) : EngineLife :=
  mkEngineLife jvalue Engine_new Config_new "" (at_stage RDone (RunState_new AggregateMetrics_new clock)) [] None.

Definition with_run (r : RunState) (s : EngineLife) : EngineLife :=
  mkEngineLife jvalue (el_engine s) (el_config s) (el_started_at s) r (el_past s) (el_report s).
Definition with_engine (e : Engine) (s : EngineLife) : EngineLife :=
  mkEngineLife jvalue e (el_config s) (el_started_at s) (set_stop (e_stop_requested e) (el_run s)) (el_past s)
    (el_report s).

(** [workers_] becomes that of [r]; a run that begins has let the old ones go. *)
Definition retire (r : RunState) (s : EngineLife) : EngineLife :=
  mkEngineLife jvalue (el_engine s) (el_config s) (el_started_at s) r
    (match rs_stage r with RCreate => el_past s ++ rs_workers (el_run s) | _ => el_past s end)%list (el_report s).

(** A step of the control. *)
Definition control_step (i : engine_input) (s : EngineLife) : life_stepped :=
  match engine_step (el_engine s) i with
  | Some (e, o) => Some (with_engine e s, EOut <$> o)
  | None => None
  end.

Definition life_loop_step (t : Z) (stamp : string) (s : EngineLife) :=
  Run.loop_step broker (e_run_id (el_engine s)) (el_started_at s) (el_config s) stamp (at_time t (el_run s)).

(** What a step of [RunLoop] with the workers, which led to [r], is in the control. *)
Definition loop_answer (r : RunState) (o : list (run_output jvalue)) : bool :=
  match rs_stage r, o with
  | RSleep _, _ => false                      (* the time is not up *)
  | _, [OReport (POk _)] => true
  | _, [OReport _] => false                   (* building the report threw *)
  | _, _ => true
  end.

Definition report_of (o : list (run_output jvalue)) (old : option jvalue) : option jvalue :=
  match o with [OReport (POk j)] => Some j | _ => old end.

(** A step of the run, and then the control's way out of it. *)
Definition throw_worker (t : Z) (i : nat) (s : EngineLife) : life_stepped :=
  match step_worker i IThreadFails (fun _ => rs_stage (el_run s)) (at_time t (el_run s)) with
  | None => None
  | Some (r, o) =>
      match control_step (ILoop false) (with_run r s) with
      | Some (s', o') => Some (s', ((ERun <$> o) ++ o')%list)
      | None => None
      end
  end.

(** Where [RunLoop] can throw: memory for the workers or the report, and the
    threads that [Start] and [Stop] make. The destructors of the workers an
    exception had left do not let one out. *)
Definition throw_step (t : Z) (p : loop_pc) (s : EngineLife) : life_stepped :=
  match rs_stage (el_run s) with
  | RCreate | RReport => control_step (ILoop false) s
  | RStarting i | RStopping i => throw_worker t i s
  | RDestroying i false =>
      if clearing p (el_run s) then
        match step_worker i IThreadFatal (fun _ => RDestroying i true) (at_time t (el_run s)) with
        | Some (r, o) => Some (with_run r s, ERun <$> o)
        | None => None
        end
      else None
  | _ => None
  end.

(** A step of the run that is at [p] in the control. *)
Definition working_step (t : Z) (stamp : string) (throws : bool) (p : loop_pc) (s : EngineLife) : life_stepped :=
  if throws then throw_step t p s
  else
    match life_loop_step t stamp s with
    | None => None
    | Some (r, o) =>
        if clearing p (el_run s) then Some (retire (cleared r) s, ERun <$> o)
        else if decide (loop_pc_of (rs_stage r) = p) then Some (with_run r s, ERun <$> o)
        else
          match control_step (ILoop (loop_answer r o))
                  (mkEngineLife jvalue (el_engine s) (el_config s) (el_started_at s) r (el_past s)
                     (report_of o (el_report s))) with
          | Some (s', o') => Some (s', ((ERun <$> o) ++ o')%list)
          | None => None
          end
    end.

(** The program points at which a step is one of the run. *)
Definition with_workers (p : loop_pc) : bool :=
  match p with LSetRunning | LSetStopped | LCatch | LReturned => false | _ => true end.

Definition run_thread_step (t : Z) (stamp : string) (throws : bool) (s : EngineLife) : life_stepped :=
  match e_thread (el_engine s) with
  | None | Some LReturned => None
  | Some p =>
      if with_workers p then working_step t stamp throws p s
      else if throws then None else control_step (ILoop true) s
  end.

(** ** The calls *)

(** The rest of [StartRun]: the second step writes the members, the last one
    makes the thread. *)
Definition start_call (i : nat) (config : Config) (fresh now : string) (s : EngineLife) : life_stepped :=
  let run_id := if str_empty (cf_run_id config) then fresh else cf_run_id config in
  match control_step (IStart i run_id) s with
  | None => None
  | Some (s', o) =>
      Some (match e_starts (el_engine s) !! i, e_thread (el_engine s) with
            | Some SWrite, _ =>
                mkEngineLife jvalue (el_engine s') (with_run_id run_id config) now (el_run s') (el_past s') (el_report s')
            | Some SThread, None => retire (begin_run (el_run s')) s'
            | _, _ => s'
            end, o)
  end.

(** The end of the destructor: the members go in the opposite order of their
    declaration, [metrics_] before [workers_]. *)
Definition destroy_call (i : engine_input) (s : EngineLife) : life_stepped :=
  match control_step i s with
  | Some (s', o) =>
      Some (s', (o ++ match e_life (el_engine s') with
                      | EDestroyed => [EFreed (not_destroyed (el_run s'))]
                      | _ => []
                      end)%list)
  | None => None
  end.

(** What happens once the members are gone is not followed. *)
Definition members_gone (s : EngineLife) : bool :=
  match e_life (el_engine s) with EAlive | EDestroying => false | _ => true end.

(** The process is over: [StartRun] has assigned to a joinable thread, a thread
    has deleted the upstream handle of an ended stream, or a destructor threw. *)
Definition life_over (s : EngineLife) : bool :=
  match e_life (el_engine s) with ETerminated => true | _ => false end ||
  (run_ended (el_run s) || existsb (fun gw => w_ended (snd gw)) (el_past s)).

Definition worker_call (t : Z) (n : nat) (x : worker_input) (s : EngineLife) : life_stepped :=
  match step_worker n x (fun _ => rs_stage (el_run s)) (at_time t (el_run s)) with
  | Some (r, o) => Some (with_run r s, ERun <$> o)
  | None => None
  end.

(** Of a destroyed worker only the upstream handle can be left. *)
Definition past_call (t : Z) (n : nat) (x : worker_input) (s : EngineLife) : life_stepped :=
  match el_past s !! n with
  | None => None
  | Some (g, w) =>
      match worker_step g w (t, x) with
      | None => None
      | Some (w', o) =>
          Some (mkEngineLife jvalue (el_engine s) (el_config s) (el_started_at s) (el_run s)
                  (<[n := (g, w')]> (el_past s)) (el_report s), EPastRun n <$> o)
      end
  end.

Definition live_step (s : EngineLife) (i : life_input) : life_stepped :=
  match i with
  | EStartCheck => control_step IStartCheck s
  | EStart n config fresh now => start_call n config fresh now s
  | EStartFails n => control_step (IStartFails n) s
  | EStopCheck => control_step IStopCheck s
  | EStopFlag => control_step IStopFlag s
  | ECleanup => control_step ICleanup s
  | ELoop t stamp throws =>
      if (t <? rs_clock (el_run s)) || members_gone s then None
      else run_thread_step t stamp throws s
  | EWorker t n x =>
      if (t <? rs_clock (el_run s)) || owner_input x || members_gone s then None else worker_call t n x s
  | EPast t n x => if (t <? rs_clock (el_run s)) || owner_input x then None else past_call t n x s
  | EDestroy => destroy_call IDestroy s
  | EDestroyJoin => destroy_call IDestroyJoin s
  end.

Definition life_step (s : EngineLife) (i : life_input) : life_stepped :=
  if life_over s then None else live_step s i.

Definition life_run (clock : Z) := run life_step (EngineLife_new clock).

(** A call of [StartRun] that begins while another is in flight, or that cannot
    make its thread; and the runs without one. *)
Definition disordered (e : Engine) (i : life_input) : bool :=
  match i with
  | EStartCheck => disorderly e IStartCheck
  | EStartFails n => disorderly e (IStartFails n)
  | _ => false
  end.

Fixpoint orderly (s : EngineLife) (ins : list life_input) : bool :=
  match ins with
  | [] => true
  | i :: ins' =>
      negb (disordered (el_engine s) i) &&
      match life_step s i with Some (s', _) => orderly s' ins' | None => true end
  end.

Definition life_serial_step (s : EngineLife) (i : life_input) : life_stepped :=
  if disordered (el_engine s) i then None else life_step s i.

Lemma orderly_run s ins : orderly s ins = true -> run life_serial_step s ins = run life_step s ins.
Proof.
  revert s. induction ins as [|i ins IH]; intros s; [done|]. cbn. unfold life_serial_step.
  intros [Hd Ho]%andb_true_iff. apply negb_true_iff in Hd. rewrite Hd.
  destruct (life_step s i) as [[s' o]|]; [|done]. by rewrite IH.
Qed.

Lemma life_step_live s i r : life_step s i = Some r -> life_over s = false /\ live_step s i = Some r.
Proof. unfold life_step. by destruct (life_over s). Qed.

Lemma life_over_run s : life_over s = false -> run_ended (el_run s) = false.
Proof. unfold life_over. intros [_ [H1 _]%orb_false_iff]%orb_false_iff. exact H1. Qed.

(** ** The control by itself *)

Definition control_outputs (outs : list (life_output jvalue)) : list engine_output :=
  omap (fun o => match o with EOut x => Some x | _ => None end) outs.

Lemma control_outputs_app l l' : control_outputs (l ++ l') = (control_outputs l ++ control_outputs l')%list.
Proof. apply omap_app. Qed.

Lemma control_outputs_out (l : list engine_output) : control_outputs (EOut <$> l) = l.
Proof. unfold control_outputs. induction l as [|o l IH]; [done|]. cbn. by rewrite IH. Qed.

Lemma control_outputs_run (l : list (run_output jvalue)) : control_outputs (ERun <$> l) = [].
Proof. unfold control_outputs. by induction l. Qed.

Lemma control_step_engine i s s' o :
  control_step i s = Some (s', o) -> engine_step (el_engine s) i = Some (el_engine s', control_outputs o).
Proof.
  unfold control_step. destruct (engine_step (el_engine s) i) as [[e l]|]; [|done].
  intros [= <- <-]. by rewrite control_outputs_out.
Qed.

(** Any other step is one of the control, disorderly only if it is, or none. *)
Definition control_stepped (s s' : EngineLife) (o : list (life_output jvalue)) (d : bool) : Prop :=
  (el_engine s' = el_engine s /\ control_outputs o = []) \/
  exists j, engine_step (el_engine s) j = Some (el_engine s', control_outputs o) /\
    (disorderly (el_engine s) j = true -> d = true).

Lemma control_step_stepped j s s' o :
  control_step j s = Some (s', o) -> control_stepped s s' o (disorderly (el_engine s) j).
Proof. intros Hs%control_step_engine. right. by exists j. Qed.

Lemma run_thread_cases t stamp throws s s' o :
  run_thread_step t stamp throws s = Some (s', o) ->
  exists p, e_thread (el_engine s) = Some p /\
    (with_workers p = true /\ working_step t stamp throws p s = Some (s', o) \/
     match p with LSetRunning | LSetStopped | LCatch => True | _ => False end /\ control_step (ILoop true) s = Some (s', o)).
Proof.
  unfold run_thread_step. destruct (e_thread (el_engine s)) as [p|]; [|done]. intros Hs. exists p. split; [done|].
  destruct (with_workers p) eqn:Hp; [left; split; [done|]; by destruct p|right].
  by destruct p; try done; destruct throws.
Qed.

(** What throws leads the control out of the run, or ends the process. *)
Lemma throw_cases t p s s' o :
  throw_step t p s = Some (s', o) ->
  (exists r, (r = el_run s /\ (rs_stage r = RCreate \/ rs_stage r = RReport) \/
              exists i o1, (rs_stage (el_run s) = RStarting i \/ rs_stage (el_run s) = RStopping i) /\
                step_worker i IThreadFails (fun _ => rs_stage (el_run s)) (at_time t (el_run s)) = Some (r, o1)) /\
     exists o2, control_step (ILoop false) (with_run r s) = Some (s', o2) /\ control_outputs o = control_outputs o2) \/
  exists i r o1, clearing p (el_run s) = true /\ rs_stage (el_run s) = RDestroying i false /\
    step_worker i IThreadFatal (fun _ => RDestroying i true) (at_time t (el_run s)) = Some (r, o1) /\
    s' = with_run r s /\ o = ERun <$> o1.
Proof.
  unfold throw_step, throw_worker. intros Hs.
  assert (forall r, control_step (ILoop false) s = Some (s', o) -> r = el_run s ->
    exists o2, control_step (ILoop false) (with_run r s) = Some (s', o2) /\ control_outputs o = control_outputs o2) as Hq.
  { intros r Hc ->. exists o. split; [|done]. by destruct s. }
  destruct (rs_stage (el_run s)) as [| | |i| | |since|i|i []| | |] eqn:Est; try done.
  1,5: left; exists (el_run s); split; [left; split; [done|]; rewrite Est; auto|by apply Hq].
  1,2: left; destruct (step_worker _ _ _ _) as [[r o1]|] eqn:Hw; [|done];
    destruct (control_step _ _) as [[s1 o2]|] eqn:Hc; [|done]; injection Hs as <- <-; exists r;
    (split; [right; exists i, o1; by auto|]); exists o2; by rewrite control_outputs_app, control_outputs_run.
  right. destruct (clearing p (el_run s)) eqn:Hcl; [|done].
  destruct (step_worker _ _ _ _) as [[r o1]|] eqn:Hw; [|done]. injection Hs as <- <-. by exists i, r, o1.
Qed.

Lemma throw_stepped t p s s' o : throw_step t p s = Some (s', o) -> control_stepped s s' o false.
Proof.
  intros [(r & _ & o2 & Hc%control_step_engine & Ho)|(i & r & o1 & _ & _ & _ & -> & ->)]%throw_cases.
  - right. exists (ILoop false). by rewrite Ho.
  - left. by rewrite control_outputs_run.
Qed.

Lemma run_thread_stepped t stamp throws s s' o :
  run_thread_step t stamp throws s = Some (s', o) -> control_stepped s s' o false.
Proof.
  intros (p & _ & [[_ Hs]|[_ Hs]])%run_thread_cases; [|by apply (control_step_stepped (ILoop true))].
  unfold working_step in Hs. destruct throws; [by eapply throw_stepped|].
  destruct (life_loop_step t stamp s) as [[r o1]|]; [|done].
  destruct (clearing p (el_run s)); [injection Hs as <- <-; left; by rewrite control_outputs_run|].
  case_decide; [injection Hs as <- <-; left; by rewrite control_outputs_run|].
  destruct (control_step _ _) as [[s1 o2]|] eqn:Ec; [|done]. injection Hs as <- <-.
  apply control_step_engine in Ec. right. eexists. rewrite control_outputs_app, control_outputs_run. by split.
Qed.

Lemma life_step_stepped s i s' o :
  life_step s i = Some (s', o) -> control_stepped s s' o (disordered (el_engine s) i).
Proof.
  intros [_ Hs]%life_step_live. revert Hs.
  destruct i as [|n config fresh now|n| | | |t stamp throws|t n x|t n x| |]; cbn [live_step disordered];
    try apply control_step_stepped.
  - unfold start_call. destruct (control_step _ s) as [[s1 o1]|] eqn:Ec; [|done].
    pose proof (control_step_engine _ _ _ _ Ec) as He. intros [= <- <-]. right.
    eexists (IStart n _). split; [|done]. rewrite He. by destruct (e_starts (el_engine s) !! n) as [[]|], (e_thread (el_engine s)).
  - destruct (_ || _); [done|]. intros Hs%run_thread_stepped. exact Hs.
  - destruct (_ || _); [done|]. unfold worker_call. destruct (step_worker _ _ _ _) as [[r o1]|]; [|done].
    intros [= <- <-]. left. by rewrite control_outputs_run.
  - destruct (_ || _); [done|]. unfold past_call. destruct (el_past s !! n) as [[g w]|]; [|done].
    destruct (worker_step g w (t, x)) as [[w' o1]|]; [|done]. intros [= <- <-].
    left. split; [done|]. unfold control_outputs. by induction o1.
  - unfold destroy_call. destruct (control_step _ s) as [[s1 o1]|] eqn:Ec; [|done]. intros [= <- <-].
    apply control_step_engine in Ec. right. exists IDestroy. rewrite Ec, control_outputs_app. split; [|done].
    destruct (e_life _); cbn; by rewrite app_nil_r.
  - unfold destroy_call. destruct (control_step _ s) as [[s1 o1]|] eqn:Ec; [|done]. intros [= <- <-].
    apply control_step_engine in Ec. right. exists IDestroyJoin. rewrite Ec, control_outputs_app. split; [|done].
    destruct (e_life _); cbn; by rewrite app_nil_r.
Qed.

Lemma life_serial_step_step s i r : life_serial_step s i = Some r -> life_step s i = Some r.
Proof. unfold life_serial_step. by destruct (disordered (el_engine s) i). Qed.

Lemma life_serial_stepped s i s' o :
  life_serial_step s i = Some (s', o) ->
  (el_engine s' = el_engine s /\ control_outputs o = []) \/
  exists j, serial_step (el_engine s) j = Some (el_engine s', control_outputs o).
Proof.
  intros Hs. pose proof (life_step_stepped _ _ _ _ (life_serial_step_step _ _ _ Hs)) as [Hk|(j & Hj & Hi)]; [by left|right].
  exists j. unfold serial_step. destruct (disorderly (el_engine s) j); [|done]. specialize (Hi eq_refl).
  unfold life_serial_step in Hs. by rewrite Hi in Hs.
Qed.

(** A run is, for the control, a run of Engine. *)
Lemma life_run_control clock ins s outs :
  life_run clock ins = Some (s, outs) -> exists eins, engine_run eins = Some (el_engine s, control_outputs outs).
Proof.
  revert ins s outs. apply (run_ind life_step _ (fun s _ outs => exists eins, engine_run eins = Some (el_engine s, control_outputs outs))).
  - by exists [].
  - intros s ins outs i s' o _ [eins He] Hs. rewrite control_outputs_app.
    destruct (life_step_stepped _ _ _ _ Hs) as [[-> ->]|(j & Hj & _)]; [exists eins; by rewrite app_nil_r|].
    exists (eins ++ [j])%list. unfold engine_run in *. rewrite run_app, He. cbn [run]. by rewrite Hj, app_nil_r.
Qed.

Lemma orderly_run_control clock ins s outs :
  orderly (EngineLife_new clock) ins = true -> life_run clock ins = Some (s, outs) ->
  exists eins, serial_run eins = Some (el_engine s, control_outputs outs).
Proof.
  unfold life_run. intros Ho. rewrite <- (orderly_run _ _ Ho). clear Ho. revert ins s outs.
  apply (run_ind life_serial_step _ (fun s _ outs => exists eins, serial_run eins = Some (el_engine s, control_outputs outs))).
  - by exists [].
  - intros s ins outs i s' o _ [eins He] Hs. rewrite control_outputs_app.
    destruct (life_serial_stepped _ _ _ _ Hs) as [[-> ->]|[j Hj]]; [exists eins; by rewrite app_nil_r|].
    exists (eins ++ [j])%list. unfold serial_run in *. rewrite run_app, He. cbn [run]. by rewrite Hj, app_nil_r.
Qed.

(** ** A run between its first step and its report *)

Definition no_totals (a : AggregateMetrics) : Prop := am_patterns a !! "_totals" = None.

Lemma no_totals_dom a b : dom (am_patterns b) = dom (am_patterns a) -> no_totals a -> no_totals b.
Proof. unfold no_totals. rewrite <- !not_elem_of_dom. by intros ->. Qed.

Lemma step_worker_totals i x next r r' (o : list (run_output jvalue)) :
  step_worker i x next r = Some (r', o) -> no_totals (rs_metrics r) -> no_totals (rs_metrics r').
Proof.
  unfold step_worker. intros Hs Hn. destruct (rs_workers r !! i) as [[g w]|]; [|done].
  destruct (worker_step g w _) as [[w' o']|]; [|done]. injection Hs as <- <-.
  eapply no_totals_dom; [apply updates_dom|done].
Qed.

Section settings.
Context (rid st : string) (c : Config).
Notation run_step := (Run.run_step broker rid st c).

Definition run_of (r : RunState) : Prop :=
  exists a0 clock ins outs, no_totals a0 /\ run run_step (RunState_new a0 clock) ins = Some (r, outs).

(** It came to its report, which is [j]; the callbacks may have gone on. *)
Definition run_reported (r : RunState) (j : jvalue) : Prop :=
  exists a0 clock before r1 outs1 t stamp r2 after outs2, no_totals a0 /\
    run run_step (RunState_new a0 clock) before = Some (r1, outs1) /\ rs_stage r1 = RReport /\
    run_step r1 (t, ILoopStep stamp) = Some (r2, [OReport (POk j)]) /\
    run run_step r2 after = Some (r, outs2).

Lemma run_of_new a0 clock : no_totals a0 -> run_of (RunState_new a0 clock).
Proof. intros Ha. by exists a0, clock, [], []. Qed.

Lemma run_of_step r ti r' o : run_of r -> run_step r ti = Some (r', o) -> run_of r'.
Proof.
  intros (a0 & clock & ins & outs & Ha & Hr) Hs. exists a0, clock, (ins ++ [ti])%list, (outs ++ o)%list. split; [done|].
  rewrite run_app, Hr. cbn [run]. by rewrite Hs, app_nil_r.
Qed.

Lemma run_reported_step r j ti r' o : run_reported r j -> run_step r ti = Some (r', o) -> run_reported r' j.
Proof.
  intros (a0 & clock & before & r1 & outs1 & t & stamp & r2 & after & outs2 & Ha & Hb & Hst & H1 & H2) Hs.
  exists a0, clock, before, r1, outs1, t, stamp, r2, (after ++ [ti])%list, (outs2 ++ o)%list. split_and!; try done.
  rewrite run_app, H2. cbn [run]. by rewrite Hs, app_nil_r.
Qed.

Lemma run_reported_of r j : run_reported r j -> run_of r.
Proof.
  intros (a0 & clock & before & r1 & outs1 & t & stamp & r2 & after & outs2 & Ha & Hb & _ & H1 & H2).
  exists a0, clock, (before ++ (t, ILoopStep stamp) :: after)%list, (outs1 ++ [OReport (POk j)] ++ outs2)%list.
  split; [done|]. rewrite run_app, Hb. cbn [run]. by rewrite H1, H2.
Qed.

Lemma run_of_placed r : run_of r -> exists a0, run_placed broker rid c a0 r.
Proof.
  intros (a0 & clock & ins & outs & _ & Hr). exists a0. eapply run_placed_run; [apply run_placed_new|exact Hr].
Qed.

(** The stop request. *)
Lemma stop_request_step r :
  run_ended r = false -> run_step r (rs_clock r, IStopRequest) = Some (set_stop true r, []).
Proof. unfold Run.run_step. intros ->. by rewrite Z.ltb_irrefl. Qed.

Lemma set_stop_same r : set_stop (rs_stop_requested r) r = r.
Proof. by destruct r. Qed.

Lemma loop_step_run_step t stamp r r' o :
  run_ended r = false -> (t <? rs_clock r) = false ->
  Run.loop_step broker rid st c stamp (at_time t r) = Some (r', o) -> run_step r (t, ILoopStep stamp) = Some (r', o).
Proof. unfold Run.run_step. by intros -> ->. Qed.

Lemma worker_step_run_step t n x r r' o :
  run_ended r = false -> (t <? rs_clock r) = false -> owner_input x = false ->
  step_worker n x (fun _ => rs_stage r) (at_time t r) = Some (r', o) ->
  run_step r (t, IWorkerStep n x) = Some (r', o).
Proof. unfold Run.run_step. by intros -> -> ->. Qed.

(** The next program point. *)
Lemma loop_step_pc stamp r r' o :
  Run.loop_step broker rid st c stamp r = Some (r', o) ->
  match loop_pc_of (rs_stage r) with
  | LCreate => rs_stage r' = RReset
  | LMark => rs_stage r' = RMarkStart \/ rs_stage r' = RStarting 0
  | LStartWorkers => (exists i, rs_stage r' = RStarting i) \/ rs_stage r' = RTest
  | LTestStop => rs_stage r' = if rs_stop_requested r then RStopping 0 else RDuration
  | LTestDuration => rs_stage r' = RStopping 0 \/ exists since, rs_stage r' = RSleep since
  | LSleep => rs_stage r' = RTest
  | LStopWorkers => loop_pc_of (rs_stage r') = LStopWorkers \/ rs_stage r' = RReport
  | LReport => rs_stage r' = RDone /\ exists p, o = [OReport p]
  | _ => False
  end /\ (loop_pc_of (rs_stage r) <> LReport -> forall old, report_of o old = old /\ match o with [OReport _] => False | _ => True end).
Proof.
  unfold Run.loop_step. intros Hs.
  assert (forall i x next, step_worker i x next r = Some (r', o) -> (exists w, rs_stage r' = next w) /\
    forall old, report_of o old = old /\ match o with [OReport _] => False | _ => True end) as Hw.
  { unfold step_worker. intros i x next Hsw. destruct (rs_workers r !! i) as [[g w]|]; [|done].
    destruct (worker_step g w _) as [[w' o']|]; [|done]. injection Hsw as <- <-. split; [by exists w'|].
    intros old. by destruct o' as [|? []]. }
  assert (forall r1, Some (r1, []) = Some (r', o) ->
    rs_stage r' = rs_stage r1 /\ forall old : option jvalue, report_of o old = old /\
      match o with [OReport _] => False | _ => True end) as Hq by (by intros r1 [= <- <-]).
  destruct (rs_stage r) as [| | |i| | |since|i|i b| | |] eqn:Est; cbn [loop_pc_of].
  - destruct (CreateWorkers broker rid c (rs_metrics r)). apply Hq in Hs as [-> Ho]. split; [done|intros _; exact Ho].
  - apply Hq in Hs as [-> Ho]. split; [by left|intros _; exact Ho].
  - apply Hq in Hs as [-> Ho]. split; [by right|intros _; exact Ho].
  - destruct (rs_workers r !! i) as [[g w]|].
    + apply Hw in Hs as [[w' ->] Ho]. split; [left; destruct (is_started w'); eauto|by auto].
    + apply Hq in Hs as [-> Ho]. split; [by right|intros _; exact Ho].
  - apply Hq in Hs as [-> Ho]. split; [by destruct (rs_stop_requested r)|intros _; exact Ho].
  - apply Hq in Hs as [-> Ho]. split; [destruct (_ <=? _); [by left|right; by eexists]|intros _; exact Ho].
  - destruct (_ <=? rs_clock r); [|done]. apply Hq in Hs as [-> Ho]. split; [done|intros _; exact Ho].
  - destruct (rs_workers r !! i) as [[g w]|].
    + apply Hw in Hs as [[w' ->] Ho]. split; [left; by destruct (is_stopped w')|by auto].
    + apply Hq in Hs as [-> Ho]. split; [by left|intros _; exact Ho].
  - destruct (rs_workers r !! i) as [[g w]|].
    + destruct b; apply Hw in Hs as [[w' ->] Ho]; (split; [by left|by auto]).
    + apply Hq in Hs as [-> Ho]. split; [by left|intros _; exact Ho].
  - apply Hq in Hs as [-> Ho]. split; [by right|intros _; exact Ho].
  - injection Hs as <- <-. split; [split; [done|by eexists]|done].
  - done.
Qed.

Lemma loop_step_totals stamp r r' o :
  Run.loop_step broker rid st c stamp r = Some (r', o) -> no_totals (rs_metrics r) -> no_totals (rs_metrics r').
Proof.
  unfold Run.loop_step. intros Hs Hn.
  assert (forall i x next, step_worker i x next r = Some (r', o) -> no_totals (rs_metrics r')) as Hw.
  { intros i x next Hsw. by eapply step_worker_totals. }
  destruct (rs_stage r) as [| | |i| | |since|i|i b| | |] eqn:Est; try done;
    try (injection Hs as <- <-; by repeat case_match);
    try (destruct (rs_workers r !! i) as [[g w]|]; [by repeat case_match; apply Hw in Hs|by injection Hs as <- <-]).
  - pose proof (planned_totals broker rid c _ Hn) as Hp. unfold planned_metrics in Hp.
    destruct (CreateWorkers broker rid c (rs_metrics r)). by injection Hs as <- <-.
  - injection Hs as <- <-. eapply no_totals_dom; [|exact Hn]. apply dom_fmap_L.
  - case_match; [|done]. by injection Hs as <- <-.
Qed.

End settings.

(** ** What an exception leaves, and its clearing *)

Definition workers_are (P : nat -> owner_stage -> Prop) (r : RunState) : Prop :=
  forall j g w, rs_workers r !! j = Some (g, w) ->
    P j (w_owner w) /\ WorkerStop.life_inv g w /\ w_clock w <= rs_clock r.

Definition untouched (o : owner_stage) : Prop := match o with WNew | WSecond _ | WStarted | WStopped => True | _ => False end.

Definition left_over (r : RunState) : Prop :=
  workers_are (fun _ o => match rs_stage r with RReport | RDone => o = WDestroyed | _ => untouched o end) r.

(** Those before the i-th are destroyed, the i-th is being stopped. *)
Definition clearing_order (i : nat) (stopped : bool) (j : nat) (o : owner_stage) : Prop :=
  if (j <? i)%nat then o = WDestroyed
  else if (j =? i)%nat then
    if stopped then o = WStopped else match o with WDestroyed => False | _ => True end
  else untouched o.

Definition clearing_at (i : nat) (stopped : bool) (r : RunState) : Prop :=
  rs_stage r = RDestroying i stopped /\ (stopped = true -> (i < length (rs_workers r))%nat) /\
  workers_are (clearing_order i stopped) r.

Lemma workers_are_mono (P Q : nat -> owner_stage -> Prop) r r' :
  rs_workers r' = rs_workers r -> rs_clock r <= rs_clock r' ->
  (forall j o, is_Some (rs_workers r !! j) -> P j o -> Q j o) -> workers_are P r -> workers_are Q r'.
Proof.
  intros Hw Hc HPQ Hp j g w Hj. rewrite Hw in Hj. destruct (Hp j g w Hj) as (Ho & Hl & Ht).
  split; [apply HPQ; [by rewrite Hj|done]|]. split; [done|lia].
Qed.

(** A step of one worker. *)
Lemma workers_are_step (P Q : nat -> owner_stage -> Prop) i x next r r' o :
  workers_are P r -> step_worker i x next r = Some (r', o) ->
  (forall g w w' o', rs_workers r !! i = Some (g, w) -> worker_step g w (rs_clock r, x) = Some (w', o') ->
     rs_stage r' = next w' -> P i (w_owner w) -> Q i (w_owner w')) ->
  (forall j o', j <> i -> P j o' -> Q j o') -> workers_are Q r'.
Proof.
  unfold step_worker. intros Hp Hs Hi Hj. destruct (rs_workers r !! i) as [[g w]|] eqn:Hg; [|done].
  destruct (worker_step g w (rs_clock r, x)) as [[w' o']|] eqn:Hw; [|done]. injection Hs as <- <-.
  intros j g' v. cbn [rs_workers rs_clock]. destruct (decide (j = i)) as [->|Hne].
  - rewrite list_lookup_insert_eq by (by eapply lookup_lt_Some). intros [= <- <-].
    destruct (Hp i g w Hg) as (Ho & Hl & _). split; [by eapply Hi|]. split; [by eapply life_inv_step|].
    rewrite (worker_step_clock _ _ _ _ _ _ Hw). lia.
  - rewrite list_lookup_insert_ne by done. intros Hv. destruct (Hp j g' v Hv) as (Ho & Hl & Hc). split; [by apply Hj|done].
Qed.

Lemma workers_are_thread P i x r r' o :
  workers_are P r -> owner_input x = false -> step_worker i x (fun _ => rs_stage r) r = Some (r', o) -> workers_are P r'.
Proof.
  intros Hp Hx Hs. eapply workers_are_step; [exact Hp|exact Hs| |done].
  intros g w w' o' _ Hw _. by rewrite (thread_step_owner _ _ _ _ _ _ Hx Hw).
Qed.

Lemma left_over_begin r : left_over r -> no_totals (rs_metrics r) -> forall rid st c,
  (rs_stage (begin_run r) = RCreate /\ run_of rid st c (begin_run r)) \/ clearing_at 0 false (begin_run r).
Proof.
  intros Hl Hn rid st c. unfold begin_run. destruct (rs_stage r) eqn:Est.
  all: try (right; split; [done|]; split; [done|]; eapply workers_are_mono; [| | |exact Hl]; [done|cbn; lia|];
    rewrite Est; intros [|j] ow _; unfold clearing_order; cbn; by destruct ow).
  all: left; split; [done|]; pose proof (run_of_new rid st c _ (rs_clock r) Hn) as Hr; destruct (rs_stop_requested r);
    [exact (run_of_step _ _ _ _ _ _ _ Hr (stop_request_step _ _ _ (RunState_new _ _) eq_refl))|exact Hr].
Qed.

Lemma stop_left_owner g w t w' o :
  untouched (w_owner w) -> worker_step g w (t, stop_input w) = Some (w', o) ->
  w_owner w' = WClose \/ w_owner w' = WJoin1.
Proof.
  unfold worker_step, stop_input. intros Hu Hs. destruct (t <? w_clock w); [done|].
  destruct (w_owner w) eqn:E; try done; unfold owner_worker_step, stop_step in Hs; cbn in Hs; rewrite E in Hs;
    step_cases Hs; auto.
Qed.

(** The steps of [workers_.clear()] that are left. *)
Definition clear_left (r : RunState) (i : nat) (stopped : bool) : nat :=
  (4 * (length (rs_workers r) - i) + 1 -
   if stopped then 3
   else match rs_workers r !! i with
        | Some (_, w) => match w_owner w with WClose | WJoin1 => 1 | WJoin2 => 2 | _ => 0 end
        | None => 0
        end)%nat.

Lemma clearing_step rid st c stamp i b r r' o :
  clearing_at i b r -> Run.loop_step broker rid st c stamp r = Some (r', o) ->
  (rs_stage r' = RMarkStop /\ workers_are (fun _ o => o = WDestroyed) r /\ (1 <= clear_left r i b)%nat) \/
  exists i' b', clearing_at i' b' r' /\ (clear_left r' i' b' < clear_left r i b)%nat.
Proof.
  intros (Est & Hb & Hp) Hs. unfold Run.loop_step in Hs. rewrite Est in Hs.
  destruct (rs_workers r !! i) as [[g w]|] eqn:Hg.
  2: { left. injection Hs as <- _. apply lookup_ge_None in Hg as Hge. split; [done|]. split.
    - eapply workers_are_mono; [| | |exact Hp]; [done|cbn; lia|]. intros j ow [? Hj%lookup_lt_Some].
      unfold clearing_order. by compare_index.
    - unfold clear_left. rewrite Hg. destruct b; [specialize (Hb eq_refl); lia|lia]. }
  right. pose proof (lookup_lt_Some _ _ _ Hg) as Hlt. destruct (Hp i g w Hg) as (Ho & _ & _).
  unfold clearing_order in Ho. rewrite Nat.ltb_irrefl, Nat.eqb_refl in Ho.
  assert (forall x next, step_worker i x next r = Some (r', o) -> exists w' o', worker_step g w (rs_clock r, x) = Some (w', o') /\
    rs_stage r' = next w' /\ rs_workers r' = <[i := (g, w')]> (rs_workers r)) as Hstep.
  { intros x next (_ & _ & g1 & w1 & w' & o' & Hg1 & Hw & Hi & Hn)%step_worker_kept. rewrite Hg in Hg1.
    injection Hg1 as <- <-. by exists w', o'. }
  destruct b.
  - pose proof Hs as (w' & o' & Hw & Hn & Hi)%Hstep. exists (S i), false. split; [split; [done|split; [done|]]|].
    + eapply workers_are_step; [exact Hp|exact Hs|..].
      * intros ? ? w2 o2 _ Hw2%destroy_step_owner _ _. unfold clearing_order. by compare_index.
      * intros j ow Hne. unfold clearing_order. compare_index; done || by destruct ow.
    + unfold clear_left. rewrite Hi, length_insert, list_lookup_insert_ne by lia. lia.
  - pose proof Hs as (w' & o' & Hw & Hn & Hi)%Hstep. exists i, (is_stopped w').
    assert (match w_owner w with WClose | WJoin1 => w_owner w' = WJoin2 | WJoin2 => w_owner w' = WStopped
            | _ => w_owner w' = WClose \/ w_owner w' = WJoin1 end) as Hown.
    { pose proof (stop_step_owner _ _ _ _ _ Hw) as Hst. destruct (w_owner w) eqn:E; try done;
      apply (stop_left_owner _ _ _ _ _) in Hw; rewrite ?E; done. }
    split; [split; [done|split]|].
    + intros _. by rewrite Hi, length_insert.
    + eapply workers_are_step; [exact Hp|exact Hs|..].
      * intros g1 w1 w2 o2 Hg1 Hw2 Hn2 _. rewrite Hg in Hg1. injection Hg1 as <- <-. rewrite Hw in Hw2. injection Hw2 as <- <-.
        unfold clearing_order, is_stopped. compare_index. by destruct (w_owner w); try done; try destruct Hown as [Hown|Hown]; rewrite Hown.
      * intros j ow Hne. unfold clearing_order. compare_index; done.
    + unfold clear_left, is_stopped. rewrite Hi, length_insert, list_lookup_insert_eq, Hg by done.
      destruct (w_owner w); try done; try destruct Hown as [Hown|Hown]; rewrite Hown; lia.
Qed.

(** ** The invariant of the serial runs *)

Notation the_run_of s := (run_of (e_run_id (el_engine s)) (el_started_at s) (el_config s)).
Notation the_run_reported s := (run_reported (e_run_id (el_engine s)) (el_started_at s) (el_config s)).

Definition life_at_pc (p : loop_pc) (x : run_stage) : Prop :=
  match p with LSetRunning => x = RStarting 0 | _ => loop_pc_of x = p end.

(** The report of the last run that came to its end. *)
Definition life_reported (s : EngineLife) : Prop :=
  exists j, el_report s = Some j /\ the_run_reported s (el_run s) j.

Definition life_placed (s : EngineLife) : Prop :=
  let e := el_engine s in
  let r := el_run s in
  match e_thread e with
  | None | Some LReturned =>
      left_over r /\ (e_state e = kStateStopped -> life_reported s) /\ (e_state e = kStateIdle -> rs_workers r = [])
  | Some LCreate => (rs_stage r = RCreate /\ the_run_of s r) \/ exists i b, clearing_at i b r
  | Some LCatch => left_over r
  | Some LSetStopped => life_reported s
  | Some p => the_run_of s r /\ life_at_pc p (rs_stage r)
  end.

Record life_ok (s : EngineLife) : Prop := {
  ok_engine : engine_inv (el_engine s);
  ok_destroyed : destroyed_inv (el_engine s);
  ok_flag : rs_stop_requested (el_run s) = e_stop_requested (el_engine s);
  ok_totals : no_totals (rs_metrics (el_run s));
  ok_placed : life_placed s
}.

Lemma run_of_left_over rid st c r :
  run_of rid st c r -> rs_stage r = RCreate \/ rs_stage r = RReport \/ rs_stage r = RDone -> left_over r.
Proof.
  intros (a0 & Hp & Hs)%run_of_placed Hm j g w Hj. destruct (Hp j g w Hj) as (Ho & Hl & Hc). split; [|done].
  destruct Hm as [E|[E|E]]; rewrite E in Ho, Hs |- *; cbn [owner_expected] in Ho; by destruct (w_owner w).
Qed.

(** A thread of the i-th worker cannot be made. *)
Lemma fails_owner g w t w' o :
  worker_step g w (t, IThreadFails) = Some (w', o) ->
  match w_owner w with
  | WNew | WSecond _ => w_owner w' = w_owner w | WJoin2 => w_owner w' = WStopped | _ => False
  end.
Proof.
  unfold worker_step. destruct (t <? w_clock w); [done|]. intros Hs. unfold owner_worker_step in Hs.
  destruct (w_owner w) eqn:E; cbn in Hs; rewrite E in Hs; try done; unfold leak_step in Hs; step_cases Hs; cbn; congruence.
Qed.

Lemma fatal_owner g w t w' o : worker_step g w (t, IThreadFatal) = Some (w', o) -> w_owner w' = WStopped.
Proof.
  unfold worker_step. destruct (t <? w_clock w); [done|]. intros Hs. unfold owner_worker_step in Hs.
  destruct (w_owner w) eqn:E; cbn in Hs; rewrite E in Hs; try done; unfold leak_step in Hs; step_cases Hs; done.
Qed.

Lemma threw_left_over rid st c r t i r' o :
  run_of rid st c r -> (t <? rs_clock r) = false -> rs_stage r = RStarting i \/ rs_stage r = RStopping i ->
  step_worker i IThreadFails (fun _ => rs_stage r) (at_time t r) = Some (r', o) -> left_over r'.
Proof.
  intros (a0 & Hp & _)%run_of_placed Ht%Z.ltb_ge Hst Hs.
  assert (workers_are (fun j ow => owner_expected (rs_stage r) j ow = true) (at_time t r)) as Ha.
  { intros j g w Hj. destruct (Hp j g w Hj) as (Ho & Hl & Hc). cbn. split_and!; [done|done|lia]. }
  pose proof Hs as (_ & _ & ? & ? & ? & ? & _ & _ & _ & Hn)%step_worker_kept. unfold left_over. rewrite Hn.
  eapply workers_are_step; [exact Ha|exact Hs|..].
  - intros g w w' o' _ Hw%fails_owner _ He.
    destruct Hst as [E|E]; rewrite E in He |- *; cbn [owner_expected] in He; compare_index;
      destruct (w_owner w); try done; by rewrite Hw.
  - intros j ow Hne. destruct Hst as [E|E]; rewrite E; cbn [owner_expected]; compare_index; by destruct ow.
Qed.

Lemma the_run_set_stop (s : EngineLife) b :
  run_ended (el_run s) = false -> b = rs_stop_requested (el_run s) \/ b = true ->
  (forall r, the_run_of s (el_run s) -> r = set_stop b (el_run s) -> the_run_of s r) /\
  (forall r j, the_run_reported s (el_run s) j -> r = set_stop b (el_run s) -> the_run_reported s r j).
Proof.
  intros Hne [->| ->]; (split; [intros r Hr ->|intros r j Hr ->]); rewrite ?set_stop_same; try done.
  - exact (run_of_step _ _ _ _ _ _ _ Hr (stop_request_step _ _ _ _ Hne)).
  - exact (run_reported_step _ _ _ _ _ _ _ _ Hr (stop_request_step _ _ _ _ Hne)).
Qed.

(** A step of the control that is not one of the run thread. *)
Lemma placed_control (s : EngineLife) e :
  life_placed s -> run_ended (el_run s) = false ->
  rs_stop_requested (el_run s) = e_stop_requested (el_engine s) -> e_run_id e = e_run_id (el_engine s) ->
  e_stop_requested e = e_stop_requested (el_engine s) \/ e_stop_requested e = true ->
  e_thread e = e_thread (el_engine s) \/ e_thread (el_engine s) = Some LReturned /\ e_thread e = None ->
  e_state e = e_state (el_engine s) \/ may_start (e_state e) = false ->
  life_placed (with_engine e s).
Proof.
  intros Hp Hne Hf Hid Hb Ht Hs. rewrite <- Hf in Hb. destruct (the_run_set_stop s _ Hne Hb) as [Hrun Hrep].
  assert (life_reported s -> life_reported (with_engine e s)) as Hreported.
  { intros (j & Hj & Hr). exists j. split; [done|]. cbn. rewrite Hid. by eapply Hrep. }
  assert (the_run_of s (el_run s) -> the_run_of (with_engine e s) (el_run (with_engine e s))) as Hof.
  { intros Hr. cbn. rewrite Hid. by eapply Hrun. }
  unfold life_placed in *. cbn [with_engine el_engine el_run] in *.
  assert (left_over (el_run s) /\ (e_state (el_engine s) = kStateStopped -> life_reported s) /\
    (e_state (el_engine s) = kStateIdle -> rs_workers (el_run s) = []) ->
    left_over (set_stop (e_stop_requested e) (el_run s)) /\ (e_state e = kStateStopped -> life_reported (with_engine e s)) /\
    (e_state e = kStateIdle -> rs_workers (set_stop (e_stop_requested e) (el_run s)) = [])) as Hrest.
  { intros (Hl & Hst & Hi). split; [exact Hl|]. destruct Hs as [->|Hs]; [by auto|].
    split; intros E; by rewrite E in Hs. }
  destruct Ht as [->|[Ht ->]]; [|rewrite Ht in Hp; by apply Hrest].
  destruct (e_thread (el_engine s)) as [[]|]; try (by apply Hrest); try (destruct Hp as [Hr Hpc]; by auto); try by auto.
  destruct Hp as [[Hst Hr]|Hc]; [left; auto|right; exact Hc].
Qed.

(** What the calls other than [StartRun] do to the control. *)
Lemma engine_frame e i e' o :
  engine_step e i = Some (e', o) -> match i with IStart _ _ | IStartFails _ | ILoop _ => False | _ => True end ->
  e_run_id e' = e_run_id e /\ (e_stop_requested e' = e_stop_requested e \/ e_stop_requested e' = true) /\
  (e_thread e' = e_thread e \/ e_thread e = Some LReturned /\ e_thread e' = None) /\
  (e_state e' = e_state e \/ may_start (e_state e') = false).
Proof.
  unfold engine_step, StartRun_check, StopRun_check, StopRun_flag, Engine_destroy. intros Hs Hi.
  destruct (e_life e), i; try done; repeat (case_match; simplify_eq/=);
    try (injection Hs as <- <-); split_and!; cbn; auto; by right.
Qed.

Lemma engine_kept s i s' o :
  life_ok s -> life_serial_step s i = Some (s', o) -> engine_inv (el_engine s') /\ destroyed_inv (el_engine s').
Proof.
  intros Hok Hs. destruct (life_serial_stepped _ _ _ _ Hs) as [[-> _]|[j Hj]]; [by destruct Hok|].
  split; [eapply engine_inv_serial; [apply Hok|exact Hj]|].
  eapply destroyed_inv_step; [apply (ok_destroyed _ Hok)|by apply serial_step_step].
Qed.

(** What is left to prove of a step. *)
Definition run_kept (s : EngineLife) : Prop :=
  rs_stop_requested (el_run s) = e_stop_requested (el_engine s) /\ no_totals (rs_metrics (el_run s)) /\ life_placed s.

Lemma control_kept s i s' o :
  life_ok s -> run_ended (el_run s) = false -> control_step i s = Some (s', o) ->
  match i with IStart _ _ | IStartFails _ | ILoop _ => False | _ => True end -> run_kept s'.
Proof.
  unfold control_step. intros Hok Hne Hs Hi. destruct (engine_step (el_engine s) i) as [[e o1]|] eqn:He; [|done].
  injection Hs as <- <-. destruct (engine_frame _ _ _ _ He Hi) as (Hid & Hb & Ht & Hst).
  split_and!; [done|apply Hok|]. apply placed_control; try done; apply Hok.
Qed.

Lemma start_kept s n config fresh now s' o :
  life_ok s -> run_ended (el_run s) = false -> start_call n config fresh now s = Some (s', o) -> run_kept s'.
Proof.
  unfold start_call, control_step. intros Hok Hne Hs. set (rid := if str_empty _ then _ else _) in *.
  destruct (engine_step (el_engine s) (IStart n rid)) as [[e o1]|] eqn:He; [|done]. injection Hs as <- <-.
  assert (StartRun_step n rid (el_engine s) = Some (e, o1)) as Hst.
  { unfold engine_step in He. by destruct (e_life (el_engine s)). }
  pose proof (ok_placed s Hok) as Hp. pose proof (placed_control s e Hp Hne (ok_flag s Hok)) as Hctl.
  unfold StartRun_step in Hst. destruct (e_starts (el_engine s) !! n) as [p|] eqn:En; [|done].
  destruct (engine_start_only _ _ _ (ok_engine s Hok) En) as [-> Hes]. pose proof (ok_engine s Hok) as [_ Hi].
  rewrite Hes in Hi. destruct p.
  - injection Hst as <- <-. split_and!; [done|apply Hok|]. apply Hctl; auto.
  - injection Hst as <- <-. destruct Hi as (_ & Hl & Hm).
    split_and!; [done|apply Hok|]. unfold life_placed in *. cbn [el_engine el_run with_engine e_thread e_state].
    unfold loop_live in Hl. destruct (e_thread (el_engine s)) as [[]|]; try done;
      (destruct Hp as (Hl0 & _); split; [exact Hl0|]; split; intros E; by rewrite E in Hm).
  - destruct Hi as (_ & Hl & Hm). unfold loop_live in Hl.
    destruct (e_thread (el_engine s)) as [[]|] eqn:Et; try done; injection Hst as <- <-;
      (split_and!; [done|apply Hok|apply Hctl; cbn; auto]).
  - destruct Hi as (_ & Et & Hm). rewrite Et in Hst |- *. injection Hst as <- <-.
    assert (left_over (el_run s) /\ no_totals (rs_metrics (el_run s))) as [Hl Hn].
    { split; [|apply Hok]. unfold life_placed in Hp. rewrite Et in Hp. apply Hp. }
    unfold run_kept. cbn [retire with_engine el_run el_engine with_loop with_starts e_stop_requested].
    rewrite <- (ok_flag s Hok), set_stop_same. split_and!.
    + unfold begin_run. by destruct (rs_stage (el_run s)).
    + unfold begin_run. by destruct (rs_stage (el_run s)).
    + unfold life_placed. cbn [retire with_engine el_run el_engine with_loop with_starts e_thread e_run_id el_started_at el_config].
      destruct (left_over_begin _ Hl Hn (e_run_id (el_engine s)) (el_started_at s) (el_config s)) as [[H1 H2]|Hc];
        [by left|right; by exists 0%nat, false].
Qed.

Lemma worker_kept s t n x s' o :
  life_ok s -> run_ended (el_run s) = false -> live_step s (EWorker t n x) = Some (s', o) -> run_kept s'.
Proof.
  cbn [live_step]. unfold worker_call. intros Hok Hne Hs. destruct (Z.ltb_spec t (rs_clock (el_run s))) as [|Ht]; [done|].
  destruct (owner_input x) eqn:Hx; [done|]. destruct (members_gone s); [done|]. cbn [orb] in Hs.
  destruct (step_worker _ _ _ _) as [[r o1]|] eqn:Hw; [|done]. injection Hs as <- <-.
  pose proof Hw as (_ & Hf & g & w & w' & o' & Hg & Hst & Hi & Hn)%step_worker_kept.
  assert (forall P, workers_are P (el_run s) -> workers_are P r) as Hall.
  { intros P HP. apply (workers_are_thread P n x (at_time t (el_run s)) r o1); [|done|exact Hw].
    eapply workers_are_mono; [| | |exact HP]; [done|cbn; lia|done]. }
  pose proof (Hrun := fun rid st c => worker_step_run_step rid st c t n x (el_run s) r o1 Hne
    (proj2 (Z.ltb_ge _ _) Ht) Hx Hw).
  split_and!; cbn [with_run el_run el_engine].
  - rewrite Hf. apply Hok.
  - eapply step_worker_totals; [exact Hw|apply Hok].
  - pose proof (ok_placed s Hok) as Hp. unfold life_placed in *. cbn [with_run el_engine el_run].
    assert (life_reported s -> life_reported (with_run r s)) as Hrep.
    { intros (j & Hj & Hr). exists j. split; [done|]. by eapply run_reported_step. }
    assert (the_run_of s (el_run s) -> the_run_of (with_run r s) r) as Hof by (intros Hr; by eapply run_of_step).
    cbn [at_time rs_stage] in Hn.
    assert (left_over (el_run s) -> left_over r) as Hleft by (unfold left_over; rewrite Hn; apply Hall).
    destruct (e_thread (el_engine s)) as [[]|]; try (destruct Hp as [Hr Hpc]; rewrite Hn; by auto); try by auto.
    + destruct Hp as [[Hs0 Hr]|(i & b & Hc & Hb & Ha)]; [left; rewrite Hn; auto|right].
      exists i, b. split; [by rewrite Hn|]. split; [|by apply Hall]. rewrite Hi, length_insert. exact Hb.
    + destruct Hp as (Hl & Hr & He). split; [auto|]. split; [auto|]. intros E%He. cbn in Hg. by rewrite E in Hg.
    + destruct Hp as (Hl & Hr & He). split; [auto|]. split; [auto|]. intros E%He. cbn in Hg. by rewrite E in Hg.
Qed.

(** A step of the control that is one of the run thread: [r] is where the
    run is, [s] the rest. *)
Lemma loop_control s ok s' o :
  control_step (ILoop ok) s = Some (s', o) ->
  exists e, RunLoop_step ok (el_engine s) = Some e /\ s' = with_engine e s /\
    e_run_id e = e_run_id (el_engine s) /\ e_stop_requested e = e_stop_requested (el_engine s).
Proof.
  unfold control_step, engine_step. intros Hs.
  assert (exists e, RunLoop_step ok (el_engine s) = Some e /\ s' = with_engine e s) as (e & He & ->).
  { destruct (e_life (el_engine s)), (RunLoop_step ok (el_engine s)) as [e|]; try done; injection Hs as <- _; by exists e. }
  exists e. split; [done|]. split; [done|]. unfold RunLoop_step in He.
  destruct (e_thread (el_engine s)) as [[]|]; simplify_eq/=; try done; by case_match; simplify_eq/=.
Qed.

(** The run thread goes on in a run. *)
Lemma run_step_kept s t stamp r o :
  life_ok s -> run_ended (el_run s) = false -> (t <? rs_clock (el_run s)) = false ->
  life_loop_step t stamp s = Some (r, o) ->
  rs_stop_requested r = e_stop_requested (el_engine s) /\ no_totals (rs_metrics r) /\
  (the_run_of s (el_run s) -> the_run_of s r).
Proof.
  unfold life_loop_step. intros Hok Hne Ht Hl. split; [|split].
  - pose proof (loop_step_workers _ _ _ _ _ _ _ _ Hl) as (Hf & _). rewrite Hf. apply Hok.
  - eapply loop_step_totals; [exact Hl|]. apply Hok.
  - intros Hr. eapply run_of_step; [exact Hr|]. by apply loop_step_run_step.
Qed.

Lemma clearing_kept s t stamp r o i b :
  life_ok s -> run_ended (el_run s) = false -> e_thread (el_engine s) = Some LCreate ->
  (t <? rs_clock (el_run s)) = false -> clearing_at i b (el_run s) -> life_loop_step t stamp s = Some (r, o) ->
  run_kept (retire (cleared r) s).
Proof.
  intros Hok Hne Et Ht Hc Hl. destruct (run_step_kept _ _ _ _ _ Hok Hne Ht Hl) as (Hf & Hn & _).
  assert (clearing_at i b (at_time t (el_run s))) as Hct.
  { destruct Hc as (Hst & Hb & Ha). split; [done|]. split; [done|]. eapply workers_are_mono; [| | |exact Ha]; [done| |done].
    apply Z.ltb_ge in Ht. cbn. lia. }
  destruct (clearing_step _ _ _ _ _ _ _ _ _ Hct Hl) as [(Hst & _ & _)|(i' & b' & Hc' & _)].
  - unfold cleared. rewrite Hst. split_and!; [by cbn|done|]. unfold life_placed. cbn [retire el_engine el_run]. rewrite Et.
    left. split; [done|]. pose proof (run_of_new (e_run_id (el_engine s)) (el_started_at s) (el_config s) _ (rs_clock r) Hn) as Hr.
    destruct (rs_stop_requested r); [exact (run_of_step _ _ _ _ _ _ _ Hr (stop_request_step _ _ _ (RunState_new _ _) eq_refl))|exact Hr].
  - assert (cleared r = r) as -> by (unfold cleared; by rewrite (proj1 Hc')).
    split_and!; [done|done|]. unfold life_placed. cbn [retire el_engine el_run]. rewrite Et. right. by exists i', b'.
Qed.

Notation at_run s r rep := (mkEngineLife jvalue (el_engine s) (el_config s) (el_started_at s) r (el_past s) rep).

(** After a step of the control nothing but the program point has moved. *)
Lemma moved_kept (s : EngineLife) e r rep :
  rs_stop_requested r = e_stop_requested e -> no_totals (rs_metrics r) ->
  life_placed (mkEngineLife jvalue e (el_config s) (el_started_at s) r (el_past s) rep) -> run_kept (with_engine e (at_run s r rep)).
Proof.
  intros Hf Hn Hp. unfold run_kept, with_engine. cbn [el_engine el_run el_config el_started_at el_report].
  rewrite <- Hf, set_stop_same. by split_and!.
Qed.

Lemma run_reported_done rid st c r j : run_reported rid st c r j -> rs_stage r = RDone.
Proof.
  intros (a0 & clock & before & r1 & outs1 & t & stamp & r2 & after & outs2 & _ & _ & Hst & H1 & H2).
  assert (rs_stage r2 = RDone) as Hd.
  { unfold Run.run_step in H1. destruct (run_ended r1 || (t <? rs_clock r1)); [done|].
    apply loop_step_pc in H1 as [H1 _]. cbn [at_time rs_stage] in H1. rewrite Hst in H1. apply H1. }
  revert H2. revert after r outs2. apply (run_ind _ r2 (fun r _ _ => rs_stage r = RDone)); [done|].
  intros r3 ins outs [t3 i] r4 o _ H3 H4. unfold Run.run_step in H4. destruct (run_ended r3 || (t3 <? rs_clock r3)); [done|].
  destruct i as [stamp3| |n x].
  - unfold Run.loop_step in H4. cbn [at_time rs_stage] in H4. by rewrite H3 in H4.
  - injection H4 as <- _. done.
  - destruct (owner_input x); [done|]. by apply step_worker_kept in H4 as (_ & _ & ? & ? & ? & ? & _ & _ & _ & ->).
Qed.

(** The steps of the control alone. *)
Lemma control_only_kept s s' o :
  life_ok s -> match e_thread (el_engine s) with Some (LSetRunning | LSetStopped | LCatch) => True | _ => False end ->
  control_step (ILoop true) s = Some (s', o) -> run_kept s'.
Proof.
  intros Hok Ht Hs. pose proof (ok_placed s Hok) as Hp. destruct (loop_control _ _ _ _ Hs) as (e & He & -> & Hid & Hb).
  destruct s as [e0 c st r past rep]. apply moved_kept; [by rewrite Hb; apply Hok|apply Hok|].
  unfold life_placed, life_reported, RunLoop_step in *. cbn [el_engine el_run el_config el_started_at el_report] in *.
  rewrite Hid. destruct (e_thread e0) as [[]|]; try done; injection He as <-; cbn.
  - destruct Hp as [Hr Hst]. cbn in Hst. by rewrite Hst.
  - split; [|split; [by intros _|done]]. destruct Hp as (j & _ & Hr). eapply run_of_left_over.
    + by eapply run_reported_of.
    + right; right. by eapply run_reported_done.
  - by split; [|split].
Qed.

Lemma placed_run_of s p :
  life_placed s -> e_thread (el_engine s) = Some p -> with_workers p = true ->
  (the_run_of s (el_run s) /\ loop_pc_of (rs_stage (el_run s)) = p) \/ p = LCreate /\ exists i b, clearing_at i b (el_run s).
Proof.
  unfold life_placed. intros Hp Ht Hw. rewrite Ht in Hp. destruct p; try done; try (by left).
  destruct Hp as [[Hst Hr]|Hc]; [left; by rewrite Hst|by right].
Qed.

(** The destructor of a worker that an exception had left throws. *)
Lemma fatal_kept s t p i r o :
  life_ok s -> e_thread (el_engine s) = Some p -> with_workers p = true -> clearing p (el_run s) = true ->
  rs_stage (el_run s) = RDestroying i false -> (t <? rs_clock (el_run s)) = false ->
  step_worker i IThreadFatal (fun _ => RDestroying i true) (at_time t (el_run s)) = Some (r, o) ->
  run_kept (with_run r s).
Proof.
  intros Hok Ht Hw Hcl Est Hclk Hs. pose proof (ok_placed s Hok) as Hp.
  assert (p = LCreate) as -> by (by destruct p; cbn in Hcl). apply Z.ltb_ge in Hclk.
  unfold life_placed in Hp. rewrite Ht in Hp. destruct Hp as [[E _]|(j & b & E & _ & Hc)]; [congruence|].
  rewrite Est in E. injection E as <- <-.
  pose proof Hs as (_ & Hf & g & w & w' & o' & Hg & Hst & Hi & Hn)%step_worker_kept.
  split_and!; cbn [with_run el_run el_engine]; [rewrite Hf; apply Hok|eapply step_worker_totals; [exact Hs|apply Hok]|].
  unfold life_placed. cbn [with_run el_run el_engine]. rewrite Ht. right. exists i, true. split; [done|]. split.
  { intros _. rewrite Hi, length_insert. by eapply lookup_lt_Some. }
  eapply (workers_are_step (clearing_order i false) _ i _ _ (at_time t (el_run s)));
    [eapply workers_are_mono; [| | |exact Hc]; [done|done|by intros ? ? _]|exact Hs|..].
  - intros g1 w1 w2 o2 _ Hw2%fatal_owner _ _. unfold clearing_order. by compare_index.
  - intros k ow Hne. unfold clearing_order. by compare_index.
Qed.

Lemma threw_kept s t p s' o :
  life_ok s -> e_thread (el_engine s) = Some p -> with_workers p = true -> run_ended (el_run s) = false ->
  (t <? rs_clock (el_run s)) = false -> throw_step t p s = Some (s', o) -> run_kept s'.
Proof.
  intros Hok Ht Hw Hne Hclk [(r & Hcase & o2 & Hs & _)|(i & r & o1 & Hcl & Est & Hs & -> & _)]%throw_cases.
  2: { by eapply fatal_kept. }
  destruct (placed_run_of _ _ (ok_placed s Hok) Ht Hw) as [[Hr Hpc]|(_ & i & b & Hc & _)].
  2: { exfalso. destruct Hcase as [(-> & [E|E])|(j & o1 & [E|E] & _)]; congruence. }
  assert (rs_stop_requested r = e_stop_requested (el_engine s) /\ no_totals (rs_metrics r) /\ left_over r /\
    match rs_stage (el_run s) with RCreate | RReport | RStarting _ | RStopping _ => True | _ => False end)
    as (Hf & Hn & Hl & Hst).
  { destruct Hcase as [(-> & Hst)|(i & o1 & Hst & Hsw)].
    - split_and!; [apply Hok|apply Hok|eapply run_of_left_over; [exact Hr|tauto]|by destruct Hst as [-> | ->]].
    - pose proof Hsw as (_ & Hf & _)%step_worker_kept. rewrite Hf. split_and!; [apply Hok| | |by destruct Hst as [-> | ->]].
      + eapply step_worker_totals; [exact Hsw|apply Hok].
      + by eapply threw_left_over. }
  destruct (loop_control _ _ _ _ Hs) as (e & He & -> & Hid & Hb). cbn [with_run el_engine] in *.
  apply (moved_kept s e r (el_report s)); [by rewrite Hb|done|]. unfold life_placed.
  cbn [el_engine el_run el_config el_started_at]. unfold RunLoop_step in He. rewrite Ht in He.
  destruct (rs_stage (el_run s)); try done; cbn in Hpc; subst p; injection He as <-; exact Hl.
Qed.

Lemma loop_answer_quiet r o :
  match o with [OReport _] => False | _ => True end ->
  loop_answer r o = match rs_stage r with RSleep _ => false | _ => true end.
Proof. unfold loop_answer. intros Ho. destruct (rs_stage r); try done; by destruct o as [|[|[]] []]. Qed.

(** A step of the run thread in a run, to another program point. *)
Lemma moving_kept s t stamp p r o1 s' o :
  life_ok s -> run_ended (el_run s) = false -> e_thread (el_engine s) = Some p -> with_workers p = true -> the_run_of s (el_run s) ->
  loop_pc_of (rs_stage (el_run s)) = p -> (t <? rs_clock (el_run s)) = false ->
  life_loop_step t stamp s = Some (r, o1) -> loop_pc_of (rs_stage r) <> p ->
  control_step (ILoop (loop_answer r o1)) (at_run s r (report_of o1 (el_report s))) = Some (s', o) -> run_kept s'.
Proof.
  intros Hok Hlive Et Hw Hr Hpc Ht Hl Hne Hs. destruct (run_step_kept _ _ _ _ _ Hok Hlive Ht Hl) as (Hf & Hn & Hrun).
  specialize (Hrun Hr). destruct (loop_control _ _ _ _ Hs) as (e & He & -> & Hid & Hb). cbn [el_engine] in *.
  apply (moved_kept s); [by rewrite Hb|done|]. unfold life_placed, life_reported. cbn [el_engine el_run el_config el_started_at el_report].
  rewrite Hid. unfold RunLoop_step in He. rewrite Et in He. pose proof Hl as [Hp Ho]%loop_step_pc.
  cbn [at_time rs_stage rs_stop_requested] in Hp, Ho. rewrite Hpc in Hp, Ho.
  destruct (decide (p = LReport)) as [->|Hnr].
  - destruct Hp as [Hd [q ->]]. unfold loop_answer in He. rewrite Hd in He. destruct q as [j| |]; injection He as <-; cbn.
    + exists j. split; [done|]. destruct Hr as (a0 & clock & ins & outs & Ha & Hr).
      assert (rs_stage (el_run s) = RReport) as Hst by (by destruct (rs_stage (el_run s))).
      exists a0, clock, ins, (el_run s), outs, t, stamp, r, [], []. split_and!; try done.
      by apply loop_step_run_step.
    + eapply run_of_left_over; [exact Hrun|by right; right].
    + eapply run_of_left_over; [exact Hrun|by right; right].
  - rewrite (loop_answer_quiet r o1) in He by apply (Ho Hnr None). destruct p; try done.
    + rewrite Hp in He. injection He as <-. cbn. by rewrite Hp.
    + destruct Hp as [Hp|Hp]; [by rewrite Hp in Hne|]. injection He as <-. cbn. by rewrite Hp.
    + destruct Hp as [[i Hp]|Hp]; [by rewrite Hp in Hne|]. rewrite Hp in He. injection He as <-. cbn. by rewrite Hp.
    + rewrite (ok_flag s Hok) in Hp. injection He as <-. by destruct (e_stop_requested (el_engine s)); cbn; rewrite Hp.
    + destruct Hp as [Hp|[since Hp]]; rewrite Hp in He; injection He as <-; cbn; by rewrite Hp.
    + injection He as <-. cbn. by rewrite Hp.
    + destruct Hp as [Hp|Hp]; [by rewrite Hp in Hne|]. rewrite Hp in He. injection He as <-. cbn. by rewrite Hp.
Qed.

Lemma working_kept s t stamp throws p s' o :
  life_ok s -> run_ended (el_run s) = false -> e_thread (el_engine s) = Some p -> with_workers p = true -> (t <? rs_clock (el_run s)) = false ->
  working_step t stamp throws p s = Some (s', o) -> run_kept s'.
Proof.
  unfold working_step. intros Hok Hne Et Hw Ht Hst. destruct throws; [by eapply threw_kept|].
  destruct (life_loop_step t stamp s) as [[r o1]|] eqn:Hl; [|done].
  destruct (placed_run_of _ _ (ok_placed s Hok) Et Hw) as [[Hr Hpc]|(-> & i & b & Hc)].
  - assert (clearing p (el_run s) = false) as Hcl.
    { unfold clearing. by destruct p; try done; destruct (rs_stage (el_run s)). }
    rewrite Hcl in Hst. case_decide as Hsame.
    + injection Hst as <- _. destruct (run_step_kept _ _ _ _ _ Hok Hne Ht Hl) as (Hfl & Hn & Hrun).
      split_and!; [done|done|]. unfold life_placed. cbn [with_run el_engine el_run el_config el_started_at].
      rewrite Et. apply loop_step_pc in Hl as [Hp _]. cbn [at_time rs_stage] in Hp. rewrite Hpc in Hp.
      destruct p; try done; try (split; [by apply Hrun|done]). by rewrite Hp in Hsame.
    + destruct (control_step _ _) as [[s1 o2]|] eqn:Ec; [|done]. injection Hst as <- _. by eapply moving_kept.
  - assert (clearing LCreate (el_run s) = true) as Hcl by (unfold clearing; by rewrite (proj1 Hc)).
    rewrite Hcl in Hst. injection Hst as <- _. by eapply clearing_kept.
Qed.

Lemma run_thread_kept s t stamp throws s' o :
  life_ok s -> run_ended (el_run s) = false -> (t <? rs_clock (el_run s)) = false -> run_thread_step t stamp throws s = Some (s', o) -> run_kept s'.
Proof.
  intros Hok Hne Ht (p & Et & [[Hw Hs]|[Hp Hs]])%run_thread_cases; [by eapply working_kept|].
  apply (control_only_kept s s' o Hok); [|done]. by rewrite Et.
Qed.

(** Every step keeps it. *)
Lemma past_kept s t n x s' o : life_ok s -> past_call t n x s = Some (s', o) -> run_kept s'.
Proof.
  unfold past_call. intros Hok Hs. destruct (el_past s !! n) as [[g w]|]; [|done].
  destruct (worker_step g w (t, x)) as [[w' o1]|]; [|done]. injection Hs as <- _.
  split_and!; [apply Hok|apply Hok|exact (ok_placed s Hok)].
Qed.

Lemma life_ok_step s i s' o : life_ok s -> life_serial_step s i = Some (s', o) -> life_ok s'.
Proof.
  intros Hok Hs. destruct (engine_kept _ _ _ _ Hok Hs) as [He Hd]. unfold life_serial_step in Hs.
  destruct (disordered (el_engine s) i) eqn:Hdis; [done|].
  apply life_step_live in Hs as [Hne%life_over_run Hs].
  enough (run_kept s') as (Hf & Hn & Hp) by by constructor.
  destruct i as [|n config fresh now|n| | | |t stamp throws|t n x|t n x| |]; cbn [live_step] in Hs; try (by eapply control_kept).
  - by eapply start_kept.
  - destruct (t <? rs_clock (el_run s)) eqn:Ht; [done|]. destruct (members_gone s); [done|]. cbn [orb] in Hs. by eapply run_thread_kept.
  - by eapply (worker_kept s t n x).
  - destruct (_ || _); [done|]. by eapply past_kept.
  - unfold destroy_call in Hs. destruct (control_step _ s) as [[s1 o1]|] eqn:Ec; [|done]. injection Hs as <- _.
    by eapply control_kept.
  - unfold destroy_call in Hs. destruct (control_step _ s) as [[s1 o1]|] eqn:Ec; [|done]. injection Hs as <- _.
    by eapply control_kept.
Qed.

Lemma life_ok_new clock : life_ok (EngineLife_new clock).
Proof.
  by constructor.
Qed.

Lemma life_ok_run clock ins s outs :
  orderly (EngineLife_new clock) ins = true -> life_run clock ins = Some (s, outs) -> life_ok s.
Proof.
  unfold life_run. intros Ho. rewrite <- (orderly_run _ _ Ho).
  apply (run_invariant life_serial_step); [apply life_ok_new|]. intros. by eapply life_ok_step.
Qed.

(** ** The workers of two runs *)

Definition all_destroyed (r : RunState) : Prop :=
  Forall (fun gw => w_owner (snd gw) = WDestroyed /\ w_producer (snd gw) = None /\ w_consumer (snd gw) = None /\
    w_subscribed (snd gw) = false) (rs_workers r).

Lemma workers_are_destroyed r : workers_are (fun _ o => o = WDestroyed) r -> all_destroyed r.
Proof.
  intros Hp. apply Forall_lookup_2. intros i [g w] Hg. destruct (Hp i g w Hg) as (Ho & Hl & _). cbn [snd].
  unfold WorkerStop.life_inv in Hl. rewrite Ho in Hl. destruct Hl as (Hs & _ & _ & Hpn & Hcn). split_and!; try done.
  destruct (w_subscribed w); [|done]. destruct Hs as [_ Hs]; [done|]. by rewrite Hcn in Hs.
Qed.

Lemma left_over_ended r : left_over r -> rs_stage r = RReport \/ rs_stage r = RDone -> all_destroyed r.
Proof. intros Hl Hs. apply workers_are_destroyed. intros j g w Hj. destruct (Hl j g w Hj) as [Ho Hr]. by destruct Hs as [E|E]; rewrite E in Ho. Qed.

(** Other workers come only when those before are destroyed. *)
Definition workers_or_destroyed (r r' : RunState) : Prop :=
  (rs_workers r').*1 = (rs_workers r).*1 \/ all_destroyed r.

Lemma control_workers j s s' o : control_step j s = Some (s', o) -> rs_workers (el_run s') = rs_workers (el_run s).
Proof. unfold control_step. destruct (engine_step (el_engine s) j) as [[]|]; [|done]. by intros [= <- _]. Qed.

Lemma loop_workers s p t stamp r o :
  life_ok s -> e_thread (el_engine s) = Some p -> with_workers p = true -> (t <? rs_clock (el_run s)) = false ->
  life_loop_step t stamp s = Some (r, o) ->
  workers_or_destroyed (el_run s) (if clearing p (el_run s) then cleared r else r).
Proof.
  intros Hok Et Hwp Ht Hl. pose proof Hl as (_ & _ & Hk)%loop_step_workers. cbn [at_time rs_stage rs_workers] in Hk.
  destruct (placed_run_of _ _ (ok_placed s Hok) Et Hwp) as [[Hr Hpc]|(-> & i & b & Hst & Hb & Hc)].
  - assert (clearing p (el_run s) = false) as -> by (unfold clearing; by destruct p; try done; destruct (rs_stage (el_run s))).
    destruct Hk as [Hcr|Hk]; [right|by left]. apply run_of_placed in Hr as (a0 & _ & Hr). rewrite Hcr in Hr.
    unfold all_destroyed. by rewrite (proj1 Hr).
  - unfold clearing. rewrite Hst in Hk |- *. destruct Hk as [|Hk]; [done|].
    assert (clearing_at i b (at_time t (el_run s))) as Hct.
    { split; [done|]. split; [done|]. eapply workers_are_mono; [| | |exact Hc]; [done| |done].
      apply Z.ltb_ge in Ht. cbn. lia. }
    destruct (clearing_step _ _ _ _ _ _ _ _ _ Hct Hl) as [(_ & Hd & _)|(i' & b' & (Hst' & _) & _)].
    + right. exact (workers_are_destroyed _ Hd).
    + left. unfold cleared. by rewrite Hst'.
Qed.

Lemma throw_workers t p s s' o :
  throw_step t p s = Some (s', o) -> (rs_workers (el_run s')).*1 = (rs_workers (el_run s)).*1.
Proof.
  intros [(r & Hr & o2 & Hc%control_workers & _)|(i & r & o1 & _ & _ & Hs & -> & _)]%throw_cases.
  - rewrite Hc. cbn. destruct Hr as [(-> & _)|(i & o1 & _ & Hs)]; [done|]. by apply step_worker_kept in Hs as [-> _].
  - cbn. by apply step_worker_kept in Hs as [-> _].
Qed.

Lemma workers_change s i s' o :
  life_ok s -> life_serial_step s i = Some (s', o) -> workers_or_destroyed (el_run s) (el_run s').
Proof.
  intros Hok Hs%life_serial_step_step. apply life_step_live in Hs as [_ Hs].
  assert (forall j s1 o1, control_step j s = Some (s1, o1) -> workers_or_destroyed (el_run s) (el_run s1)) as Hc
    by (intros j s1 o1 Hj%control_workers; left; by rewrite Hj).
  destruct i as [|n config fresh now|n| | | |t stamp throws|t n x|t n x| |]; cbn [live_step] in Hs; try by eapply Hc.
  - pose proof (ok_placed s Hok) as Hp. unfold life_placed in Hp.
    unfold start_call in Hs. destruct (control_step _ s) as [[s1 o1]|] eqn:Ec; [|done]. injection Hs as <- _.
    pose proof (Hc _ _ _ Ec) as Hw.
    destruct (e_starts (el_engine s) !! n) as [[]|], (e_thread (el_engine s)) as [p|] eqn:Et; try exact Hw.
    cbn [retire el_run]. assert (rs_stage (el_run s1) = rs_stage (el_run s)) as Hst.
    { unfold control_step in Ec. destruct (engine_step _ _) as [[]|]; [|done]. by injection Ec as <- _. }
    unfold begin_run. rewrite Hst. destruct (rs_stage (el_run s)) eqn:Es; try exact Hw;
      right; apply left_over_ended; auto; apply Hp.
  - destruct (t <? rs_clock (el_run s)) eqn:Ht; [done|]. destruct (members_gone s); [done|]. cbn [orb] in Hs.
    apply run_thread_cases in Hs as (p & Et & [[Hwp Hst]|[_ Hst]]); [|by eapply Hc].
    pose proof (fun r o1 => loop_workers s p t stamp r o1 Hok Et Hwp Ht) as Hl. unfold working_step in Hst.
    destruct throws; [left; by eapply throw_workers|].
    destruct (life_loop_step t stamp s) as [[r o1]|]; [|done]. specialize (Hl r o1 eq_refl).
    destruct (clearing p (el_run s)); [by injection Hst as <- _|].
    case_decide; [by injection Hst as <- _|].
    destruct (control_step _ _) as [[s1 o2]|] eqn:Ec; [|done]. injection Hst as <- _.
    apply control_workers in Ec. unfold workers_or_destroyed in *. by rewrite Ec.
  - destruct (_ || _); [done|]. unfold worker_call in Hs.
    destruct (step_worker _ _ _ _) as [[r o1]|] eqn:Hw; [|done]. injection Hs as <- _.
    left. cbn. by apply step_worker_kept in Hw as [-> _].
  - destruct (_ || _); [done|]. unfold past_call in Hs. destruct (el_past s !! n) as [[g w]|]; [|done].
    destruct (worker_step g w (t, x)) as [[w' o1]|]; [|done]. injection Hs as <- _. by left.
  - unfold destroy_call in Hs. destruct (control_step _ s) as [[s1 o1]|] eqn:Ec; [|done]. injection Hs as <- _. by eapply Hc.
  - unfold destroy_call in Hs. destruct (control_step _ s) as [[s1 o1]|] eqn:Ec; [|done]. injection Hs as <- _. by eapply Hc.
Qed.

(** ** A stop *)

(** The workers of the configuration. *)
Definition plan_size (s : EngineLife) : nat :=
  length (omap (slot_worker broker (e_run_id (el_engine s)) (el_config s)) (worker_slots (el_config s))).

(** The steps the run thread can still take once a stop is requested. *)
Definition life_distance (s : EngineLife) : nat :=
  let n := plan_size s in
  let r := el_run s in
  match e_thread (el_engine s) with
  | None | Some LReturned => 0
  | Some (LCatch | LSetStopped) => 1
  | Some LCreate => match rs_stage r with RDestroying i b => clear_left r i b | _ => 0 end + (9 * n + 11)
  | Some (LMark | LSetRunning) => loop_distance n r + 2
  | Some _ => loop_distance n r + 1
  end.

Definition is_life_loop (i : life_input) : bool := match i with ELoop _ _ _ => true | _ => false end.
Definition life_loop_steps (ins : list life_input) : nat := length (List.filter is_life_loop ins).

Definition stop_asked (s : EngineLife) : Prop :=
  life_ok s /\ e_stop_requested (el_engine s) = true /\ e_starts (el_engine s) = [].

Lemma loop_distance_stop n b r : loop_distance n (set_stop b r) = loop_distance n r.
Proof. by apply loop_distance_same. Qed.

Lemma life_distance_control s e :
  e_thread e = e_thread (el_engine s) \/ e_thread (el_engine s) = Some LReturned /\ e_thread e = None ->
  e_run_id e = e_run_id (el_engine s) -> life_distance (with_engine e s) = life_distance s.
Proof.
  intros Ht Hid. unfold life_distance, plan_size. cbn [with_engine el_engine el_run el_config].
  rewrite Hid, !loop_distance_stop. destruct Ht as [->|[-> ->]]; [|done]. by destruct (e_thread (el_engine s)) as [[]|].
Qed.

(** The step of the run itself. *)
Lemma life_run_distance s p t stamp r o :
  life_ok s -> e_stop_requested (el_engine s) = true -> (t <? rs_clock (el_run s)) = false ->
  the_run_of s (el_run s) -> life_loop_step t stamp s = Some (r, o) -> loop_pc_of (rs_stage (el_run s)) = p ->
  (loop_distance (plan_size s) r < loop_distance (plan_size s) (el_run s))%nat.
Proof.
  intros Hok Hb Ht (a0 & Hp & Hw)%run_of_placed Hl _. apply Z.ltb_ge in Ht.
  change (loop_distance (plan_size s) (el_run s)) with (loop_distance (plan_size s) (at_time t (el_run s))).
  eapply loop_step_distance; [| |unfold plan_size|exact Hl].
  - intros j g w Hj. destruct (Hp j g w Hj) as (Ho & Hl0 & Hc). split; [done|]. split; [done|]. cbn. lia.
  - cbn. by rewrite (ok_flag s Hok).
  - cbn [at_time rs_stage rs_workers rs_metrics]. unfold Run.plan in Hw. rewrite CreateWorkers_fst in Hw.
    destruct (rs_stage (el_run s)); [by rewrite CreateWorkers_fst|by rewrite <- Hw, length_fmap..].
Qed.

(** A step that throws leaves the run thread one step, or, in a destructor,
    the process none. *)
Lemma throw_distance s t p s' o :
  life_ok s -> e_thread (el_engine s) = Some p -> with_workers p = true -> throw_step t p s = Some (s', o) ->
  e_stop_requested (el_engine s') = e_stop_requested (el_engine s) /\ (life_distance s' < life_distance s)%nat.
Proof.
  intros Hok Et Hw [(r & Hcase & o2 & Hs & _)|(i & r & o1 & Hcl & Est & Hs & -> & _)]%throw_cases.
  - destruct (placed_run_of _ _ (ok_placed s Hok) Et Hw) as [[Hr Hpc]|(_ & i & b & Hc & _)].
    2: { exfalso. destruct Hcase as [(-> & [E|E])|(j & o1 & [E|E] & _)]; congruence. }
    destruct (loop_control _ _ _ _ Hs) as (e & He & -> & Hid & Hbe). cbn [with_run el_engine] in *. split; [done|].
    unfold RunLoop_step in He. rewrite Et in He. unfold life_distance at 2. rewrite Et.
    assert (match rs_stage (el_run s) with RCreate | RReport | RStarting _ | RStopping _ => True | _ => False end) as Hst.
    { by destruct Hcase as [(-> & [-> | ->])|(i & o1 & [-> | ->] & _)]. }
    assert (rs_stage (el_run s) <> RCreate -> (1 <= loop_distance (plan_size s) (el_run s))%nat) as Hd.
    { intros Hn. unfold loop_distance. by destruct (rs_stage (el_run s)); try done; lia. }
    unfold life_distance. cbn [with_engine with_run el_engine].
    destruct (rs_stage (el_run s)) eqn:Es; try done; cbn in Hpc; subst p; injection He as <-; cbn [e_thread with_loop];
      try specialize (Hd ltac:(done)); lia.
  - split; [done|]. assert (p = LCreate) as -> by (by destruct p; cbn in Hcl).
    pose proof Hs as (_ & _ & g & w & w' & o' & Hg & Hst & Hi & Hn)%step_worker_kept.
    pose proof (lookup_lt_Some _ _ _ Hg) as Hlt. cbn [at_time rs_workers] in *.
    unfold life_distance. cbn [with_run el_engine el_run]. rewrite Et, Est, Hn.
    change (plan_size (with_run r s)) with (plan_size s). unfold clear_left. rewrite Hi, length_insert.
    rewrite Hg. destruct (w_owner w); lia.
Qed.

Lemma working_distance s t stamp throws p s' o :
  life_ok s -> e_stop_requested (el_engine s) = true -> e_thread (el_engine s) = Some p ->
  with_workers p = true -> (t <? rs_clock (el_run s)) = false -> working_step t stamp throws p s = Some (s', o) ->
  e_stop_requested (el_engine s') = true /\ (life_distance s' < life_distance s)%nat.
Proof.
  unfold working_step. intros Hok Hb Et Hw Ht Hst.
  destruct throws; [destruct (throw_distance _ _ _ _ _ Hok Et Hw Hst); split; [congruence|done]|].
  destruct (placed_run_of _ _ (ok_placed s Hok) Et Hw) as [[Hr Hpc]|(-> & i & b & Hc)].
  - destruct (life_loop_step t stamp s) as [[r o1]|] eqn:Hl; [|done].
    pose proof (life_run_distance s p t stamp r o1 Hok Hb Ht Hr Hl Hpc) as Hd.
    assert (clearing p (el_run s) = false) as Hcl.
    { unfold clearing. by destruct p; try done; destruct (rs_stage (el_run s)). }
    rewrite Hcl in Hst. pose proof Hl as [Hp Ho]%loop_step_pc. cbn [at_time rs_stage rs_stop_requested] in Hp, Ho.
    rewrite Hpc in Hp, Ho. case_decide as Hsame.
    + injection Hst as <- _. split; [done|]. unfold life_distance. cbn [with_run el_engine el_run]. rewrite Et.
      change (plan_size (with_run r s)) with (plan_size s). destruct p; try done; try lia. by rewrite Hp in Hsame.
    + destruct (control_step _ _) as [[s1 o2]|] eqn:Ec; [|done]. injection Hst as <- _.
      destruct (loop_control _ _ _ _ Ec) as (e & He & -> & Hid & Hbe). split; [by cbn in *; rewrite Hbe|].
      unfold life_distance. cbn [with_engine el_engine el_run] in *. rewrite loop_distance_stop.
      assert (plan_size (with_engine e (at_run s r (report_of o1 (el_report s)))) = plan_size s) as ->
        by (unfold plan_size; cbn; by rewrite Hid).
      rewrite Et. unfold RunLoop_step in He. rewrite Et in He.
      assert (9 * plan_size s + 9 = loop_distance (plan_size s) (el_run s) \/ p <> LCreate)%nat as Hcreate.
      { destruct (decide (p = LCreate)) as [->|]; [left|by right]. unfold loop_distance. by destruct (rs_stage (el_run s)). }
      destruct p; try done; destruct (loop_answer r o1); rewrite ?Hb in He; injection He as <-; cbn [e_thread with_loop];
        try (destruct Hcreate as [Hcreate|]; [|done]);
        try (assert (rs_stage (el_run s) = RCreate) as Es by (by destruct (rs_stage (el_run s))); rewrite Es); lia.
  - assert (clearing LCreate (el_run s) = true) as Hcl by (unfold clearing; by rewrite (proj1 Hc)).
    destruct (life_loop_step t stamp s) as [[r o1]|] eqn:Hl; [|done]. rewrite Hcl in Hst. injection Hst as <- _.
    split; [done|]. unfold life_distance. cbn [retire el_engine el_run]. rewrite Et, (proj1 Hc).
    change (plan_size (retire (cleared r) s)) with (plan_size s).
    assert (clearing_at i b (at_time t (el_run s))) as Hct.
    { destruct Hc as (Hst & Hbb & Ha). split; [done|]. split; [done|]. eapply workers_are_mono; [| | |exact Ha]; [done| |done].
      apply Z.ltb_ge in Ht. cbn. lia. }
    destruct (clearing_step _ _ _ _ _ _ _ _ _ Hct Hl) as [(Hst & _ & Hle)|(i' & b' & (Hst & _) & Hlt)].
    + unfold cleared. rewrite Hst. change (clear_left (at_time t (el_run s)) i b) with (clear_left (el_run s) i b) in Hle.
      cbn [set_stop RunState_new rs_stage]. lia.
    + unfold cleared. rewrite Hst. rewrite Hst. change (clear_left (at_time t (el_run s)) i b) with (clear_left (el_run s) i b) in Hlt. lia.
Qed.

Lemma worker_distance s t n x s' o :
  life_step s (EWorker t n x) = Some (s', o) -> el_engine s' = el_engine s /\ life_distance s' = life_distance s.
Proof.
  intros [_ Hs]%life_step_live. cbn [live_step] in Hs. destruct (t <? rs_clock (el_run s)); [done|].
  destruct (owner_input x) eqn:Hx; [done|]. destruct (members_gone s); [done|]. cbn [orb] in Hs. unfold worker_call in Hs.
  destruct (step_worker _ _ _ _) as [[r o1]|] eqn:Hw; [|done]. injection Hs as <- _. split; [done|].
  apply step_worker_kept in Hw as (_ & _ & g & w & w' & o' & Hg & Hst & Hi & Hn). cbn [at_time rs_workers rs_stage] in *.
  assert (forall i, (fun gw => w_owner (snd gw)) <$> rs_workers r !! i = (fun gw => w_owner (snd gw)) <$> rs_workers (el_run s) !! i) as Hown.
  { intros i. rewrite Hi. destruct (decide (i = n)) as [->|Hne]; [|by rewrite list_lookup_insert_ne].
    rewrite list_lookup_insert_eq, Hg by (by eapply lookup_lt_Some). cbn. by rewrite (thread_step_owner _ _ _ _ _ _ Hx Hst). }
  unfold life_distance. cbn [with_run el_engine el_run]. change (plan_size (with_run r s)) with (plan_size s).
  rewrite (loop_distance_same (plan_size s) (el_run s) r Hn Hown), Hn.
  destruct (rs_stage (el_run s)) as [| | |i| | | |i|i b| | |]; try done.
  assert (clear_left r i b = clear_left (el_run s) i b) as ->; [|done]. unfold clear_left. specialize (Hown i). rewrite Hi, length_insert in *.
  destruct (<[n:=(g, w')]> (rs_workers (el_run s)) !! i) as [[]|], (rs_workers (el_run s) !! i) as [[]|]; try done.
  injection Hown as Hown. by rewrite Hown.
Qed.

Lemma past_distance s t n x s' o :
  life_step s (EPast t n x) = Some (s', o) -> el_engine s' = el_engine s /\ life_distance s' = life_distance s.
Proof.
  intros [_ Hs]%life_step_live. cbn [live_step] in Hs. destruct (_ || _); [done|]. unfold past_call in Hs.
  destruct (el_past s !! n) as [[g w]|]; [|done]. destruct (worker_step g w (t, x)) as [[w' o1]|]; [|done].
  by injection Hs as <- _.
Qed.

Lemma run_thread_engine t stamp throws s s' o :
  run_thread_step t stamp throws s = Some (s', o) ->
  el_engine s' = el_engine s \/ exists ok, RunLoop_step ok (el_engine s) = Some (el_engine s').
Proof.
  assert (forall ok s1 s2 o2, control_step (ILoop ok) s1 = Some (s2, o2) -> el_engine s1 = el_engine s ->
    exists ok, RunLoop_step ok (el_engine s) = Some (el_engine s2)) as Hc.
  { intros ok s1 s2 o2 (e & He & -> & _)%loop_control <-. by exists ok. }
  intros (p & _ & [[_ Hs]|[_ Hs]])%run_thread_cases; [|right; by eapply Hc].
  unfold working_step in Hs. destruct throws.
  { apply throw_cases in Hs as [(r & _ & o2 & Ec & _)|(i & r & o1 & _ & _ & _ & -> & _)]; [right; by eapply Hc|by left]. }
  destruct (life_loop_step t stamp s) as [[r o1]|]; [|done].
  destruct (clearing p (el_run s)); [injection Hs as <- _; by left|].
  case_decide; [injection Hs as <- _; by left|].
  destruct (control_step _ _) as [[s1 o2]|] eqn:Ec; [|done]. injection Hs as <- _. right. by eapply Hc.
Qed.

Lemma stop_asked_step s i s' o :
  stop_asked s -> i <> EStartCheck -> life_step s i = Some (s', o) ->
  stop_asked s' /\ (life_distance s' + (if is_life_loop i then 1 else 0) <= life_distance s)%nat.
Proof.
  intros (Hok & Hb & Hst) Hi Hs.
  assert (disordered (el_engine s) i = false) as Hdis.
  { destruct i as [| |n| | | | | | | |]; try done. apply life_step_live in Hs as [_ Hs]. cbn [live_step] in Hs.
    unfold control_step, engine_step, StartRun_fails in Hs. rewrite Hst in Hs. by destruct (e_life (el_engine s)). }
  assert (life_ok s') as Hok' by (apply (life_ok_step s i s' o Hok); unfold life_serial_step; by rewrite Hdis).
  enough ((e_stop_requested (el_engine s') = true /\ e_starts (el_engine s') = []) /\
    (life_distance s' + (if is_life_loop i then 1 else 0) <= life_distance s)%nat) as [[? ?] ?] by (split; [by split_and!|done]).
  assert (forall j s1 o1, control_step j s = Some (s1, o1) -> match j with IStopCheck | IStopFlag | ICleanup | IDestroy | IDestroyJoin => True | _ => False end ->
    (e_stop_requested (el_engine s1) = true /\ e_starts (el_engine s1) = []) /\ (life_distance s1 + 0 <= life_distance s)%nat) as Hc.
  { unfold control_step. intros j s1 o1 Hj Hk. destruct (engine_step (el_engine s) j) as [[e o2]|] eqn:He; [|done].
    injection Hj as <- _. destruct (engine_frame _ _ _ _ He) as (Hid & Hf & Ht & _); [by destruct j|].
    split; [|rewrite (life_distance_control _ _ Ht Hid); lia]. cbn. split; [destruct Hf as [->|]; done|].
    unfold engine_step, StopRun_check, StopRun_flag, Engine_destroy in He.
    destruct (e_life (el_engine s)), j; try done; repeat (case_match; simplify_eq/=);
      try (injection He as <- _); try done; cbn; congruence. }
  pose proof Hs as [_ Hlive]%life_step_live.
  destruct i as [|n config fresh now|n| | | |t stamp throws|t n x|t n x| |]; cbn [is_life_loop]; try done.
  - clear Hs. rename Hlive into Hs. cbn in Hs. unfold start_call, control_step, engine_step, StartRun_step in Hs. rewrite Hst in Hs. by destruct (e_life (el_engine s)).
  - by apply (Hc IStopCheck _ o).
  - by apply (Hc IStopFlag _ o).
  - by apply (Hc ICleanup _ o).
  - clear Hs. rename Hlive into Hs. cbn [live_step] in Hs. destruct (t <? rs_clock (el_run s)) eqn:Ht; [done|].
    destruct (members_gone s); [done|]. cbn [orb] in Hs. assert (e_starts (el_engine s') = e_starts (el_engine s)) as Hstarts.
    { destruct (run_thread_engine _ _ _ _ _ _ Hs) as [->|[ok Hl]]; [done|]. by apply RunLoop_step_inv in Hl as (_ & -> & _). }
    destruct (run_thread_cases _ _ _ _ _ _ Hs) as (p & Et & [[Hw Hws]|[Hp Hcs]]).
    + destruct (working_distance _ _ _ _ _ _ _ Hok Hb Et Hw Ht Hws) as [Hb' Hd]. split; [split; [done|]|lia].
      by rewrite Hstarts.
    + destruct (loop_control _ _ _ _ Hcs) as (e & He & -> & Hid & Hbe). split; [split; [by cbn; rewrite Hbe|by rewrite Hstarts]|].
      unfold life_distance, plan_size, RunLoop_step in *. cbn [with_engine el_engine el_run el_config] in *.
      rewrite Et, Hid, loop_distance_stop in *. destruct p; try done; injection He as <-; cbn [e_thread with_loop with_state]; lia.
  - destruct (worker_distance _ _ _ _ _ _ Hs) as [He Hd]. rewrite He, Hd. split; [done|lia].
  - destruct (past_distance _ _ _ _ _ _ Hs) as [He Hd]. rewrite He, Hd. split; [done|lia].
  - clear Hs. rename Hlive into Hs. cbn [live_step] in Hs. unfold destroy_call in Hs.
    destruct (control_step _ s) as [[s1 o1]|] eqn:Ec; [|done]. injection Hs as <- _. by apply (Hc IDestroy _ o1).
  - clear Hs. rename Hlive into Hs. cbn [live_step] in Hs. unfold destroy_call in Hs. destruct (control_step _ s) as [[s1 o1]|] eqn:Ec; [|done]. injection Hs as <- _.
    by apply (Hc IDestroyJoin _ o1).
Qed.

Lemma stop_asked_run s ins s' outs :
  stop_asked s -> EStartCheck ∉ ins -> run life_step s ins = Some (s', outs) ->
  stop_asked s' /\ (life_distance s' + life_loop_steps ins <= life_distance s)%nat.
Proof.
  unfold life_loop_steps. revert s outs. induction ins as [|i ins IH]; intros s outs Ha Hn Hr; cbn [run] in Hr.
  { injection Hr as <- _. cbn. split; [done|lia]. }
  apply not_elem_of_cons in Hn as [Hi Hn]. destruct (life_step s i) as [[s1 o]|] eqn:Hs; [|done].
  destruct (run life_step s1 ins) as [[s2 os]|] eqn:Hr1; [|done]. injection Hr as <- _.
  destruct (stop_asked_step s i s1 o Ha (not_eq_sym Hi) Hs) as [Ha1 Hd1]. destruct (IH s1 os Ha1 Hn Hr1) as [Ha2 Hd2].
  split; [done|]. cbn [List.filter]. destruct (is_life_loop i); cbn [length]; lia.
Qed.

Lemma life_distance_bound s : (life_distance s <= 9 * plan_size s + 4 * length (rs_workers (el_run s)) + 12)%nat.
Proof.
  unfold life_distance. pose proof (loop_distance_bound (plan_size s) (el_run s)).
  destruct (e_thread (el_engine s)) as [[]|]; try lia. destruct (rs_stage (el_run s)); try lia. unfold clear_left. lia.
Qed.

(** ** The run thread can go on *)

(** A step of the run thread, or of a thread it is joining. *)
Definition goes_on_with (s : EngineLife) (f : Z -> life_input) : Prop :=
  (exists stamp, f = fun t => ELoop t stamp false) \/
  exists n x g w, f = (fun t => EWorker t n x) /\ is_thread_input x = true /\
    rs_workers (el_run s) !! n = Some (g, w) /\ stopping w = true.

Definition life_enabled (s : EngineLife) : Prop :=
  exists f t0, goes_on_with s f /\ forall t, t0 <= t -> is_Some (life_step s (f t)).

Lemma control_loop_enabled s ok :
  members_gone s = false -> loop_live (el_engine s) = true -> is_Some (control_step (ILoop ok) s).
Proof.
  unfold members_gone, loop_live, control_step, engine_step, RunLoop_step. intros Hm Hl.
  destruct (e_life (el_engine s)); try done; destruct (e_thread (el_engine s)) as [[]|]; try done; cbn; try by eexists.
  all: destruct ok; by eexists.
Qed.

Lemma loop_step_enabled s stamp t0 :
  life_over s = false -> members_gone s = false -> loop_live (el_engine s) = true ->
  (forall p, e_thread (el_engine s) = Some p -> with_workers p = true -> forall t, t0 <= t -> rs_clock (el_run s) <= t ->
     is_Some (life_loop_step t stamp s)) -> life_enabled s.
Proof.
  intros Hne Hm Hl He. exists (fun t => ELoop t stamp false), (Z.max t0 (rs_clock (el_run s))). split; [left; by eexists|].
  intros t Ht. unfold life_step. rewrite Hne. cbn [live_step]. destruct (Z.ltb_spec t (rs_clock (el_run s))); [lia|]. rewrite Hm. cbn [orb].
  unfold run_thread_step. destruct (e_thread (el_engine s)) as [p|] eqn:Et; [|by unfold loop_live in Hl; rewrite Et in Hl].
  assert (is_Some (control_step (ILoop true) s)) as Hc by by apply control_loop_enabled.
  destruct (with_workers p) eqn:Hw; [|destruct p; try done; by unfold loop_live in Hl; rewrite Et in Hl].
  destruct (He p eq_refl Hw t) as [[r o] Hr]; [lia|done|].
  assert (is_Some (working_step t stamp false p s)) as Hs; [|by destruct p].
  unfold working_step. rewrite Hr. destruct (clearing p (el_run s)); [by eexists|]. case_decide; [by eexists|].
  destruct (control_loop_enabled (at_run s r (report_of o (el_report s))) (loop_answer r o)) as [[s1 o1] ->]; [done..|by eexists].
Qed.

Lemma thread_step_enabled s n x g w t0 :
  life_over s = false -> members_gone s = false -> is_thread_input x = true -> rs_workers (el_run s) !! n = Some (g, w) -> stopping w = true ->
  (forall t, t0 <= t -> rs_clock (el_run s) <= t -> is_Some (worker_step g w (t, x))) -> life_enabled s.
Proof.
  intros Hne Hm Hx Hg Hst He. exists (fun t => EWorker t n x), (Z.max t0 (rs_clock (el_run s))).
  split; [right; by exists n, x, g, w|].
  intros t Ht. unfold life_step. rewrite Hne. cbn [live_step]. unfold worker_call. destruct (Z.ltb_spec t (rs_clock (el_run s))); [lia|]. rewrite Hm.
  assert (owner_input x = false) as -> by by destruct x. cbn [orb].
  destruct (step_worker_enabled n x (fun _ => rs_stage (el_run s)) (el_run s) t g w Hg) as [[r o] ->]; [apply He; lia|by eexists].
Qed.

Lemma clearing_enabled s i b :
  life_over s = false -> members_gone s = false -> loop_live (el_engine s) = true -> clearing_at i b (el_run s) -> life_enabled s.
Proof.
  intros Hne Hm Hl (Hst & Hb & Hc).
  assert (forall t0 stamp, (forall t, t0 <= t -> rs_clock (el_run s) <= t -> is_Some (life_loop_step t stamp s)) -> life_enabled s) as Hloop
    by (intros t0 stamp He; by eapply (loop_step_enabled s stamp t0)).
  unfold life_loop_step, Run.loop_step in Hloop. cbn [at_time rs_stage rs_workers] in Hloop. rewrite Hst in Hloop.
  destruct (rs_workers (el_run s) !! i) as [[g w]|] eqn:Hg; [|apply (Hloop 0 ""); by eexists].
  destruct (Hc i g w Hg) as (Ho & Hlf & Hclk). unfold clearing_order in Ho. rewrite Nat.ltb_irrefl, Nat.eqb_refl in Ho.
  assert (forall x next, (forall t, w_clock w <= t -> is_Some (worker_step g w (t, x))) ->
    forall t, 0 <= t -> rs_clock (el_run s) <= t -> is_Some (step_worker i x next (at_time t (el_run s)))) as Hstep.
  { intros x next He t _ Ht. eapply step_worker_enabled; [exact Hg|]. apply He. lia. }
  destruct b.
  - apply (Hloop 0 ""), Hstep. intros t Ht. unfold worker_step. destruct (Z.ltb_spec t (w_clock w)); [lia|].
    unfold owner_worker_step. cbn. rewrite Ho. by eexists.
  - assert ((w_owner w = WClose \/ w_owner w = WJoin1 \/ w_owner w = WJoin2) \/
      forall t, w_clock w <= t -> is_Some (worker_step g w (t, stop_input w))) as [Hj|He].
    { destruct (w_owner w) eqn:E; try done; auto; right; intros t Ht; unfold worker_step, stop_input; rewrite E;
        (destruct (Z.ltb_spec t (w_clock w)); [lia|]); unfold owner_worker_step; cbn; rewrite E; by eexists. }
    2: by apply (Hloop 0 ""), Hstep.
    destruct (stop_enabled g w Hlf Hj) as [He|(t0 & x & Hx & He)]; [by apply (Hloop 0 ""), Hstep|].
    eapply (thread_step_enabled s i x g w t0); try done; [unfold stopping; by destruct Hj as [-> |[-> | ->]]|auto].
Qed.

Lemma life_goes_on s :
  life_ok s -> life_over s = false -> loop_live (el_engine s) = true -> life_enabled s.
Proof.
  intros Hok Hne Hl.
  assert (members_gone s = false) as Hm.
  { unfold members_gone. pose proof (ok_destroyed s Hok) as Hd. destruct (ok_engine s Hok) as [Hn _]. unfold loop_live in Hl.
    destruct (e_life (el_engine s)) eqn:E; try done. by rewrite (Hd E) in Hl. }
  destruct (e_thread (el_engine s)) as [p|] eqn:Et; [|by unfold loop_live in Hl; rewrite Et in Hl].
  destruct (with_workers p) eqn:Hw.
  2: { apply (loop_step_enabled s "" 0 Hne Hm Hl). intros p' Hp'. rewrite Et in Hp'. injection Hp' as <-. by rewrite Hw. }
  destruct (placed_run_of _ _ (ok_placed s Hok) Et Hw) as [[Hr Hpc]|(_ & i & b & Hc)]; [|by eapply clearing_enabled].
  apply run_of_placed in Hr as (a0 & Hp). assert (rs_stage (el_run s) <> RDone) as Hnd by (intros E; rewrite E in Hpc; by subst p).
  destruct (run_goes_on broker (e_run_id (el_engine s)) (el_started_at s) (el_config s) a0 _ Hp (life_over_run _ Hne) Hnd)
    as (t0 & i & Hi & He).
  destruct i as [stamp| |n x]; [|done|].
  - apply (loop_step_enabled s stamp t0 Hne Hm Hl). intros _ _ _ t Ht Hc. specialize (He t Ht). unfold Run.run_step in He.
    rewrite (life_over_run _ Hne) in He. destruct (Z.ltb_spec t (rs_clock (el_run s))); [lia|exact He].
  - unfold goes_on in Hi. destruct (rs_workers (el_run s) !! n) as [[g w]|] eqn:Hg; [|by rewrite andb_false_r in Hi].
    apply andb_true_iff in Hi as [Hx Hst]. eapply (thread_step_enabled s n x g w t0); try done.
    intros t Ht Hc. specialize (He t Ht). unfold Run.run_step in He.
    rewrite (life_over_run _ Hne) in He. destruct (Z.ltb_spec t (rs_clock (el_run s))); [lia|]. cbn [orb] in He.
    destruct (owner_input x); [by destruct He|]. unfold step_worker in He. cbn [at_time rs_workers rs_clock] in He. rewrite Hg in He.
    destruct (worker_step g w (t, x)); [by eexists|by destruct He].
Qed.

(** An engine that is idle or stopped. *)
Lemma rest_destroyed s :
  life_ok s -> e_starts (el_engine s) = [] ->
  (e_state (el_engine s) = kStateIdle \/ e_state (el_engine s) = kStateStopped -> all_destroyed (el_run s)) /\
  (e_state (el_engine s) = kStateStopped -> life_reported s).
Proof.
  intros Hok Hs. pose proof (ok_placed s Hok) as Hp. pose proof (ok_engine s Hok) as [_ Hi]. rewrite Hs in Hi.
  assert (may_start (e_state (el_engine s)) = true -> left_over (el_run s) /\
    (e_state (el_engine s) = kStateStopped -> life_reported s) /\ (e_state (el_engine s) = kStateIdle -> rs_workers (el_run s) = [])) as Hl.
  { intros Hm. rewrite Hm in Hi. unfold loop_live, life_placed in *. by destruct (e_thread (el_engine s)) as [[]|]. }
  split.
  - intros [E|E]; rewrite E in Hl; destruct (Hl eq_refl) as (Hlo & Hrep & Hidle).
    + unfold all_destroyed. by rewrite (Hidle eq_refl).
    + destruct (Hrep eq_refl) as (j & _ & Hd%run_reported_done). apply left_over_ended; auto.
  - intros E. apply Hl; [by rewrite E|done].
Qed.

(** ** The contract *)

(** C13: the engine over its life. In every interleaving of the calls, the run
    thread with its exceptions, the destructor and the threads and callbacks of
    every worker, of this run or one before, the control is a run of Engine.
    When calls of [StartRun] do not overlap and can make their thread, moreover:
    no joinable thread is assigned to; between [CreateWorkers] and its report
    the run thread, its workers and the metrics are a run of Run with the
    settings of the last [StartRun], at the same program point; when the engine
    is idle or stopped every worker is destroyed with its threads joined, and
    when it is stopped [last_report_] is what that run built; workers of another
    run come only when those before are destroyed; while the run thread lives,
    and no destructor of an upstream handle or of a worker has ended the
    process, it or a thread it joins can take a step, now or once a wait is
    over; and a stop leaves it at most nine steps for each worker of the
    configuration, four for each worker an exception had left and twelve more,
    after which the state is stopped or error. *)
Theorem engine_life_contract (clock : Z) (ins : list life_input) (s : EngineLife) (outs : list (life_output jvalue)) :
  life_run clock ins = Some (s, outs) ->
  let e := el_engine s in
  let r := el_run s in
  (exists eins, engine_run eins = Some (e, control_outputs outs)) /\
  (orderly (EngineLife_new clock) ins = true ->
   e_life e <> ETerminated /\ (exists eins, serial_run eins = Some (e, control_outputs outs)) /\
   (forall p, e_thread e = Some p -> with_workers p = true -> clearing p r = false ->
      the_run_of s r /\ loop_pc_of (rs_stage r) = p) /\
   (e_starts e = [] ->
      (e_state e = kStateIdle \/ e_state e = kStateStopped -> all_destroyed r) /\ (e_state e = kStateStopped -> life_reported s)) /\
   (forall i s' o, life_step s i = Some (s', o) -> disordered e i = false ->
      (rs_workers (el_run s')).*1 = (rs_workers r).*1 \/ all_destroyed r) /\
   (loop_live e = true -> life_over s = false -> life_enabled s) /\
   (e_stop_requested e = true -> e_starts e = [] ->
    forall ins' s' outs', EStartCheck ∉ ins' -> run life_step s ins' = Some (s', outs') ->
      (life_loop_steps ins' <= 9 * plan_size s + 4 * length (rs_workers r) + 12)%nat /\
      (loop_live (el_engine s') = false -> may_start (e_state (el_engine s')) = true))).
Proof.
  intros Hr e r. split; [by eapply life_run_control|]. intros Ho.
  pose proof (life_ok_run _ _ _ _ Ho Hr) as Hok. pose proof (ok_placed s Hok) as Hp.
  split; [apply (ok_engine s Hok)|]. split; [by eapply orderly_run_control|].
  split; [|split; [|split; [|split]]].
  - intros p Et Hw Hc. destruct (placed_run_of s p Hp Et Hw) as [Hx|(-> & i & b & Hx & _)]; [done|].
    unfold clearing in Hc. subst r. by rewrite Hx in Hc.
  - intros Hs. by apply rest_destroyed.
  - intros i s' o Hs Hd. apply (workers_change s i s' o Hok). unfold life_serial_step. subst e. by rewrite Hd.
  - intros Hl Hne. by apply life_goes_on.
  - intros Hb Hs ins' s' outs' Hn Hr'.
    destruct (stop_asked_run s ins' s' outs' ltac:(by split_and!) Hn Hr') as [(Hok' & _ & Hs') Hd].
    pose proof (life_distance_bound s). split; [subst r; lia|]. intros Hl. destruct (ok_engine s' Hok') as [_ Hi'].
    rewrite Hs', Hl in Hi'. by destruct (may_start (e_state (el_engine s'))).
Qed.

(** ** After an exception *)

Lemma error_at_rest s :
  life_ok s -> e_state (el_engine s) = kStateError -> e_starts (el_engine s) = [] ->
  left_over (el_run s) /\ (e_thread (el_engine s) = None \/ e_thread (el_engine s) = Some LReturned).
Proof.
  intros Hok Hst Hs. pose proof (ok_placed s Hok) as Hp. pose proof (ok_engine s Hok) as [_ Hi].
  rewrite Hs, Hst in Hi. unfold loop_live, life_placed in *.
  destruct (e_thread (el_engine s)) as [[]|]; try done; (split; [apply Hp|auto]).
Qed.

Lemma with_engine_same s :
  rs_stop_requested (el_run s) = e_stop_requested (el_engine s) -> with_engine (el_engine s) s = s.
Proof. unfold with_engine. intros <-. rewrite set_stop_same. by destruct s. Qed.

(** A step of a worker's thread or callback is one of the engine's life. *)
Lemma worker_step_life s t n x g w w' o :
  life_over s = false -> members_gone s = false -> rs_clock (el_run s) <= t -> owner_input x = false ->
  rs_workers (el_run s) !! n = Some (g, w) -> worker_step g w (t, x) = Some (w', o) ->
  exists s', life_step s (EWorker t n x) = Some (s', ERun <$> (OWorker n <$> o)) /\ el_engine s' = el_engine s /\
    rs_workers (el_run s') = <[n := (g, w')]> (rs_workers (el_run s)) /\
    rs_metrics (el_run s') = apply_updates (worker_updates g o) (rs_metrics (el_run s)).
Proof.
  intros Hne Hm Ht Hx Hg Hw. unfold life_step. rewrite Hne. cbn [live_step]. rewrite Hx, Hm.
  destruct (Z.ltb_spec t (rs_clock (el_run s))); [lia|]. cbn [orb]. unfold worker_call, step_worker.
  cbn [at_time rs_workers rs_clock]. rewrite Hg, Hw. by eexists.
Qed.

Lemma destroy_run s :
  life_over s = false -> e_life (el_engine s) = EAlive -> e_starts (el_engine s) = [] -> e_stops (el_engine s) = 0%nat ->
  e_thread (el_engine s) = None \/ e_thread (el_engine s) = Some LReturned ->
  exists ds s', (ds = [EDestroy] \/ ds = [EDestroy; EDestroyJoin]) /\
    run life_step s ds = Some (s', [EFreed (not_destroyed (el_run s))]).
Proof.
  intros Hne Hl Hs Hsp Ht. destruct s as [[x rid0 sr hr er th ss sp li] c st r past rep].
  cbn in Hl, Hs, Hsp, Ht. subst ss sp li. unfold life_over in Hne. cbn [el_engine e_life el_run el_past orb] in Hne.
  unfold run_ended in Hne. destruct Ht as [->| ->].
  - exists [EDestroy]. eexists. split; [by left|]. cbn [run]. unfold life_step at 1, life_over, run_ended. cbn.
    rewrite Hne. cbn. reflexivity.
  - exists [EDestroy; EDestroyJoin]. eexists. split; [by right|]. cbn [run].
    do 2 (unfold life_step at 1, life_over, run_ended; cbn; rewrite ?Hne; cbn). reflexivity.
Qed.

(** The next [StartRun], with nothing else in between. *)
Lemma restart_run s config fresh now :
  life_ok s -> life_over s = false -> e_life (el_engine s) = EAlive -> e_state (el_engine s) = kStateError ->
  e_starts (el_engine s) = [] -> e_thread (el_engine s) = None \/ e_thread (el_engine s) = Some LReturned ->
  exists s' rid, run life_step s (EStartCheck :: repeat (EStart 0 config fresh now) 4) = Some (s', [EOut (OStarted rid)]) /\
    e_thread (el_engine s') = Some LCreate /\ el_run s' = begin_run (set_stop false (el_run s)).
Proof.
  intros Hok Hne Hl Hst Hs Ht. pose proof (ok_flag s Hok) as Hf.
  destruct s as [[x rid0 sr hr er th ss sp li] c st r past rep]. cbn in Hl, Hst, Hs, Ht, Hf. subst x ss li.
  unfold life_over in Hne. cbn [el_engine e_life el_run el_past orb] in Hne. unfold run_ended in Hne.
  destruct Ht as [->| ->]; eexists _, _; (split;
    [cbn [run repeat]; do 5 (unfold life_step at 1, life_over, run_ended; cbn; rewrite ?Hne; cbn); reflexivity
    |split; reflexivity]).
Qed.

(** C31: what an exception in [RunLoop] leaves. Whenever, after calls of
    [StartRun] that did not overlap, the state is error with no call in flight in
    a living process: the run thread is over; the workers are destroyed, or each
    is where the exception left it, not started, half started, started or
    stopped; a stop is refused and a cleanup answered done, and neither changes
    anything; every step of a worker's threads and callbacks goes on exactly as
    before, counting on the metrics; destroying the engine destroys the metrics
    before those workers, which count in them; and the next [StartRun] hands
    them to its thread, which has them to clear before it makes its own. *)
Theorem engine_error_leaves_workers (clock : Z) (ins : list life_input) (s : EngineLife)
    (outs : list (life_output jvalue)) :
  life_run clock ins = Some (s, outs) -> orderly (EngineLife_new clock) ins = true ->
  let e := el_engine s in
  let r := el_run s in
  e_state e = kStateError -> e_starts e = [] -> e_stops e = 0%nat -> e_life e = EAlive -> life_over s = false ->
  (forall t stamp throws, life_step s (ELoop t stamp throws) = None) /\
  (all_destroyed r \/ Forall (fun gw => untouched (w_owner (snd gw))) (rs_workers r)) /\
  life_step s EStopCheck = Some (s, [EOut (ORefused "cannot stop: current state is error")]) /\
  life_step s ECleanup = Some (s, [EOut (OCleanup true)]) /\
  (forall t n x g w w' o, rs_clock r <= t -> owner_input x = false ->
     rs_workers r !! n = Some (g, w) -> worker_step g w (t, x) = Some (w', o) ->
     exists s', life_step s (EWorker t n x) = Some (s', ERun <$> (OWorker n <$> o)) /\ el_engine s' = e /\
       rs_workers (el_run s') = <[n := (g, w')]> (rs_workers r) /\
       rs_metrics (el_run s') = apply_updates (worker_updates g o) (rs_metrics r)) /\
  (exists ds s', (ds = [EDestroy] \/ ds = [EDestroy; EDestroyJoin]) /\
     run life_step s ds = Some (s', [EFreed (not_destroyed r)])) /\
  (forall config fresh now, exists s' rid,
     run life_step s (EStartCheck :: repeat (EStart 0 config fresh now) 4) = Some (s', [EOut (OStarted rid)]) /\
     (all_destroyed r \/ clearing LCreate (el_run s') = true /\ rs_workers (el_run s') = rs_workers r)).
Proof.
  intros Hr Ho e r Hst Hs Hsp Hl Hne. pose proof (life_ok_run _ _ _ _ Ho Hr) as Hok.
  destruct (error_at_rest s Hok Hst Hs) as [Hlo Ht].
  assert (members_gone s = false) as Hm by (unfold members_gone; subst e; by rewrite Hl).
  assert (all_destroyed r \/ rs_stage r <> RReport /\ rs_stage r <> RDone) as Hcase.
  { destruct (rs_stage r) eqn:E; try (by right); left; apply left_over_ended; auto. }
  split_and!.
  - intros t stamp throws. unfold life_step. rewrite Hne. cbn [live_step]. destruct (_ || _); [done|].
    unfold run_thread_step. by destruct Ht as [-> | ->].
  - destruct Hcase as [Hd|Hn]; [by left|right]. apply Forall_lookup_2. intros i [g w] Hg.
    destruct (Hlo i g w Hg) as [Hu _]. subst r. destruct Hn as [Hn1 Hn2]. by destruct (rs_stage (el_run s)).
  - unfold life_step. rewrite Hne. cbn [live_step]. unfold control_step, engine_step, StopRun_check.
    subst e. rewrite Hl, Hst, with_engine_same; [done|apply Hok].
  - unfold life_step. rewrite Hne. cbn [live_step]. unfold control_step, engine_step, CleanupChannels.
    subst e. rewrite Hl, Hst, with_engine_same; [done|apply Hok].
  - intros. by apply worker_step_life with (g := g) (w := w).
  - by apply destroy_run.
  - intros config fresh now. destruct (restart_run s config fresh now Hok Hne Hl Hst Hs Ht) as (s' & rid & Hrun & Hth & Hw).
    exists s', rid. split; [exact Hrun|]. destruct Hcase as [Hd|[Hn1 Hn2]]; [by left|right]. rewrite Hw.
    unfold clearing, begin_run. subst r. cbn [set_stop rs_stage]. by destruct (rs_stage (el_run s)).
Qed.

End life.

(** ** Concrete lives *)

(** Two workers of events; a run that comes to its end. *)
Definition two_channels : Config :=
  mkConfig "host:1" "p" 60 5 "run" 64 {["events" := mkPatternConfig true 2 1 1 false 1 1 50]}
    (mkQueueConfig 1 2 true) 9 [].

Definition started : list life_input :=
  (EStartCheck :: repeat (EStart 0 two_channels "f" "t0") 4 ++ repeat (ELoop 0 "" false) 4)%list.

(** The second worker's first thread cannot be made; the first one sends on. *)
Definition failed_start : list life_input :=
  (started ++ [ELoop 0 "" false; ELoop 0 "" false; ELoop 0 "" true; ELoop 0 "" false])%list.

Definition worker_sends : list life_input :=
  [EWorker 0 0 (IProduceOk true); EWorker 0 0 IProduce; EWorker 0 0 IProduce; EWorker 0 0 (ISent (RStatus StatusOk))].

(** A run that comes to its end when it is stopped, with no worker to wait for. *)
Definition no_patterns : Config := mkConfig "host:1" "p" 60 5 "run" 64 ∅ (mkQueueConfig 1 2 true) 9 [].

Definition stopped_run : list life_input :=
  (EStartCheck :: repeat (EStart 0 no_patterns "f" "t0") 4 ++ repeat (ELoop 0 "" false) 5 ++
   [EStopCheck; EStopFlag] ++ repeat (ELoop 0 "t1" false) 6)%list.

Notation demo_life := (@life_run run_json "host:1" 0).
Notation demo_step := (@life_step run_json "host:1").

Definition life_sends (o : list (life_output (@jvalue run_json))) : nat :=
  length (List.filter (fun x => match x with ERun (OWorker _ (OSend _ _ _)) => true | _ => false end) o).

(** The first worker sends on, and would be freed after the metrics. *)
Lemma engine_error_leaves_workers_witness :
  exists s outs s1 o1 ds s2, demo_life failed_start = Some (s, outs) /\
    demo_step s EStopCheck = Some (s, [EOut (ORefused "cannot stop: current state is error")]) /\
    run demo_step s worker_sends = Some (s1, o1) /\ (0 < life_sends o1)%nat /\
    run demo_step s ds = Some (s2, [EFreed [0%nat; 1%nat]]).
Proof.
  destruct (demo_life failed_start) as [[s outs]|] eqn:E; [|vm_compute in E; discriminate E].
  assert (@orderly run_json "host:1" (EngineLife_new 0) failed_start = true) as Ho by (vm_compute; reflexivity).
  assert (e_state (el_engine s) = kStateError /\ e_starts (el_engine s) = [] /\ e_stops (el_engine s) = 0%nat /\
    e_life (el_engine s) = EAlive /\ life_over s = false /\ not_destroyed (el_run s) = [0%nat; 1%nat] /\
    exists s1 o1, run demo_step s worker_sends = Some (s1, o1) /\ (0 < life_sends o1)%nat)
    as (H1 & H2 & H3 & H4 & H5 & H6 & s1 & o1 & H7 & H8).
  { vm_compute in E. injection E as <- _. split_and!; try reflexivity. eexists _, _.
    split; [vm_compute; reflexivity|vm_compute; lia]. }
  destruct (@engine_error_leaves_workers run_json "host:1" 0 failed_start s outs E Ho H1 H2 H3 H4 H5)
    as (_ & _ & Hstop & _ & _ & (ds & s2 & _ & Hd) & _).
  exists s, outs, s1, o1, ds, s2. rewrite H6 in Hd. by split_and!.
Defined.

(** A stop, and the steps that are left then. *)
Lemma engine_life_contract_witness :
  exists s outs, demo_life (started ++ [EStopCheck; EStopFlag]) = Some (s, outs) /\ e_state (el_engine s) = kStateStopping /\
    life_enabled "host:1" s /\
    forall ins' s' outs', EStartCheck ∉ ins' -> run demo_step s ins' = Some (s', outs') -> (life_loop_steps ins' <= 38)%nat.
Proof.
  destruct (demo_life (started ++ [EStopCheck; EStopFlag])) as [[s outs]|] eqn:E; [|vm_compute in E; discriminate E].
  destruct (@engine_life_contract run_json "host:1" 0 (started ++ [EStopCheck; EStopFlag]) s outs E) as [_ Ho].
  destruct Ho as (_ & _ & _ & _ & _ & Hl & Hs); [vm_compute; reflexivity|].
  exists s, outs. split; [reflexivity|].
  assert (e_state (el_engine s) = kStateStopping /\ loop_live (el_engine s) = true /\ e_stop_requested (el_engine s) = true /\
    e_starts (el_engine s) = [] /\ plan_size "host:1" s = 2%nat /\ length (rs_workers (el_run s)) = 2%nat /\
    life_over s = false) as (H1 & H2 & H3 & H4 & H5 & H6 & H7) by (vm_compute in E; injection E as <- _; vm_compute; auto 10).
  split; [exact H1|]. split; [exact (Hl H2 H7)|]. intros ins' s' outs' Hn Hr.
  destruct (Hs H3 H4 ins' s' outs' Hn Hr) as [Hb _]. rewrite H5, H6 in Hb. exact Hb.
Defined.

(** The stopped run has its report. *)
Example stopped_run_reports :
  match demo_life stopped_run with
  | Some (s, _) => match el_report s, e_state (el_engine s) with Some _, kStateStopped => true | _, _ => false end
  | None => false
  end = true.
Proof. vm_compute. reflexivity. Qed.
