(* ===== verification/MainRun.v ===== *)
(** * The burn-in process

    Models the body of burnin/main.cc's [main] after its settings are resolved
    (Main): the signal handler, the loop that waits for it, and the way to the
    end, interleaved with the calls the server's handlers make of the engine
    and with the engine's own threads (EngineLife). Of the server library it is
    used that [Stop] lets no new request in and that the server's thread ends
    when the requests in progress have. *)

From Stdlib Require Import ZArith Lia Ascii String.
From S2P Require Import Prelude Automaton Client Engine Json Config Metrics.
From S2P Require Import Worker WorkerStop RunPlan Report Run RunStop Server EngineLife Main.

Local Open Scope string_scope.
Local Open Scope Z_scope.

(** Where [main] is. *)
Inductive main_pc :=
  | MTest                        (* while (!g_shutdown.load()) *)
  | MSleep (since : Z)
  | MState                       (* engine.State() *)
  | MStopCheck | MStopFlag       (* engine.StopRun() *)
  | MServerStop                  (* http_server.Stop() *)
  | MServerJoin                  (* server_thread.join() *)
  | MDestroy | MDestroyJoin      (* ~Engine *)
  | MReturned.

Record MainRun {J : Type} := mkMainRun {
  mr_pc : main_pc;
  mr_shutdown : bool;                 (* g_shutdown *)
  mr_serving : bool;                  (* the server takes requests *)
  mr_life : EngineLife J
}.
Arguments MainRun : clear implicits.

Inductive main_input :=
  | PSignal                           (* SIGINT or SIGTERM *)
  | PMain (t : Z)                     (* the next step of main *)
  | PHandler (i : life_input)         (* a step of a call a handler makes *)
  | PEngine (i : life_input).         (* the run thread or a worker *)

(** What a handler calls, and what begins a request. *)
Definition is_call (i : life_input) : bool :=
  match i with EStartCheck | EStart _ _ _ _ | EStartFails _ | EStopCheck | EStopFlag | ECleanup => true | _ => false end.
Definition begins_call (i : life_input) : bool :=
  match i with EStartCheck | EStopCheck | ECleanup => true | _ => false end.
Definition is_engine_thread (i : life_input) : bool :=
  match i with ELoop _ _ _ | EWorker _ _ _ | EPast _ _ _ => true | _ => false end.

(** The second step of [main]'s own [StopRun] is not a handler's. *)
Definition handler_stops (p : main_pc) (e : Engine) : nat :=
  match p with MStopFlag => pred (e_stops e) | _ => e_stops e end.

Section main_run.
Context `{JsonValues} (broker : string).

Notation MainRun := (MainRun jvalue).
Definition main_stepped : Type := option (MainRun * list (life_output jvalue)).

Definition MainRun_new (clock : Z) : MainRun := mkMainRun jvalue MTest false true (EngineLife_new clock).

Definition at_main (p : main_pc) (s : MainRun) : MainRun :=
  mkMainRun jvalue p (mr_shutdown s) (mr_serving s) (mr_life s).

(** A step of the engine, after which [main] is at [next]. *)
Definition engine_at (i : life_input) (next : EngineLife jvalue -> main_pc) (s : MainRun) : main_stepped :=
  match life_step broker (mr_life s) i with
  | Some (l, o) => Some (mkMainRun jvalue (next l) (mr_shutdown s) (mr_serving s) l, o)
  | None => None
  end.

Definition SignalHandler (s : MainRun) : MainRun :=
  mkMainRun jvalue (mr_pc s) true (mr_serving s) (mr_life s).

Definition main_thread (t : Z) (s : MainRun) : main_stepped :=
  let quiet s' := Some (s', []) in
  let e := el_engine (mr_life s) in
  match mr_pc s with
  | MTest => quiet (at_main (if mr_shutdown s then MState else MSleep t) s)
  | MSleep since => if since + 1000000000 <=? t then quiet (at_main MTest s) else None
  | MState =>
      quiet (at_main (match e_state e with kStateRunning | kStateStarting => MStopCheck | _ => MServerStop end) s)
  | MStopCheck =>
      engine_at EStopCheck
        (fun l => if (e_stops e <? e_stops (el_engine l))%nat then MStopFlag else MServerStop) s
  | MStopFlag => engine_at EStopFlag (fun _ => MServerStop) s
  | MServerStop => quiet (mkMainRun jvalue MServerJoin (mr_shutdown s) false (mr_life s))
  | MServerJoin => match e_starts e, e_stops e with [], O => quiet (at_main MDestroy s) | _, _ => None end
  | MDestroy =>
      engine_at EDestroy (fun l => match e_life (el_engine l) with EDestroyed => MReturned | _ => MDestroyJoin end) s
  | MDestroyJoin => engine_at EDestroyJoin (fun _ => MReturned) s
  | MReturned => None
  end.

Definition alive_step (s : MainRun) (i : main_input) : main_stepped :=
  match i with
  | PSignal => Some (SignalHandler s, [])
  | PMain t => main_thread t s
  | PHandler x =>
      if is_call x && (mr_serving s || negb (begins_call x)) &&
         match x with EStopFlag => (0 <? handler_stops (mr_pc s) (el_engine (mr_life s)))%nat | _ => true end
      then engine_at x (fun _ => mr_pc s) s
      else None
  | PEngine x => if is_engine_thread x then engine_at x (fun _ => mr_pc s) s else None
  end.

(** The process is over with the engine's: nothing more happens in it. *)
Definition main_step (s : MainRun) (i : main_input) : main_stepped :=
  if life_over (mr_life s) then None else alive_step s i.

Definition main_run (clock : Z) := run main_step (MainRun_new clock).

(** The runs in which requests to start a run do not overlap and can make its
    thread. *)
Definition unruly (s : MainRun) (i : main_input) : bool :=
  match i with PHandler x => disordered (el_engine (mr_life s)) x | _ => false end.

Fixpoint ruly (s : MainRun) (ins : list main_input) : bool :=
  match ins with
  | [] => true
  | i :: ins' => negb (unruly s i) && match main_step s i with Some (s', _) => ruly s' ins' | None => true end
  end.

Definition ruly_step (s : MainRun) (i : main_input) : main_stepped := if unruly s i then None else main_step s i.

Lemma ruly_run s ins : ruly s ins = true -> run ruly_step s ins = run main_step s ins.
Proof.
  revert s. induction ins as [|i ins IH]; intros s; [done|]. cbn. unfold ruly_step.
  intros [Hd Ho]%andb_true_iff. apply negb_true_iff in Hd. rewrite Hd.
  destruct (main_step s i) as [[s' o]|]; [|done]. by rewrite IH.
Qed.

Lemma main_step_alive s i r : main_step s i = Some r -> life_over (mr_life s) = false /\ alive_step s i = Some r.
Proof. unfold main_step. by destruct (life_over (mr_life s)). Qed.

(** An orderly step of the engine. *)
Lemma life_ok_orderly (l l' : EngineLife jvalue) i o :
  life_ok broker l -> disordered (el_engine l) i = false -> life_step broker l i = Some (l', o) -> life_ok broker l'.
Proof. intros Hok Hd Hs. apply (life_ok_step _ l i l' o Hok). unfold life_serial_step. by rewrite Hd. Qed.

(** ** Where the engine is when main is somewhere *)

Definition main_placed (s : MainRun) : Prop :=
  let e := el_engine (mr_life s) in
  match mr_pc s with
  | MTest | MSleep _ | MState | MStopCheck => e_life e = EAlive /\ mr_serving s = true
  | MStopFlag => e_life e = EAlive /\ (0 < e_stops e)%nat
  | MServerStop => e_life e = EAlive
  | MServerJoin => e_life e = EAlive /\ mr_serving s = false
  | MDestroy => e_life e = EAlive /\ mr_serving s = false /\ e_starts e = [] /\ e_stops e = 0%nat
  | MDestroyJoin => e_life e = EDestroying /\ mr_serving s = false /\ e_starts e = [] /\ e_stops e = 0%nat /\
      e_stop_requested e = true /\ e_thread e <> None
  | MReturned => e_life e = EDestroyed /\ mr_serving s = false /\ e_starts e = [] /\ e_stops e = 0%nat
  end.

Lemma RunLoop_step_kept ok e e' :
  RunLoop_step ok e = Some e' ->
  e_life e' = e_life e /\ e_starts e' = e_starts e /\ e_stops e' = e_stops e /\ e_stop_requested e' = e_stop_requested e /\
  (e_thread e' = None -> e_thread e = None).
Proof. unfold RunLoop_step. intros Hl. by destruct (e_thread e) as [[]|]; simplify_eq/=; repeat case_match; simplify_eq/=. Qed.

(** A step of the engine's threads. *)
Lemma thread_frame (l l' : EngineLife jvalue) i o :
  is_engine_thread i = true -> life_step broker l i = Some (l', o) ->
  e_life (el_engine l') = e_life (el_engine l) /\ e_starts (el_engine l') = e_starts (el_engine l) /\
  e_stops (el_engine l') = e_stops (el_engine l) /\ e_stop_requested (el_engine l') = e_stop_requested (el_engine l) /\
  (e_thread (el_engine l') = None -> e_thread (el_engine l) = None).
Proof.
  intros Hi Hs. assert (el_engine l' = el_engine l \/ exists ok, RunLoop_step ok (el_engine l) = Some (el_engine l')) as [->|[ok Hl]].
  - destruct i as [| | | | | |t stamp throws|t n x|t n x| |]; try done;
      [|left; by apply worker_distance in Hs as [-> _]|left; by apply past_distance in Hs as [-> _]].
    apply life_step_live in Hs as [_ Hs]. cbn [live_step] in Hs. destruct (_ || _); [done|]. by eapply run_thread_engine.
  - done.
  - by eapply RunLoop_step_kept.
Qed.

(** A step of a call. *)
Lemma call_frame (l l' : EngineLife jvalue) i o :
  is_call i = true -> disordered (el_engine l) i = false -> life_step broker l i = Some (l', o) ->
  e_life (el_engine l') <> ETerminated ->
  e_life (el_engine l) = EAlive /\ e_life (el_engine l') = EAlive /\
  match i with EStopFlag => e_stops (el_engine l) = S (e_stops (el_engine l')) | _ => (e_stops (el_engine l) <= e_stops (el_engine l'))%nat end /\
  (e_starts (el_engine l) = [] -> begins_call i = true \/ i = EStopFlag).
Proof.
  intros Hi Hdis [_ Hs]%life_step_live Ht. assert (exists j e oe, engine_step (el_engine l) j = Some (e, oe) /\ el_engine l' = e /\
    match i with EStartCheck => j = IStartCheck | EStart n _ _ _ => exists r, j = IStart n r | EStopCheck => j = IStopCheck
    | EStopFlag => j = IStopFlag | ECleanup => j = ICleanup | _ => False end) as (j & e & oe & He & <- & Hj).
  { destruct i; try done; cbn [live_step] in Hs; unfold start_call in Hs;
      (destruct (control_step _ l) as [[l1 o1]|] eqn:Ec; [|done]); injection Hs as <- _;
      apply control_step_engine in Ec; eexists _, _, _; (split; [exact Ec|]); (split; [|by eauto]); try done.
    by destruct (e_starts (el_engine l) !! i) as [[]|], (e_thread (el_engine l)). }
  unfold engine_step, StartRun_check, StartRun_step, StopRun_check, StopRun_flag in He.
  destruct (e_life (el_engine l)) eqn:El; destruct i; try done; first [subst j|destruct Hj as [rid Hj]; subst j]; try done.
  - split; [done|]. destruct (may_start _); injection He as <- _; cbn; rewrite ?El; split_and!; auto.
  - split; [done|]. destruct (e_starts (el_engine l) !! i) as [p|] eqn:Ep; [|done].
    assert (e_starts (el_engine l) <> []) as Hne by (intros E; by rewrite E in Ep).
    assert (e_life (el_engine l') = EAlive /\ e_stops (el_engine l') = e_stops (el_engine l)) as [H1 H2].
    { destruct p; [by injection He as <- _|by injection He as <- _|..]; destruct (e_thread (el_engine l)) as [[]|]; try done;
        injection He as He _; rewrite <- He in *; done. }
    split; [done|]. split; [lia|]. by intros E.
  - split; [done|]. destruct (e_state (el_engine l)); injection He as <- _; cbn; rewrite ?El; split_and!; auto; lia.
  - split; [done|]. destruct (e_stops (el_engine l)); [done|]. injection He as <- _. cbn. rewrite ?El. split_and!; auto.
  - split; [done|]. injection He as <- _. rewrite ?El. split_and!; auto.
Qed.

Definition process_ok (s : MainRun) : Prop := life_ok broker (mr_life s) /\ main_placed s.

Lemma life_alive (l : EngineLife jvalue) : life_ok broker l -> e_life (el_engine l) <> ETerminated.
Proof. intros Hok. apply (ok_engine _ _ Hok). Qed.

Lemma thread_kept s x s' o :
  process_ok s -> is_engine_thread x = true -> engine_at x (fun _ => mr_pc s) s = Some (s', o) -> process_ok s'.
Proof.
  unfold engine_at. intros [Hok Hp] Hx Hs. destruct (life_step broker (mr_life s) x) as [[l o1]|] eqn:Hl; [|done].
  injection Hs as <- _. split; [eapply life_ok_orderly; [exact Hok| |exact Hl]; by destruct x|]. destruct (thread_frame _ _ _ _ Hx Hl) as (H1 & H2 & H3 & H4 & H5).
  unfold main_placed in *. cbn [mr_pc mr_life mr_serving]. rewrite H1, H2, H3, H4. destruct (mr_pc s); try done.
  destruct Hp as (? & ? & ? & ? & ? & Ht). split_and!; auto.
Qed.

Lemma handler_kept s x s' o :
  process_ok s -> disordered (el_engine (mr_life s)) x = false -> alive_step s (PHandler x) = Some (s', o) -> process_ok s'.
Proof.
  cbn [alive_step]. intros [Hok Hp] Hdis Hs. destruct (is_call x) eqn:Hx; [|done]. cbn [andb] in Hs.
  destruct (mr_serving s || negb (begins_call x)) eqn:Hb; [|done]. cbn [andb] in Hs.
  destruct (match x with EStopFlag => _ | _ => true end) eqn:Hf; [|done]. unfold engine_at in Hs.
  destruct (life_step broker (mr_life s) x) as [[l o1]|] eqn:Hl; [|done]. injection Hs as <- _.
  assert (life_ok broker l) as Hok' by (by eapply life_ok_orderly). split; [done|].
  destruct (call_frame _ _ _ _ Hx Hdis Hl (life_alive _ Hok')) as (H1 & H2 & H3 & H4).
  unfold main_placed, handler_stops in *. cbn [mr_pc mr_life mr_serving].
  assert (mr_serving s = false -> e_starts (el_engine (mr_life s)) = [] -> x = EStopFlag) as Hstop.
  { intros E He. rewrite E in Hb. destruct (H4 He) as [Hbc|]; [by rewrite Hbc in Hb|done]. }
  destruct (mr_pc s); try (destruct Hp as (E & _); congruence); try (destruct Hp as (_ & E); by split); try done.
  - destruct Hp as [_ Hp]. split; [done|]. destruct x; try lia. apply Nat.ltb_lt in Hf. lia.
  - destruct Hp as (_ & Hsv & He & Hst). rewrite (Hstop Hsv He) in Hf. by rewrite Hst in Hf.
Qed.

Lemma main_thread_kept s t s' o : process_ok s -> main_thread t s = Some (s', o) -> process_ok s'.
Proof.
  unfold main_thread. intros [Hok Hp] Hs.
  assert (forall p, main_placed (at_main p s) -> process_ok (at_main p s)) as Hat by (intros p Hm; by split).
  assert (forall x next, disordered (el_engine (mr_life s)) x = false -> engine_at x next s = Some (s', o) ->
    exists l, life_step broker (mr_life s) x = Some (l, o) /\
    life_ok broker l /\ s' = mkMainRun jvalue (next l) (mr_shutdown s) (mr_serving s) l) as He.
  { unfold engine_at. intros x next Hdis Hx. destruct (life_step broker (mr_life s) x) as [[l o1]|] eqn:Hl; [|done].
    injection Hx as <- <-. exists l. split; [done|]. split; [by eapply life_ok_orderly|done]. }
  unfold main_placed in *. destruct (mr_pc s) eqn:Epc; cbn [at_main mr_pc mr_life mr_serving] in *.
  - injection Hs as <- _. apply Hat. by destruct (mr_shutdown s).
  - destruct (_ <=? t); [|done]. injection Hs as <- _. by apply Hat.
  - injection Hs as <- _. apply Hat. destruct (e_state _); by try destruct Hp.
  - apply He in Hs as (l & Hl & Hol & ->); [|done]. split; [done|]. unfold main_placed. cbn [mr_pc mr_life mr_serving].
    destruct (call_frame _ _ EStopCheck _ eq_refl eq_refl Hl (life_alive _ Hol)) as (H1 & H2 & H3 & _).
    destruct (Nat.ltb_spec (e_stops (el_engine (mr_life s))) (e_stops (el_engine l))); [|done]. split; [done|lia].
  - apply He in Hs as (l & Hl & Hol & ->); [|done]. split; [done|]. unfold main_placed. cbn [mr_pc mr_life mr_serving].
    by destruct (call_frame _ _ EStopFlag _ eq_refl eq_refl Hl (life_alive _ Hol)) as (H1 & H2 & _).
  - injection Hs as <- _. by split.
  - destruct Hp as [Ha Hsv]. destruct (e_starts _) eqn:E1; [|done]. destruct (e_stops _) eqn:E2; [|done].
    injection Hs as <- _. by apply Hat.
  - apply He in Hs as (l & Hl & Hol & ->); [|done]. split; [done|]. unfold main_placed. cbn [mr_pc mr_life mr_serving].
    destruct Hp as (Ha & Hsv & H1 & H2). apply life_step_live in Hl as [_ Hl]. cbn [live_step] in Hl. unfold destroy_call in Hl.
    destruct (control_step _ _) as [[l1 o1]|] eqn:Ec; [|done]. injection Hl as <- _.
    apply control_step_engine in Ec. unfold engine_step, Engine_destroy in Ec. rewrite Ha, H1, H2 in Ec.
    destruct (e_thread (el_engine (mr_life s))); injection Ec as Ec _; rewrite <- Ec; by split_and!.
  - apply He in Hs as (l & Hl & Hol & ->); [|done]. split; [done|]. unfold main_placed. cbn [mr_pc mr_life mr_serving].
    destruct Hp as (Ha & Hsv & H1 & H2 & _). apply life_step_live in Hl as [_ Hl]. cbn [live_step] in Hl. unfold destroy_call in Hl.
    destruct (control_step _ _) as [[l1 o1]|] eqn:Ec; [|done]. injection Hl as <- _.
    apply control_step_engine in Ec. unfold engine_step in Ec. rewrite Ha in Ec.
    destruct (e_thread (el_engine (mr_life s))) as [[]|]; try done; injection Ec as Ec _; rewrite <- Ec; by split_and!.
  - done.
Qed.

Lemma process_ok_step s i s' o : process_ok s -> ruly_step s i = Some (s', o) -> process_ok s'.
Proof.
  unfold ruly_step. intros Hok Hs. destruct (unruly s i) eqn:Hr; [done|].
  apply main_step_alive in Hs as [_ Hs]. destruct i as [|t|x|x].
  - injection Hs as <- _. exact Hok.
  - by eapply main_thread_kept.
  - by eapply handler_kept.
  - cbn [alive_step] in Hs. destruct (is_engine_thread x) eqn:Hx; [|done]. by eapply thread_kept.
Qed.

Lemma process_ok_run clock ins s outs :
  ruly (MainRun_new clock) ins = true -> main_run clock ins = Some (s, outs) -> process_ok s.
Proof.
  unfold main_run. intros Ho. rewrite <- (ruly_run _ _ Ho).
  apply (run_invariant ruly_step); [|intros; by eapply process_ok_step]. split; [apply life_ok_new|done].
Qed.

(** ** After the signal *)

Definition main_distance (p : main_pc) : nat :=
  match p with
  | MSleep _ => 9 | MTest => 8 | MState => 7 | MStopCheck => 6 | MStopFlag => 5 | MServerStop => 4
  | MServerJoin => 3 | MDestroy => 2 | MDestroyJoin => 1 | MReturned => 0
  end.

Definition is_main (i : main_input) : bool := match i with PMain _ => true | _ => false end.
Definition main_steps (ins : list main_input) : nat := length (List.filter is_main ins).

Definition is_loop (i : main_input) : bool := match i with PEngine x => is_life_loop x | _ => false end.
Definition run_thread_steps (ins : list main_input) : nat := length (List.filter is_loop ins).

Lemma engine_at_inv x next s s' o :
  engine_at x next s = Some (s', o) ->
  exists l, life_step broker (mr_life s) x = Some (l, o) /\ s' = mkMainRun jvalue (next l) (mr_shutdown s) (mr_serving s) l.
Proof.
  unfold engine_at. destruct (life_step broker (mr_life s) x) as [[l o1]|]; [|done]. intros [= <- <-]. by exists l.
Qed.

Lemma main_step_distance s i s' o :
  mr_shutdown s = true -> main_step s i = Some (s', o) ->
  mr_shutdown s' = true /\ (main_distance (mr_pc s') + (if is_main i then 1 else 0) <= main_distance (mr_pc s))%nat.
Proof.
  intros Hd [_ Hs]%main_step_alive. destruct i as [|t|x|x]; cbn [alive_step is_main] in *.
  - injection Hs as <- _. split; [done|cbn; lia].
  - unfold main_thread in Hs. rewrite Hd in Hs. destruct (mr_pc s) eqn:Epc;
      try (apply engine_at_inv in Hs as (l & _ & ->); split; [done|]; cbn [mr_pc]; repeat case_match; cbn; lia).
    + injection Hs as <- _. split; [done|]. cbn. lia.
    + case_match; [|done]. injection Hs as <- _. split; [done|]. cbn. lia.
    + injection Hs as <- _. split; [done|]. cbn. by destruct (e_state _); cbn; lia.
    + injection Hs as <- _. split; [done|]. cbn. lia.
    + destruct (e_starts _); [|done]. destruct (e_stops _); [|done]. injection Hs as <- _. split; [done|]. cbn. lia.
    + done.
  - destruct (_ && _); [|done]. apply engine_at_inv in Hs as (l & _ & ->). split; [done|]. cbn. lia.
  - destruct (is_engine_thread x); [|done]. apply engine_at_inv in Hs as (l & _ & ->). split; [done|]. cbn. lia.
Qed.

Lemma main_steps_bound s ins s' outs :
  mr_shutdown s = true -> run main_step s ins = Some (s', outs) -> (main_steps ins <= main_distance (mr_pc s))%nat.
Proof.
  unfold main_steps. revert s outs. induction ins as [|i ins IH]; intros s outs Hd Hr; cbn [run] in Hr; [cbn; lia|].
  destruct (main_step s i) as [[s1 o]|] eqn:Hs; [|done]. destruct (run main_step s1 ins) as [[s2 os]|] eqn:Hr1; [|done].
  destruct (main_step_distance _ _ _ _ Hd Hs) as [Hd1 Hle]. injection Hr as -> _.
  pose proof (IH s1 os Hd1 Hr1). cbn [List.filter]. destruct (is_main i); cbn [length]; lia.
Qed.

(** When the requests are over and the engine has been told to stop. *)
Definition ending (s : MainRun) : Prop := mr_serving s = false /\ stop_asked broker (mr_life s).

Lemma ending_step s i s' o :
  ending s -> main_step s i = Some (s', o) ->
  ending s' /\ (life_distance broker (mr_life s') + (if is_loop i then 1 else 0) <= life_distance broker (mr_life s))%nat.
Proof.
  intros [Hsv Ha] [_ Hs]%main_step_alive.
  assert (forall x next, x <> EStartCheck -> engine_at x next s = Some (s', o) -> ending s' /\
    (life_distance broker (mr_life s') + (if is_life_loop x then 1 else 0) <= life_distance broker (mr_life s))%nat) as He.
  { intros x next Hx (l & Hl & ->)%engine_at_inv.
    destruct (stop_asked_step _ _ _ _ _ Ha Hx Hl) as [Ha' Hd]. by split. }
  assert (forall p, ending (at_main p s) /\ (life_distance broker (mr_life (at_main p s)) + 0 <= life_distance broker (mr_life s))%nat)
    as Hq by (intros p; split; [done|cbn; lia]).
  destruct i as [|t|x|x]; cbn [alive_step is_loop] in *.
  - injection Hs as <- _. split; [done|cbn; lia].
  - unfold main_thread in Hs. destruct (mr_pc s).
    1: by injection Hs as <- _; apply Hq.
    1: by case_match; [|done]; injection Hs as <- _; apply Hq.
    1: by injection Hs as <- _; apply Hq.
    1: by apply He in Hs.
    1: by apply He in Hs.
    1: by injection Hs as <- _; split; [done|cbn; lia].
    1: by destruct (e_starts _); [|done]; destruct (e_stops _); [|done]; injection Hs as <- _; apply Hq.
    1: by apply He in Hs.
    1: by apply He in Hs.
    done.
  - destruct (_ && _) eqn:E; [|done]. apply andb_true_iff in E as [E _]. apply andb_true_iff in E as [Hx Hb].
    rewrite Hsv in Hb. apply He in Hs; [by destruct x|by destruct x].
  - destruct (is_engine_thread x) eqn:E; [|done]. apply He in Hs; [done|by destruct x].
Qed.

Lemma ending_bound s ins s' outs :
  ending s -> run main_step s ins = Some (s', outs) -> (run_thread_steps ins <= life_distance broker (mr_life s))%nat.
Proof.
  unfold run_thread_steps. revert s outs. induction ins as [|i ins IH]; intros s outs Hd Hr; cbn [run] in Hr; [cbn; lia|].
  destruct (main_step s i) as [[s1 o]|] eqn:Hs; [|done]. destruct (run main_step s1 ins) as [[s2 os]|] eqn:Hr1; [|done].
  destruct (ending_step _ _ _ _ Hd Hs) as [Hd1 Hle]. injection Hr as -> _.
  pose proof (IH s1 os Hd1 Hr1). cbn [List.filter]. destruct (is_loop i); cbn [length]; lia.
Qed.

(** ** Something can always go on *)

(** Neither a signal nor a new request. *)
Definition goes_on_alone (i : main_input) : bool :=
  match i with PSignal => false | PHandler x => negb (begins_call x) | _ => true end.

Definition main_enabled (s : MainRun) : Prop :=
  exists f t0, (forall t, goes_on_alone (f t) = true) /\ forall t, t0 <= t -> is_Some (main_step s (f t)).

Lemma engine_at_enabled x next s l :
  life_step broker (mr_life s) x = Some l -> is_Some (engine_at x next s).
Proof. unfold engine_at. intros ->. destruct l. by eexists. Qed.

Lemma main_goes_on s :
  process_ok s -> life_over (mr_life s) = false -> mr_pc s <> MReturned -> main_enabled s.
Proof.
  intros [Hok Hp] Hne Hr.
  assert (forall t0, (forall t, t0 <= t -> is_Some (main_thread t s)) -> main_enabled s) as Hm
    by (intros t0 Ht; exists PMain, t0; split; [done|]; intros t Hle; unfold main_step; rewrite Hne; by apply Ht).
  unfold main_placed, main_thread in *. destruct (mr_pc s) eqn:Epc; try done.
  - apply (Hm 0). intros t _. by eexists.
  - apply (Hm (since + 1000000000)). intros t Ht. destruct (Z.leb_spec (since + 1000000000) t); [by eexists|lia].
  - apply (Hm 0). intros t _. by eexists.
  - apply (Hm 0). intros t _. unfold engine_at. unfold life_step; rewrite Hne; cbn [live_step]. unfold control_step, engine_step.
    rewrite (proj1 Hp). destruct (StopRun_check _). by eexists.
  - apply (Hm 0). intros t _. unfold engine_at. unfold life_step; rewrite Hne; cbn [live_step]. unfold control_step, engine_step, StopRun_flag.
    destruct Hp as [-> Hp]. destruct (e_stops _); [lia|by eexists].
  - apply (Hm 0). intros t _. by eexists.
  - destruct Hp as [Ha Hsv]. destruct (e_starts (el_engine (mr_life s))) as [|p starts] eqn:E1.
    + destruct (e_stops (el_engine (mr_life s))) eqn:E2; [apply (Hm 0); intros t _; by eexists|].
      exists (fun _ => PHandler EStopFlag), 0. split; [done|]. intros t _. unfold main_step; rewrite Hne; cbn [alive_step is_call begins_call andb orb negb].
      unfold handler_stops. rewrite Epc, E2, orb_true_r. cbn [andb Nat.ltb Nat.leb]. unfold engine_at.
      unfold life_step; rewrite Hne; cbn [live_step]. unfold control_step, engine_step, StopRun_flag. rewrite Ha, E2. by eexists.
    + exists (fun _ => PHandler (EStart 0 Config_new "" "")), 0. split; [done|]. intros t _.
      unfold main_step; rewrite Hne; cbn [alive_step is_call begins_call andb orb negb]. rewrite orb_true_r. cbn [andb]. unfold engine_at.
      unfold life_step; rewrite Hne; cbn [live_step]. unfold start_call, control_step, engine_step. rewrite Ha.
      unfold StartRun_step. rewrite E1. cbn [lookup list_lookup].
      pose proof (ok_engine _ _ Hok) as [_ Hi]. rewrite E1 in Hi. destruct starts; [|by destruct p].
      destruct p; try by eexists.
      * destruct Hi as (_ & Hl & _). unfold loop_live in Hl. destruct (e_thread _) as [[]|]; try done; by eexists.
      * destruct Hi as (_ & -> & _). by eexists.
  - apply (Hm 0). intros t _. destruct Hp as (Ha & _ & H1 & H2). unfold engine_at. unfold life_step; rewrite Hne; cbn [live_step].
    unfold destroy_call, control_step, engine_step, Engine_destroy. rewrite Ha, H1, H2. destruct (e_thread _); by eexists.
  - destruct Hp as (Ha & _ & H1 & _ & _ & Hth). destruct (loop_live (el_engine (mr_life s))) eqn:Hl.
    + destruct (life_goes_on _ _ Hok Hne Hl) as (f & t0 & Hf & He). exists (fun t => PEngine (f t)), t0. split; [done|].
      intros t Ht. destruct (He t Ht) as [[l o] Hs].
      assert (is_engine_thread (f t) = true) as Hft by (by destruct Hf as [[stamp ->]|(n & x & g & w & -> & _)]).
      unfold main_step. rewrite Hne. cbn [alive_step]. rewrite Hft. by eapply engine_at_enabled.
    + apply (Hm 0). intros t _. unfold engine_at. unfold life_step; rewrite Hne; cbn [live_step].
      unfold destroy_call, control_step, engine_step. rewrite Ha. unfold loop_live in Hl.
      destruct (e_thread (el_engine (mr_life s))) as [[]|]; try done.
Qed.

(** Two requests pass the test, and one after the other make their thread. *)
Definition overlapping_starts : list life_input :=
  (EStartCheck :: EStartCheck ::
   flat_map (fun _ => [EStart 0 Config_new "a" ""; EStart 1 Config_new "b" ""]) (seq 0 3) ++
   repeat (EStart 0 Config_new "" "") 2)%list.

(** C14: the process comes to its end. In every interleaving of [main], the
    signals, the requests, the run thread with its exceptions and the workers,
    [main] takes at most nine steps after a signal. When requests to start a run
    do not overlap and can make its thread, moreover: no joinable thread ends the
    process; until [main] has returned, or the destructor of an upstream handle
    or of a worker has ended the process, it, the rest of a request that is in
    progress or a thread it joins can take a step, now or once a wait is over,
    with no further signal or request; in the destructor's join the run thread
    has at most nine steps left for each worker of the configuration, four for
    each worker an exception had left and twelve more; and when [main] has
    returned the engine is destroyed with its thread joined, and unless the last
    run ended with an exception every worker was destroyed before and a stopped
    run has its report. But two requests to start a run that overlap can end the
    process. *)
Theorem main_run_ends (clock : Z) (ins : list main_input) (s : MainRun) (outs : list (life_output jvalue)) :
  main_run clock ins = Some (s, outs) ->
  let l := mr_life s in
  let e := el_engine l in
  (mr_shutdown s = true -> forall ins' s' outs', run main_step s ins' = Some (s', outs') -> (main_steps ins' <= 9)%nat) /\
  (ruly (MainRun_new clock) ins = true ->
   e_life e <> ETerminated /\
   (mr_pc s <> MReturned -> life_over l = false -> main_enabled s) /\
   (mr_pc s = MDestroyJoin -> forall ins' s' outs', run main_step s ins' = Some (s', outs') ->
      (run_thread_steps ins' <= 9 * plan_size broker l + 4 * length (rs_workers (el_run l)) + 12)%nat) /\
   (mr_pc s = MReturned ->
      e_life e = EDestroyed /\ e_thread e = None /\ may_start (e_state e) = true /\
      (e_state e <> kStateError -> all_destroyed (el_run l)) /\ (e_state e = kStateStopped -> life_reported broker l))) /\
  (exists ins s outs, main_run clock ins = Some (s, outs) /\ e_life (el_engine (mr_life s)) = ETerminated).
Proof.
  intros Hr l e. split; [|split].
  - intros Hd ins' s' outs' Hr'. pose proof (main_steps_bound _ _ _ _ Hd Hr'). destruct (mr_pc s); cbn in *; lia.
  - intros Ho. destruct (process_ok_run _ _ _ _ Ho Hr) as [Hok Hp].
    split; [by apply life_alive|]. split; [by intros; apply main_goes_on|]. unfold main_placed in Hp. split; intros E; rewrite E in Hp.
    + intros ins' s' outs' Hr'. destruct Hp as (_ & Hsv & H1 & _ & Hst & _).
      pose proof (ending_bound s ins' s' outs' ltac:(by split_and!) Hr'). pose proof (life_distance_bound broker l). subst l. lia.
    + destruct Hp as (Hd & _ & H1 & _). split; [exact Hd|].
      pose proof (ok_destroyed _ _ Hok Hd) as Ht. split; [exact Ht|].
      pose proof (ok_engine _ _ Hok) as [_ Hi]. rewrite H1 in Hi. unfold loop_live in Hi. rewrite Ht in Hi.
      destruct (rest_destroyed _ _ Hok H1) as [Ha Hrep]. fold l e in Ha, Hrep, Hi.
      assert (may_start (e_state e) = true) as Hm by by destruct (may_start (e_state e)).
      split; [exact Hm|]. split; [|exact Hrep]. intros Hn. apply Ha. destruct (e_state e); try done; auto.
  - exists (PHandler <$> overlapping_starts). eexists _, _. split; [vm_compute; reflexivity|reflexivity].
Qed.

End main_run.

(** ** A concrete process *)

(** A run is started by a request; a signal comes; [main] stops the run and the
    server, and waits in the destructor for the run thread. *)
Definition signalled : list main_input :=
  (PMain 0 :: PHandler EStartCheck :: repeat (PHandler (EStart 0 no_patterns "f" "t0")) 4 ++
   repeat (PEngine (ELoop 0 "" false)) 5 ++ PSignal :: repeat (PMain 1000000000) 8)%list.
Definition waited_for : list main_input :=
  (repeat (PEngine (ELoop 1000000000 "t1" false)) 6 ++ [PMain 1000000000])%list.

Lemma observed {A} (f : MainRun (@jvalue run_json) -> A) ins a :
  option_map (fun p => f (fst p)) (@main_run run_json "host:1" 0 ins) = Some a ->
  exists s outs, @main_run run_json "host:1" 0 ins = Some (s, outs) /\ f s = a.
Proof. destruct (main_run _ _ _) as [[s outs]|]; [|done]. intros [= <-]. by exists s, outs. Qed.

Lemma main_run_ends_witness :
  (exists s outs, @main_run run_json "host:1" 0 signalled = Some (s, outs) /\ mr_pc s = MDestroyJoin /\
     main_enabled "host:1" s /\
     forall ins' s' outs', run (@main_step run_json "host:1") s ins' = Some (s', outs') ->
       (main_steps ins' <= 9)%nat /\ (run_thread_steps ins' <= 12)%nat) /\
  (exists s outs, @main_run run_json "host:1" 0 (signalled ++ waited_for) = Some (s, outs) /\
     mr_pc s = MReturned /\ e_life (el_engine (mr_life s)) = EDestroyed /\ life_reported "host:1" (mr_life s)).
Proof.
  split.
  - destruct (observed (fun s => (mr_pc s, mr_shutdown s, plan_size "host:1" (mr_life s), length (rs_workers (el_run (mr_life s))),
      life_over (mr_life s))) signalled (MDestroyJoin, true, 0%nat, 0%nat, false) ltac:(vm_compute; reflexivity))
      as (s & outs & E & [= H1 H2 H3 H4 H5]).
    destruct (@main_run_ends run_json "host:1" 0 signalled s outs E) as (Hs & Ho & _).
    destruct Ho as (_ & He & Hj & _); [vm_compute; reflexivity|].
    exists s, outs. split; [exact E|]. split; [exact H1|].
    split; [apply He; [intros X; discriminate (eq_trans (eq_sym X) H1)|exact H5]|].
    intros ins' s' outs' Hr. split; [exact (Hs H2 ins' s' outs' Hr)|].
    pose proof (Hj H1 ins' s' outs' Hr) as Hb.
    rewrite (H3 : plan_size "host:1" (mr_life s) = 0%nat), (H4 : length (rs_workers (el_run (mr_life s))) = 0%nat) in Hb. exact Hb.
  - destruct (observed (fun s => (mr_pc s, e_state (el_engine (mr_life s)))) (signalled ++ waited_for)
      (MReturned, kStateStopped) ltac:(vm_compute; reflexivity)) as (s & outs & E & [= H1 H2]).
    destruct (@main_run_ends run_json "host:1" 0 (signalled ++ waited_for) s outs E) as (_ & Ho & _).
    destruct Ho as (_ & _ & _ & Hr); [vm_compute; reflexivity|]. destruct (Hr H1) as (Hd & _ & _ & _ & Hrep).
    exists s, outs. split; [exact E|]. split; [exact H1|]. split; [exact Hd|exact (Hrep H2)].
Defined.
