(* ===== verification/ExampleApi.v ===== *)
(** * What the examples use of the SDK

    The programs under src/examples are trees of the actions below: the
    operations of the client and of what it hands out, the builders, the clock
    and the process. [sdk] performs an action with the definitions of Client,
    Subscription, StreamOwner and Downstream on the objects of the process,
    and notes what was done, with the stub calls it made. A callback is a
    program too, over the few actions the examples' callbacks take; it runs on
    the thread of its subscription. Console output is left out. *)

From Stdlib Require Import ZArith Lia Ascii String.
From S2P Require Import Prelude Status ErrorMapper Validation Random StateMachine Auth Tls ClientOptions.
From S2P Require Import Messages Proto Converter Transport Calls Client Subscription StreamHandle StreamOwner Downstream Program.

Local Open Scope string_scope.
Local Open Scope Z_scope.
Local Open Scope kubemq_scope.

(** ** What comes from outside *)

(** The process and the clocks; [passed] is the time, in milliseconds, since
    the clock was last looked at, beyond what was slept. *)
Class Process (W : Type) := {
  passed : M W Z;
  passed_positive : forall w, 0 <= fst (passed w);
  system_now : M W Z;                          (* nanoseconds since the epoch *)
  getenv : string -> M W (option string);
  install_signal : Z -> M W unit;
  shutdown_requested : M W bool                (* the flag the signal handler sets *)
}.

(** ** Callbacks *)

Inductive callback_api : Type -> Type :=
  | FetchAdd (counter : string) : callback_api unit        (* counter.fetch_add(1) *)
  | Store (flag : string) : callback_api unit              (* flag.store(true) *)
  | EpochSeconds : callback_api Z
  | ReplyCommand (reply : CommandReply) : callback_api Status
  | ReplyQuery (reply : QueryReply) : callback_api Status.

Definition callback : Type := prog callback_api unit.

Inductive MessageCallback :=
  | OnEvent (f : EventReceive -> callback)
  | OnEventStore (f : EventStoreReceive -> callback)
  | OnCommand (f : CommandReceive -> callback)
  | OnQuery (f : QueryReceive -> callback).

Inductive ResultCallback :=
  | OnEventStoreResult (f : EventStoreResult -> callback)
  | OnUpstreamResult (f : QueueUpstreamResultData -> callback).

(** The callbacks that print what they are given, or count it and print it. *)
Definition printing {A} (x : A) : callback := Ret tt.
Definition counting {A} (counter : string) (x : A) : callback := Act (FetchAdd counter) (fun _ => Ret tt).

(** ** Actions *)

(** What each operation returns. *)
Definition op_answer (o : ClientOp) : Type :=
  match o with
  | COPing => StatusOr ServerInfo
  | COSendEventStore _ | COPublishEventStore _ _ _ _ => StatusOr EventStoreResult
  | COSendCommand _ | COSendCommandSimple _ _ _ => StatusOr CommandResponse
  | COSendQuery _ | COSendQuerySimple _ _ _ => StatusOr QueryResponse
  | COSendQueueMessage _ | COSendQueueMessageSimple _ _ _ _ => StatusOr QueueSendResult
  | COSendQueueMessages _ => StatusOr (list QueueSendResult)
  | COReceiveQueueMessages _ => StatusOr ReceiveQueueMessagesResponse
  | COAckAllQueueMessages _ => StatusOr AckAllQueueMessagesResponse
  | COListChannels _ _ => StatusOr (list ChannelInfo)
  | COSendEvent _ | COPublishEvent _ _ _ _ | COSendCommandResponse _ | COSendQueryResponse _
  | COCreateChannel _ _ | CODeleteChannel _ _ => Status
  end.

Inductive StreamMessage :=
  | SMEvent (event : Event)
  | SMEventStore (event : EventStore)
  | SMUpstream (request_id : string) (messages : list QueueMessage).

(** An object the client hands out is known by its number. *)
Inductive api : Type -> Type :=
  | CreateClient (options : ClientOptions) : api (StatusOr unit)
  | ClientState : api ConnectionState
  | Operation (o : ClientOp) : api (op_answer o)
  | CloseClient : api Status
  | Subscribe (o : SubscribeOp) (on_message : MessageCallback) : api (StatusOr nat)
  | CancelSubscription (i : nat) : api unit
  | SubscriptionIsDone (i : nat) : api bool
  | OpenStream (k : StreamKind) (on_result : option ResultCallback) : api (StatusOr nat)
  | SendOnStream (i : nat) (m : StreamMessage) : api Status
  | CloseStream (i : nat) : api unit
  | NewReceiver : api (StatusOr nat)
  | PollReceiver (i : nat) (request : PollRequest) : api (StatusOr PollResponse)
  | CloseReceiver (i : nat) : api unit
  | PollClient (request : PollRequest) : api (StatusOr PollResponse)
  | SettleAll (o : SettleOp) (p : PollResponse) : api Status
  | AckMessage (m : QueueDownstreamMessage) : api Status
  | BuildEvent (b : EventBuilder) : api (StatusOr Event)
  | BuildEventStore (b : EventStoreBuilder) : api (StatusOr EventStore)
  | BuildCommand (b : CommandBuilder) : api (StatusOr Command)
  | BuildQuery (b : QueryBuilder) : api (StatusOr Query)
  | BuildQueueMessage (b : QueueMessageBuilder) : api (StatusOr QueueMessage)
  | SleepFor (milliseconds : Z) : api unit
  | SteadyNow : api Z
  | SystemNow : api Z
  | GetEnvironment (name : string) : api (option string)
  | InstallSignal (n : Z) : api unit
  | ShutdownRequested : api bool.

(** [int main()]; its result is the exit code. *)
Definition main : Type := prog api Z.

(** [if (!s.ok()) return 1;] *)
Definition ok_or_1 (e : api Status) (k : main) : main := or_return 1 e k.
Definition value_or_1 {T} (e : api (StatusOr T)) (k : T -> main) : main := or_return_value 1 e k.

Notation "'do!' x := e 'in' k" := (Act e (fun x => k))
  (at level 10, x pattern, e at level 100, k at level 200,
   format "'[v' do!  x  :=  e  in  '/' k ']'") : kubemq_scope.
Notation "'ok!' e 'in' k" := (ok_or_1 e k)
  (at level 10, e at level 100, k at level 200,
   format "'[v' ok!  e  in  '/' k ']'") : kubemq_scope.
Notation "'ok?' x := e 'in' k" := (value_or_1 e (fun x => k))
  (at level 10, x pattern, e at level 100, k at level 200,
   format "'[v' ok?  x  :=  e  in  '/' k ']'") : kubemq_scope.

(** [b.SetX(...)], and [std::to_string]. *)
Notation "x |> f" := (f x) (at level 50, left associativity, only parsing) : kubemq_scope.
Definition to_string (i : Z) : string := pretty i.

(** The options every example starts with. *)
Definition example_options (client_id : string) : ClientOptions :=
  ClientOptions_default |> set_address_host_port "localhost" 50000 |> set_client_id client_id.

(** [Close], and the end of every example. *)
Definition close_and_return : main :=
  ok! CloseClient in
  Ret 0.

(** ** The process *)

Inductive Object :=
  | ObjSubscription (s : Subscription) (on_message : MessageCallback)
  | ObjStream (k : StreamKind) (h : StreamHandle) (on_result : option ResultCallback) (impl : handle)
  | ObjReceiver (r : QueueDownstreamReceiver)
  | ObjResponse (r : QueueDownstreamReceiver).     (* the receiver a response owns *)

(** What was done, with what the action returned and the calls of the stub it
    made. [ended]: the object had been ended; [left]: the objects that had not
    been ended, but for responses, which nobody ends but their destructor;
    [over]: the broker had ended the stream; [tx]: the transaction. *)
Inductive Deed :=
  | DidCreate (o : ClientOptions) (s : Status)
  | DidOperation (c : Client) (o : ClientOp) (s : Status) (calls : call_log)
  | DidSubscribe (c : Client) (o : SubscribeOp) (s : Status) (calls : call_log)
  | DidOpen (c : Client) (call : StubCall) (s : Status) (calls : call_log)
  | DidSend (ended over : bool) (m : StreamMessage) (s : Status)
  | DidPoll (ended : bool) (request : PollRequest) (s : Status)
  | DidPollClient (c : Client) (request : PollRequest) (s : Status) (calls : call_log)
  | DidSettle (live auto_ack : bool) (tx : string) (s : Status)
  | DidEnd (i : nat)
  | DidClose (left : list nat) (s : Status)
  | DidDestroyClient (left : list nat).

(** The objects in the order they were made, each with whether it has been
    ended; the deeds, each with whether [ok()] held of what it returned. *)
Record Proc (W : Type) := mkProc {
  p_world : Logged W;
  p_now : Z;                             (* the steady clock, in milliseconds *)
  p_client : option Client;
  p_objects : list (Object * bool);
  p_did : list (Deed * bool);
  p_undefined : bool                     (* an object that is not there was used *)
}.
#[global] Arguments mkProc {W}.
#[global] Arguments p_world {W}.
#[global] Arguments p_now {W}.
#[global] Arguments p_client {W}.
#[global] Arguments p_objects {W}.
#[global] Arguments p_did {W}.
#[global] Arguments p_undefined {W}.

Definition ends_by_itself (o : Object) : bool := match o with ObjResponse _ => true | _ => false end.

Fixpoint not_ended (i : nat) (l : list (Object * bool)) : list nat :=
  match l with
  | [] => []
  | (o, ended) :: l' => ((if ended || ends_by_itself o then [] else [i]) ++ not_ended (S i) l')%list
  end.

Definition failed {W} (p : Proc W) : bool := existsb (fun d => negb (snd d)) (p_did p).

(** The streams of receivers that still exist. *)
Definition live_streams (l : list (Object * bool)) : list nat :=
  omap (fun ob => match ob with
                  | (ObjReceiver r, false) | (ObjResponse r, false) => rcv_stream r
                  | _ => None
                  end) l.

Definition receiver_live (stream : option nat) (l : list (Object * bool)) : bool :=
  match stream with Some h => bool_decide (h ∈ live_streams l) | None => false end.

#[export] Instance logged_callbacks {W} `{Callbacks W} : Callbacks (Logged W) :=
  fun e f => lift_log (fire e f).
#[export] Instance logged_files {W} `{FileSystem W} : FileSystem (Logged W) :=
  fun path => lift_log (open_and_read path).
#[export] Instance logged_contexts {W} `{Contexts W} : Contexts (Logged W) := {|
  lock_context ctx := lift_log (lock_context ctx);
  TryCancel ctx := lift_log (TryCancel ctx)
|}.
#[export] Instance logged_downstream {W} `{DownstreamStream W} : DownstreamStream (Logged W) := {|
  ds_lock h := lift_log (ds_lock h);
  ds_write h r := lift_log (ds_write h r);
  ds_read h := lift_log (ds_read h);
  ds_writes_done h := lift_log (ds_writes_done h)
|}.
#[export] Instance logged_streams {W} `{Streams W} : Streams (Logged W) := {|
  reader_steps h := lift_log (reader_steps h);
  stream_Write h m := lift_log (stream_Write h m);
  stream_WritesDone h := lift_log (stream_WritesDone h);
  stream_Finish h := lift_log (stream_Finish h)
|}.

(** How the process ends: with the code [main] returned, or by
    [std::terminate] while its objects are destroyed. *)
Inductive Exit := Exited (code : Z) | EndedByTerminate.

Section sdk.
Context {W : Type} `{Grpc W, Providers W, Callbacks W, FileSystem W, Random W, Contexts W}.
Context `{DownstreamStream W, Streams W, Process W, JsonLibrary}.

Notation P := (Proc W).

(** ** Steps of the process *)

(** A computation of the SDK, with the calls of the stub it makes. *)
Definition in_world {A} (m : M (Logged W) A) : M P (A * call_log) :=
  fun p =>
    let '(a, w') := m (p_world p) in
    ((a, drop (length (snd (p_world p))) (snd w')),
     mkProc w' (p_now p) (p_client p) (p_objects p) (p_did p) (p_undefined p)).

(** One of the process itself. *)
Definition outside {A} (m : M W A) : M P A :=
  let! r := in_world (lift_log m) in ret (fst r).

Definition note (d : Deed) (ok : bool) : M P unit :=
  fun p => (tt, mkProc (p_world p) (p_now p) (p_client p) (p_objects p) (p_did p ++ [(d, ok)])%list
                  (p_undefined p)).

Definition undefined {A} (a : A) : M P A :=
  fun p => (a, mkProc (p_world p) (p_now p) (p_client p) (p_objects p) (p_did p) true).

Definition set_client (c : Client) : M P unit :=
  fun p => (tt, mkProc (p_world p) (p_now p) (Some c) (p_objects p) (p_did p) (p_undefined p)).

Definition add_object (o : Object) : M P nat :=
  fun p => (length (p_objects p),
            mkProc (p_world p) (p_now p) (p_client p) (p_objects p ++ [(o, false)])%list (p_did p)
              (p_undefined p)).

Definition set_object (i : nat) (o : Object) (ended : bool) : M P unit :=
  fun p => (tt, mkProc (p_world p) (p_now p) (p_client p) (<[i := (o, ended)]> (p_objects p)) (p_did p)
                  (p_undefined p)).

Definition get {A} (f : P -> A) : M P A := fun p => (f p, p).

(** [client->...]; without a client, a null pointer. *)
Definition with_the_client {A} (none : A) (f : Client -> M P A) : M P A :=
  let! c := get p_client in
  match c with Some c => f c | None => undefined none end.

Definition with_object {A} (none : A) (i : nat) (f : Object -> bool -> M P A) : M P A :=
  let! l := get p_objects in
  match l !! i with Some (o, ended) => f o ended | None => undefined none end.

Definition null_pointer : Status := mkStatus kFatal "null pointer" "" "" "".

(** Time passes: [d] milliseconds and what else elapses. *)
Definition elapse (d : Z) : M P unit :=
  let! t := outside passed in
  fun p => (tt, mkProc (p_world p) (p_now p + d + t) (p_client p) (p_objects p) (p_did p) (p_undefined p)).

(** ** The operations *)

Definition run_operation (c : Client) (o : ClientOp) : M (Logged W) (op_answer o) :=
  match o with
  | COPing => Client_Ping c
  | COSendEvent e => SendEvent c e
  | COPublishEvent ch b md t => PublishEvent c ch b md t
  | COSendEventStore e => SendEventStore c e
  | COPublishEventStore ch b md t => PublishEventStore c ch b md t
  | COSendCommand m => SendCommand c m
  | COSendCommandResponse r => SendCommandResponse c r
  | COSendCommandSimple ch b t => SendCommandSimple c ch b t
  | COSendQuery q => SendQuery c q
  | COSendQueryResponse r => SendQueryResponse c r
  | COSendQuerySimple ch b t => SendQuerySimple c ch b t
  | COSendQueueMessage m => SendQueueMessage c m
  | COSendQueueMessages ms => SendQueueMessages c ms
  | COReceiveQueueMessages r => ReceiveQueueMessages c r
  | COAckAllQueueMessages r => AckAllQueueMessages c r
  | COSendQueueMessageSimple ch b e d => SendQueueMessageSimple c ch b e d
  | COCreateChannel n t => CreateChannel c n t
  | CODeleteChannel n t => DeleteChannel c n t
  | COListChannels t s => ListChannels c t s
  end.

(** The status of an answer, its [ok()], and an answer that is an error. *)
Definition op_status (o : ClientOp) : op_answer o -> Status :=
  match o return op_answer o -> Status with
  | COSendEvent _ | COPublishEvent _ _ _ _ | COSendCommandResponse _ | COSendQueryResponse _
  | COCreateChannel _ _ | CODeleteChannel _ _ => fun s => s
  | _ => statusor_status
  end.

Definition op_ok (o : ClientOp) : op_answer o -> bool :=
  match o return op_answer o -> bool with
  | COSendEvent _ | COPublishEvent _ _ _ _ | COSendCommandResponse _ | COSendQueryResponse _
  | COCreateChannel _ _ | CODeleteChannel _ _ => status_ok
  | _ => statusor_ok
  end.

Definition op_error (o : ClientOp) (s : Status) : op_answer o :=
  match o return op_answer o with
  | COSendEvent _ | COPublishEvent _ _ _ _ | COSendCommandResponse _ | COSendQueryResponse _
  | COCreateChannel _ _ | CODeleteChannel _ _ => s
  | _ => SError s
  end.

Definition sdk_create (o : ClientOptions) : M P (StatusOr unit) :=
  let! r := in_world (Client_Create o) in
  let! _ := note (DidCreate o (statusor_status (fst r))) (statusor_ok (fst r)) in
  match fst r with
  | SValue c => let! _ := set_client c in ret (SValue tt)
  | SError s => ret (SError s)
  end.

Definition sdk_operation (o : ClientOp) : M P (op_answer o) :=
  with_the_client (op_error o null_pointer) (fun c =>
    let! (x, calls) := in_world (run_operation c o) in
    let! _ := note (DidOperation c o (op_status o x) calls) (op_ok o x) in ret x).

Definition sdk_close : M P Status :=
  with_the_client null_pointer (fun c =>
    let! rest := get (fun p => not_ended 0 (p_objects p)) in
    let! r := in_world (Client_Close c) in
    let! _ := set_client (snd (fst r)) in
    let! _ := note (DidClose rest (fst (fst r))) (status_ok (fst (fst r))) in
    ret (fst (fst r))).

(** A result that is an object, noted and kept. *)
Definition keep {A} (r : StatusOr A) (d : Deed) (object : A -> Object) : M P (StatusOr nat) :=
  let! _ := note d (statusor_ok r) in
  match r with
  | SValue a => let! i := add_object (object a) in ret (SValue i)
  | SError s => ret (SError s)
  end.

Definition sdk_subscribe (o : SubscribeOp) (f : MessageCallback) : M P (StatusOr nat) :=
  with_the_client (SError null_pointer) (fun c =>
    let! (r, calls) := in_world (run_subscribe_op c o) in
    keep r (DidSubscribe c o (statusor_status r) calls) (fun s => ObjSubscription s f)).

(** [Cancel] of a subscription and [Close] of a stream or a receiver. *)
Definition end_object (i : nat) (ended : bool) (o : Object) : M P unit :=
  let! _ := set_object i o true in if ended then ret tt else note (DidEnd i) true.

Definition sdk_cancel (i : nat) : M P unit :=
  with_object tt i (fun o ended =>
    match o with
    | ObjSubscription s _ => let! _ := in_world (TryCancel (sub_reader s)) in end_object i ended o
    | _ => undefined tt
    end).

Definition sdk_is_done (i : nat) : M P bool :=
  with_object false i (fun o ended =>
    match o with ObjSubscription _ _ => ret ended | _ => undefined false end).

Definition stream_call (k : StreamKind) : StubCall :=
  match k with KUpstream => CallQueuesUpstream | _ => CallSendEventsStream end.

Definition sdk_open_stream (k : StreamKind) (f : option ResultCallback) : M P (StatusOr nat) :=
  let on_result := match f with Some _ => true | None => false end in
  with_the_client (SError null_pointer) (fun c =>
    let! (r, calls) := in_world
      match k with
      | KEventStream => SendEventStream c true
      | KEventStoreStream => SendEventStoreStream c on_result true
      | KUpstream => QueueUpstream c on_result true
      end in
    keep r (DidOpen c (stream_call k) (statusor_status r) calls)
      (fun h => ObjStream k h f (HandleImpl_start on_result true))).

(** What [Send] writes. *)
Definition stream_write (h : StreamHandle) (m : StreamMessage) : M (Logged W) StreamWrite :=
  match m with
  | SMEvent e => let! e := event_stream_message h e in ret (WriteEvent e)
  | SMEventStore e => let! e := event_store_stream_message h e in ret (WriteEvent e)
  | SMUpstream id ms => let! r := upstream_message h id ms in ret (WriteUpstream r)
  end.

Definition message_kind (m : StreamMessage) : StreamKind :=
  match m with SMEvent _ => KEventStream | SMEventStore _ => KEventStoreStream | SMUpstream _ _ => KUpstream end.

(** The channel that the errors of [Send] name. *)
Definition message_channel (m : StreamMessage) : string :=
  match m with SMEvent e => ev_channel e | SMEventStore e => es_channel e | SMUpstream _ _ => "" end.

Definition sdk_send (i : nat) (m : StreamMessage) : M P Status :=
  with_object null_pointer i (fun o ended =>
    match o with
    | ObjStream k h f impl =>
        if decide (k = message_kind m) then
          let! (sent, _) := in_world
            (let! x := stream_write h m in owner_Send k (sh_stream h) (message_channel m) x impl) in
          match sent with
          | Some (s, impl') =>
              let! _ := set_object i (ObjStream k h f impl') ended in
              let! _ := note (DidSend ended (IsDone impl') m s) (status_ok s) in ret s
          | None => undefined null_pointer
          end
        else undefined null_pointer
    | _ => undefined null_pointer
    end).

Definition sdk_close_stream (i : nat) : M P unit :=
  with_object tt i (fun o ended =>
    match o with
    | ObjStream k h f impl =>
        let! (closed, _) := in_world (owner_Close k (sh_stream h) impl) in
        match closed with
        | Some impl' => end_object i ended (ObjStream k h f impl')
        | None => undefined tt
        end
    | _ => undefined tt
    end).

Definition sdk_new_receiver : M P (StatusOr nat) :=
  with_the_client (SError null_pointer) (fun c =>
    let! (r, calls) := in_world (NewQueueDownstreamReceiver c) in
    keep r (DidOpen c CallQueuesDownstream (statusor_status r) calls) (fun rh => ObjReceiver (fst rh))).

Definition sdk_poll (i : nat) (request : PollRequest) : M P (StatusOr PollResponse) :=
  with_object (SError null_pointer) i (fun o ended =>
    match o with
    | ObjReceiver r =>
        match rcv_stream r with
        | Some h =>
            let! (x, _) := in_world (Poll r h request) in
            let! _ := note (DidPoll ended request (statusor_status x)) (statusor_ok x) in ret x
        | None => undefined (SError null_pointer)
        end
    | _ => undefined (SError null_pointer)
    end).

Definition sdk_close_receiver (i : nat) : M P unit :=
  with_object tt i (fun o ended =>
    match o with
    | ObjReceiver r =>
        let! (r', _) := in_world (Receiver_Close r) in end_object i ended (ObjReceiver r')
    | _ => undefined tt
    end).

(** A response that owns its receiver is an object of the process. *)
Definition sdk_poll_client (request : PollRequest) : M P (StatusOr PollResponse) :=
  with_the_client (SError null_pointer) (fun c =>
    let! (x, calls) := in_world (PollQueue c request) in
    let! _ := note (DidPollClient c request (statusor_status x) calls) (statusor_ok x) in
    match x with
    | SValue p =>
        match pr_receiver p with
        | Some r => let! _ := add_object (ObjResponse r) in ret (SValue p)
        | None => ret (SValue p)
        end
    | SError s => ret (SError s)
    end).

Definition settle_all (o : SettleOp) (p : PollResponse) : M (Logged W) Status :=
  match o with
  | SNackAll => Response_NackAll p
  | SReQueueAll ch => Response_ReQueueAll ch p
  | _ => Response_AckAll p
  end.

Definition sdk_settle (stream : option nat) (auto_ack : bool) (tx : string) (m : M (Logged W) Status) : M P Status :=
  let! live := get (fun p => receiver_live stream (p_objects p)) in
  let! (s, _) := in_world m in
  let! _ := note (DidSettle live auto_ack tx s) (status_ok s) in ret s.

Definition sdk_build {B T} (build : B -> M (Logged W) (StatusOr T * B)) (b : B) : M P (StatusOr T) :=
  let! r := in_world (build b) in ret (fst (fst r)).

Definition sdk : interpreter api P := fun X e =>
  match e in api X return M P X with
  | CreateClient o => sdk_create o
  | ClientState =>
      with_the_client kIdle (fun c => let! r := in_world (Client_State c) in ret (fst r))
  | Operation o => sdk_operation o
  | CloseClient => sdk_close
  | Subscribe o f => sdk_subscribe o f
  | CancelSubscription i => sdk_cancel i
  | SubscriptionIsDone i => sdk_is_done i
  | OpenStream k f => sdk_open_stream k f
  | SendOnStream i m => sdk_send i m
  | CloseStream i => sdk_close_stream i
  | NewReceiver => sdk_new_receiver
  | PollReceiver i r => sdk_poll i r
  | CloseReceiver i => sdk_close_receiver i
  | PollClient r => sdk_poll_client r
  | SettleAll o p => sdk_settle (pr_stream p) (pr_auto_ack p) (pr_transaction_id p) (settle_all o p)
  | AckMessage m => sdk_settle (dm_stream m) (dm_auto_ack m) (dm_transaction_id m) (Message_Ack m)
  | BuildEvent b => sdk_build Event_Build b
  | BuildEventStore b => sdk_build EventStore_Build b
  | BuildCommand b => sdk_build Command_Build b
  | BuildQuery b => sdk_build Query_Build b
  | BuildQueueMessage b => sdk_build QueueMessage_Build b
  | SleepFor d => elapse d
  | SteadyNow => let! _ := elapse 0 in get p_now
  | SystemNow => outside system_now
  | GetEnvironment name => outside (getenv name)
  | InstallSignal n => outside (install_signal n)
  | ShutdownRequested => outside shutdown_requested
  end.

(** ** Leaving [main]

    Its objects are destroyed in the opposite order of their construction, the
    client last; a stream handle that cannot join its reader ends the process,
    and nothing is destroyed after that. *)

(** The members of a stream handle that has been closed. A handle that is
    gone is not used again: its last state stays on the list. *)
Definition destroy_object_members (i : nat) : M P unit :=
  with_object tt i (fun o ended =>
    match o with
    | ObjStream k h f impl =>
        match owner_destroy k impl with
        | Some impl' =>
            match h_life_ impl' with
            | Terminated => set_object i (ObjStream k h f impl') ended
            | _ => ret tt
            end
        | None => undefined tt
        end
    | _ => undefined tt
    end).

Definition destroy_object (i : nat) : M P unit :=
  with_object tt i (fun o ended =>
    match o with
    | ObjSubscription s _ => sdk_cancel i
    | ObjStream _ _ _ _ => let! _ := sdk_close_stream i in destroy_object_members i
    | ObjReceiver r => sdk_close_receiver i
    | ObjResponse r => let! (r', _) := in_world (Receiver_Close r) in end_object i ended (ObjResponse r')
    end).

Definition terminated (p : P) : bool :=
  existsb (fun ob => match fst ob with
                     | ObjStream _ _ _ impl => match h_life_ impl with Terminated => true | _ => false end
                     | _ => false
                     end) (p_objects p).

Fixpoint destroy_objects (n : nat) : M P unit :=
  match n with
  | O => ret tt
  | S i =>
      let! _ := destroy_object i in
      let! over := get terminated in
      if over then ret tt else destroy_objects i
  end.

Definition destroy_client : M P unit :=
  let! c := get p_client in
  match c with
  | Some c =>
      let! rest := get (fun p => not_ended 0 (p_objects p)) in
      let! r := in_world (Client_Close c) in
      let! _ := set_client (snd (fst r)) in note (DidDestroyClient rest) true
  | None => ret tt
  end.

Definition run_main (m : main) : M P Exit :=
  let! code := exec sdk m in
  let! n := get (fun p => length (p_objects p)) in
  let! _ := destroy_objects n in
  let! over := get terminated in
  if over then ret EndedByTerminate
  else let! _ := destroy_client in ret (Exited code).

Definition Proc_start (w : W) : P := mkProc (w, []) 0 None [] [] false.

(** ** The thread of a callback *)

Record Thread := mkThread { t_world : Logged W; t_client : Client; t_counted : list string }.

Definition on_thread {A} (m : Client -> M (Logged W) A) : M Thread A :=
  fun t => let '(a, w') := m (t_client t) (t_world t) in (a, mkThread w' (t_client t) (t_counted t)).

Definition count_up (x : string) : M Thread unit :=
  fun t => (tt, mkThread (t_world t) (t_client t) (t_counted t ++ [x])).

Definition callback_sdk : interpreter callback_api Thread := fun X e =>
  match e in callback_api X return M Thread X with
  | FetchAdd x | Store x => count_up x
  | EpochSeconds => let! t := on_thread (fun _ => lift_log system_now) in ret (Z.quot t 1000000000)
  | ReplyCommand r => on_thread (fun c => SendCommandResponse c r)
  | ReplyQuery r => on_thread (fun c => SendQueryResponse c r)
  end.

Definition run_callback (f : callback) : M Thread unit := exec callback_sdk f.

End sdk.
