(* ===== verification/ExampleLogic.v ===== *)
(** * A contract for what the examples do

    The abstract state of a program that uses the SDK: whether it has a client
    and whether that is open, the objects the client handed out and whether
    each has been ended, the clock, and whether anything failed. Each action
    has a precondition, which keeps the SDK from refusing it by itself, and a
    postcondition; [sdk_keeps] proves that the SDK keeps this contract, so the
    weakest preconditions of Program hold of a program run with it. *)

From Stdlib Require Import ZArith Lia Ascii String.
From S2P Require Import Prelude Automaton Status ErrorMapper Validation Random Uuid StateMachine Auth Tls ClientOptions.
From S2P Require Import Messages Proto Converter Transport Calls Client Subscription Session StreamHandle StreamOwner Downstream.
From S2P Require Import Program ExampleApi.

Local Open Scope string_scope.
Local Open Scope Z_scope.
Local Open Scope kubemq_scope.

(** ** What the SDK would not refuse *)

Definition send_fits (channel body metadata : string) : bool :=
  negb (str_empty channel) && status_ok (ValidateChannelNoWildcard channel "") &&
  negb (str_empty body && str_empty metadata).

Definition channel_fits (channel : string) : bool :=
  negb (str_empty channel) && status_ok (ValidateChannel channel "").

Definition op_fits (o : ClientOp) : bool :=
  match o with
  | COPing | COSendCommandResponse _ | COSendQueryResponse _ => true
  | COSendEvent e => send_fits (ev_channel e) (ev_body e) (ev_metadata e)
  | COSendEventStore e => send_fits (es_channel e) (es_body e) (es_metadata e)
  | COSendCommand m => send_fits (cmd_channel m) (cmd_body m) (cmd_metadata m)
  | COSendQuery q => send_fits (qry_channel q) (qry_body q) (qry_metadata q)
  | COSendQueueMessage m => send_fits (qm_channel m) (qm_body m) (qm_metadata m)
  | COSendQueueMessages ms =>
      match ms with
      | [] => false
      | _ => forallb (fun m => send_fits (qm_channel m) (qm_body m) (qm_metadata m)) ms
      end
  | COPublishEvent ch b md _ | COPublishEventStore ch b md _ => send_fits ch b md
  | COSendCommandSimple ch b t | COSendQuerySimple ch b t => send_fits ch b "" && (0 <? t)
  | COSendQueueMessageSimple ch b _ _ => send_fits ch b ""
  | COReceiveQueueMessages r => channel_fits (rq_channel r)
  | COAckAllQueueMessages r => channel_fits (aq_channel r)
  | COCreateChannel n t | CODeleteChannel n t => negb (str_empty n) && IsValidChannelType t
  | COListChannels t _ => IsValidChannelType t
  end.

Definition message_fits (m : StreamMessage) : bool :=
  match m with
  | SMEvent e => send_fits (ev_channel e) (ev_body e) (ev_metadata e)
  | SMEventStore e => send_fits (es_channel e) (es_body e) (es_metadata e)
  | SMUpstream id ms => op_fits (COSendQueueMessages ms) && negb (str_empty id)
  end.

Definition options_fit (o : ClientOptions) : bool :=
  status_ok (Validate o) && negb (str_empty (client_id_ o)) &&
  match credential_provider_ o with None => true | Some _ => false end.

Lemma send_fits_valid ch b md :
  send_fits ch b md = true -> valid_send_channel ch /\ ch <> "" /\ has_content b md.
Proof.
  unfold send_fits. rewrite !andb_true_iff, !negb_true_iff, andb_false_iff. intros [[Hc Hv] Hb].
  apply ValidateChannelNoWildcard_spec in Hv. unfold has_content. rewrite <- !str_empty_false. tauto.
Qed.

Lemma channel_fits_valid ch : channel_fits ch = true -> valid_channel ch /\ ch <> "".
Proof.
  unfold channel_fits. rewrite andb_true_iff, negb_true_iff. intros [Hc Hv].
  apply ValidateChannel_spec in Hv. by rewrite <- str_empty_false.
Qed.

Lemma send_fits_message c ch b md : send_fits ch b md = true -> message_ok c ch b md.
Proof. intros (Hv & Hc & Hb)%send_fits_valid. unfold message_ok. by rewrite effective_channel_own. Qed.

Lemma send_fits_simple ch b md : send_fits ch b md = true -> simple_ok ch b md.
Proof. by intros (Hv & Hc & Hb)%send_fits_valid. Qed.

Lemma op_fits_valid c o : closed c = false -> op_fits o = true -> op_valid c o.
Proof.
  intros Hc Ho. split; [done|]. destruct o; cbn in Ho |- *; auto using send_fits_message, send_fits_simple.
  - apply andb_true_iff in Ho as [? ?%Z.ltb_lt]. auto using send_fits_simple.
  - apply andb_true_iff in Ho as [? ?%Z.ltb_lt]. auto using send_fits_simple.
  - destruct messages as [|m ms]; [done|]. split; [done|]. apply List.Forall_forall. intros m' Hm.
    apply send_fits_message. by apply (proj1 (forallb_forall _ _) Ho).
  - apply channel_fits_valid in Ho as [? ?]. by rewrite effective_channel_own.
  - apply channel_fits_valid in Ho as [? ?]. by rewrite effective_channel_own.
  - apply andb_true_iff in Ho as [Hn Ht]. rewrite negb_true_iff, str_empty_false in Hn.
    by apply IsValidChannelType_spec in Ht.
  - apply andb_true_iff in Ho as [Hn Ht]. rewrite negb_true_iff, str_empty_false in Hn.
    by apply IsValidChannelType_spec in Ht.
  - by apply IsValidChannelType_spec.
Qed.

(** ** What was done *)

(** One call of the stub, with the token configured, whose failure [s] reports. *)
Definition made_one_call (t : GrpcTransport) (Q : StubCall -> Prop) (s : Status) (calls : call_log) : Prop :=
  exists ctx call out, calls = [(ctx, call, out)] /\ Q call /\
    ctx_metadata ctx = with_token (opt_auth_token_ (opts_ t)) [] /\ answers out s.

(** Nothing the SDK would refuse by itself, but for what the broker brings
    about, a [Send] on a stream it has ended and a settlement of messages it
    gave no transaction; and in an order that ends every object before the
    client is closed or destroyed. *)
Definition did_ok (d : Deed) : Prop :=
  match d with
  | DidCreate o s => options_fit o = true
  | DidOperation c o s calls => op_valid c o /\ made_one_call (transport c) (op_sends c o) s calls
  | DidSubscribe c o s calls => made_one_call (transport c) (eq (subscribe_call c o)) s calls
  | DidOpen c call s calls => made_one_call (transport c) (eq call) s calls
  | DidSend ended over m s =>
      ended = false /\ message_fits m = true /\ send_answer (message_kind m) (message_channel m) over s
  | DidPoll ended r s => ended = false /\ valid_channel (poll_channel r)
  | DidPollClient c r s calls =>
      valid_channel (poll_channel r) /\ made_one_call (transport c) (eq CallQueuesDownstream) s calls
  | DidSettle live auto_ack tx s => live = true /\ auto_ack = false /\ (tx <> "" -> code_ s <> kValidation)
  | DidEnd _ => True
  | DidClose rest s => rest = [] /\ s = StatusOk
  | DidDestroyClient rest => rest = []
  end.

(** ** The abstract state *)

Inductive Kind := KSubscription | KStream (k : StreamKind) | KReceiver (h : nat) | KResponse (h : nat).

Record View := mkView {
  v_client : option bool;          (* a client, and whether it is open *)
  v_objects : list (Kind * bool);
  v_now : Z;
  v_failed : bool
}.

Definition v_fail (v : View) : View := mkView (v_client v) (v_objects v) (v_now v) true.
Definition v_result (ok : bool) (v : View) : View :=
  mkView (v_client v) (v_objects v) (v_now v) (v_failed v || negb ok).

Lemma v_result_true v : v_result true v = v.
Proof. destruct v. unfold v_result. cbn. by rewrite orb_false_r. Qed.
Lemma v_result_false v : v_result false v = v_fail v.
Proof. unfold v_result, v_fail. by rewrite orb_true_r. Qed.

Definition v_push (k : Kind) (v : View) : View :=
  mkView (v_client v) (v_objects v ++ [(k, false)])%list (v_now v) (v_failed v).
Definition v_end (i : nat) (v : View) : View :=
  mkView (v_client v) (alter (fun kb => (fst kb, true)) i (v_objects v)) (v_now v) (v_failed v).
Definition v_set_client (open : bool) (v : View) : View :=
  mkView (Some open) (v_objects v) (v_now v) (v_failed v).
Definition v_at (t : Z) (v : View) : View := mkView (v_client v) (v_objects v) t (v_failed v).

Fixpoint v_left (i : nat) (l : list (Kind * bool)) : list nat :=
  match l with
  | [] => []
  | (k, ended) :: l' =>
      ((if ended || match k with KResponse _ => true | _ => false end then [] else [i]) ++ v_left (S i) l')%list
  end.

Definition v_live (l : list (Kind * bool)) : list nat :=
  omap (fun kb => match kb with (KReceiver h, false) | (KResponse h, false) => Some h | _ => None end) l.

(** What a poll hands over. *)
Definition polled_ok (h : nat) (r : PollRequest) (p : PollResponse) : Prop :=
  pr_is_error p = false /\ pr_auto_ack p = auto_ack r /\ pr_stream p = Some h /\
  Forall (fun m => dm_auto_ack m = auto_ack r /\ dm_stream m = Some h) (pr_messages p).

(** What an answer of an operation is never: a result that is an error. *)
Definition op_fact (o : ClientOp) : op_answer o -> Prop :=
  match o return op_answer o -> Prop with
  | COSendQueueMessage _ => fun x => match x with SValue r => qsr_is_error r = false | SError _ => True end
  | _ => fun _ => True
  end.

Definition settle_fits (o : SettleOp) : bool := on_batch o && (negb (is_requeue o) || negb (str_empty (settle_channel o))).

(** ** The contract *)

Definition api_pre : forall X, api X -> View -> Prop := fun X e v =>
  match e with
  | CreateClient o => v_client v = None /\ options_fit o = true
  | ClientState | OpenStream _ _ | NewReceiver => v_client v = Some true
  | Operation o => v_client v = Some true /\ op_fits o = true
  | CloseClient => v_client v = Some true /\ v_left 0 (v_objects v) = []
  | Subscribe o _ => v_client v = Some true /\ channel_fits (subscribe_channel o) = true
  | CancelSubscription i | SubscriptionIsDone i => exists b, v_objects v !! i = Some (KSubscription, b)
  | SendOnStream i m => v_objects v !! i = Some (KStream (message_kind m), false) /\ message_fits m = true
  | CloseStream i => exists k, v_objects v !! i = Some (KStream k, false)
  | PollReceiver i r => (exists h, v_objects v !! i = Some (KReceiver h, false)) /\ channel_fits (poll_channel r) = true
  | CloseReceiver i => exists h b, v_objects v !! i = Some (KReceiver h, b)
  | PollClient r => v_client v = Some true /\ channel_fits (poll_channel r) = true
  | SettleAll o p =>
      settle_fits o = true /\ pr_auto_ack p = false /\ exists h, pr_stream p = Some h /\ h ∈ v_live (v_objects v)
  | AckMessage m => dm_auto_ack m = false /\ exists h, dm_stream m = Some h /\ h ∈ v_live (v_objects v)
  | BuildEvent b => content_ok (evb_channel b) (evb_metadata b) (evb_body b)
  | BuildEventStore b => content_ok (esb_channel b) (esb_metadata b) (esb_body b)
  | BuildCommand b => content_ok (cmdb_channel b) (cmdb_metadata b) (cmdb_body b) /\ 0 < cmdb_timeout b
  | BuildQuery b => content_ok (qryb_channel b) (qryb_metadata b) (qryb_body b) /\ 0 < qryb_timeout b
  | BuildQueueMessage b => content_ok (qmb_channel b) (qmb_metadata b) (qmb_body b)
  | SleepFor d => 0 <= d
  | SteadyNow | SystemNow | GetEnvironment _ | InstallSignal _ | ShutdownRequested => True
  end.

(** An object that is made, or a failure. *)
Definition opened_as (v : View) (x : StatusOr nat) (v' : View) (k : Kind -> Prop) : Prop :=
  match x with
  | SValue i => i = length (v_objects v) /\ exists k', k k' /\ v' = v_push k' v
  | SError _ => v' = v_fail v
  end.

Definition built {T} (made : string -> T) (x : StatusOr T) : Prop := exists id, x = SValue (made id).

Definition api_post : forall X, api X -> View -> X -> View -> Prop := fun X e v =>
  match e in api X return X -> View -> Prop with
  | CreateClient o => fun x v' => match x with SValue _ => v' = v_set_client true v | SError _ => v' = v_fail v end
  | ClientState => fun _ v' => v' = v
  | Operation o => fun x v' => op_fact o x /\ v' = v_result (op_ok o x) v
  | CloseClient => fun x v' => x = StatusOk /\ v' = v_set_client false v
  | Subscribe o _ => fun x v' => opened_as v x v' (eq KSubscription)
  | CancelSubscription i | CloseStream i | CloseReceiver i => fun _ v' => v' = v_end i v
  | SubscriptionIsDone i => fun _ v' => v' = v
  | OpenStream k _ => fun x v' => opened_as v x v' (eq (KStream k))
  | SendOnStream i m => fun s v' => v' = v_result (status_ok s) v
  | NewReceiver => fun x v' => opened_as v x v' (fun k => exists h, k = KReceiver h)
  | PollReceiver i r => fun x v' =>
      match x with
      | SValue p => v' = v /\ exists h, v_objects v !! i = Some (KReceiver h, false) /\ polled_ok h r p
      | SError _ => v' = v_fail v
      end
  | PollClient r => fun x v' =>
      match x with
      | SValue p => exists h, v' = v_push (KResponse h) v /\ polled_ok h r p
      | SError _ => v' = v_fail v
      end
  | SettleAll _ _ | AckMessage _ => fun s v' => v' = v_result (status_ok s) v
  | BuildEvent b => fun x v' => v' = v /\ built (fun id =>
      mkEvent id (evb_channel b) (evb_metadata b) (evb_body b) (evb_client_id b) (evb_tags b)) x
  | BuildEventStore b => fun x v' => v' = v /\ built (fun id =>
      mkEventStore id (esb_channel b) (esb_metadata b) (esb_body b) (esb_client_id b) (esb_tags b)) x
  | BuildCommand b => fun x v' => v' = v /\ built (fun id =>
      mkCommand id (cmdb_channel b) (cmdb_metadata b) (cmdb_body b) (cmdb_timeout b) (cmdb_client_id b) (cmdb_tags b)) x
  | BuildQuery b => fun x v' => v' = v /\ built (fun id =>
      mkQuery id (qryb_channel b) (qryb_metadata b) (qryb_body b) (qryb_timeout b) (qryb_client_id b)
        (qryb_cache_key b) (qryb_cache_ttl b) (qryb_tags b)) x
  | BuildQueueMessage b => fun x v' => v' = v /\ built (fun id =>
      mkQueueMessage id (qmb_channel b) (qmb_metadata b) (qmb_body b) (qmb_client_id b) (qmb_tags b) (qmb_policy b)
        QueueMessageAttributes_default) x
  | SleepFor d => fun _ v' => exists t, v_now v + d <= t /\ v' = v_at t v
  | SteadyNow => fun x v' => v_now v <= x /\ v' = v_at x v
  | SystemNow | GetEnvironment _ | InstallSignal _ | ShutdownRequested => fun _ v' => v' = v
  end.

Definition api_contract : contract api View := mkContract View api_pre api_post.

(** What every example is to achieve: it returns 0 or 1, 1 only when
    something failed, and then 0 with its client closed or none made. *)
Definition main_post (code : Z) (v : View) : Prop :=
  (code = 0 /\ v_client v <> Some true) \/ (code = 1 /\ v_failed v = true).

Definition View_start : View := mkView None [] 0 false.

Definition main_ok (m : main) : Prop := wp api_contract m main_post View_start.

(** ** The SDK keeps the contract *)

Definition usable (c : Client) : Prop :=
  fresh_client c /\ credential_provider_ (opts_ (transport c)) = None.

Definition client_is (c : option Client) (open : option bool) : Prop :=
  match c, open with
  | None, None => True
  | Some c, Some true => usable c
  | Some c, Some false => closed c = true
  | _, _ => False
  end.

Definition object_is (o : Object) (k : Kind) : Prop :=
  match o, k with
  | ObjSubscription _ _, KSubscription => True
  | ObjStream k _ _ _, KStream k' => k = k'
  | ObjReceiver r, KReceiver h | ObjResponse r, KResponse h => rcv_stream r = Some h
  | _, _ => False
  end.

(** The handle of a stream is between two calls of its owner. *)
Definition handle_owned (ended : bool) (o : Object) : Prop :=
  match o with ObjStream k _ _ impl => owned k ended impl | _ => True end.

Definition entry_is (ob : Object * bool) (kb : Kind * bool) : Prop :=
  object_is (fst ob) (fst kb) /\ snd ob = snd kb /\ handle_owned (snd kb) (fst ob).

(** The process is in the abstract state, and all it did was in order. *)
Record sim {W} (p : Proc W) (v : View) : Prop := {
  sim_defined : p_undefined p = false;
  sim_now : p_now p = v_now v;
  sim_client : client_is (p_client p) (v_client v);
  sim_objects : Forall2 entry_is (p_objects p) (v_objects v);
  sim_did : Forall (fun d => did_ok (fst d)) (p_did p);
  sim_failed : failed p = v_failed v
}.

Section keeps.
Context {W : Type} `{Grpc W, Providers W, Callbacks W, FileSystem W, Random W, Contexts W}.
Context `{DownstreamStream W, Streams W, Process W, JsonLibrary}.
Implicit Types (p : Proc W) (v : View) (c : Client).

(** *** Calls *)

Lemma usable_no_refusal c : usable c -> ~ may_refuse (transport c).
Proof. intros [Hf Hp] [Hc|[_ Hn]]; [|done]. destruct Hf as (_ & _ & _ & Ht & _). congruence. Qed.

(** One call in a log is the one call an action made. *)
Lemma one_call_made c Q s (log log' : call_log) :
  usable c -> one_call (transport c) Q s log log' ->
  made_one_call (transport c) Q s (drop (length log) log').
Proof.
  intros Hu [(_ & _ & Hr)|(ctx & call & out & HQ & Ht & Ha & ->)]; [by destruct (usable_no_refusal c)|].
  exists ctx, call, out. rewrite drop_app_length. split_and!; try done.
  by destruct Ht as [Hr|Ht]; [destruct (usable_no_refusal c)|].
Qed.

Lemma calls_made {A} c (st : A -> Status) (m : M (Logged W) A) Q (w : Logged W) :
  usable c -> calls (transport c) st m Q ->
  made_one_call (transport c) Q (st (fst (m w))) (drop (length (snd w)) (snd (snd (m w)))).
Proof.
  intros Hu Hm. destruct w as [w log]. specialize (Hm w log).
  destruct (m (w, log)) as [a [w' log']]. by apply one_call_made.
Qed.

Lemma gated_made c open (V : Prop) Q (m : M (Logged W) Status) (w : Logged W) :
  usable c -> gated (transport c) open V Q m -> V ->
  made_one_call (transport c) Q (fst (m w)) (drop (length (snd w)) (snd (snd (m w)))).
Proof.
  intros Hu Hm HV. destruct w as [w log]. specialize (Hm w log).
  destruct (m (w, log)) as [a [w' log']]. apply one_call_made; [done|]. by apply Hm.
Qed.

(** The typed operations are the operations. *)
Lemma run_operation_status c o (w : Logged W) :
  run_client_op c o w = (op_status o (fst (run_operation c o w)), snd (run_operation c o w)).
Proof.
  destruct o; cbn [run_client_op run_operation op_status]; unfold status_only, bind, ret;
    match goal with |- context [?m w] => by destruct (m w) end.
Qed.

Lemma operation_made c o (w : Logged W) :
  usable c -> op_fits o = true ->
  did_ok (DidOperation c o (op_status o (fst (run_operation c o w)))
            (drop (length (snd w)) (snd (snd (run_operation c o w))))).
Proof.
  intros Hu Ho. pose proof Hu as [(Hc & _) _]. pose proof (op_fits_valid c o Hc Ho) as Hv. split; [done|].
  pose proof (gated_made c _ _ _ _ w Hu (run_client_op_gated c o) Hv) as Hm. by rewrite run_operation_status in Hm.
Qed.

Lemma send_queue_message_fact c m (w : Logged W) : op_fact (COSendQueueMessage m) (fst (SendQueueMessage c m w)).
Proof.
  unfold SendQueueMessage, check_statusor, bind_statusor, bind, ret. cbn [op_fact].
  destruct (status_ok (Client_CheckClosed c)); [|done]. destruct (status_ok (ValidateChannelNoWildcard _ _)); [|done].
  destruct (status_ok (ValidateBody _ _ _)); [|done]. destruct (Transport_SendQueueMessage _ _ w) as [[r|] w']; [|done].
  by destruct (qsr_is_error (QueueSendResultFromProto r)) eqn:E.
Qed.

Lemma operation_fact c o (w : Logged W) : op_fact o (fst (run_operation c o w)).
Proof. destruct o; try done. apply send_queue_message_fact. Qed.

(** *** Streams and receivers *)

Lemma open_calls {A} c o (m : M (Logged W) (StatusOr nat)) (k : nat -> M (Logged W) (StatusOr A)) :
  closed c = false -> run_op (transport c) o = status_only m -> (forall h, silent (k h) (fun _ => True)) ->
  calls (transport c) statusor_status (check? ret (Client_CheckClosed c) in let? h := m in k h) (eq (op_call o)).
Proof.
  intros Hc Hm Hk. unfold Client_CheckClosed. rewrite Hc.
  pose proof (calls_bind_statusor m k _ (calls_op m o Hm) Hk) as Hcalls. intros w log.
  specialize (Hcalls w log). unfold check_statusor, bind, ret. cbn. unfold bind_statusor, bind in *. exact Hcalls.
Qed.

Lemma stream_calls c k (f : option ResultCallback) (on_result : bool) :
  closed c = false ->
  calls (transport c) statusor_status
    match k with
    | KEventStream => SendEventStream c true
    | KEventStoreStream => SendEventStoreStream c on_result true
    | KUpstream => QueueUpstream c on_result true
    end (eq (stream_call k)).
Proof.
  intros Hc. destruct k; [apply (open_calls c OpOpenEventStream)|apply (open_calls c OpOpenEventStream)|
    apply (open_calls c OpOpenQueueUpstream)]; done.
Qed.

Lemma receiver_calls c :
  closed c = false ->
  calls (transport c) statusor_status (NewQueueDownstreamReceiver (W := Logged W) c) (eq CallQueuesDownstream).
Proof. intros Hc. by apply (open_calls c OpOpenQueueDownstream). Qed.

Lemma silent_ds_write h r : silent (ds_write (W := Logged W) h r) (fun _ => True).
Proof. by apply silent_lift. Qed.

Lemma silent_ds_read h : silent (ds_read (W := Logged W) h) (fun _ => True).
Proof. by apply silent_lift. Qed.

Lemma silent_close r : silent (Receiver_Close (W := Logged W) r) (fun _ => True).
Proof.
  unfold Receiver_Close. destruct (rcv_closed r); [by apply silent_ret|].
  destruct (rcv_stream r); [|by apply silent_ret].
  eapply silent_bind; [apply silent_uuid|intros id _]. eapply silent_bind; [apply silent_ds_write|intros b _].
  eapply silent_bind; [apply (silent_lift (ds_writes_done n) (fun _ => True)); done|intros b' _]. by apply silent_ret.
Qed.

(** What a poll gives, in any world. *)
Lemma downstream_messages_stream tx aa s ps (w : Logged W) :
  Forall (fun m => dm_auto_ack m = aa /\ dm_stream m = s) (fst (downstream_messages tx aa s ps w)).
Proof.
  revert w. induction ps as [|p ps IH]; intros w; cbn; [constructor|]. unfold downstream_message, bind, ret.
  destruct (QueueMessageFromProto p w) as [m w1]. specialize (IH w1).
  destruct (downstream_messages tx aa s ps w1) as [ms w2]. by constructor.
Qed.

Lemma silent_messages tx aa s ps : silent (downstream_messages (W := Logged W) tx aa s ps) (fun _ => True).
Proof.
  induction ps as [|p ps IH]; cbn; [by apply silent_ret|].
  eapply silent_bind with (Q := fun _ => True); [|intros m _; eapply silent_bind; [apply IH|intros; by apply silent_ret]].
  unfold downstream_message. eapply silent_bind; [apply silent_QueueMessageFromProto|intros; by apply silent_ret].
Qed.

Lemma silent_poll rcv h r : silent (Poll (W := Logged W) rcv h r) (fun _ => True).
Proof.
  unfold Poll. destruct (rcv_closed rcv); [by apply silent_ret|].
  unfold check_statusor. eapply silent_bind with (Q := fun _ => True); [by apply silent_ret|intros s _].
  destruct (status_ok s); [|by apply silent_ret].
  eapply silent_bind; [apply silent_uuid|intros id _]. eapply silent_bind; [apply silent_ds_write|intros b _].
  destruct b; cbn [negb]; [|by apply silent_ret]. eapply silent_bind; [apply silent_ds_read|intros [resp|] _];
    [|by apply silent_ret].
  destruct (pbQueuesDownstreamResponse_iserror resp); [by apply silent_ret|].
  eapply silent_bind; [apply silent_messages|]. intros; by apply silent_ret.
Qed.

Lemma poll_gives rcv h r (w : Logged W) :
  match fst (Poll rcv h r w) with SValue p => polled_ok h r p /\ pr_receiver p = None | SError _ => True end.
Proof.
  unfold Poll, check_statusor, bind, ret. destruct (rcv_closed rcv); [done|].
  destruct (status_ok (ValidateChannel _ _)); [|done]. destruct (GenerateUUID w) as [id w1].
  destruct (ds_write h _ w1) as [[] w2]; cbn [negb]; [|done]. destruct (ds_read h w2) as [[resp|] w3]; [|done].
  destruct (pbQueuesDownstreamResponse_iserror resp) eqn:E; [done|].
  pose proof (downstream_messages_stream (pbQueuesDownstreamResponse_transactionid resp) (auto_ack r) (Some h)
    (pbQueuesDownstreamResponse_messages resp) w3) as Hm.
  destruct (downstream_messages _ _ _ _ w3) as [ms w4]. by cbn.
Qed.

Lemma poll_client_calls c r :
  closed c = false -> calls (transport c) statusor_status (PollQueue (W := Logged W) c r) (eq CallQueuesDownstream).
Proof.
  intros Hc. unfold PollQueue. eapply calls_bind_statusor; [by apply receiver_calls|]. intros rh.
  eapply silent_bind; [apply silent_poll|]. intros [p|s] _; [by apply silent_ret|].
  eapply silent_bind; [apply silent_close|]. intros; by apply silent_ret.
Qed.

Lemma poll_client_gives c r (w : Logged W) :
  match fst (PollQueue c r w) with
  | SValue p => exists h rcv, pr_receiver p = Some rcv /\ rcv_stream rcv = Some h /\ polled_ok h r p
  | SError _ => True
  end.
Proof.
  unfold PollQueue, NewQueueDownstreamReceiver, check_statusor, bind_statusor, bind, ret.
  destruct (status_ok (Client_CheckClosed c)); [|done].
  destruct (OpenQueueDownstream (transport c) w) as [[h|s] w1]; [|done]. cbn [fst snd].
  set (rcv := mkReceiver (Some h) (client_id_ (opts c)) false).
  pose proof (poll_gives rcv h r w1) as Hp. destruct (Poll rcv h r w1) as [[p|s] w2]; cbn [fst] in *.
  - exists h, rcv. destruct Hp as [Hp _]. by split_and!.
  - by destruct (Receiver_Close rcv w2).
Qed.

(** *** The relation under the steps of the process *)

Lemma sim_world p v (w : Logged W) : sim p v -> sim (mkProc w (p_now p) (p_client p) (p_objects p) (p_did p) (p_undefined p)) v.
Proof. by intros []. Qed.

Lemma sim_note p v d ok :
  sim p v -> did_ok d ->
  sim (mkProc (p_world p) (p_now p) (p_client p) (p_objects p) (p_did p ++ [(d, ok)])%list (p_undefined p))
    (v_result ok v).
Proof.
  intros [Hu Hn Hc Ho Hd Hf] Hok. split; try by destruct ok.
  - cbn. apply Forall_app. split; [done|]. by constructor.
  - unfold failed in *. cbn. rewrite existsb_app, Hf. destruct ok; cbn; [by rewrite orb_false_r|by rewrite orb_true_r].
Qed.

Lemma sim_noted p v d :
  sim p v -> did_ok d ->
  sim (mkProc (p_world p) (p_now p) (p_client p) (p_objects p) (p_did p ++ [(d, true)])%list (p_undefined p)) v.
Proof. intros Hs Hd. pose proof (sim_note p v d true Hs Hd) as Hn. by rewrite v_result_true in Hn. Qed.

Lemma sim_push p v o k :
  sim p v -> object_is o k -> handle_owned false o ->
  sim (mkProc (p_world p) (p_now p) (p_client p) (p_objects p ++ [(o, false)])%list (p_did p) (p_undefined p))
    (v_push k v).
Proof.
  intros [Hu Hn Hc Ho Hd Hf] Hk Hh. split; try done. cbn. apply Forall2_app; [done|]. by constructor.
Qed.

Lemma sim_end p v i o k b :
  sim p v -> v_objects v !! i = Some (k, b) -> object_is o k -> handle_owned true o ->
  sim (mkProc (p_world p) (p_now p) (p_client p) (<[i := (o, true)]> (p_objects p)) (p_did p) (p_undefined p))
    (v_end i v).
Proof.
  intros [Hu Hn Hc Ho Hd Hf] Hi Hk Hh. split; try done. cbn.
  assert (alter (fun kb => (fst kb, true)) i (v_objects v) = <[i := (k, true)]> (v_objects v)) as ->.
  { apply list_eq. intros j. destruct (decide (i = j)) as [->|Hj].
    - rewrite list_lookup_alter_eq, Hi, list_lookup_insert_eq; [done|by eapply lookup_lt_Some].
    - by rewrite list_lookup_alter_ne, list_lookup_insert_ne. }
  by apply Forall2_insert.
Qed.

(** The state of a handle changes, the object stays what it is. *)
Lemma sim_put p v i o k b :
  sim p v -> v_objects v !! i = Some (k, b) -> object_is o k -> handle_owned b o ->
  sim (mkProc (p_world p) (p_now p) (p_client p) (<[i := (o, b)]> (p_objects p)) (p_did p) (p_undefined p)) v.
Proof.
  intros [Hu Hn Hc Ho Hd Hf] Hi Hk Hh. split; try done. cbn.
  rewrite <- (list_insert_id (v_objects v) i (k, b)) by done. by apply Forall2_insert.
Qed.

Lemma sim_set_client p v c open :
  sim p v -> client_is (Some c) (Some open) ->
  sim (mkProc (p_world p) (p_now p) (Some c) (p_objects p) (p_did p) (p_undefined p)) (v_set_client open v).
Proof. by intros []. Qed.

Lemma sim_at p v t :
  sim p v -> sim (mkProc (p_world p) t (p_client p) (p_objects p) (p_did p) (p_undefined p)) (v_at t v).
Proof. by intros []. Qed.

Lemma sim_open p v : sim p v -> v_client v = Some true -> exists c, p_client p = Some c /\ usable c.
Proof.
  intros [_ _ Hc _ _ _] Hv. rewrite Hv in Hc. unfold client_is in Hc.
  destruct (p_client p) as [c|]; [|done]. by exists c.
Qed.

Lemma sim_object p v i k b :
  sim p v -> v_objects v !! i = Some (k, b) -> exists o, p_objects p !! i = Some (o, b) /\ object_is o k /\ handle_owned b o.
Proof.
  intros [_ _ _ Ho _ _] Hi. destruct (Forall2_lookup_r _ _ _ _ _ Ho Hi) as ([o b'] & Hl & Hk & Hb & Hh).
  cbn in *. subst b'. by exists o.
Qed.

Lemma left_same i l l' : Forall2 entry_is l l' -> not_ended i l = v_left i l'.
Proof.
  intros Hl. revert i. induction Hl as [|[o b] [k b'] l l' (Hk & Hb & _) Hl IH]; intros i; cbn in *; [done|].
  subst b'. rewrite IH. by destruct o, k, b.
Qed.

Lemma live_same l l' : Forall2 entry_is l l' -> live_streams l = v_live l'.
Proof.
  unfold live_streams, v_live. intros Hl. induction Hl as [|[o b] [k b'] l l' (Hk & Hb & _) Hl IH]; cbn in *; [done|].
  subst b'. rewrite IH. destruct o, k, b; cbn in *; try done; by rewrite Hk.
Qed.

Lemma sim_live p v h : sim p v -> h ∈ v_live (v_objects v) -> receiver_live (Some h) (p_objects p) = true.
Proof.
  intros [_ _ _ Ho _ _] Hh. unfold receiver_live. rewrite (live_same _ _ Ho). by apply bool_decide_eq_true.
Qed.

(** *** Each action *)

Abbreviation kept e p v := (exists v', api_post _ e v (fst (sdk _ e p)) v' /\ sim (snd (sdk _ e p)) v').

Ltac sdk_unfold :=
  unfold sdk, sdk_create, sdk_operation, sdk_close, sdk_subscribe, sdk_cancel, sdk_is_done, sdk_open_stream, sdk_send,
    sdk_close_stream, sdk_new_receiver, sdk_poll, sdk_close_receiver, sdk_poll_client, sdk_settle, sdk_build, elapse,
    outside, with_the_client, with_object, keep, end_object, in_world, note, add_object, set_object, set_client, get,
    undefined, bind, ret.

(** Noting what was done, and keeping what was made. *)
Lemma keep_kept {A} p v (r : StatusOr A) d (object : A -> Object) (k : Kind -> Prop) :
  sim p v -> did_ok d ->
  (forall a, r = SValue a -> exists k', k k' /\ object_is (object a) k' /\ handle_owned false (object a)) ->
  exists v', opened_as v (fst (keep r d object p)) v' k /\ sim (snd (keep r d object p)) v'.
Proof.
  intros Hs Hd Hk. unfold keep, note, add_object, bind, ret.
  pose proof (sim_note p v d (statusor_ok r) Hs Hd) as Hn. destruct r as [a|s]; cbn [statusor_ok] in Hn; rewrite ?v_result_true, ?v_result_false in Hn; cbn in *.
  - destruct (Hk a eq_refl) as (k' & Hk1 & Hk2 & Hk3). exists (v_push k' v). split.
    + split; [|by exists k']. cbn. apply Forall2_length with (1 := sim_objects _ _ Hs).
    + by apply (sim_push _ _ _ _ Hn).
  - by exists (v_fail v).
Qed.

Lemma create_kept o p v : sim p v -> api_pre _ (CreateClient o) v -> kept (CreateClient o) p v.
Proof.
  intros Hs [Hv Hfit]. cbn [api_post]. pose proof Hfit as Ho. unfold options_fit in Ho. rewrite !andb_true_iff, negb_true_iff in Ho.
  destruct Ho as [[Hval Hid] Hprov]. sdk_unfold. unfold set_client.
  assert (with_client_id o (p_world p) = (o, p_world p)) as Ew by (unfold with_client_id; by rewrite Hid).
  pose proof (created_fresh o (p_world p)) as Hfresh. pose proof (Client_Create_eq _ o _ _ _ Ew) as Ec. rewrite Hval in Ec.
  destruct (Client_Create o (p_world p)) as [[c|s] w'] eqn:E.
  - assert (usable c) as Hc.
    { split; [by eapply Hfresh|]. pose proof (GrpcTransport_Create_spec _ o (p_world p)) as [Ht _].
      destruct (GrpcTransport_Create o (p_world p)) as [[t|s0] w2]; [|done]. destruct Ht as (_ & _ & Hopts & _).
      assert (c = assembled o t) as ->.
      { destruct (check_connection_ o); [destruct (Transport_Ping t w2) as [[] ?]|]; by simplify_eq. }
      cbn. rewrite Hopts. by destruct (credential_provider_ o). }
    exists (v_set_client true v). split; [done|]. cbn.
    by apply (sim_set_client _ _ c true (sim_noted _ _ (DidCreate o StatusOk) (sim_world p v w' Hs) Hfit)).
  - exists (v_fail v). split; [done|]. rewrite <- v_result_false.
    by apply (sim_note _ _ (DidCreate o s) false (sim_world p v w' Hs)).
Qed.

Lemma operation_kept o p v : sim p v -> api_pre _ (Operation o) v -> kept (Operation o) p v.
Proof.
  intros Hs [Hv Ho]. destruct (sim_open _ _ Hs Hv) as (c & Hc & Hu). cbn [api_post]. sdk_unfold. rewrite Hc.
  pose proof (operation_made c o (p_world p) Hu Ho) as Hm. pose proof (operation_fact c o (p_world p)) as Hf.
  destruct (run_operation c o (p_world p)) as [x w']. cbn [fst snd] in *.
  exists (v_result (op_ok o x) v). split; [done|]. rewrite <- ?Hc.
  by apply (sim_note _ _ _ (op_ok o x) (sim_world p v w' Hs)).
Qed.

Lemma close_kept p v : sim p v -> api_pre _ CloseClient v -> kept CloseClient p v.
Proof.
  intros Hs [Hv Hl]. destruct (sim_open _ _ Hs Hv) as (c & Hc & [Hf _]). cbn [api_post]. sdk_unfold. rewrite Hc.
  rewrite Client_Close_stages by done. cbn [fst snd]. exists (v_set_client false v). split; [done|].
  rewrite (left_same 0 _ _ (sim_objects _ _ Hs)), Hl.
  by apply (sim_noted _ _ (DidClose [] StatusOk)
              (sim_set_client _ _ (client_at c CloseDone) false (sim_world p v _ Hs) eq_refl)).
Qed.

(** What [keep] is given: one call, on a client that is open. *)
Lemma subscribe_kept o f p v : sim p v -> api_pre _ (Subscribe o f) v -> kept (Subscribe o f) p v.
Proof.
  intros Hs [Hv Ho]. destruct (sim_open _ _ Hs Hv) as (c & Hc & Hu). cbn [api_post sdk].
  unfold sdk_subscribe, with_the_client, get, bind, in_world. rewrite Hc.
  assert (closed c = false /\ valid_channel (effective_channel (subscribe_channel o) c)) as Hvalid.
  { apply channel_fits_valid in Ho as [? ?]. rewrite effective_channel_own by done. split; [apply Hu|done]. }
  pose proof (gated_made c _ _ _ _ (p_world p) Hu (run_subscribe_op_gated c o) Hvalid) as Hm.
  unfold status_only, bind, ret in Hm. destruct (run_subscribe_op c o (p_world p)) as [r w'].
  rewrite <- ?Hc. apply (keep_kept _ _ _ _ _ _ (sim_world p v w' Hs)); [exact Hm|]. intros s _. by exists KSubscription.
Qed.

Lemma open_kept k f p v : sim p v -> api_pre _ (OpenStream k f) v -> kept (OpenStream k f) p v.
Proof.
  intros Hs Hv. destruct (sim_open _ _ Hs Hv) as (c & Hc & Hu). cbn [api_post sdk].
  unfold sdk_open_stream, with_the_client, get, bind, in_world. rewrite Hc.
  pose proof (calls_made c _ _ _ (p_world p) Hu
    (stream_calls c k f (match f with Some _ => true | None => false end) (proj1 (proj1 Hu)))) as Hm.
  destruct (_ (p_world p)) as [r w']. rewrite <- ?Hc.
  apply (keep_kept _ _ _ _ _ _ (sim_world p v w' Hs)); [exact Hm|]. intros h _. exists (KStream k).
  split; [done|]. split; [done|]. apply start_owned.
Qed.

Lemma new_receiver_kept p v : sim p v -> api_pre _ NewReceiver v -> kept NewReceiver p v.
Proof.
  intros Hs Hv. destruct (sim_open _ _ Hs Hv) as (c & Hc & Hu). cbn [api_post sdk].
  unfold sdk_new_receiver, with_the_client, get, bind, in_world. rewrite Hc.
  pose proof (calls_made c _ _ _ (p_world p) Hu (receiver_calls c (proj1 (proj1 Hu)))) as Hm.
  assert (forall a, fst (NewQueueDownstreamReceiver c (p_world p)) = SValue a -> exists h, rcv_stream (fst a) = Some h) as Hr.
  { unfold NewQueueDownstreamReceiver, check_statusor, bind_statusor, bind, ret.
    destruct (status_ok (Client_CheckClosed c)); [|done].
    destruct (OpenQueueDownstream (transport c) (p_world p)) as [[h|s] w1]; [|done].
    intros a [= <-]. by exists h. }
  destruct (NewQueueDownstreamReceiver c (p_world p)) as [r w']. rewrite <- ?Hc.
  apply (keep_kept _ _ _ _ _ _ (sim_world p v w' Hs)); [exact Hm|]. intros a ->.
  destruct (Hr a eq_refl) as [h Hh]. exists (KReceiver h). by split; [exists h|].
Qed.

Lemma receiver_close_stream r (w : Logged W) : rcv_stream (fst (Receiver_Close r w)) = rcv_stream r.
Proof.
  unfold Receiver_Close, bind, ret. destruct (rcv_closed r); [done|]. destruct (rcv_stream r) as [h|] eqn:E; [|done].
  destruct (GenerateUUID w) as [id w1]. destruct (ds_write h _ w1) as [b w2].
  by destruct (ds_writes_done h w2) as [b' w3].
Qed.

(** An object is ended, once or again. *)
Lemma end_kept p v (w : Logged W) i o k b :
  sim p v -> v_objects v !! i = Some (k, b) -> object_is o k -> handle_owned true o ->
  sim (snd (end_object i b o (mkProc w (p_now p) (p_client p) (p_objects p) (p_did p) (p_undefined p)))) (v_end i v).
Proof.
  intros Hs Hi Hk Hh. unfold end_object, set_object, note, bind, ret.
  pose proof (sim_end _ _ _ _ _ _ (sim_world p v w Hs) Hi Hk Hh) as He.
  destruct b; [exact He|]. by apply (sim_noted _ _ (DidEnd i) He).
Qed.

Lemma cancel_kept i p v : sim p v -> api_pre _ (CancelSubscription i) v -> kept (CancelSubscription i) p v.
Proof.
  intros Hs [b Hi]. destruct (sim_object _ _ _ _ _ Hs Hi) as (o & Ho & Hk & Hh). cbn [api_post sdk].
  unfold sdk_cancel, with_object, get, bind, in_world. rewrite Ho. destruct o; try done.
  destruct (TryCancel (sub_reader s) (p_world p)) as [[] w']. exists (v_end i v). split; [done|].
  by apply (end_kept p v w' i _ KSubscription).
Qed.

Lemma is_done_kept i p v : sim p v -> api_pre _ (SubscriptionIsDone i) v -> kept (SubscriptionIsDone i) p v.
Proof.
  intros Hs [b Hi]. destruct (sim_object _ _ _ _ _ Hs Hi) as (o & Ho & Hk & Hh). cbn [api_post sdk].
  unfold sdk_is_done, with_object, get, bind, ret. rewrite Ho. destruct o; try done. by exists v.
Qed.

Lemma send_kept i m p v : sim p v -> api_pre _ (SendOnStream i m) v -> kept (SendOnStream i m) p v.
Proof.
  intros Hs [Hi Hm]. destruct (sim_object _ _ _ _ _ Hs Hi) as (o & Ho & Hk & Hh). cbn [api_post sdk].
  unfold sdk_send, with_object, get, bind, in_world, set_object, note, ret. rewrite Ho. destruct o; try done.
  cbn in Hk, Hh. subst k. rewrite decide_True by done. destruct (stream_write h m (p_world p)) as [x w1].
  destruct (owner_Send_owned (message_kind m) (sh_stream h) (message_channel m) x impl w1 Hh)
    as (s & impl' & E & Hh' & Ha). destruct (owner_Send _ _ _ _ _ w1) as [sent w2]. cbn in E. subst sent.
  exists (v_result (status_ok s) v). split; [done|]. pose proof (sim_world p v w2 Hs) as Hw.
  pose proof (sim_put _ _ i (ObjStream (message_kind m) h on_result impl') _ _ Hw Hi eq_refl Hh') as Hp.
  by apply (sim_note _ _ (DidSend false (IsDone impl') m s) (status_ok s) Hp).
Qed.

(** Closing a stream that its owner has closed or not. *)
Lemma close_stream_sim i p v k b :
  sim p v -> v_objects v !! i = Some (KStream k, b) ->
  sim (snd (sdk_close_stream i p)) (v_end i v).
Proof.
  intros Hs Hi. destruct (sim_object _ _ _ _ _ Hs Hi) as (o & Ho & Hk & Hh).
  unfold sdk_close_stream, with_object, get, bind, in_world. rewrite Ho. destruct o; try done. cbn in Hk, Hh. subst k0.
  destruct (owner_Close_owned k (sh_stream h) b impl (p_world p) Hh) as (impl' & E & Hh').
  destruct (owner_Close _ _ _ _) as [closed w']. cbn in E. subst closed.
  by apply (end_kept p v w' i (ObjStream k h on_result impl') (KStream k) b Hs Hi eq_refl Hh').
Qed.

Lemma close_stream_kept i p v : sim p v -> api_pre _ (CloseStream i) v -> kept (CloseStream i) p v.
Proof.
  intros Hs [k Hi]. exists (v_end i v). split; [done|]. by apply (close_stream_sim i p v k false).
Qed.

Lemma poll_kept i r p v : sim p v -> api_pre _ (PollReceiver i r) v -> kept (PollReceiver i r) p v.
Proof.
  intros Hs [[h Hi] Hr]. destruct (sim_object _ _ _ _ _ Hs Hi) as (o & Ho & Hk & Hh). cbn [api_post sdk].
  unfold sdk_poll, with_object, get, bind, in_world, note, ret. rewrite Ho. destruct o; try done. cbn in Hk. rewrite Hk.
  pose proof (poll_gives r0 h r (p_world p)) as Hp. destruct (Poll r0 h r (p_world p)) as [x w']. cbn [fst] in Hp.
  assert (did_ok (DidPoll false r (statusor_status x))) as Hd by (split; [done|]; by apply channel_fits_valid).
  pose proof (sim_note _ _ _ (statusor_ok x) (sim_world p v w' Hs) Hd) as Hn.
  destruct x as [a|s]; cbn [statusor_ok] in Hn; rewrite ?v_result_true, ?v_result_false in Hn.
  - exists v. split; [|exact Hn]. split; [done|]. exists h. by destruct Hp.
  - by exists (v_fail v).
Qed.

Lemma close_receiver_kept i p v : sim p v -> api_pre _ (CloseReceiver i) v -> kept (CloseReceiver i) p v.
Proof.
  intros Hs (h & b & Hi). destruct (sim_object _ _ _ _ _ Hs Hi) as (o & Ho & Hk & Hh). cbn [api_post sdk].
  unfold sdk_close_receiver, with_object, get, bind, in_world. rewrite Ho. destruct o; try done. cbn in Hk.
  pose proof (receiver_close_stream r (p_world p)) as Hr. destruct (Receiver_Close r (p_world p)) as [r' w'].
  exists (v_end i v). split; [done|]. apply (end_kept p v w' i _ (KReceiver h)); [done|done| |done]. cbn in *. congruence.
Qed.

Lemma poll_client_kept r p v : sim p v -> api_pre _ (PollClient r) v -> kept (PollClient r) p v.
Proof.
  intros Hs [Hv Hr]. destruct (sim_open _ _ Hs Hv) as (c & Hc & Hu). cbn [api_post sdk].
  unfold sdk_poll_client, with_the_client, get, bind, in_world, note, ret. rewrite Hc.
  pose proof (calls_made c _ _ _ (p_world p) Hu (poll_client_calls c r (proj1 (proj1 Hu)))) as Hm.
  pose proof (poll_client_gives c r (p_world p)) as Hg. destruct (PollQueue c r (p_world p)) as [x w']. cbn [fst snd] in *.
  assert (did_ok (DidPollClient c r (statusor_status x) (drop (length (snd (p_world p))) (snd w')))) as Hd.
  { split; [by apply channel_fits_valid|exact Hm]. }
  pose proof (sim_note _ _ _ (statusor_ok x) (sim_world p v w' Hs) Hd) as Hn. rewrite <- ?Hc.
  destruct x as [a|s]; cbn [statusor_ok] in Hn; rewrite ?v_result_true, ?v_result_false in Hn.
  - destruct Hg as (h & rcv & -> & Hrcv & Hp). exists (v_push (KResponse h) v). split; [by exists h|].
    by apply (sim_push _ _ (ObjResponse rcv) (KResponse h) Hn).
  - by exists (v_fail v).
Qed.

(** A settlement refused by a test of the SDK: no transaction. *)
Lemma settle_all_refused o pr (w : Logged W) :
  settle_fits o = true -> pr_auto_ack pr = false -> pr_transaction_id pr <> "" ->
  code_ (fst (settle_all o pr w)) <> kValidation.
Proof.
  intros Hfit Ha Ht. apply str_empty_false in Ht.
  assert (forall n ch (w : Logged W), code_ (fst (SendSettleAll n ch pr w)) <> kValidation) as Hs.
  { intros n ch w'. unfold SendSettleAll, lock_stream, bind, ret. rewrite Ha. destruct (pr_stream pr); [|done].
    destruct (ds_lock n0 w') as [[] w1]; [|done]. rewrite Ht. destruct (pr_messages pr); [done|].
    destruct (GenerateUUID w1) as [id w2]. destruct (pr_stream_mu pr); cbn [negb]; [|done].
    by destruct (ds_write _ _ w2) as [[] w3]. }
  unfold settle_fits in Hfit. destruct o as [| |c| | |c]; try done; cbn [settle_all]; try apply Hs.
  cbn in Hfit. unfold Response_ReQueueAll. destruct (str_empty c); [done|apply Hs].
Qed.

Lemma settle_refused m (w : Logged W) :
  dm_auto_ack m = false -> dm_transaction_id m <> "" -> code_ (fst (Message_Ack m w)) <> kValidation.
Proof.
  intros Ha Ht. apply str_empty_false in Ht. unfold Message_Ack, SendSettle, lock_stream, bind, ret. rewrite Ha.
  destruct (dm_stream m); [|done]. destruct (ds_lock n w) as [[] w1]; [|done]. rewrite Ht.
  destruct (GenerateUUID w1) as [id w2]. destruct (dm_stream_mu m); cbn [negb]; [|done].
  by destruct (ds_write _ _ w2) as [[] w3].
Qed.

Lemma settle_kept p v stream auto_ack tx (m : M (Logged W) Status) h :
  (forall w, tx <> "" -> code_ (fst (m w)) <> kValidation) ->
  sim p v -> auto_ack = false -> stream = Some h -> h ∈ v_live (v_objects v) ->
  exists v', v' = v_result (status_ok (fst (sdk_settle stream auto_ack tx m p))) v /\
    sim (snd (sdk_settle stream auto_ack tx m p)) v'.
Proof.
  intros Hm Hs -> -> Hh. unfold sdk_settle, get, bind, in_world, note, ret. rewrite (sim_live _ _ _ Hs Hh).
  specialize (Hm (p_world p)). destruct (m (p_world p)) as [s w']. exists (v_result (status_ok s) v). split; [done|].
  by apply (sim_note _ _ (DidSettle true false tx s) (status_ok s) (sim_world p v w' Hs)).
Qed.

Lemma build_kept {B T} (build : B -> M (Logged W) (StatusOr T * B)) valid given made rest b p v :
  build_contract build valid given made rest -> valid b -> sim p v ->
  exists v', (v' = v /\ built (fun id => made id b) (fst (sdk_build build b p))) /\ sim (snd (sdk_build build b p)) v'.
Proof.
  intros Hb Hv Hs. destruct (Hb b (p_world p)) as [H1' _]. destruct (H1' Hv) as (id & E & _).
  unfold sdk_build, in_world, bind, ret. rewrite E. exists v. split; [split; [done|by exists id]|].
  by apply sim_world.
Qed.

Lemma elapse_kept d p v :
  sim p v -> exists t, v_now v + d <= t /\ p_now (snd (elapse d p)) = t /\ sim (snd (elapse d p)) (v_at t v).
Proof.
  intros Hs. unfold elapse, outside, in_world, bind, ret, lift_log. cbn.
  pose proof (passed_positive (fst (p_world p))) as Ht. destruct (passed (fst (p_world p))) as [t w']. cbn in *.
  exists (p_now p + d + t). rewrite (sim_now _ _ Hs). split; [lia|]. split; [done|]. rewrite <- (sim_now _ _ Hs).
  apply (sim_at _ _ _ (sim_world p v (w', snd (p_world p)) Hs)).
Qed.

Lemma outside_kept {A} (m : M W A) p v : sim p v -> sim (snd (outside m p)) v.
Proof.
  intros Hs. unfold outside, in_world, bind, ret, lift_log. cbn. destruct (m (fst (p_world p))) as [a w'].
  by apply sim_world.
Qed.

(** *** Leaving [main] *)

(** The destructor of a stream handle has ended the process, because the
    broker had ended the stream. *)
Definition broken_off (p : Proc W) : Prop :=
  terminated p = true /\ p_undefined p = false /\ Forall (fun d => did_ok (fst d)) (p_did p) /\
  exists i k h f impl, p_objects p !! i = Some (ObjStream k h f impl, true) /\ ended_by_broker k impl.

(** Until then every handle is alive. *)
Lemma sim_not_terminated p v : sim p v -> terminated p = false.
Proof.
  intros [_ _ _ Ho _ _]. unfold terminated. induction Ho as [|[o b] [k b'] l l' (_ & _ & Hh) _ IH]; cbn; [done|].
  rewrite IH. destruct o; try done. cbn in *. by rewrite (owned_alive _ _ _ Hh).
Qed.

Lemma destroy_object_members_kept p v i k :
  sim p v -> v_objects v !! i = Some (KStream k, true) ->
  sim (snd (destroy_object_members i p)) v \/
  broken_off (snd (destroy_object_members i p)) /\ failed (snd (destroy_object_members i p)) = failed p.
Proof.
  intros Hs Hi. destruct (sim_object _ _ _ _ _ Hs Hi) as (o & Ho & Hk & Hh).
  unfold destroy_object_members, with_object, get, bind. rewrite Ho. destruct o; try done. cbn in Hk, Hh. subst k0.
  destruct (owner_destroy_owned k impl Hh) as (impl' & -> & [[-> _]|He]); [by left|]. right.
  destruct Hs as [Hu _ _ _ Hd _]. rewrite (proj1 He). unfold set_object. cbn [snd]. split; [|done].
  assert (p_objects p !! i = Some (ObjStream k h on_result impl, true)) as Hlt%lookup_lt_Some by done.
  assert (forall b, <[i := (ObjStream k h on_result impl', b)]> (p_objects p) !! i =
            Some (ObjStream k h on_result impl', b)) as Hl by (intros; by rewrite list_lookup_insert_eq).
  unfold broken_off. cbn. split; [|split; [done|split; [done|]]].
  - unfold terminated. apply existsb_exists. exists (ObjStream k h on_result impl', true). cbn.
    split; [|by rewrite (proj1 He)]. apply list_elem_of_In. by apply (list_elem_of_lookup_2 _ i).
  - exists i, k, h, on_result, impl'. by rewrite Hl.
Qed.

Lemma destroy_object_kept p v i :
  sim p v -> (i < length (p_objects p))%nat ->
  sim (snd (destroy_object i p)) (v_end i v) \/
  broken_off (snd (destroy_object i p)) /\ failed (snd (destroy_object i p)) = failed p.
Proof.
  intros Hs Hi. destruct (lookup_lt_is_Some_2 _ _ Hi) as [[o b] Ho].
  destruct (Forall2_lookup_l _ _ _ _ _ (sim_objects _ _ Hs) Ho) as ([k b'] & Hk & Hok & Hb & Hh). cbn in Hok, Hb, Hh.
  subst b'. unfold destroy_object, with_object, get, bind. rewrite Ho.
  destruct o as [s f|k' h f impl|r|r], k as [|k|h'|h']; try done; cbn in Hok.
  - left. destruct (cancel_kept i p v Hs) as (v' & -> & Hs'); [by exists b|exact Hs'].
  - subst k'. pose proof (close_stream_sim i p v k b Hs Hk) as Hs1.
    assert (failed (snd (sdk_close_stream i p)) = failed p) as Hf by (by rewrite (sim_failed _ _ Hs1), (sim_failed _ _ Hs)).
    destruct (sdk_close_stream i p) as [[] p1]. cbn [snd] in *. rewrite <- Hf.
    apply (destroy_object_members_kept p1 _ i k Hs1). cbn. by rewrite list_lookup_alter_eq, Hk.
  - left. destruct (close_receiver_kept i p v Hs) as (v' & -> & Hs'); [by exists h', b|exact Hs'].
  - left. unfold in_world. pose proof (receiver_close_stream r (p_world p)) as Hr.
    destruct (Receiver_Close r (p_world p)) as [r' w']. apply (end_kept p v w' i _ (KResponse h')); [done|done| |done].
    cbn in *. congruence.
Qed.

Definition ended_at (v : View) (i : nat) : Prop := forall k b, v_objects v !! i = Some (k, b) -> b = true.

Lemma ended_end v i j : ended_at v i \/ i = j -> ended_at (v_end j v) i.
Proof.
  intros He k b Hi. cbn in Hi. destruct (decide (i = j)) as [->|Hne].
  - rewrite list_lookup_alter_eq in Hi. destruct (v_objects v !! j); [|done]. cbn in Hi. congruence.
  - rewrite list_lookup_alter_ne in Hi by done. destruct He as [He|He]; [by eapply He|done].
Qed.

Lemma destroy_objects_kept n p v :
  sim p v -> (n <= length (p_objects p))%nat ->
  (exists v', sim (snd (destroy_objects n p)) v' /\ v_client v' = v_client v /\ v_failed v' = v_failed v /\
     length (v_objects v') = length (v_objects v) /\
     forall i, (i < n)%nat \/ ended_at v i -> ended_at v' i) \/
  broken_off (snd (destroy_objects n p)) /\ failed (snd (destroy_objects n p)) = failed p.
Proof.
  revert p v. induction n as [|n IH]; intros p v Hs Hn.
  - left. exists v. split_and!; try done. by intros i [?|?]; [lia|].
  - cbn [destroy_objects]. unfold bind, get.
    destruct (destroy_object_kept p v n Hs Hn) as [Hs1|[Hb Hfb]]; destruct (destroy_object n p) as [[] p1]; cbn [snd] in *.
    2: { rewrite (proj1 Hb). by right. }
    rewrite (sim_not_terminated _ _ Hs1).
    assert (length (p_objects p1) = length (p_objects p)) as Hl.
    { rewrite (Forall2_length _ _ _ (sim_objects _ _ Hs1)), (Forall2_length _ _ _ (sim_objects _ _ Hs)). cbn.
      by rewrite length_alter. }
    destruct (IH p1 (v_end n v) Hs1 ltac:(lia)) as [(v' & Hs' & Hc & Hf & Hle & He)|[Hb Hfb]].
    2: { right. split; [done|]. by rewrite Hfb, (sim_failed _ _ Hs1), (sim_failed _ _ Hs). }
    left. exists v'. split_and!; [done|done|done|rewrite Hle; cbn; by rewrite length_alter|].
    intros i Hor. apply He. destruct (decide (i < n)%nat); [by left|right]. apply ended_end.
    destruct Hor; [right; lia|by left].
Qed.

Lemma ended_left j l : (forall i k b, l !! i = Some (k, b) -> b = true) -> v_left j l = [].
Proof.
  revert j. induction l as [|[k b] l IH]; intros j He; cbn; [done|]. rewrite (He 0%nat k b eq_refl). cbn.
  apply IH. intros i. apply (He (S i)).
Qed.

Lemma close_again c (w : Logged W) : closed c = true -> closed (snd (fst (Client_Close c w))) = true.
Proof.
  intros Hc. unfold Client_Close, DrainAll, bind, ret. destruct (close_once c); [done|].
  destruct (cancel_all _ w) as [[] w1]. by destruct (GrpcTransport_Close _ w1) as [[s t] w2].
Qed.

(** What is left of the process when [main] has been left. *)
Definition all_over (p : Proc W) : Prop :=
  p_undefined p = false /\ Forall (fun d => did_ok (fst d)) (p_did p) /\
  Forall (fun ob => snd ob = true) (p_objects p) /\
  match p_client p with Some c => closed c = true | None => True end.

Lemma leave_main p v :
  sim p v ->
  let p1 := snd (destroy_objects (length (p_objects p)) p) in
  failed p1 = failed p /\
  if terminated p1 then broken_off p1
  else let p' := snd (destroy_client p1) in all_over p' /\ failed p' = failed p.
Proof.
  intros Hs. cbv zeta. destruct (destroy_objects_kept (length (p_objects p)) p v Hs (le_n _))
    as [(v' & Hs' & Hc & Hf & Hl & He)|[Hb Hfb]]; [|by rewrite (proj1 Hb)].
  set (p1 := snd (destroy_objects (length (p_objects p)) p)) in *. rewrite (sim_not_terminated _ _ Hs').
  assert (forall i k b, v_objects v' !! i = Some (k, b) -> b = true) as Hend.
  { intros i k b Hi. apply (He i) with (2 := Hi). left. apply lookup_lt_Some in Hi.
    rewrite Hl, <- (Forall2_length _ _ _ (sim_objects _ _ Hs)) in Hi. done. }
  assert (Forall (fun ob => snd ob = true) (p_objects p1)) as Hall.
  { apply Forall_lookup. intros i [o b] Hi.
    destruct (Forall2_lookup_l _ _ _ _ _ (sim_objects _ _ Hs') Hi) as ([k b'] & Hk & _ & Hb & _).
    cbn in *. subst b'. by eapply Hend. }
  assert (failed p1 = failed p) as Hfail by (by rewrite (sim_failed _ _ Hs'), Hf, (sim_failed _ _ Hs)).
  split; [done|]. pose proof Hs' as [Hu Hn Hcl Ho Hd Hfl]. unfold destroy_client, get, bind. destruct (p_client p1) as [c|] eqn:Ec.
  - unfold in_world, set_client, note.
    assert (closed (snd (fst (Client_Close c (p_world p1)))) = true) as Hclosed.
    { destruct (v_client v') as [[]|]; cbn in Hcl; [|by apply close_again|done].
      destruct Hcl as [Hfr _]. by rewrite Client_Close_stages. }
    destruct (Client_Close c (p_world p1)) as [[s c'] w']. cbn in *.
    rewrite (left_same 0 _ _ Ho), (ended_left _ _ Hend). split.
    + split_and!; try done. cbn. apply Forall_app. by repeat constructor.
    + unfold failed in *. cbn. by rewrite existsb_app, Hfail, orb_false_r.
  - cbn. split; [|done]. split_and!; try done. by rewrite Ec.
Qed.

(** The interpreter keeps the contract. *)
Lemma sdk_keeps : keeps api_contract sdk sim.
Proof.
  intros X e p v Hs Hp. change (kept e p v). destruct e.
  - by apply create_kept.
  - destruct (sim_open _ _ Hs Hp) as (c & Hc & _). cbn. unfold with_the_client, get, bind, in_world, ret. rewrite Hc.
    destruct (Client_State c (p_world p)) as [x w']. exists v. split; [done|]. rewrite <- ?Hc. by apply sim_world.
  - by apply operation_kept.
  - by apply close_kept.
  - by apply subscribe_kept.
  - by apply cancel_kept.
  - by apply is_done_kept.
  - by apply open_kept.
  - by apply send_kept.
  - by apply close_stream_kept.
  - by apply new_receiver_kept.
  - by apply poll_kept.
  - by apply close_receiver_kept.
  - by apply poll_client_kept.
  - destruct Hp as (Hfit & Ha & h & Hst & Hh).
    exact (settle_kept p v _ _ _ _ h (fun w => settle_all_refused o p0 w Hfit Ha) Hs Ha Hst Hh).
  - destruct Hp as (Ha & h & Hst & Hh). exact (settle_kept p v _ _ _ _ h (fun w => settle_refused m w Ha) Hs Ha Hst Hh).
  - by apply (build_kept _ _ _ _ _ _ _ _ Event_Build_contract).
  - by apply (build_kept _ _ _ _ _ _ _ _ EventStore_Build_contract).
  - by apply (build_kept _ _ _ _ _ _ _ _ Command_Build_contract).
  - by apply (build_kept _ _ _ _ _ _ _ _ Query_Build_contract).
  - by apply (build_kept _ _ _ _ _ _ _ _ QueueMessage_Build_contract).
  - destruct (elapse_kept milliseconds p v Hs) as (t & Ht & _ & He). exists (v_at t v). split; [by exists t|exact He].
  - destruct (elapse_kept 0 p v Hs) as (t & Ht & Hn & He). cbn. unfold bind, get.
    destruct (elapse 0 p) as [[] p']. cbn in *. exists (v_at t v). subst t. split; [split; [lia|done]|done].
  - exists v. split; [done|]. by apply outside_kept.
  - exists v. split; [done|]. by apply outside_kept.
  - exists v. split; [done|]. by apply outside_kept.
  - exists v. split; [done|]. by apply outside_kept.
Qed.

(** ** Running a program *)

Lemma start_sim (w : W) : sim (Proc_start w) View_start.
Proof. by split. Qed.

(** A program that meets its weakest precondition, run with the SDK: where it
    returns, and what is left when it has been left. *)
Lemma main_runs (m : main) (w : W) :
  main_ok m ->
  let '(code, p) := exec sdk m (Proc_start w) in
  let '(e, p') := run_main m (Proc_start w) in
  ((code = 0 /\ match p_client p with Some c => closed c = true | None => True end) \/
   (code = 1 /\ failed p = true)) /\
  failed p' = failed p /\
  match e with Exited code' => code' = code /\ all_over p' | EndedByTerminate => broken_off p' end.
Proof.
  intros Hm. destruct (wp_sound api_contract sdk sim m main_post sdk_keeps (Proc_start w) View_start (start_sim w) Hm)
    as (v & Hv & Hs).
  unfold run_main, bind, get, ret. destruct (exec sdk m (Proc_start w)) as [code p]. cbn [fst snd] in *.
  pose proof (leave_main p v Hs) as Hl. destruct (destroy_objects (length (p_objects p)) p) as [[] p1]. cbn [snd] in Hl.
  destruct Hl as [Hf1 Hl].
  assert ((code = 0 /\ match p_client p with Some c => closed c = true | None => True end) \/
          (code = 1 /\ failed p = true)) as Hcode.
  { destruct Hv as [[-> Hc]|[-> Hf]]; [left|right].
    - split; [done|]. pose proof (sim_client _ _ Hs) as Hcl. destruct (p_client p); [|done].
      by destruct (v_client v) as [[]|].
    - split; [done|]. by rewrite (sim_failed _ _ Hs). }
  destruct (terminated p1); [by split_and!|].
  destruct (destroy_client p1) as [[] p2]. cbn [snd] in Hl. destruct Hl as [Ha Hf2]. by split_and!.
Qed.

End keeps.

(** ** Automation

    [wp_steps] runs a program by its weakest precondition: it discharges each
    precondition by evaluating it and takes every case of each answer. *)

Ltac in_live := cbn; repeat first [apply list_elem_of_here | apply list_elem_of_further].

Ltac wp_side :=
  cbn [pre api_contract api_pre];
  repeat match goal with
         | |- _ /\ _ => split
         | |- exists _, _ => eexists
         | |- True => exact I
         | |- content_ok _ _ _ => split; [vm_compute; reflexivity | left; vm_compute; reflexivity]
         | |- (_ <= _)%Z => cbn; lia
         | |- (_ < _)%Z => cbn; lia
         | |- _ ∈ _ => in_live
         end; try eassumption; try reflexivity; try (vm_compute; reflexivity).

Ltac wp_facts Hx :=
  cbn [post api_contract api_post op_fact] in Hx; unfold opened_as, polled_ok, built in Hx;
  repeat match goal with
         | H : _ /\ _ |- _ => destruct H
         | H : exists _, _ |- _ => destruct H
         | H : context [match ?x with SValue _ => _ | SError _ => _ end] |- _ => destruct x
         | H : v_objects _ !! _ = Some (KReceiver ?h, _) |- _ =>
             cbv [v_objects v_at v_push v_end lookup list_lookup length app] in H; injection H as H; subst h
         end; subst.

(** The state in normal form. *)
Ltac view_simpl :=
  repeat match goal with
         | |- wp _ _ _ ?v =>
             let v' := eval cbv [v_fail v_result v_push v_end v_set_client v_at v_client v_objects v_now v_failed
                                 alter list_alter app length fst snd statusor_ok op_ok negb orb] in v in
             progress change v with v'
         end.

Ltac wp_step :=
  lazymatch goal with
  | |- wp _ (Ret _) _ _ => cbn [wp]
  | |- main_post _ _ =>
      cbn; rewrite ?orb_true_r; first [left; split; [reflexivity|discriminate] | right; split; reflexivity]
  | |- wp _ close_and_return _ _ => unfold close_and_return
  | |- wp _ (ok_or_1 _ _) _ _ => unfold ok_or_1, or_return
  | |- wp _ (value_or_1 _ _) _ _ => unfold value_or_1, or_return_value
  | |- wp _ (for_each ?l _ _ _) _ _ =>
      let l' := eval cbv [app length v_objects] in l in change l with l'; cbn [for_each]
  | |- wp _ (if status_ok StatusOk then ?k else _) _ _ => change (if status_ok StatusOk then k else _) with k
  | |- wp _ (if statusor_ok (SValue _) then _ else _) _ _ => cbn [statusor_ok]
  | |- wp _ (if statusor_ok (SError _) then _ else _) _ _ => cbn [statusor_ok]
  | |- wp _ (if statusor_ok ?x then _ else _) _ _ => destruct x; cbn [statusor_ok]
  | |- wp _ (if pr_is_error ?p then _ else _) _ _ =>
      match goal with H : pr_is_error p = false |- _ => rewrite H end
  | |- wp _ (if qsr_is_error ?r then _ else _) _ _ =>
      match goal with H : qsr_is_error r = false |- _ => rewrite H end
  | |- wp _ (match ?x with SValue _ => _ | SError _ => _ end) _ _ => destruct x
  | |- wp _ (if ?b then _ else _) _ _ => let Hb := fresh "Hb" in destruct b eqn:Hb
  | |- wp _ (match pr_messages ?p with [] => _ | _ => _ end) _ _ =>
      match goal with
      | H : Forall _ (pr_messages p) |- _ => destruct (pr_messages p); [|apply Forall_cons in H as [[? ?] _]]
      end
  | |- pre _ _ _ /\ _ => split; [wp_side|]
  | |- wp _ (Act _ _) _ _ => cbn [wp]
  | |- forall x v, post _ _ _ _ _ -> _ =>
      let x := fresh "x" in let v := fresh "v" in let Hx := fresh "Hx" in intros x v Hx; wp_facts Hx; view_simpl
  | |- wp _ _ _ _ => progress cbv zeta
  end.

Ltac wp_steps := unfold main_ok, View_start; repeat wp_step.
