(* ===== verification/ExamplesBasic.v ===== *)
(** * The examples of connections, TLS, errors, telemetry and channel management

    The [main] of every program under src/examples/connection, tls,
    error_handling, observability and management, and that each meets its
    weakest precondition. *)

From Stdlib Require Import ZArith Lia Ascii String Floats.
From S2P Require Import Prelude Status Backoff Tls ClientOptions Messages Client Subscription Program ExampleApi ExampleLogic.

Local Open Scope string_scope.
Local Open Scope Z_scope.
Local Open Scope kubemq_scope.

(** ** connection *)

Definition connection_close : main :=
  let options := example_options "cpp-connection-close-client" in
  ok? _ := CreateClient options in
  ok? _ := Operation COPing in
  close_and_return.

Definition connection_connect : main :=
  let options := example_options "cpp-connection-connect-client" in
  ok? _ := CreateClient options in
  ok? _ := Operation COPing in
  close_and_return.

Definition connection_custom_timeouts : main :=
  let options := example_options "cpp-connection-custom-timeouts-client"
    |> set_connection_timeout 15000
    |> set_keepalive_time 30000
    |> set_keepalive_timeout 10000
    |> set_drain_timeout 10000
    |> set_max_receive_message_size (50 * 1024 * 1024)
    |> set_max_send_message_size (50 * 1024 * 1024) in
  ok? _ := CreateClient options in
  ok? _ := Operation COPing in
  close_and_return.

Definition connection_ping : main :=
  let options := example_options "cpp-connection-ping-client" in
  ok? _ := CreateClient options in
  ok? _ := Operation COPing in
  close_and_return.

Definition connection_token_auth : main :=
  do! env_token := GetEnvironment "KUBEMQ_AUTH_TOKEN" in
  let token := match env_token with Some t => t | None => "your-auth-token-here" end in
  let options := example_options "cpp-connection-token-auth-client" |> set_auth_token token in
  ok? _ := CreateClient options in
  ok? _ := Operation COPing in
  close_and_return.

(** ** tls *)

Definition tls_mtls_setup : main :=
  let tls := FromMTLS "/path/to/client.pem" "/path/to/client-key.pem" "/path/to/ca.pem" in
  let options := example_options "cpp-tls-mtls-setup-client" |> set_tls_config tls in
  ok? _ := CreateClient options in
  ok? _ := Operation COPing in
  close_and_return.

Definition tls_tls_setup : main :=
  let tls := FromCertFile "/path/to/ca.pem" in
  let options := example_options "cpp-tls-tls-setup-client" |> set_tls_config tls in
  ok? _ := CreateClient options in
  ok? _ := Operation COPing in
  close_and_return.

(** ** error_handling *)

(** A client that cannot be made is what this example shows. *)
Definition error_handling_connection_error : main :=
  let options := ClientOptions_default
    |> set_address_host_port "localhost" 59999
    |> set_client_id "cpp-error-handling-connection-error-client"
    |> set_check_connection true
    |> set_connection_timeout 3000 in
  do! client_result := CreateClient options in
  if statusor_ok client_result then
    do! ping_result := Operation COPing in
    if statusor_ok ping_result then close_and_return
    else
      do! _ := CloseClient in
      Ret 1
  else Ret 0.

(** [while (!g_shutdown_requested)]: every round sleeps 100 ms and leaves when
    more than 5 s have gone, so [rounds] never runs out when it starts at 51. *)
Fixpoint wait_for_shutdown (rounds : nat) (start : Z) (next : main) : main :=
  match rounds with
  | O => Ret (-1)
  | S rounds' =>
      do! requested := ShutdownRequested in
      if (requested : bool) then next
      else
        do! _ := SleepFor 100 in
        do! now := SteadyNow in
        if 5000 <? now - start then next else wait_for_shutdown rounds' start next
  end.

Definition SIGINT : Z := 2.
Definition SIGTERM : Z := 15.

Definition error_handling_graceful_shutdown : main :=
  let options := example_options "cpp-error-handling-graceful-shutdown-client"
    |> set_drain_timeout 10000
    |> set_on_closed (Some 0%nat) in
  ok? _ := CreateClient options in
  let channel := "cpp-error_handling.graceful_shutdown" in
  ok? sub := Subscribe (SOEvents channel "") (OnEvent printing) in
  do! _ := InstallSignal SIGINT in
  do! _ := InstallSignal SIGTERM in
  do! start := SteadyNow in
  wait_for_shutdown 51 start
    (do! _ := CancelSubscription sub in
     close_and_return).

Definition error_handling_reconnection : main :=
  let policy := mkReconnectPolicy 0 1000 30000 2.0%float kFull (buffer_size ReconnectPolicy_default) in
  let options := example_options "cpp-error-handling-reconnection-client"
    |> set_reconnect_policy policy
    |> set_on_connected (Some 0%nat)
    |> set_on_disconnected (Some 1%nat)
    |> set_on_reconnecting (Some 2%nat)
    |> set_on_reconnected (Some 3%nat)
    |> set_on_closed (Some 4%nat) in
  ok? _ := CreateClient options in
  do! _ := ClientState in
  do! ping_result := Operation COPing in
  if statusor_ok ping_result then close_and_return
  else
    do! _ := CloseClient in
    Ret 1.

(** ** observability *)

Definition observability_opentelemetry_setup : main :=
  let options := example_options "cpp-observability-opentelemetry-setup-client" in
  ok? _ := CreateClient options in
  ok? event := BuildEvent (EventBuilder_new
    |> Event_SetChannel "cpp-observability.opentelemetry_setup"
    |> Event_SetBody "traced-event"
    |> Event_SetMetadata "otel-demo") in
  ok! Operation (COSendEvent event) in
  do! _ := SleepFor 1000 in
  close_and_return.

(** ** management: a failure is printed, and the program goes on *)

Definition management_create_channel : main :=
  let options := example_options "cpp-management-create-channel-client" in
  ok? _ := CreateClient options in
  do! _ := Operation (COCreateChannel "cpp-management.create_channel.events" kChannelTypeEvents) in
  do! _ := Operation (COCreateChannel "cpp-management.create_channel.queues" kChannelTypeQueues) in
  do! _ := Operation (COCreateChannel "cpp-management.create_channel.es" kChannelTypeEventsStore) in
  do! _ := Operation (COCreateChannel "cpp-management.typed.events" kChannelTypeEvents) in
  do! _ := Operation (COCreateChannel "cpp-management.typed.queues" kChannelTypeQueues) in
  do! _ := Operation (COCreateChannel "cpp-management.typed.commands" kChannelTypeCommands) in
  close_and_return.

Definition management_delete_channel : main :=
  let options := example_options "cpp-management-delete-channel-client" in
  ok? _ := CreateClient options in
  let channel_name := "cpp-management.delete_channel.temp" in
  do! _ := Operation (COCreateChannel channel_name kChannelTypeEvents) in
  do! _ := Operation (CODeleteChannel channel_name kChannelTypeEvents) in
  let typed_name := "cpp-management.delete_channel.typed" in
  do! _ := Operation (COCreateChannel typed_name kChannelTypeEvents) in
  do! _ := Operation (CODeleteChannel typed_name kChannelTypeEvents) in
  close_and_return.

Definition management_list_channels : main :=
  let options := example_options "cpp-management-list-channels-client" in
  ok? _ := CreateClient options in
  do! _ := Operation (COListChannels kChannelTypeEvents "") in
  do! _ := Operation (COListChannels kChannelTypeQueues "cpp-") in
  do! _ := Operation (COListChannels kChannelTypeEvents "") in
  do! _ := Operation (COListChannels kChannelTypeQueues "cpp-") in
  close_and_return.

Definition management_purge_queue : main :=
  let options := example_options "cpp-management-purge-queue-client" in
  ok? _ := CreateClient options in
  let channel := "cpp-management.purge_queue" in
  for_each [1; 2; 3; 4; 5] (fun i _ next =>
    ok? msg := BuildQueueMessage (QueueMessageBuilder_new
      |> QueueMessage_SetChannel channel
      |> QueueMessage_SetBody ("to-purge-" +:+ to_string i)) in
    ok? _ := Operation (COSendQueueMessage msg) in
    next tt) tt (fun _ =>
  let req := mkAckAllQueueMessagesRequest "" "" channel 5 in
  ok? _ := Operation (COAckAllQueueMessages req) in
  close_and_return).

(** ** Each is in order *)

Lemma wait_ok rounds start next Q v :
  start + 100 * (51 - Z.of_nat rounds) <= v_now v -> (0 < rounds <= 51)%nat ->
  (forall t, wp api_contract next Q (v_at t v)) -> wp api_contract (wait_for_shutdown rounds start next) Q v.
Proof.
  revert v. induction rounds as [|rounds IH]; intros v Hv Hr Hn; [lia|]. cbn [wait_for_shutdown wp].
  split; [exact I|]. intros requested v' ->. destruct requested; [specialize (Hn (v_now v)); by destruct v|].
  split; [cbn; lia|]. intros [] v' (t & Ht & ->). split; [exact I|]. intros now v' [Hnow ->]. cbn in Hnow.
  destruct (Z.ltb_spec 5000 (now - start)) as [Hlt|Hle]; [apply (Hn now)|].
  apply IH; [cbn; lia|lia|]. intros t'. apply (Hn t').
Qed.

Definition basic_examples : list (string * main) :=
  [("connection/close", connection_close); ("connection/connect", connection_connect);
   ("connection/custom_timeouts", connection_custom_timeouts); ("connection/ping", connection_ping);
   ("connection/token_auth", connection_token_auth); ("tls/mtls_setup", tls_mtls_setup); ("tls/tls_setup", tls_tls_setup);
   ("error_handling/connection_error", error_handling_connection_error);
   ("error_handling/graceful_shutdown", error_handling_graceful_shutdown);
   ("error_handling/reconnection", error_handling_reconnection);
   ("observability/opentelemetry_setup", observability_opentelemetry_setup);
   ("management/create_channel", management_create_channel); ("management/delete_channel", management_delete_channel);
   ("management/list_channels", management_list_channels); ("management/purge_queue", management_purge_queue)].

Lemma graceful_shutdown_ok : main_ok error_handling_graceful_shutdown.
Proof.
  unfold error_handling_graceful_shutdown. wp_steps. apply wait_ok; cbn [v_now]; [lia|lia|].
  intros t. view_simpl. wp_steps.
Qed.

Lemma basic_examples_ok : Forall (fun e => main_ok (snd e)) basic_examples.
Proof.
  repeat first [apply List.Forall_nil | apply List.Forall_cons]; cbn [snd]; try apply graceful_shutdown_ok.
  all: match goal with |- main_ok ?m => unfold m end; wp_steps.
Qed.
