(* ===== verification/ExamplesEvents.v ===== *)
(** * The examples of events and stored events

    The [main] of every program under src/examples/events and events_store, and
    that each meets its weakest precondition. *)

From Stdlib Require Import ZArith Lia Ascii String.
From S2P Require Import Prelude Status ClientOptions Messages Client Subscription StreamHandle StreamOwner Downstream.
From S2P Require Import Program ExampleApi ExampleLogic.

Local Open Scope string_scope.
Local Open Scope Z_scope.
Local Open Scope kubemq_scope.

(** ** events *)

Definition events_basic_pubsub : main :=
  let options := example_options "cpp-events-basic-pubsub-client" in
  ok? _ := CreateClient options in
  let channel := "cpp-events.basic_pubsub" in
  ok? sub := Subscribe (SOEvents channel "") (OnEvent printing) in
  do! _ := SleepFor 1000 in
  ok? event := BuildEvent (EventBuilder_new
    |> Event_SetChannel channel |> Event_SetBody "hello from C++ SDK" |> Event_SetMetadata "greeting") in
  ok! Operation (COSendEvent event) in
  do! _ := SleepFor 2000 in
  do! _ := CancelSubscription sub in
  close_and_return.

Definition events_cancel_subscription : main :=
  let options := example_options "cpp-events-cancel-subscription-client" in
  ok? _ := CreateClient options in
  let channel := "cpp-events.cancel_subscription" in
  ok? sub := Subscribe (SOEvents channel "") (OnEvent printing) in
  do! _ := SleepFor 1000 in
  ok? event := BuildEvent (EventBuilder_new
    |> Event_SetChannel channel |> Event_SetBody "before cancel" |> Event_SetMetadata "test") in
  ok! Operation (COSendEvent event) in
  do! _ := SleepFor 2000 in
  do! _ := CancelSubscription sub in
  do! _ := SubscriptionIsDone sub in
  close_and_return.

Definition events_consumer_group : main :=
  let options := example_options "cpp-events-consumer-group-client" in
  ok? _ := CreateClient options in
  let channel := "cpp-events.consumer_group" in
  let group := "cpp-events-worker-group" in
  ok? sub := Subscribe (SOEvents channel group) (OnEvent printing) in
  do! _ := SleepFor 1000 in
  ok? event := BuildEvent (EventBuilder_new
    |> Event_SetChannel channel |> Event_SetBody "hello consumer group" |> Event_SetMetadata "group-demo") in
  ok! Operation (COSendEvent event) in
  do! _ := SleepFor 2000 in
  do! _ := CancelSubscription sub in
  close_and_return.

Definition events_multiple_subscribers : main :=
  let options := example_options "cpp-events-multiple-subscribers-client" in
  ok? _ := CreateClient options in
  let channel := "cpp-events.multiple_subscribers" in
  ok? sub1 := Subscribe (SOEvents channel "") (OnEvent (counting "count")) in
  ok? sub2 := Subscribe (SOEvents channel "") (OnEvent (counting "count")) in
  do! _ := SleepFor 1000 in
  ok? event := BuildEvent (EventBuilder_new
    |> Event_SetChannel channel |> Event_SetBody "hello to all subscribers" |> Event_SetMetadata "fan-out") in
  ok! Operation (COSendEvent event) in
  do! _ := SleepFor 2000 in
  do! _ := CancelSubscription sub1 in
  do! _ := CancelSubscription sub2 in
  close_and_return.

Definition events_stream_send : main :=
  let options := example_options "cpp-events-stream-send-client" in
  ok? _ := CreateClient options in
  let channel := "cpp-events.stream_send" in
  ok? sub := Subscribe (SOEvents channel "") (OnEvent printing) in
  ok? handle := OpenStream KEventStream None in
  for_each [0; 1; 2; 3; 4; 5; 6; 7; 8; 9] (fun i _ next =>
    ok? event := BuildEvent (EventBuilder_new
      |> Event_SetChannel channel |> Event_SetBody ("stream-msg-" +:+ to_string i)
      |> Event_SetMetadata "stream-demo") in
    ok! SendOnStream handle (SMEvent event) in
    next tt) tt (fun _ =>
  do! _ := SleepFor 2000 in
  do! _ := CloseStream handle in
  do! _ := CancelSubscription sub in
  close_and_return).

Definition events_wildcard_subscription : main :=
  let options := example_options "cpp-events-wildcard-subscription-client" in
  ok? _ := CreateClient options in
  ok? sub := Subscribe (SOEvents "cpp-events.wildcard.*" "") (OnEvent printing) in
  do! _ := SleepFor 1000 in
  for_each ["cpp-events.wildcard.a"; "cpp-events.wildcard.b"] (fun ch _ next =>
    ok? event := BuildEvent (EventBuilder_new
      |> Event_SetChannel ch |> Event_SetBody "wildcard-msg" |> Event_SetMetadata "wildcard-demo") in
    ok! Operation (COSendEvent event) in
    next tt) tt (fun _ =>
  do! _ := SleepFor 2000 in
  do! _ := CancelSubscription sub in
  close_and_return).

(** ** events_store *)

Definition events_store_cancel_subscription : main :=
  let options := example_options "cpp-events-store-cancel-subscription-client" in
  ok? _ := CreateClient options in
  let channel := "cpp-events_store.cancel_subscription" in
  ok? sub := Subscribe (SOEventsStore channel "" StartFromNewEvents) (OnEventStore (counting "received_count")) in
  do! _ := SleepFor 1000 in
  ok? event := BuildEventStore (EventStoreBuilder_new
    |> EventStore_SetChannel channel |> EventStore_SetBody "before cancel") in
  ok? _ := Operation (COSendEventStore event) in
  do! _ := SleepFor 2000 in
  do! _ := CancelSubscription sub in
  do! _ := SubscriptionIsDone sub in
  close_and_return.

Definition events_store_consumer_group : main :=
  let options := example_options "cpp-events-store-consumer-group-client" in
  ok? _ := CreateClient options in
  let channel := "cpp-events_store.consumer_group" in
  let group := "cpp-events-store-worker-group" in
  ok? sub := Subscribe (SOEventsStore channel group StartFromFirstEvent) (OnEventStore (counting "received_count")) in
  do! _ := SleepFor 1000 in
  ok? event := BuildEventStore (EventStoreBuilder_new
    |> EventStore_SetChannel channel |> EventStore_SetBody "group event" |> EventStore_SetMetadata "group-demo") in
  ok? _ := Operation (COSendEventStore event) in
  do! _ := SleepFor 2000 in
  do! _ := CancelSubscription sub in
  close_and_return.

Definition events_store_persistent_pubsub : main :=
  let options := example_options "cpp-events-store-persistent-pubsub-client" in
  ok? _ := CreateClient options in
  let channel := "cpp-events_store.persistent_pubsub" in
  ok? sub := Subscribe (SOEventsStore channel "" StartFromNewEvents) (OnEventStore printing) in
  do! _ := SleepFor 1000 in
  ok? event := BuildEventStore (EventStoreBuilder_new
    |> EventStore_SetChannel channel |> EventStore_SetBody "persistent hello"
    |> EventStore_SetMetadata "greeting") in
  ok? _ := Operation (COSendEventStore event) in
  do! _ := SleepFor 2000 in
  do! _ := CancelSubscription sub in
  close_and_return.

Definition events_store_replay_from_sequence : main :=
  let options := example_options "cpp-events-store-replay-from-sequence-client" in
  ok? _ := CreateClient options in
  let channel := "cpp-events_store.replay_from_sequence" in
  for_each [1; 2; 3; 4; 5] (fun i _ next =>
    ok? event := BuildEventStore (EventStoreBuilder_new
      |> EventStore_SetChannel channel |> EventStore_SetBody ("msg-" +:+ to_string i)) in
    ok? _ := Operation (COSendEventStore event) in
    next tt) tt (fun _ =>
  ok? sub := Subscribe (SOEventsStore channel "" (StartFromSequence 3)) (OnEventStore (counting "received_count")) in
  do! _ := SleepFor 3000 in
  do! _ := CancelSubscription sub in
  close_and_return).

Definition events_store_replay_from_time : main :=
  let options := example_options "cpp-events-store-replay-from-time-client" in
  ok? _ := CreateClient options in
  let channel := "cpp-events_store.replay_from_time" in
  do! now := SystemNow in
  let since := now - 3600 * 1000000000 in
  ok? sub := Subscribe (SOEventsStore channel "" (StartFromTime since)) (OnEventStore (counting "received_count")) in
  do! _ := SleepFor 1000 in
  ok? event := BuildEventStore (EventStoreBuilder_new
    |> EventStore_SetChannel channel |> EventStore_SetBody "event within time window") in
  ok? _ := Operation (COSendEventStore event) in
  do! _ := SleepFor 2000 in
  do! _ := CancelSubscription sub in
  close_and_return.

Definition events_store_start_at_time_delta : main :=
  let options := example_options "cpp-events-store-start-at-time-delta-client" in
  ok? _ := CreateClient options in
  let channel := "cpp-events_store.start_at_time_delta" in
  ok? sub := Subscribe (SOEventsStore channel "" (StartFromTimeDelta 1800)) (OnEventStore (counting "received_count")) in
  do! _ := SleepFor 1000 in
  ok? event := BuildEventStore (EventStoreBuilder_new
    |> EventStore_SetChannel channel |> EventStore_SetBody "recent event") in
  ok? _ := Operation (COSendEventStore event) in
  do! _ := SleepFor 2000 in
  do! _ := CancelSubscription sub in
  close_and_return.

Definition events_store_start_from_first : main :=
  let options := example_options "cpp-events-store-start-from-first-client" in
  ok? _ := CreateClient options in
  let channel := "cpp-events_store.start_from_first" in
  for_each [1; 2; 3] (fun i _ next =>
    ok? event := BuildEventStore (EventStoreBuilder_new
      |> EventStore_SetChannel channel |> EventStore_SetBody ("stored-msg-" +:+ to_string i)
      |> EventStore_SetMetadata "replay-test") in
    ok? _ := Operation (COSendEventStore event) in
    next tt) tt (fun _ =>
  ok? sub := Subscribe (SOEventsStore channel "" StartFromFirstEvent) (OnEventStore (counting "received_count")) in
  do! _ := SleepFor 3000 in
  do! _ := CancelSubscription sub in
  close_and_return).

Definition events_store_start_from_last : main :=
  let options := example_options "cpp-events-store-start-from-last-client" in
  ok? _ := CreateClient options in
  let channel := "cpp-events_store.start_from_last" in
  for_each [1; 2; 3] (fun i _ next =>
    ok? event := BuildEventStore (EventStoreBuilder_new
      |> EventStore_SetChannel channel |> EventStore_SetBody ("msg-" +:+ to_string i)) in
    ok? _ := Operation (COSendEventStore event) in
    next tt) tt (fun _ =>
  ok? sub := Subscribe (SOEventsStore channel "" StartFromLastEvent) (OnEventStore (counting "received_count")) in
  do! _ := SleepFor 2000 in
  do! _ := CancelSubscription sub in
  close_and_return).

Definition events_store_start_new_only : main :=
  let options := example_options "cpp-events-store-start-new-only-client" in
  ok? _ := CreateClient options in
  let channel := "cpp-events_store.start_new_only" in
  ok? sub := Subscribe (SOEventsStore channel "" StartFromNewEvents) (OnEventStore (counting "received_count")) in
  do! _ := SleepFor 1000 in
  ok? event := BuildEventStore (EventStoreBuilder_new
    |> EventStore_SetChannel channel |> EventStore_SetBody "new event only"
    |> EventStore_SetMetadata "new-only") in
  ok? _ := Operation (COSendEventStore event) in
  do! _ := SleepFor 2000 in
  do! _ := CancelSubscription sub in
  close_and_return.

Definition events_store_stream_send : main :=
  let options := example_options "cpp-events-store-stream-send-client" in
  ok? _ := CreateClient options in
  let channel := "cpp-events_store.stream_send" in
  ok? handle := OpenStream KEventStoreStream (Some (OnEventStoreResult printing)) in
  for_each [0; 1; 2; 3; 4] (fun i _ next =>
    ok? event := BuildEventStore (EventStoreBuilder_new
      |> EventStore_SetChannel channel |> EventStore_SetBody ("stream-data-" +:+ to_string i)
      |> EventStore_SetMetadata "stream-meta") in
    ok! SendOnStream handle (SMEventStore event) in
    next tt) tt (fun _ =>
  do! _ := SleepFor 2000 in
  do! _ := CloseStream handle in
  close_and_return).

(** ** Each is in order *)

Definition event_examples : list (string * main) :=
  [("events/basic_pubsub", events_basic_pubsub); ("events/cancel_subscription", events_cancel_subscription);
   ("events/consumer_group", events_consumer_group);
   ("events/multiple_subscribers", events_multiple_subscribers); ("events/stream_send", events_stream_send);
   ("events/wildcard_subscription", events_wildcard_subscription);
   ("events_store/cancel_subscription", events_store_cancel_subscription);
   ("events_store/consumer_group", events_store_consumer_group);
   ("events_store/persistent_pubsub", events_store_persistent_pubsub);
   ("events_store/replay_from_sequence", events_store_replay_from_sequence);
   ("events_store/replay_from_time", events_store_replay_from_time);
   ("events_store/start_at_time_delta", events_store_start_at_time_delta);
   ("events_store/start_from_first", events_store_start_from_first);
   ("events_store/start_from_last", events_store_start_from_last);
   ("events_store/start_new_only", events_store_start_new_only);
   ("events_store/stream_send", events_store_stream_send)].

Lemma event_examples_ok : Forall (fun e => main_ok (snd e)) event_examples.
Proof.
  repeat first [apply List.Forall_nil | apply List.Forall_cons]; cbn [snd].
  all: match goal with |- main_ok ?m => unfold m end; wp_steps.
Qed.
