(* ===== verification/ExamplesQueues.v ===== *)
(** * The examples of queues and queue streams

    The [main] of every program under src/examples/queues and queues_stream,
    and that each meets its weakest precondition. *)

From Stdlib Require Import ZArith Lia Ascii String.
From S2P Require Import Prelude Status ClientOptions Messages Converter Client Subscription StreamHandle StreamOwner Downstream.
From S2P Require Import Program ExampleApi ExampleLogic.

Local Open Scope string_scope.
Local Open Scope Z_scope.
Local Open Scope kubemq_scope.

(** A message with a body, which every example starts its message with. *)
Definition queue_message (channel body : string) : QueueMessageBuilder :=
  QueueMessageBuilder_new |> QueueMessage_SetChannel channel |> QueueMessage_SetBody body.

(** [if (send_result->is_error) return 1;] *)
Definition send_or_1 (msg : QueueMessage) (k : main) : main :=
  ok? send_result := Operation (COSendQueueMessage msg) in
  if qsr_is_error send_result then Ret 1 else k.

(** [if (poll_result->is_error()) return 1;] *)
Definition no_error_or_1 (p : PollResponse) (k : main) : main := if pr_is_error p then Ret 1 else k.

(** ** queues *)

Definition queues_ack_all : main :=
  let options := example_options "cpp-queues-ack-all-client" in
  ok? _ := CreateClient options in
  let channel := "cpp-queues.ack_all" in
  for_each [1; 2; 3] (fun i _ next =>
    ok? msg := BuildQueueMessage (queue_message channel ("msg-" +:+ to_string i)) in
    send_or_1 msg (next tt)) tt (fun _ =>
  let ack_req := mkAckAllQueueMessagesRequest "" "" channel 5 in
  ok? _ := Operation (COAckAllQueueMessages ack_req) in
  close_and_return).

(** The poll acknowledges nothing, and nothing is rejected. *)
Definition queues_ack_reject : main :=
  let options := example_options "cpp-queues-ack-reject-client" in
  ok? _ := CreateClient options in
  let channel := "cpp-queues.ack_reject" in
  for_each [1; 2] (fun i _ next =>
    ok? msg := BuildQueueMessage (queue_message channel ("msg-" +:+ to_string i)) in
    send_or_1 msg (next tt)) tt (fun _ =>
  ok? receiver := NewReceiver in
  do! resp_result := PollReceiver receiver (mkPollRequest channel 10 5 false) in
  match resp_result with
  | SError _ =>
      do! _ := CloseReceiver receiver in
      do! _ := CloseClient in
      Ret 1
  | SValue _ =>
      do! _ := CloseReceiver receiver in
      close_and_return
  end).

Definition queues_batch_send : main :=
  let options := example_options "cpp-queues-batch-send-client" in
  ok? _ := CreateClient options in
  let channel := "cpp-queues.batch_send" in
  for_each [1; 2; 3] (fun i batch next =>
    ok? msg := BuildQueueMessage (queue_message channel ("batch-msg-" +:+ to_string i)) in
    next (batch ++ [msg])%list) [] (fun batch =>
  ok? _ := Operation (COSendQueueMessages batch) in
  close_and_return).

Definition queues_dead_letter_queue : main :=
  let options := example_options "cpp-queues-dead-letter-queue-client" in
  ok? _ := CreateClient options in
  let channel := "cpp-queues.dead_letter_queue" in
  let dlq_channel := channel +:+ ".dlq" in
  ok? msg := BuildQueueMessage (queue_message channel "message with DLQ"
    |> QueueMessage_SetMaxReceiveCount 3 |> QueueMessage_SetMaxReceiveQueue dlq_channel) in
  send_or_1 msg close_and_return.

Definition queues_delayed_messages : main :=
  let options := example_options "cpp-queues-delayed-messages-client" in
  ok? _ := CreateClient options in
  let channel := "cpp-queues.delayed_messages" in
  ok? msg := BuildQueueMessage (queue_message channel "delayed message" |> QueueMessage_SetDelaySeconds 3) in
  send_or_1 msg close_and_return.

(** Everything is acknowledged, even when nothing was polled. *)
Definition queues_peek_messages : main :=
  let options := example_options "cpp-queues-peek-messages-client" in
  ok? _ := CreateClient options in
  let channel := "cpp-queues.peek_messages" in
  ok? msg := BuildQueueMessage (queue_message channel "transactional message") in
  send_or_1 msg
  (ok? poll_result := PollClient (mkPollRequest channel 10 5 false) in
   no_error_or_1 poll_result
   (ok! SettleAll SAckAll poll_result in
    close_and_return)).

Definition queues_send_receive : main :=
  let options := example_options "cpp-queues-send-receive-client" in
  ok? _ := CreateClient options in
  let channel := "cpp-queues.send_receive" in
  ok? msg := BuildQueueMessage (queue_message channel "hello queue" |> QueueMessage_SetMetadata "greeting") in
  send_or_1 msg
  (ok? poll_result := PollClient (mkPollRequest channel 10 5 true) in
   no_error_or_1 poll_result close_and_return).

(** ** queues_stream *)

Definition queues_stream_ack_range : main :=
  let options := example_options "cpp-queues-stream-ack-range-client" in
  ok? _ := CreateClient options in
  let channel := "cpp-queues_stream.ack_range" in
  ok? upstream := OpenStream KUpstream (Some (OnUpstreamResult (counting "results_received"))) in
  for_each [0; 1; 2] (fun i _ next =>
    ok? msg := BuildQueueMessage (queue_message channel ("msg-" +:+ to_string i)) in
    ok! SendOnStream upstream (SMUpstream ("req-" +:+ to_string i) [msg]) in
    do! _ := SleepFor 500 in
    next tt) tt (fun _ =>
  do! _ := SleepFor 1000 in
  ok? receiver := NewReceiver in
  ok? poll_result := PollReceiver receiver (mkPollRequest channel 10 5 false) in
  no_error_or_1 poll_result
  (let close :=
     do! _ := CloseReceiver receiver in
     do! _ := CloseStream upstream in
     close_and_return in
   match pr_messages poll_result with
   | [] => close
   | first_msg :: _ => ok! AckMessage first_msg in close
   end)).

Definition queues_stream_auto_ack : main :=
  let options := example_options "cpp-queues-stream-auto-ack-client" in
  ok? _ := CreateClient options in
  let channel := "cpp-queues_stream.auto_ack" in
  ok? msg := BuildQueueMessage (queue_message channel "auto-ack message") in
  ok? _ := Operation (COSendQueueMessage msg) in
  ok? poll_result := PollClient (mkPollRequest channel 10 5 true) in
  no_error_or_1 poll_result close_and_return.

(** Three examples that send one message with a policy upstream. *)
Definition upstream_policy (request_id : string) (b : QueueMessageBuilder) : main :=
  ok? upstream := OpenStream KUpstream (Some (OnUpstreamResult (fun _ => Act (Store "result_received") (fun _ => Ret tt)))) in
  ok? msg := BuildQueueMessage b in
  ok! SendOnStream upstream (SMUpstream request_id [msg]) in
  do! _ := SleepFor 3000 in
  do! _ := CloseStream upstream in
  close_and_return.

Definition queues_stream_dead_letter_policy : main :=
  let options := example_options "cpp-queues-stream-dead-letter-policy-client" in
  ok? _ := CreateClient options in
  let channel := "cpp-queues_stream.dead_letter_policy" in
  let dlq_channel := "cpp-queues_stream.dead_letter_policy.dlq" in
  upstream_policy "req-dlq" (queue_message channel "max 3 receives, then DLQ"
    |> QueueMessage_SetMaxReceiveCount 3 |> QueueMessage_SetMaxReceiveQueue dlq_channel).

Definition queues_stream_delay_policy : main :=
  let options := example_options "cpp-queues-stream-delay-policy-client" in
  ok? _ := CreateClient options in
  let channel := "cpp-queues_stream.delay_policy" in
  upstream_policy "req-delay" (queue_message channel "delayed by 10s" |> QueueMessage_SetDelaySeconds 10).

Definition queues_stream_expiration_policy : main :=
  let options := example_options "cpp-queues-stream-expiration-policy-client" in
  ok? _ := CreateClient options in
  let channel := "cpp-queues_stream.expiration_policy" in
  upstream_policy "req-expiration"
    (queue_message channel "expires in 60s" |> QueueMessage_SetExpirationSeconds 60).

(** Three examples that poll a receiver and settle the whole batch, when there
    is one. *)
Definition poll_and_settle (channel : string) (o : SettleOp) : main :=
  ok? receiver := NewReceiver in
  ok? poll_result := PollReceiver receiver (mkPollRequest channel 10 5 false) in
  no_error_or_1 poll_result
  (let close :=
     do! _ := CloseReceiver receiver in
     close_and_return in
   match pr_messages poll_result with
   | [] => close
   | _ => ok! SettleAll o poll_result in close
   end).

Definition queues_stream_nack_all : main :=
  let options := example_options "cpp-queues-stream-nack-all-client" in
  ok? _ := CreateClient options in
  let channel := "cpp-queues_stream.nack_all" in
  ok? msg := BuildQueueMessage (queue_message channel "will be nacked" |> QueueMessage_SetMaxReceiveCount 3) in
  ok? _ := Operation (COSendQueueMessage msg) in
  poll_and_settle channel SNackAll.

Definition queues_stream_poll_mode : main :=
  let options := example_options "cpp-queues-stream-poll-mode-client" in
  ok? _ := CreateClient options in
  let channel := "cpp-queues_stream.poll_mode" in
  for_each [1; 2; 3] (fun i _ next =>
    ok? msg := BuildQueueMessage (queue_message channel ("poll-msg-" +:+ to_string i)) in
    ok? _ := Operation (COSendQueueMessage msg) in
    next tt) tt (fun _ =>
  ok? poll_result := PollClient (mkPollRequest channel 10 3 true) in
  no_error_or_1 poll_result close_and_return).

Definition queues_stream_requeue_all : main :=
  let options := example_options "cpp-queues-stream-requeue-all-client" in
  ok? _ := CreateClient options in
  let src_channel := "cpp-queues_stream.requeue_all" in
  let dst_channel := "cpp-queues_stream.requeue_all.dest" in
  ok? msg := BuildQueueMessage (queue_message src_channel "will be requeued" |> QueueMessage_SetMaxReceiveCount 3) in
  ok? _ := Operation (COSendQueueMessage msg) in
  poll_and_settle src_channel (SReQueueAll dst_channel).

Definition queues_stream_stream_receive : main :=
  let options := example_options "cpp-queues-stream-stream-receive-client" in
  ok? _ := CreateClient options in
  let channel := "cpp-queues_stream.stream_receive" in
  ok? msg := BuildQueueMessage (queue_message channel "message to receive") in
  ok? _ := Operation (COSendQueueMessage msg) in
  do! _ := SleepFor 1000 in
  poll_and_settle channel SAckAll.

Definition queues_stream_stream_send : main :=
  let options := example_options "cpp-queues-stream-stream-send-client" in
  ok? _ := CreateClient options in
  let channel := "cpp-queues_stream.stream_send" in
  ok? upstream := OpenStream KUpstream (Some (OnUpstreamResult (counting "batches_confirmed"))) in
  for_each [1; 2; 3; 4; 5] (fun batch _ next =>
    for_each [1; 2; 3] (fun i messages next' =>
      ok? msg := BuildQueueMessage
        (queue_message channel ("batch-" +:+ to_string batch +:+ "-msg-" +:+ to_string i)) in
      next' (messages ++ [msg])%list) [] (fun messages =>
    ok! SendOnStream upstream (SMUpstream ("req-batch-" +:+ to_string batch) messages) in
    next tt)) tt (fun _ =>
  do! _ := SleepFor 2000 in
  do! _ := CloseStream upstream in
  close_and_return).

(** ** Each is in order *)

Definition queue_examples : list (string * main) :=
  [("queues/ack_all", queues_ack_all); ("queues/ack_reject", queues_ack_reject); ("queues/batch_send", queues_batch_send);
   ("queues/dead_letter_queue", queues_dead_letter_queue); ("queues/delayed_messages", queues_delayed_messages);
   ("queues/peek_messages", queues_peek_messages); ("queues/send_receive", queues_send_receive);
   ("queues_stream/ack_range", queues_stream_ack_range); ("queues_stream/auto_ack", queues_stream_auto_ack);
   ("queues_stream/dead_letter_policy", queues_stream_dead_letter_policy);
   ("queues_stream/delay_policy", queues_stream_delay_policy);
   ("queues_stream/expiration_policy", queues_stream_expiration_policy);
   ("queues_stream/nack_all", queues_stream_nack_all); ("queues_stream/poll_mode", queues_stream_poll_mode);
   ("queues_stream/requeue_all", queues_stream_requeue_all);
   ("queues_stream/stream_receive", queues_stream_stream_receive);
   ("queues_stream/stream_send", queues_stream_stream_send)].

Lemma queue_examples_ok : Forall (fun e => main_ok (snd e)) queue_examples.
Proof.
  repeat first [apply List.Forall_nil | apply List.Forall_cons]; cbn [snd].
  all: match goal with |- main_ok ?m => unfold m, upstream_policy, poll_and_settle, send_or_1, no_error_or_1 end; wp_steps.
Qed.
