(* ===== verification/ExamplesRequests.v ===== *)
(** * The examples of commands, queries and patterns

    The [main] of every program under src/examples/commands, queries and
    patterns, that each meets its weakest precondition, and their handlers of
    requests, which answer on the thread of the subscription. *)

From Stdlib Require Import ZArith Lia Ascii String.
From S2P Require Import Prelude Status ClientOptions Messages Client Subscription StreamHandle Downstream.
From S2P Require Import Program ExampleApi ExampleLogic.

Local Open Scope string_scope.
Local Open Scope Z_scope.
Local Open Scope kubemq_scope.

(** A text in quotation marks. *)
Definition quoted (s : string) : string := String (ascii_of_nat 34) s +:+ String (ascii_of_nat 34) "".

(** ** Handlers

    [if (!reply_result.ok()) return;], [if (!send_status.ok()) return;] and the
    flag. *)
Definition reply_or_return {T} (reply : StatusOr T) (k : T -> callback) : callback :=
  match reply with SValue r => k r | SError _ => Ret tt end.

Definition sent_or_return (e : callback_api Status) (flag : string) : callback :=
  or_return tt e (Act (Store flag) (fun _ => Ret tt)).

(** The handlers of commands differ in the body of their reply. *)
Definition command_reply_builder (cmd : CommandReceive) (now_epoch : Z) : CommandReplyBuilder :=
  CommandReplyBuilder_new
    |> CommandReply_SetRequestId (cmdr_id cmd)
    |> CommandReply_SetResponseTo (cmdr_response_to cmd)
    |> CommandReply_SetExecuted true
    |> CommandReply_SetExecutedAt now_epoch.

Definition answer_command (set_body : CommandReplyBuilder -> CommandReplyBuilder) (cmd : CommandReceive) : callback :=
  Act EpochSeconds (fun now_epoch =>
  reply_or_return (fst (CommandReply_Build (set_body (command_reply_builder cmd now_epoch)))) (fun reply =>
  sent_or_return (ReplyCommand reply) "command_handled")).

Definition consumer_group_handler : CommandReceive -> callback := answer_command (fun b => b).
Definition handle_command_handler : CommandReceive -> callback := answer_command (fun b => b).
Definition send_command_handler : CommandReceive -> callback := answer_command (CommandReply_SetBody "executed").

(** Those of queries in the body and the metadata. *)
Definition query_reply_builder (q : QueryReceive) (now_epoch : Z) (body metadata : string) : QueryReplyBuilder :=
  QueryReplyBuilder_new
    |> QueryReply_SetRequestId (qryr_id q)
    |> QueryReply_SetResponseTo (qryr_response_to q)
    |> QueryReply_SetBody body
    |> QueryReply_SetMetadata metadata
    |> QueryReply_SetExecuted true
    |> QueryReply_SetExecutedAt now_epoch.

Definition answer_query (body metadata flag : string) (q : QueryReceive) : callback :=
  Act EpochSeconds (fun now_epoch =>
  reply_or_return (fst (QueryReply_Build (query_reply_builder q now_epoch body metadata))) (fun reply =>
  sent_or_return (ReplyQuery reply) flag)).

Definition query_group_handler : QueryReceive -> callback := answer_query "group-result" "" "query_handled".
Definition handle_query_handler : QueryReceive -> callback :=
  answer_query ("{" +:+ quoted "users" +:+ ":[" +:+ quoted "alice" +:+ "," +:+ quoted "bob" +:+ "]}") "success"
    "query_handled".
Definition send_query_handler : QueryReceive -> callback :=
  answer_query ("{" +:+ quoted "result" +:+ ":" +:+ quoted "data" +:+ "," +:+ quoted "status" +:+ ":" +:+ quoted "ok" +:+ "}")
    "ok" "query_handled".
Definition request_reply_handler : QueryReceive -> callback :=
  answer_query ("{" +:+ quoted "order_id" +:+ ":" +:+ quoted "ORD-123" +:+ "," +:+ quoted "status" +:+ ":" +:+
                quoted "confirmed" +:+ "}") "success" "request_handled".

(** This one counts the call before it answers, and looks at no status. *)
Definition cached_query_handler (q : QueryReceive) : callback :=
  Act (FetchAdd "handler_calls") (fun _ =>
  Act EpochSeconds (fun now_epoch =>
  reply_or_return (fst (QueryReply_Build (query_reply_builder q now_epoch "cached-result" ""))) (fun reply =>
  Act (ReplyQuery reply) (fun _ => Ret tt)))).

(** ** commands *)

Definition commands_command_timeout : main :=
  let options := example_options "cpp-commands-command-timeout-client" in
  ok? _ := CreateClient options in
  ok? cmd := BuildCommand (CommandBuilder_new |> Command_SetChannel "cpp-commands.command_timeout"
    |> Command_SetBody "will timeout" |> Command_SetTimeout 2000) in
  do! _ := Operation (COSendCommand cmd) in
  close_and_return.

Definition commands_consumer_group : main :=
  let options := example_options "cpp-commands-consumer-group-client" in
  ok? _ := CreateClient options in
  let channel := "cpp-commands.consumer_group" in
  let group := "cpp-commands-worker-group" in
  ok? sub := Subscribe (SOCommands channel group) (OnCommand consumer_group_handler) in
  do! _ := SleepFor 300 in
  ok? cmd := BuildCommand (CommandBuilder_new |> Command_SetChannel channel |> Command_SetBody "group-task"
    |> Command_SetTimeout 10000) in
  ok? _ := Operation (COSendCommand cmd) in
  do! _ := SleepFor 1000 in
  do! _ := CancelSubscription sub in
  close_and_return.

Definition commands_handle_command : main :=
  let options := example_options "cpp-commands-handle-command-client" in
  ok? _ := CreateClient options in
  let channel := "cpp-commands.handle_command" in
  ok? sub := Subscribe (SOCommands channel "") (OnCommand handle_command_handler) in
  do! _ := SleepFor 300 in
  ok? cmd := BuildCommand (CommandBuilder_new |> Command_SetChannel channel |> Command_SetBody "process-order"
    |> Command_SetMetadata "order-123" |> Command_SetTimeout 10000) in
  ok? _ := Operation (COSendCommand cmd) in
  do! _ := SleepFor 1000 in
  do! _ := CancelSubscription sub in
  close_and_return.

Definition commands_send_command : main :=
  let options := example_options "cpp-commands-send-command-client" in
  ok? _ := CreateClient options in
  let channel := "cpp-commands.send_command" in
  ok? sub := Subscribe (SOCommands channel "") (OnCommand send_command_handler) in
  do! _ := SleepFor 300 in
  ok? cmd := BuildCommand (CommandBuilder_new |> Command_SetChannel channel |> Command_SetBody "do-something"
    |> Command_SetTimeout 10000) in
  ok? _ := Operation (COSendCommand cmd) in
  do! _ := SleepFor 1000 in
  do! _ := CancelSubscription sub in
  close_and_return.

(** ** queries *)

Definition query_builder (channel body : string) : QueryBuilder :=
  QueryBuilder_new |> Query_SetChannel channel |> Query_SetBody body |> Query_SetTimeout 10000.

Definition queries_cached_query : main :=
  let options := example_options "cpp-queries-cached-query-client" in
  ok? _ := CreateClient options in
  let channel := "cpp-queries.cached_query" in
  let cacheable := query_builder channel "cacheable-query" |> Query_SetCacheKey "my-cache-key"
    |> Query_SetCacheTTL 60000 in
  ok? sub := Subscribe (SOQueries channel "") (OnQuery cached_query_handler) in
  do! _ := SleepFor 300 in
  ok? q1 := BuildQuery cacheable in
  ok? _ := Operation (COSendQuery q1) in
  do! _ := SleepFor 500 in
  ok? q2 := BuildQuery cacheable in
  ok? _ := Operation (COSendQuery q2) in
  do! _ := CancelSubscription sub in
  close_and_return.

Definition queries_consumer_group : main :=
  let options := example_options "cpp-queries-consumer-group-client" in
  ok? _ := CreateClient options in
  let channel := "cpp-queries.consumer_group" in
  let group := "cpp-queries-reader-group" in
  ok? sub := Subscribe (SOQueries channel group) (OnQuery query_group_handler) in
  do! _ := SleepFor 300 in
  ok? query := BuildQuery (query_builder channel "group-fetch") in
  ok? _ := Operation (COSendQuery query) in
  do! _ := SleepFor 1000 in
  do! _ := CancelSubscription sub in
  close_and_return.

Definition queries_handle_query : main :=
  let options := example_options "cpp-queries-handle-query-client" in
  ok? _ := CreateClient options in
  let channel := "cpp-queries.handle_query" in
  ok? sub := Subscribe (SOQueries channel "") (OnQuery handle_query_handler) in
  do! _ := SleepFor 300 in
  ok? query := BuildQuery (query_builder channel "list-users" |> Query_SetMetadata "request-meta") in
  ok? _ := Operation (COSendQuery query) in
  do! _ := SleepFor 1000 in
  do! _ := CancelSubscription sub in
  close_and_return.

Definition queries_send_query : main :=
  let options := example_options "cpp-queries-send-query-client" in
  ok? _ := CreateClient options in
  let channel := "cpp-queries.send_query" in
  ok? sub := Subscribe (SOQueries channel "") (OnQuery send_query_handler) in
  do! _ := SleepFor 300 in
  ok? query := BuildQuery (query_builder channel "fetch-data") in
  ok? _ := Operation (COSendQuery query) in
  do! _ := SleepFor 1000 in
  do! _ := CancelSubscription sub in
  close_and_return.

(** ** patterns *)

Definition patterns_fan_out : main :=
  let options := example_options "cpp-patterns-fan-out-client" in
  ok? _ := CreateClient options in
  let channel := "cpp-patterns.fan_out" in
  for_each [1; 2; 3] (fun i subs next =>
    ok? sub := Subscribe (SOEvents channel "") (OnEvent (counting "deliveries")) in
    next (subs ++ [sub])%list) [] (fun subs =>
  do! _ := SleepFor 1000 in
  ok? event := BuildEvent (EventBuilder_new
    |> Event_SetChannel channel |> Event_SetBody "broadcast message" |> Event_SetMetadata "fan-out") in
  ok! Operation (COSendEvent event) in
  do! _ := SleepFor 2000 in
  for_each subs (fun sub _ next => do! _ := CancelSubscription sub in next tt) tt (fun _ =>
  close_and_return)).

Definition patterns_request_reply : main :=
  let options := example_options "cpp-patterns-request-reply-client" in
  ok? _ := CreateClient options in
  let channel := "cpp-patterns.request_reply" in
  ok? sub := Subscribe (SOQueries channel "") (OnQuery request_reply_handler) in
  do! _ := SleepFor 300 in
  ok? query := BuildQuery (query_builder channel
    ("{" +:+ quoted "action" +:+ ":" +:+ quoted "create_order" +:+ "," +:+ quoted "item" +:+ ":" +:+ quoted "widget" +:+ "}")) in
  ok? _ := Operation (COSendQuery query) in
  do! _ := SleepFor 1000 in
  do! _ := CancelSubscription sub in
  close_and_return.

Definition patterns_work_queue : main :=
  let options := example_options "cpp-patterns-work-queue-client" in
  ok? _ := CreateClient options in
  let channel := "cpp-patterns.work_queue" in
  for_each [1; 2; 3; 4; 5] (fun i _ next =>
    ok? msg := BuildQueueMessage (QueueMessageBuilder_new |> QueueMessage_SetChannel channel
      |> QueueMessage_SetBody ("task-" +:+ to_string i) |> QueueMessage_SetMetadata ("priority-" +:+ to_string i)) in
    ok? send_result := Operation (COSendQueueMessage msg) in
    if qsr_is_error send_result then Ret 1 else next tt) tt (fun _ =>
  ok? poll_result := PollClient (mkPollRequest channel 10 5 true) in
  if pr_is_error poll_result then Ret 1 else close_and_return).

(** ** Each is in order *)

Definition request_examples : list (string * main) :=
  [("commands/command_timeout", commands_command_timeout); ("commands/consumer_group", commands_consumer_group);
   ("commands/handle_command", commands_handle_command); ("commands/send_command", commands_send_command);
   ("queries/cached_query", queries_cached_query); ("queries/consumer_group", queries_consumer_group);
   ("queries/handle_query", queries_handle_query); ("queries/send_query", queries_send_query);
   ("patterns/fan_out", patterns_fan_out); ("patterns/request_reply", patterns_request_reply);
   ("patterns/work_queue", patterns_work_queue)].

Lemma request_examples_ok : Forall (fun e => main_ok (snd e)) request_examples.
Proof.
  repeat first [apply List.Forall_nil | apply List.Forall_cons]; cbn [snd].
  all: match goal with |- main_ok ?m => unfold m end; wp_steps.
Qed.
