(* ===== verification/Examples.v ===== *)
(** * The examples

    All programs of src/examples, and what running them with the SDK does: how
    they end, that the SDK refuses nothing they do, and how their handlers
    answer requests. *)

From Stdlib Require Import ZArith Lia Ascii String.
From S2P Require Import Prelude Status ErrorMapper Random Auth Tls ClientOptions Messages Proto Converter StateMachine.
From S2P Require Import Transport Calls Client Subscription StreamHandle StreamOwner Downstream Session Program ExampleApi ExampleLogic.
From S2P Require Import ExamplesBasic ExamplesEvents ExamplesQueues ExamplesRequests.

Local Open Scope string_scope.
Local Open Scope Z_scope.
Local Open Scope kubemq_scope.

Definition examples : list (string * main) :=
  (basic_examples ++ event_examples ++ queue_examples ++ request_examples)%list.

Lemma examples_ok : Forall (fun e => main_ok (snd e)) examples.
Proof.
  unfold examples. rewrite !Forall_app.
  auto using basic_examples_ok, event_examples_ok, queue_examples_ok, request_examples_ok.
Qed.

(** ** The handlers of requests *)

Definition command_handlers : list (CommandReceive -> callback) :=
  [consumer_group_handler; handle_command_handler; send_command_handler].

(** With what each counts, whatever happens and when the reply was sent. *)
Definition query_handlers : list ((QueryReceive -> callback) * (list string * list string)) :=
  [(query_group_handler, ([], ["query_handled"])); (handle_query_handler, ([], ["query_handled"]));
   (send_query_handler, ([], ["query_handled"])); (request_reply_handler, ([], ["request_handled"]));
   (cached_query_handler, (["handler_calls"], []))].

(** The response to a request: to whom, and that it was carried out. *)
Definition response_to (c : Client) (p : pb_Request) (call : StubCall) : Prop :=
  exists r, call = CallSendResponse r /\ pbResponse_requestid r = pbRequest_requestid p /\
    pbResponse_replychannel r = pbRequest_replychannel p /\ pbResponse_clientid r = client_id_ (opts c) /\
    pbResponse_executed r = true /\ pbResponse_error r = "".

(** What a handler made of a request: one response, if the request says to
    whom; [always] is counted anyway, [sent] when the response was sent. *)
Definition answered {W} (always sent : list string) (p : pb_Request) (t t' : Thread (W := W)) : Prop :=
  let c := t_client t in
  let calls := drop (length (snd (t_world t))) (snd (t_world t')) in
  let silent := calls = [] /\ t_counted t' = (t_counted t ++ always)%list in
  t_client t' = c /\
  (pbRequest_requestid p = "" \/ pbRequest_replychannel p = "" -> silent) /\
  (pbRequest_requestid p <> "" -> pbRequest_replychannel p <> "" -> usable c ->
     exists s, made_one_call (transport c) (response_to c p) s calls /\
       t_counted t' = (t_counted t ++ always ++ if status_ok s then sent else [])%list) /\
  (closed c = true -> silent).

Section handlers.
Context {W : Type} `{Grpc W, Providers W, Random W, Process W, JsonLibrary}.

(** A reply sent, from a thread whose client is open or closed. *)
Lemma reply_sent c (o : ClientOp) (m : M (Logged W) Status) (w : Logged W) :
  run_client_op c o = m -> (match o with COSendCommandResponse _ | COSendQueryResponse _ => True | _ => False end) ->
  (usable c -> made_one_call (transport c) (op_sends c o) (fst (m w)) (drop (length (snd w)) (snd (snd (m w))))) /\
  (closed c = true -> fst (m w) = kErrClientClosed /\ snd (m w) = w).
Proof.
  intros <- Ho. split.
  - intros Hu. apply (gated_made c _ _ _ _ w Hu (run_client_op_gated c o)). split; [apply Hu|]. by destruct o.
  - intros Hc. destruct o; try done; cbn; unfold SendCommandResponse, SendQueryResponse, check_status, Client_CheckClosed, bind, ret;
      by rewrite Hc.
Qed.

(** A handler that could not build its reply. *)
Lemma answered_nothing always sent p (t : Thread (W := W)) (w' : W) :
  pbRequest_requestid p = "" \/ pbRequest_replychannel p = "" ->
  answered always sent p t (mkThread (w', snd (t_world t)) (t_client t) (t_counted t ++ always)%list).
Proof.
  intros He. unfold answered. cbn. rewrite drop_all. split_and!; try done. intros Hi Hr _. by destruct He.
Qed.

(** A handler that sent the reply [o], and counted when that succeeded. *)
Lemma answered_reply always sent p (t : Thread (W := W)) (o : ClientOp) (m : M (Logged W) Status) (w0 : W) :
  run_client_op (t_client t) o = m ->
  (match o with COSendCommandResponse _ | COSendQueryResponse _ => True | _ => False end) ->
  (forall call, op_sends (t_client t) o call -> response_to (t_client t) p call) ->
  pbRequest_requestid p <> "" -> pbRequest_replychannel p <> "" ->
  answered always sent p t
    (mkThread (snd (m (w0, snd (t_world t)))) (t_client t)
       (t_counted t ++ always ++ if status_ok (fst (m (w0, snd (t_world t)))) then sent else [])%list).
Proof.
  intros Hm Ho Hresp Hi Hr. destruct (reply_sent (t_client t) o m (w0, snd (t_world t)) Hm Ho) as [Hu Hc].
  unfold answered. cbn [t_client t_world t_counted]. split_and!; [done|by intros [?|?]| |].
  - intros _ _ Hus. destruct (Hu Hus) as (ctx & call & out & Hcalls & Hs & Hx & Ha).
    exists (fst (m (w0, snd (t_world t)))). split; [|done]. exists ctx, call, out. auto.
  - intros Hcl. destruct (Hc Hcl) as [-> Hsnd]. rewrite Hsnd. cbn. by rewrite drop_all, app_nil_r.
Qed.

(** A command handler, whatever body it gives its reply. *)
Lemma answer_command_answered set_body p cmd (t : Thread (W := W)) :
  set_body = (fun b => b) \/ (exists s, set_body = CommandReply_SetBody s) ->
  command_received p = Some cmd ->
  answered [] ["command_handled"] p t (snd (run_callback (answer_command set_body cmd) t)).
Proof.
  intros Hb Hp. unfold command_received in Hp. destruct (decide _); [|done]. injection Hp as <-.
  unfold run_callback, answer_command. cbn [exec callback_sdk]. unfold bind, on_thread, lift_log, ret.
  destruct (system_now (fst (t_world t))) as [now w1]. unfold CommandReply_Build.
  assert (forall b, crepb_request_id (set_body b) = crepb_request_id b /\ crepb_response_to (set_body b) = crepb_response_to b) as Hs
    by (destruct Hb as [->|[s ->]]; intros []; by split).
  rewrite (proj1 (Hs _)), (proj2 (Hs _)). change (crepb_request_id (command_reply_builder _ _)) with (pbRequest_requestid p).
  change (crepb_response_to (command_reply_builder _ _)) with (pbRequest_replychannel p).
  destruct (str_empty (pbRequest_requestid p)) eqn:Ei.
  { apply str_empty_true in Ei. pose proof (answered_nothing [] ["command_handled"] p t w1 (or_introl Ei)) as Ha.
    rewrite app_nil_r in Ha. exact Ha. }
  destruct (str_empty (pbRequest_replychannel p)) eqn:Er.
  { apply str_empty_true in Er. pose proof (answered_nothing [] ["command_handled"] p t w1 (or_intror Er)) as Ha.
    rewrite app_nil_r in Ha. exact Ha. }
  apply str_empty_false in Ei, Er. cbn [fst reply_or_return]. unfold sent_or_return, or_return. cbn [exec callback_sdk].
  unfold bind, on_thread, count_up, ret. cbn [t_world t_client t_counted snd].
  match goal with |- context [SendCommandResponse _ ?r] => set (reply := r) end.
  pose proof (answered_reply [] ["command_handled"] p t (COSendCommandResponse reply)
    (SendCommandResponse (t_client t) reply) w1 eq_refl I) as Ha.
  destruct (SendCommandResponse (t_client t) reply (w1, snd (t_world t))) as [s w2]. cbn [fst snd app] in Ha.
  assert (forall call, op_sends (t_client t) (COSendCommandResponse reply) call -> response_to (t_client t) p call) as Hr.
  { intros call ->. eexists. split; [reflexivity|]. subst reply. cbn.
    destruct Hb as [->|[s0 ->]]; cbn; unfold effective_client_id; by split_and!. }
  specialize (Ha Hr Ei Er). destruct (status_ok s); [exact Ha|]. rewrite app_nil_r in Ha. exact Ha.
Qed.

(** The reply a handler of queries builds, or that it cannot. *)
Lemma query_reply_built p q now body md :
  query_received p = Some q ->
  match fst (QueryReply_Build (query_reply_builder q now body md)) with
  | SError _ => pbRequest_requestid p = "" \/ pbRequest_replychannel p = ""
  | SValue reply =>
      pbRequest_requestid p <> "" /\ pbRequest_replychannel p <> "" /\
      forall c call, op_sends c (COSendQueryResponse reply) call -> response_to c p call
  end.
Proof.
  unfold query_received. intros Hp. destruct (decide _); [|done]. injection Hp as <-.
  unfold QueryReply_Build. change (qrepb_request_id (query_reply_builder _ _ _ _)) with (pbRequest_requestid p).
  change (qrepb_response_to (query_reply_builder _ _ _ _)) with (pbRequest_replychannel p).
  destruct (str_empty (pbRequest_requestid p)) eqn:Ei; [left; by apply str_empty_true|].
  destruct (str_empty (pbRequest_replychannel p)) eqn:Er; [right; by apply str_empty_true|].
  apply str_empty_false in Ei, Er. split_and!; [done|done|]. intros c call ->. by eexists.
Qed.

Lemma answer_query_answered body md flag p q (t : Thread (W := W)) :
  query_received p = Some q -> answered [] [flag] p t (snd (run_callback (answer_query body md flag q) t)).
Proof.
  intros Hp. unfold run_callback, answer_query. cbn [exec callback_sdk]. unfold bind, on_thread, lift_log, ret.
  destruct (system_now (fst (t_world t))) as [now w1].
  pose proof (query_reply_built p q (Z.quot now 1000000000) body md Hp) as Hb.
  destruct (fst (QueryReply_Build _)) as [reply|s]; cbn [reply_or_return].
  - destruct Hb as (Hi & Hr & Hs). unfold sent_or_return, or_return. cbn [exec callback_sdk].
    unfold bind, on_thread, count_up, ret. cbn [t_world t_client t_counted snd].
    pose proof (answered_reply [] [flag] p t (COSendQueryResponse reply)
      (SendQueryResponse (t_client t) reply) w1 eq_refl I (Hs _) Hi Hr) as Ha.
    destruct (SendQueryResponse (t_client t) reply (w1, snd (t_world t))) as [s w2]. cbn [fst snd app] in Ha.
    destruct (status_ok s); [exact Ha|]. rewrite app_nil_r in Ha. exact Ha.
  - pose proof (answered_nothing [] [flag] p t w1 Hb) as Ha. rewrite app_nil_r in Ha. exact Ha.
Qed.

Lemma cached_query_answered p q (t : Thread (W := W)) :
  query_received p = Some q -> answered ["handler_calls"] [] p t (snd (run_callback (cached_query_handler q) t)).
Proof.
  intros Hp. unfold run_callback, cached_query_handler. cbn [exec callback_sdk].
  unfold bind, count_up, on_thread, lift_log, ret. cbn [t_world t_client t_counted].
  destruct (system_now (fst (t_world t))) as [now w1].
  pose proof (query_reply_built p q (Z.quot now 1000000000) "cached-result" "" Hp) as Hb.
  destruct (fst (QueryReply_Build _)) as [reply|s]; cbn [reply_or_return].
  - destruct Hb as (Hi & Hr & Hs). cbn [exec callback_sdk]. unfold bind, on_thread, ret. cbn [t_world t_client t_counted snd].
    pose proof (answered_reply ["handler_calls"] [] p t (COSendQueryResponse reply)
      (SendQueryResponse (t_client t) reply) w1 eq_refl I (Hs _) Hi Hr) as Ha.
    destruct (SendQueryResponse (t_client t) reply (w1, snd (t_world t))) as [s w2]. cbn [fst snd app] in Ha.
    destruct (status_ok s); exact Ha.
  - exact (answered_nothing ["handler_calls"] [] p t w1 Hb).
Qed.

End handlers.

(** ** What the examples do *)

(** C38: How every example ends, in every world, whatever the broker, the
    providers, the clock, the signals and the generator of random numbers
    answer, as long as they do: its main function returns 0 with its client
    closed or none made, or 1 after something the SDK was asked to do failed;
    no object is used that is not there. Then either the process ends with that
    code, and every subscription, stream and receiver it was handed has been
    ended and its client is closed; or it is ended by [std::terminate] before,
    while the objects are destroyed. That happens only in an example that has
    opened a stream which the broker has ended: the reader of its handle has
    set [done], nobody half-closed it or joined the reader, and the destructor
    destroys a joinable thread; an example that has opened none always ends
    with its code. *)
Theorem examples_exit :
  Forall (fun e => forall (W : Type) `{Grpc W, Providers W, Callbacks W, FileSystem W, Random W, Contexts W}
      `{DownstreamStream W, Streams W, Process W, JsonLibrary} (w : W),
    let '(code, p) := exec sdk (snd e) (Proc_start w) in
    let '(how, p') := run_main (snd e) (Proc_start w) in
    ((code = 0 /\ match p_client p with Some c => closed c = true | None => True end) \/
     (code = 1 /\ failed p = true)) /\
    failed p' = failed p /\ p_undefined p' = false /\
    match how with
    | Exited code' =>
        code' = code /\ Forall (fun ob => snd ob = true) (p_objects p') /\
        match p_client p' with Some c => closed c = true | None => True end
    | EndedByTerminate =>
        exists i k h f impl, p_objects p' !! i = Some (ObjStream k h f impl, true) /\ ended_by_broker k impl
    end) examples.
Proof.
  apply Forall_impl with (1 := examples_ok). intros [name m] He W ? ? ? ? ? ? ? ? ? ? w.
  pose proof (main_runs m w He) as Hm. cbn [snd].
  destruct (exec sdk m (Proc_start w)) as [code p], (run_main m (Proc_start w)) as [how p'].
  destruct Hm as (Hx & Hf & Hh). split; [exact Hx|]. split; [exact Hf|]. destruct how as [code'|].
  - destruct Hh as (Hc & Hu & _ & Ho & Hcl). by split_and!.
  - destruct Hh as (_ & Hu & _ & He'). by split.
Qed.

(** C39: What the SDK refuses of what an example asks, in every world: only what
    the broker has brought about. Every operation passes its tests and makes
    exactly one call of the stub, with its message and the token, whose
    failure it reports; so does every subscription, stream and receiver. Polls
    are of valid requests on receivers that have not been ended, and sends of
    valid messages on streams not closed by the program; a send is refused, as
    fatal, exactly when the broker has ended the stream, and otherwise writes.
    Only messages polled without auto-ack are settled, while their receiver
    exists, and refused by a test only when the broker gave them no
    transaction, as its answer to a poll of an empty queue may. The client is
    closed, and destroyed, with every object ended. *)
Theorem examples_not_refused :
  Forall (fun e => forall (W : Type) `{Grpc W, Providers W, Callbacks W, FileSystem W, Random W, Contexts W}
      `{DownstreamStream W, Streams W, Process W, JsonLibrary} (w : W),
    Forall (fun d => did_ok (fst d)) (p_did (snd (run_main (snd e) (Proc_start w))))) examples.
Proof.
  apply Forall_impl with (1 := examples_ok). intros [name m] He W ? ? ? ? ? ? ? ? ? ? w.
  pose proof (main_runs m w He) as Hm. cbn [snd].
  destruct (exec sdk m (Proc_start w)) as [code p], (run_main m (Proc_start w)) as [[code'|] p'];
    destruct Hm as (_ & _ & Hm); apply Hm.
Qed.

(** C40: Every handler of commands and queries, given a request, sends exactly
    one response while its client is open, to the identifier and the reply
    channel of the request, as carried out and without error, and counts the
    request as its program does; it sends none to a request that does not say
    whom to answer, and none once the client is closed. *)
Theorem handlers_answer_once :
  Forall (fun h => forall (W : Type) `{Grpc W, Providers W, Random W, Process W, JsonLibrary} p cmd (t : Thread (W := W)),
    command_received p = Some cmd ->
    answered [] ["command_handled"] p t (snd (run_callback (h cmd) t))) command_handlers /\
  Forall (fun h => forall (W : Type) `{Grpc W, Providers W, Random W, Process W, JsonLibrary} p q (t : Thread (W := W)),
    query_received p = Some q ->
    answered (fst (snd h)) (snd (snd h)) p t (snd (run_callback (fst h q) t))) query_handlers.
Proof.
  split; repeat first [apply List.Forall_nil | apply List.Forall_cons]; cbn [fst snd]; intros W ? ? ? ? ? p r t Hr.
  - by apply answer_command_answered; [left|].
  - by apply answer_command_answered; [left|].
  - by apply answer_command_answered; [right; eexists|].
  - by apply answer_query_answered.
  - by apply answer_query_answered.
  - by apply answer_query_answered.
  - by apply answer_query_answered.
  - by apply cached_query_answered.
Qed.

(** ** A run against a broker that answers everything with one status *)

Section demo.
Variable gs : GrpcStatus.
Variable broker_ends : bool.       (* the streams it is sent on *)

#[local] Instance demo_grpc : Grpc Z := {|
  create_custom_channel _ _ _ w := (Some 0%nat, w);
  new_stub _ w := (true, w);
  wait_for_connected _ _ w := (true, w);
  channel_get_state _ w := (GRPC_CHANNEL_READY, w);
  stub_Ping _ w := ((gs, pb_PingResult_default), w);
  stub_SendEvent _ _ w := ((gs, pb_Result_default), w);
  stub_SendRequest _ _ w := ((gs, pb_Response_default), w);
  stub_SendResponse _ _ w := (gs, w);
  stub_SendQueueMessage _ _ w := ((gs, pb_SendQueueMessageResult_default), w);
  stub_SendQueueMessagesBatch _ _ w := ((gs, pb_QueueMessagesBatchResponse_default), w);
  stub_ReceiveQueueMessages _ _ w := ((gs, pb_ReceiveQueueMessagesResponse_default), w);
  stub_AckAllQueueMessages _ _ w := ((gs, pb_AckAllQueueMessagesResponse_default), w);
  stub_SendEventsStream _ w := (Some 1%nat, w);
  stub_SubscribeToEvents _ _ w := (Some 2%nat, w);
  stub_SubscribeToRequests _ _ w := (Some 3%nat, w);
  stub_QueuesUpstream _ w := (Some 4%nat, w);
  stub_QueuesDownstream _ w := (Some 5%nat, w)
|}.
#[local] Instance demo_providers : Providers Z := fun _ w => (SValue "token", w).
#[local] Instance demo_callbacks : Callbacks Z := fun _ _ w => (tt, w).
#[local] Instance demo_files : FileSystem Z := fun _ w => (Some "-----BEGIN", w).
#[local] Instance demo_contexts : Contexts Z := {| lock_context _ w := (true, w); TryCancel _ w := (tt, w) |}.
#[local] Instance demo_downstream : DownstreamStream Z := {|
  ds_lock _ w := (true, w);
  ds_write _ _ w := (grpc_ok gs, w);
  ds_read _ w := (Some (mk_pb_QueuesDownstreamResponse "tx" "" Get [pb_QueueMessage_default] [1] false "" false ∅), w);
  ds_writes_done _ w := (true, w)
|}.
#[local] Instance demo_streams : Streams Z := {|
  reader_steps _ w := (if broker_ends then [HRead None; HSetDone; HFinish gs] else [], w);
  stream_Write _ _ w := (grpc_ok gs, w);
  stream_WritesDone _ w := (tt, w);
  stream_Finish _ w := (gs, w)
|}.
#[local] Program Instance demo_process : Process Z := {|
  passed w := (1, w); system_now w := (0, w); getenv _ w := (None, w); install_signal _ w := (tt, w);
  shutdown_requested w := (false, w)
|}.
Next Obligation. done. Qed.
#[local] Instance demo_json : JsonLibrary := {|
  json := unit; json_parse _ := inr "not modelled"; json_array _ := None;
  json_string _ _ d := inl d; json_int _ _ d := inl d; json_bool _ _ d := inl d;
  json_contains _ _ := false; json_at j _ := j
|}.

(** How the examples end in this world. *)
Definition demo_ends : list (string * Exit) :=
  map (fun e => (fst e, fst (run_main (snd e) (Proc_start 7)))) examples.

End demo.

#[local] Instance Exit_eq_dec : EqDecision Exit.
Proof. solve_decision. Defined.

(** A broker that accepts everything leads every example to 0. *)
Example demo_accepted : Forall (fun e => snd e = Exited 0) (demo_ends GrpcStatusOk false).
Proof. vm_compute. repeat constructor. Qed.

(** One that is not there leads all to 1 but the example that shows that. *)
Example demo_unavailable :
  map fst (filter (fun e => snd e <> Exited 1) (demo_ends (mkGrpcStatus UNAVAILABLE "no broker") false)) =
  ["error_handling/connection_error"].
Proof. vm_compute. reflexivity. Qed.

(** One that ends every stream at once ends the process of every example that
    sends on one. *)
Example demo_streams_ended :
  map fst (filter (fun e => snd e = EndedByTerminate) (demo_ends GrpcStatusOk true)) =
  ["events/stream_send"; "events_store/stream_send"; "queues_stream/ack_range"; "queues_stream/dead_letter_policy";
   "queues_stream/delay_policy"; "queues_stream/expiration_policy"; "queues_stream/stream_send"].
Proof. vm_compute. reflexivity. Qed.
